(* ===== verification/_CoqProject ===== *)
-Q . S2P
Prelude.v
Float.v
FloatRound.v
RustStr.v
Fmt.v
BTree.v
Signal.v
Config.v
Evaluator.v
Wire.v
Monitor.v
Pipeline.v
PolicyState.v
GpuProvider.v
MemoryMonitor.v
ThermalMonitor.v
EnergyMonitor.v
ComputeMonitor.v
ExternalMonitor.v
LuaContext.v
LuaPolicy.v
DefaultPolicy.v
Channel.v
TcpChannel.v
Manager.v
ManagerMain.v
System.v
SimClock.v
SimExpr.v
SimYaml.v
SimConfig.v
SimState.v
SimPhysics.v
SimTypes.v
SimSignal.v
SimTrajectory.v
SimReport.v
SimHarness.v
SimRun.v
MockWire.v
MockEngine.v
MockManager.v
MockMain.v
MockExchange.v
EndToEnd.v
TestsCore.v
TestsMonitor.v
TestsChannel.v
TestsSim.v
TestsMock.v
