(* ===== verification/Prelude.v ===== *)
(** * argus-manager: a verification development

    argus-manager watches a machine's memory, temperature, battery and processors, hands
    what it sees to a policy, and sends the policy's directives to an inference engine.
    This library models the manager's own code (the Rust crate under src/) as executable
    Rocq definitions and proves what makes it correct.

    ** The program and the library

    Each polling monitor reads its files, runs a threshold evaluator with hysteresis and
    sends a signal when its level changes; monitors run in threads and share one queue.
    The main loop takes a signal at a time, asks the policy for a directive, drops a
    repeated one, and writes the rest to the transport; between signals it delivers the
    engine's messages to the policy.  The files follow that structure, callees first.

    - [Prelude]: machine integers with their ranges and wrap-around, [outcome] (a Rust
      expression returns or panics), [result], [star] (runs of a step relation) with its
      invariant rule, the hint databases and tactics.
    - [Float]: IEEE binary32/binary64 as [spec_float]: arithmetic, comparison, [min],
      [max], [clamp], [as] conversions, and the order, sign and NaN lemmas the components
      share; [FloatRound]: rounding to nearest, its monotonicity and error, on which the
      theorems about decimal texts and ramps rest; [RustStr]: the [str] operations of the
      standard library that the parsers use.
    - [Signal] (src/signal.rs, src/types.rs), [Config] (src/config.rs): the data.
    - [Evaluator] (src/evaluator.rs): [evaluate] in both directions, and [step_spec], the
      specification it refines.
    - [Wire] (src/lua/fallback.rs and the protocol types of the shared crate);
      [Pipeline] (src/pipeline.rs): the class [PolicyStrategy] every policy implements,
      sequence numbers, the deduplicator; [PolicyState] (src/policy/common/state.rs):
      pressures, the token-time tracker, the triggers.
    - [Monitor] (src/monitor.rs): the class of monitors and their polling loop;
      [MemoryMonitor], [ThermalMonitor], [EnergyMonitor], [ComputeMonitor],
      [ExternalMonitor], [GpuProvider] (src/monitor/*.rs): one file each.
    - [LuaContext] (src/lua/context.rs) and [LuaPolicy] (src/lua_policy.rs): the scripted
      policy, an instance of [PolicyStrategy]; [DefaultPolicy] (scripts/policy_default.lua,
      scripts/policy_example.lua): the shipped scripts, and the relief machine the default
      one refines, run under the Lua policy.
    - [Channel] (src/channel.rs, src/emitter.rs, src/channel/unix_socket.rs,
      src/emitter/*.rs): framing, the connection state machine and its reader thread, the
      emitters, as classes with one instance per transport; [TcpChannel]
      (src/channel/tcp.rs): the file's own copy of them, and its equivalence with the first.
    - [Manager] (src/main.rs): start-up and the main loop, proved against the classes
      [PolicyStrategy] and [Json] and instantiated with the parts above; [ManagerMain] (the
      same file): configuration and [main], from the arguments to the end of the loop;
      [System]: the threads, the signal handlers, the flags and the shutdown as interleaved
      steps around that loop.

    The repository also holds a simulator that runs a policy against a simulated machine,
    and two test binaries that play the engine and the manager.

    - [SimClock] (src/clock.rs, src/sim/clock.rs, src/sim/clock_adapter.rs): instants and
      the queue of events; [SimExpr] (src/sim/expr.rs): the expressions of a scenario;
      [SimConfig], [SimYaml] (src/sim/config.rs): a scenario's records and validation, and
      the inheritance of files; [SimState], [SimPhysics] (src/sim/state.rs, physics.rs,
      compose.rs, derived.rs): the state and a step of it; [SimTypes]: the types of the
      variables over steps; [SimSignal] (src/sim/signal.rs, noise.rs): what is observed.
    - [SimTrajectory] (src/sim/trajectory.rs): the record of a run; [SimReport] (the same
      file): the timelines, the session summary, the summary record and the table of
      states, on [Fmt] (std's formatting of numbers and texts) and [BTree] (ordered maps).
    - [SimHarness] (src/sim/harness.rs, mock_policy.rs): ticks and runs; [SimRun]
      (load_scenario, with_lua_policy, src/bin/sim_run.rs): the whole, with the class
      [PolicyTrace] as the interface between a policy and what a run records of it.
    - [MockWire], [MockEngine] (src/bin/mock_engine.rs), [MockManager]
      (src/bin/mock_manager.rs) and [MockExchange]: framing over a stream with timeouts, the
      two programs, and one against the other; [MockMain]: their [main]s and summaries; [EndToEnd]: the
      manager and an engine joined by their wire.

    Last come the program's own unit tests, one definition for each, run on the model, as a
    check that the model behaves as the program is expected to: [TestsCore] (decision
    logic), [TestsMonitor], [TestsChannel] (for every JSON encoding that reads well-formed
    messages back), [TestsSim] and [TestsMock].

    ** State and effects

    An object that a method mutates is a record passed and returned.  Code that can panic
    returns an [outcome]: integer arithmetic takes a flag [oc], true where overflow is
    checked (debug builds) and false where it wraps (release builds), and theorems hold
    for both unless they say otherwise.  Files are an [Env] that each poll and each reload
    of the script is given anew.  A write to a socket succeeds or fails after some of its
    bytes ([WriteResult]): what a connection has received is a list of whole frames and of
    beginnings of frames ([Written]).
    Threads interleave as steps: the reader thread of a channel, the wait for a client and
    the main loop's calls are the constructors of [chan_step], the policy's inputs those of
    [lua_step], the whole program's threads those of [sys_step], the telemetry child's those
    of [jetson_step], and the theorems about them hold after any sequence of steps.  The
    record of the whole program also keeps its history: the signals sent, the turns of the
    threads with what each met, and what the loop did with the policy.  The mock manager runs in a monad
    over its world ([Mock]); the simulator passes its record on.  A hash map is the list of
    its entries in the order it happens to be iterated in, so a theorem about every list is
    one about every order.

    ** What the theorems show

    - Evaluator: the refinement of its specification for all values, NaN included; no
      oscillation inside a dead band; monotonicity; the two directions are one algorithm.
    - Policy: directives only carry commands that are valid on the wire; the fallback
      latches after exactly three failures in a row, and a latched policy is the fallback;
      every action is sent or counted; reloading is atomic; pressures stay in the unit
      interval; the token-time tracker and the triggers over whole runs.  The shipped script
      never fails on what the manager gives it, pressures that are NaN included, and is a
      relief machine: its budgets only go down inside a window, at most fourteen times, and a window closes exactly when all it
      relieves is calm.
    - Deduplication: equal directives are at least a cooldown apart, through the main loop
      as well, and none is lost otherwise.
    - Monitors: what each parser reads from the files the kernel writes, overflow
      included; what each poll sends and when; zone selection; the charging override.
    - Channels: frames round-trip and oversize ones are refused; from the creation of a
      channel on, messages stay in order in a bounded queue; a channel that has not been connected at start-up never is, up
      to the main loop; the TCP channel does what the Unix one does, call by call.
    - Manager: start-up succeeds exactly with a two-way transport and a loadable script;
      the loop drains the queue completely; the whole program, whatever its inputs, only
      sends valid directives in sequence, cut short only by a write that fails; and in every
      interleaving of its threads each monitor's thread sends what its polling loop or line
      reader does, the policy decides on the signals in the order they were sent, as if run
      sequentially, and after a shutdown each thread takes two turns at most and the program
      ends unless a thread is blocked in a read.
    - Simulator: scenarios inherit along a finite line of files; every scheduled event
      fires once and in order; a run records a heartbeat for each multiple of the interval
      and ends; the actions change each field as the effects in force on it say, whatever the
      order of a hash map, and a scenario overrides its parents value by value;
      variables keep their types, so that a step cannot panic on them; the noise of one key
      does not depend on the others; reports count exactly what was recorded; and what
      [sim_run] prints of a Lua policy are directives the engine can receive, in sequence
      and spaced by the cooldown.
    - Test binaries: the mock engine answers every directive, and a command sent by the
      mock manager is reported with the engine's answer; so are the directives of the whole
      manager program, whose reader thread parses what the engine sent ([EndToEnd]).  Of
      JSON this takes that well-formed messages - integers of their types' widths, finite
      floats, ASCII texts - are printed as bytes and read back ([JsonLaws]), which an
      encoding into real bytes ([coded_json]) satisfies, and that a text fits its length
      field; of the Lua machine, that its numbers are 32-bit floats ([TypedVM]).
    - The unit tests of the program hold of the model ([core_tests_pass],
      [monitor_tests_pass], [channel_tests_pass], [sim_tests_pass], [mock_tests_pass]).

    ** Bounds and fuel

    [reader_thread] takes the length of its input as fuel (a frame has at least its four
    length bytes), [drain] the length of the queue (a turn removes a message), and
    [find_frame] the length of the text it searches; [frames_roundtrip], [drain_delivers_all] and
    [find_frame_fuel] show that this is enough.  A loop that waits for the world (polling,
    accepting, the main loop, the loops of the test binaries) is a recursion over the list
    of what it observes, one element for each turn, so a theorem about every list is one
    about every finite run.  [merge_fuel] takes the depth of the overriding document,
    [load_yaml_with_extends] a turn for each readable file ([scenario_inheritance]), and the
    simulator's loops a number of turns that [run_for_returns] bounds by the nanoseconds of
    the run; drawing noise rejects until a sample is not zero and takes fuel of its own.
    Floats print by their exact value ([fixed]), or by the shortest of at most seventeen
    digits that reads back ([display]).

    ** What is not modelled

    Code outside src/ is a parameter: the Lua machine and its conversions ([LuaVM]), JSON
    ([Json], [EngineJson], [ScenarioJson], [DetailText]), YAML values and the decoding of
    scenarios ([Yaml], [ScenarioYaml]), expression trees ([Evalexpr]), the random generator
    ([Rng]), exp, powf, ln and cos ([Libm], [LogCos]), the [Debug] texts of the protocol
    package ([ProtocolDebug]), equality of commands, the bound on yield intervals, and the
    answers of sockets ([Io]) and of the D-Bus connection.  Logging, the parsing of
    command lines (clap) and of TOML, and the texts of errors where nothing depends on them
    are left out; so are the unit tests that measure the real clock, parse TOML, JSON or
    expressions, or draw samples of the random generator, and the integration tests. *)

From Stdlib Require Import ZArith Lia.
From stdpp Require Import base tactics numbers list strings.
Local Open Scope Z_scope.

(** ** Machine integers *)

Definition u8_max : Z := 255.
Definition u32_max : Z := 4294967295.
Definition u64_max : Z := 18446744073709551615.
Definition i32_min : Z := -2147483648.
Definition i32_max : Z := 2147483647.
Definition i64_min : Z := -9223372036854775808.
Definition i64_max : Z := 9223372036854775807.

Definition is_u32 (z : Z) : Prop := 0 <= z <= u32_max.
Definition is_u64 (z : Z) : Prop := 0 <= z <= u64_max.

(** Two's-complement wrap-around into the range [lo, hi]. *)
Definition wrap (lo hi z : Z) : Z := lo + (z - lo) `mod` (hi - lo + 1).

(** ** Panics and results *)

(** What a Rust expression that can panic does. *)
Inductive outcome (A : Type) : Type :=
| Return (a : A)
| Panic.
Arguments Return {A} _.
Arguments Panic {A}.

(** [anyhow::Result] and the other [Result]s of the program. *)
Inductive result (A E : Type) : Type :=
| Ok (a : A)
| Err (e : E).
Arguments Ok {A E} _.
Arguments Err {A E} _.

#[export] Instance outcome_eq_dec {A} `{EqDecision A} : EqDecision (outcome A).
Proof. solve_decision. Defined.
#[export] Instance result_eq_dec {A E} `{EqDecision A, EqDecision E} : EqDecision (result A E).
Proof. solve_decision. Defined.

#[export] Instance outcome_ret : MRet outcome := @Return.
#[export] Instance outcome_bind : MBind outcome :=
  fun A B f o => match o with Return a => f a | Panic => Panic end.
#[export] Instance result_ret {E} : MRet (fun A => result A E) := fun A a => Ok a.
#[export] Instance result_bind {E} : MBind (fun A => result A E) :=
  fun A B f r => match r with Ok a => f a | Err e => Err e end.

(** [Result::ok], [Option::ok_or]. *)
Definition ok {A E} (r : result A E) : option A :=
  match r with Ok a => Some a | Err _ => None end.
Definition ok_or {A E} (o : option A) (e : E) : result A E :=
  match o with Some a => Ok a | None => Err e end.
Definition is_ok {A E} (r : result A E) : bool :=
  match r with Ok _ => true | Err _ => false end.

(** [Result::and_then], Rust's [?]: run the rest on success, return the error early. *)
Notation "'let?' x ':=' r 'in' k" :=
  (match r with Ok x => k | Err e => Err e end)
  (at level 10, x pattern, r at level 100, k at level 200).
Notation "'let!' x ':=' o 'in' k" :=
  (match o with Return x => k | Panic => Panic end)
  (at level 10, x pattern, o at level 100, k at level 200).

(** An arithmetic result in the type with range [lo, hi]: out of range it panics when
    overflow checks are compiled in (debug builds) and wraps around otherwise. *)
Definition arith (lo hi : Z) (overflow_checks : bool) (z : Z) : outcome Z :=
  if (lo <=? z) && (z <=? hi) then Return z
  else if overflow_checks then Panic else Return (wrap lo hi z).
Definition u32_arith := arith 0 u32_max.
Definition u64_arith := arith 0 u64_max.
Definition i32_arith := arith i32_min i32_max.

(** [u64::saturating_sub]. *)
Definition u64_saturating_sub (a b : Z) : Z := Z.max 0 (a - b).

Lemma wrap_range lo hi z : lo <= hi -> lo <= wrap lo hi z <= hi.
Proof.
  intros H. unfold wrap. pose proof (Z.mod_pos_bound (z - lo) (hi - lo + 1)). lia.
Qed.

Lemma wrap_id lo hi z : lo <= z <= hi -> wrap lo hi z = z.
Proof. intros H. unfold wrap. rewrite Z.mod_small; lia. Qed.

Lemma arith_in_range lo hi oc z : lo <= z <= hi -> arith lo hi oc z = Return z.
Proof.
  intros [H1 H2]. unfold arith.
  by rewrite (proj2 (Z.leb_le _ _) H1), (proj2 (Z.leb_le _ _) H2).
Qed.

Lemma arith_range lo hi oc z v : lo <= hi -> arith lo hi oc z = Return v -> lo <= v <= hi.
Proof.
  unfold arith. intros Hr H. destruct (Z.leb_spec lo z); destruct (Z.leb_spec z hi); cbn in H;
    destruct oc; simplify_eq; try lia; apply wrap_range; lia.
Qed.

Lemma arith_overflow lo hi z :
  z < lo \/ hi < z ->
  arith lo hi true z = Panic /\ arith lo hi false z = Return (wrap lo hi z).
Proof.
  intros H. unfold arith.
  destruct (Z.leb_spec lo z); destruct (Z.leb_spec z hi); cbn; (done || lia).
Qed.

(** ** Tactics and the hint database of the development *)

Create HintDb argus discriminated.
Create Rewrite HintDb argus.

(** Split the booleans of the context into their facts. *)
Ltac split_bools :=
  repeat match goal with
  | H : _ && _ = true |- _ => apply andb_true_iff in H; destruct H
  | H : _ || _ = false |- _ => apply orb_false_iff in H; destruct H
  | H : negb _ = true |- _ => apply negb_true_iff in H
  | H : negb _ = false |- _ => apply negb_false_iff in H
  end.

(** Case analysis on every match of the goal, dropping impossible branches. *)
Ltac case_all := repeat (case_match; simplify_eq/=; try done).

#[export] Hint Resolve wrap_range : argus.
#[export] Hint Rewrite wrap_id arith_in_range using lia : argus.

(** ** Lists *)

(** [Iterator::find_map]. *)
Fixpoint find_map {A B} (f : A -> option B) (l : list A) : option B :=
  match l with
  | [] => None
  | x :: l => match f x with Some y => Some y | None => find_map f l end
  end.

Lemma find_map_Some {A B} (f : A -> option B) l y :
  find_map f l = Some y <->
  exists l1 x l2, l = l1 ++ x :: l2 /\ f x = Some y /\ Forall (fun z => f z = None) l1.
Proof.
  split.
  - induction l as [|a l IH]; cbn; [done|]. destruct (f a) eqn:Ha; intros H.
    + exists [], a, l. naive_solver.
    + destruct (IH H) as (l1 & x & l2 & -> & ? & ?). exists (a :: l1), x, l2. auto.
  - intros (l1 & x & l2 & -> & Hx & Hf). induction Hf as [|a l1 Ha ? IH]; cbn.
    + by rewrite Hx.
    + by rewrite Ha.
Qed.

Lemma find_map_None {A B} (f : A -> option B) l :
  find_map f l = None <-> Forall (fun z => f z = None) l.
Proof.
  induction l as [|a l IH]; cbn; [by split|]. rewrite Forall_cons.
  destruct (f a); [by split; [|intros [? _]]|]. rewrite IH. by split; [|intros [_ ?]].
Qed.

Lemma omap_cons {A B} (f : A -> option B) x l :
  omap f (x :: l) = match f x with Some y => y :: omap f l | None => omap f l end.
Proof. reflexivity. Qed.

(** Zero or more steps of a relation. *)
Inductive star {S : Type} (step : S -> S -> Prop) : S -> S -> Prop :=
| star_refl s : star step s s
| star_step s1 s2 s3 : step s1 s2 -> star step s2 s3 -> star step s1 s3.

(** Rule induction for an invariant of a step relation. *)
Lemma star_invariant {S} (step : S -> S -> Prop) (I : S -> Prop) :
  (forall s1 s2, step s1 s2 -> I s1 -> I s2) ->
  forall s1 s2, star step s1 s2 -> I s1 -> I s2.
Proof. intros Hstep s1 s2 Hs. induction Hs; eauto. Qed.

(** Neighbours in a list are related. *)
Definition adjacent {A} (R : relation A) (xs : list A) : Prop :=
  forall l1 x y l2, xs = l1 ++ x :: y :: l2 -> R x y.

Lemma adjacent_snoc {A} (R : relation A) l z :
  adjacent R l -> (forall y, last l = Some y -> R y z) -> adjacent R (l ++ [z]).
Proof.
  intros Hl Hz l1 x y l2 He. destruct l2 as [|w l2 _] using rev_ind.
  - replace (l1 ++ [x; y]) with ((l1 ++ [x]) ++ [y]) in He by by rewrite <- app_assoc.
    apply app_inj_tail in He as [-> ->]. apply Hz. by rewrite last_snoc.
  - replace (l1 ++ x :: y :: l2 ++ [w]) with ((l1 ++ x :: y :: l2) ++ [w]) in He
      by by rewrite <- app_assoc.
    apply app_inj_tail in He as [-> _]. by eapply Hl.
Qed.
