(* ===== verification/Float.v ===== *)
(** * Float: Rust's [f64] and [f32]

    IEEE 754 binary64 and binary32 are modelled by [spec_float], the executable
    specification of binary floating point in the Standard Library (no NaN payload,
    round to nearest, ties to even), with the operations [SFadd], [SFsub], [SFmul],
    [SFdiv] at precision 53/1024 for [f64] and 24/128 for [f32].  The file adds what
    the program uses on top of them: decimal literals, [as] casts (saturating,
    NaN to 0), [f64::max], [f64::min], [f64::clamp], [f64::abs], [is_finite].

    The second half is the order theory of floats: comparisons are reflected into a
    total order on keys, and the tactic [f_order] decides goals made of float
    comparisons and of "is not a NaN" side conditions.  The last part says when an
    operation can return a NaN. *)

From Stdlib Require Import SpecFloat ZArith Lia Orders OrdersTac.
From stdpp Require Import base tactics numbers.
From S2P Require Import Prelude.
Local Open Scope Z_scope.

(** ** Types and operations *)

Abbreviation f64 := spec_float (only parsing).
Abbreviation f32 := spec_float (only parsing).

Definition f64_add : f64 -> f64 -> f64 := SFadd 53 1024.
Definition f64_sub : f64 -> f64 -> f64 := SFsub 53 1024.
Definition f64_mul : f64 -> f64 -> f64 := SFmul 53 1024.
Definition f64_div : f64 -> f64 -> f64 := SFdiv 53 1024.
Definition f32_add : f32 -> f32 -> f32 := SFadd 24 128.
Definition f32_sub : f32 -> f32 -> f32 := SFsub 24 128.
Definition f32_mul : f32 -> f32 -> f32 := SFmul 24 128.
Definition f32_div : f32 -> f32 -> f32 := SFdiv 24 128.

Declare Scope f64_scope.
Delimit Scope f64_scope with f64.
Infix "+" := f64_add : f64_scope.
Infix "-" := f64_sub : f64_scope.
Infix "*" := f64_mul : f64_scope.
Infix "/" := f64_div : f64_scope.
Infix "<?" := SFltb : f64_scope.
Infix "<=?" := SFleb : f64_scope.
Infix "=?" := SFeqb : f64_scope.
Notation "x >? y" := (SFltb y x) (only parsing) : f64_scope.
Notation "x >=? y" := (SFleb y x) (only parsing) : f64_scope.

Declare Scope f32_scope.
Delimit Scope f32_scope with f32.
Infix "+" := f32_add : f32_scope.
Infix "-" := f32_sub : f32_scope.
Infix "*" := f32_mul : f32_scope.
Infix "/" := f32_div : f32_scope.
Infix "<?" := SFltb : f32_scope.
Infix "<=?" := SFleb : f32_scope.
Notation "x >? y" := (SFltb y x) (only parsing) : f32_scope.
Notation "x >=? y" := (SFleb y x) (only parsing) : f32_scope.

Definition is_nan (x : spec_float) : bool :=
  match x with S754_nan => true | _ => false end.

(** [f64::is_finite]. *)
Definition is_finite (x : spec_float) : bool :=
  match x with S754_nan | S754_infinity _ => false | _ => true end.

Definition f_zero : spec_float := S754_zero false.
Definition f_inf : spec_float := S754_infinity false.

(** The float nearest to the rational [n / d] ([d > 0]): decimal literals and the
    standard library's decimal parser. *)
Definition ratio_to_float (prec emax : Z) (s : bool) (n d : Z) : spec_float :=
  if n =? 0 then S754_zero s
  else let '(m, e, l) := SFdiv_core_binary prec emax n 0 d 0 in
       binary_round_aux prec emax s m e l.

Definition f64_lit (n d : Z) : f64 := ratio_to_float 53 1024 (n <? 0) (Z.abs n) d.
Definition f32_lit (n d : Z) : f32 := ratio_to_float 24 128 (n <? 0) (Z.abs n) d.

(** [f64::MAX] and [f64::MIN]. *)
Definition f64_MAX : f64 := SFmax_float 53 1024.
Definition f64_MIN : f64 := SFopp f64_MAX.

(** ** Casts *)

(** integer [as f64], integer [as f32]. *)
Definition f64_of_Z (z : Z) : f64 := binary_normalize 53 1024 z 0 false.
Definition f32_of_Z (z : Z) : f32 := binary_normalize 24 128 z 0 false.

(** [f64 as f32] and [f32 as f64]. *)
Definition f_convert (prec emax : Z) (x : spec_float) : spec_float :=
  match x with
  | S754_finite s m e => binary_round prec emax s m e
  | _ => x
  end.
Definition f32_of_f64 : f64 -> f32 := f_convert 24 128.
Definition f64_of_f32 : f32 -> f64 := f_convert 53 1024.

(** [Duration::as_secs_f64] and [as_secs_f32] of a number of nanoseconds. *)
Definition duration_as_secs_f64 (ns : Z) : f64 :=
  f64_add (f64_of_Z (ns / 1000000000)) (f64_div (f64_of_Z (ns mod 1000000000)) (f64_of_Z 1000000000)).
Definition duration_as_secs_f32 (ns : Z) : f32 :=
  f32_add (f32_of_Z (ns / 1000000000)) (f32_div (f32_of_Z (ns mod 1000000000)) (f32_of_Z 1000000000)).

(** The integer part of a finite float, towards zero. *)
Definition f_trunc (x : spec_float) : Z :=
  match x with
  | S754_finite s m e =>
      let a := if 0 <=? e then Z.shiftl (Z.pos m) e else Z.shiftr (Z.pos m) (- e) in
      if s then - a else a
  | _ => 0
  end.

(** [float as int] for an integer type with range [lo, hi]: saturating, NaN to 0. *)
Definition f_to_int (lo hi : Z) (x : spec_float) : Z :=
  match x with
  | S754_nan => 0
  | S754_infinity s => if s then lo else hi
  | _ => Z.max lo (Z.min hi (f_trunc x))
  end.
Definition f_to_u8 : spec_float -> Z := f_to_int 0 u8_max.
Definition f_to_u32 : spec_float -> Z := f_to_int 0 u32_max.
Definition f_to_u64 : spec_float -> Z := f_to_int 0 u64_max.
Definition f_to_i32 : spec_float -> Z := f_to_int i32_min i32_max.
Definition f_to_i64 : spec_float -> Z := f_to_int i64_min i64_max.

(** ** [max], [min], [clamp], [abs] *)

(** [f64::max] and [f64::min] return the other operand when one is a NaN. *)
Definition f_max (x y : spec_float) : spec_float :=
  if is_nan x then y else if is_nan y then x else if SFltb x y then y else x.
Definition f_min (x y : spec_float) : spec_float :=
  if is_nan x then y else if is_nan y then x else if SFltb y x then y else x.

(** The body of [f64::clamp] after its assertion [min <= max]; a NaN is returned
    unchanged, since both comparisons are false. *)
Definition f_clamp (x lo hi : spec_float) : spec_float :=
  let x := if SFltb x lo then lo else x in
  if SFltb hi x then hi else x.

(** [f64::clamp] with its assertion: [Panic] when [min <= max] does not hold, which
    includes a NaN bound. *)
Definition f_clamp_checked (x lo hi : spec_float) : outcome spec_float :=
  if SFleb lo hi then Return (f_clamp x lo hi) else Panic.

Definition f_abs : spec_float -> spec_float := SFabs.

(** ** The order on floats that are not NaN *)

(** Sign class, exponent and mantissa, compared lexicographically; the two zeros share
    a key. *)
Definition fkey (x : spec_float) : Z * Z * Z :=
  match x with
  | S754_infinity true => (-2, 0, 0)
  | S754_finite true m e => (-1, - e, - Z.pos m)
  | S754_zero _ => (0, 0, 0)
  | S754_finite false m e => (1, e, Z.pos m)
  | S754_infinity false => (2, 0, 0)
  | S754_nan => (3, 0, 0)
  end.

Definition klt (a b : Z * Z * Z) : Prop :=
  let '(a1, a2, a3) := a in
  let '(b1, b2, b3) := b in
  a1 < b1 \/ (a1 = b1 /\ (a2 < b2 \/ (a2 = b2 /\ a3 < b3))).
Definition kle (a b : Z * Z * Z) : Prop := klt a b \/ a = b.

Module KeyOrder.
Definition t : Type := Z * Z * Z.
Definition eq : t -> t -> Prop := Logic.eq.
Definition lt := klt.
Definition le := kle.
Lemma eq_equiv : Equivalence eq.
Proof. unfold eq. split; congruence. Qed.
Lemma lt_strorder : StrictOrder lt.
Proof.
  split.
  - intros [[a1 a2] a3] H. unfold lt, klt in H. lia.
  - intros [[a1 a2] a3] [[b1 b2] b3] [[c1 c2] c3] H1 H2. unfold lt, klt in *. lia.
Qed.
Lemma lt_compat : Proper (eq ==> eq ==> iff) lt.
Proof. unfold eq. intros ?? -> ?? ->. reflexivity. Qed.
Lemma le_lteq : forall x y, le x y <-> lt x y \/ eq x y.
Proof. intros. reflexivity. Qed.
Lemma lt_total : forall x y, lt x y \/ eq x y \/ lt y x.
Proof.
  intros [[a1 a2] a3] [[b1 b2] b3]. unfold lt, eq, klt.
  destruct (Z.lt_trichotomy a1 b1) as [|[->|]]; [lia| |lia].
  destruct (Z.lt_trichotomy a2 b2) as [|[->|]]; [lia| |lia].
  destruct (Z.lt_trichotomy a3 b3) as [|[->|]]; [lia| |lia].
  auto.
Qed.
End KeyOrder.

Module KeyTac := MakeOrderTac KeyOrder KeyOrder.

Lemma SFcompare_key x y :
  is_nan x = false -> is_nan y = false ->
  match SFcompare x y with
  | Some Lt => klt (fkey x) (fkey y)
  | Some Eq => fkey x = fkey y
  | Some Gt => klt (fkey y) (fkey x)
  | None => False
  end.
Proof.
  assert (Hpos : forall m n, Pos.compare_cont Eq m n = (Z.pos m ?= Z.pos n)) by reflexivity.
  destruct x as [[]|[]| |[] m e], y as [[]|[]| |[] n f]; try discriminate; intros _ _;
    cbn [SFcompare fkey]; try (unfold klt; lia); try reflexivity;
    rewrite ?Hpos; destruct (Z.compare_spec e f); cbn [CompOpp];
    try (destruct (Z.compare_spec (Z.pos m) (Z.pos n)); cbn [CompOpp]);
    unfold klt; try lia; congruence.
Qed.

Lemma SFcompare_nan x y : is_nan x = true \/ is_nan y = true -> SFcompare x y = None.
Proof. destruct x as [[]|[]| |[] m e], y as [[]|[]| |[] n f]; cbn; intuition discriminate. Qed.

Lemma SFltb_true x y :
  SFltb x y = true <-> is_nan x = false /\ is_nan y = false /\ klt (fkey x) (fkey y).
Proof.
  unfold SFltb. destruct (is_nan x) eqn:Hx.
  { rewrite SFcompare_nan by auto. intuition discriminate. }
  destruct (is_nan y) eqn:Hy.
  { rewrite SFcompare_nan by auto. intuition discriminate. }
  pose proof (SFcompare_key x y Hx Hy) as H.
  destruct (SFcompare x y) as [[]|]; intuition (try discriminate);
    exfalso; KeyTac.order.
Qed.

Lemma SFleb_true x y :
  SFleb x y = true <-> is_nan x = false /\ is_nan y = false /\ kle (fkey x) (fkey y).
Proof.
  unfold SFleb. destruct (is_nan x) eqn:Hx.
  { rewrite SFcompare_nan by auto. intuition discriminate. }
  destruct (is_nan y) eqn:Hy.
  { rewrite SFcompare_nan by auto. intuition discriminate. }
  pose proof (SFcompare_key x y Hx Hy) as H.
  destruct (SFcompare x y) as [[]|]; intuition (try discriminate);
    first [exfalso; KeyTac.order | KeyTac.order].
Qed.

Lemma SFltb_false x y :
  is_nan x = false -> is_nan y = false -> SFltb x y = false <-> kle (fkey y) (fkey x).
Proof.
  intros Hx Hy. rewrite <- Bool.not_true_iff_false, SFltb_true.
  split; [intros H | intros H (_ & _ & H')]; [|KeyTac.order].
  destruct (KeyOrder.lt_total (fkey x) (fkey y)) as [Hl|[Heq|Hl]].
  - exfalso; apply H; auto.
  - KeyTac.order.
  - KeyTac.order.
Qed.

Lemma SFleb_false x y :
  is_nan x = false -> is_nan y = false -> SFleb x y = false <-> klt (fkey y) (fkey x).
Proof.
  intros Hx Hy. rewrite <- Bool.not_true_iff_false, SFleb_true.
  split; [intros H | intros H (_ & _ & H')]; [|KeyTac.order].
  destruct (KeyOrder.lt_total (fkey x) (fkey y)) as [Hl|[Heq|Hl]]; [exfalso..|KeyTac.order].
  - apply H. split_and!; auto. KeyTac.order.
  - apply H. split_and!; auto. KeyTac.order.
Qed.

Lemma SFeqb_true x y :
  SFeqb x y = true <-> is_nan x = false /\ is_nan y = false /\ fkey x = fkey y.
Proof.
  unfold SFeqb. destruct (is_nan x) eqn:Hx.
  { rewrite SFcompare_nan by auto. intuition discriminate. }
  destruct (is_nan y) eqn:Hy.
  { rewrite SFcompare_nan by auto. intuition discriminate. }
  pose proof (SFcompare_key x y Hx Hy) as H.
  destruct (SFcompare x y) as [[]|]; intuition (try discriminate);
    exfalso; KeyTac.order.
Qed.

Lemma SFltb_nan x y : is_nan x = true \/ is_nan y = true -> SFltb x y = false.
Proof. intros H. unfold SFltb. now rewrite SFcompare_nan. Qed.
Lemma SFleb_nan x y : is_nan x = true \/ is_nan y = true -> SFleb x y = false.
Proof. intros H. unfold SFleb. now rewrite SFcompare_nan. Qed.

(** Collect the order facts of the context, then close the goal with the order
    solver.  A comparison known to be false gives a fact only once both sides are known
    not to be NaN. *)
Ltac f_collect :=
  repeat match goal with
  | H : SFltb _ _ = true |- _ => apply SFltb_true in H; destruct H as (? & ? & ?)
  | H : SFleb _ _ = true |- _ => apply SFleb_true in H; destruct H as (? & ? & ?)
  | H : SFeqb _ _ = true |- _ => apply SFeqb_true in H; destruct H as (? & ? & ?)
  end;
  repeat match goal with
  | H : SFltb ?x ?y = false |- _ =>
      apply SFltb_false in H; [|assumption|assumption]
  | H : SFleb ?x ?y = false |- _ =>
      apply SFleb_false in H; [|assumption|assumption]
  end.

Ltac f_order :=
  f_collect;
  lazymatch goal with
  | |- SFltb _ _ = true => apply SFltb_true; split_and!; [assumption..|KeyTac.order]
  | |- SFleb _ _ = true => apply SFleb_true; split_and!; [assumption..|KeyTac.order]
  | |- SFltb _ _ = false => apply SFltb_false; [assumption..|KeyTac.order]
  | |- SFleb _ _ = false => apply SFleb_false; [assumption..|KeyTac.order]
  | |- is_nan _ = false => assumption
  | _ => exfalso; KeyTac.order
  end.

Lemma SFleb_refl x : is_nan x = false -> SFleb x x = true.
Proof. intros. f_order. Qed.
Lemma SFleb_trans x y z : SFleb x y = true -> SFleb y z = true -> SFleb x z = true.
Proof. intros. f_order. Qed.
Lemma SFltb_leb x y : SFltb x y = true -> SFleb x y = true.
Proof. intros. f_order. Qed.
Lemma SFltb_leb_trans x y z : SFltb x y = true -> SFleb y z = true -> SFltb x z = true.
Proof. intros. f_order. Qed.
Lemma SFleb_ltb_trans x y z : SFleb x y = true -> SFltb y z = true -> SFltb x z = true.
Proof. intros. f_order. Qed.
Lemma SFltb_irrefl x : SFltb x x = false.
Proof.
  destruct (is_nan x) eqn:H; [now apply SFltb_nan; auto|]. f_order.
Qed.
Lemma SFltb_asym x y : SFltb x y = true -> SFltb y x = false.
Proof. intros. f_order. Qed.

(** ** [clamp], [max] and [min] against the order *)

Lemma f_clamp_nan x lo hi :
  is_nan lo = false -> is_nan hi = false -> is_nan (f_clamp x lo hi) = is_nan x.
Proof.
  intros Hlo Hhi. unfold f_clamp.
  destruct (SFltb x lo) eqn:Hcmp1; destruct (SFltb hi _) eqn:Hcmp2; f_collect; congruence.
Qed.

Lemma f_clamp_range x lo hi :
  is_nan x = false -> SFleb lo hi = true ->
  SFleb lo (f_clamp x lo hi) = true /\ SFleb (f_clamp x lo hi) hi = true.
Proof.
  intros Hx Hb. unfold f_clamp. f_collect.
  destruct (SFltb x lo) eqn:Hcmp1; destruct (SFltb hi _) eqn:Hcmp2; split; f_order.
Qed.

Lemma f_clamp_id x lo hi :
  SFleb lo x = true -> SFleb x hi = true -> f_clamp x lo hi = x.
Proof.
  intros Hlo Hhi. unfold f_clamp.
  destruct (SFltb x lo) eqn:Hcmp1; [f_order|]. destruct (SFltb hi x) eqn:Hcmp2; [f_order|]. done.
Qed.

Lemma f_max_ub x y :
  is_nan x = false -> is_nan y = false ->
  SFleb x (f_max x y) = true /\ SFleb y (f_max x y) = true.
Proof.
  intros Hx Hy. unfold f_max. rewrite Hx, Hy.
  destruct (SFltb x y) eqn:Hcmp; split; f_order.
Qed.

Lemma f_min_lb x y :
  is_nan x = false -> is_nan y = false ->
  SFleb (f_min x y) x = true /\ SFleb (f_min x y) y = true.
Proof.
  intros Hx Hy. unfold f_min. rewrite Hx, Hy.
  destruct (SFltb y x) eqn:Hcmp; split; f_order.
Qed.

Lemma f_max_cases x y : f_max x y = x \/ f_max x y = y.
Proof. unfold f_max. repeat case_match; auto. Qed.
Lemma f_min_cases x y : f_min x y = x \/ f_min x y = y.
Proof. unfold f_min. repeat case_match; auto. Qed.

Lemma f_to_int_range lo hi x : lo <= 0 <= hi -> lo <= f_to_int lo hi x <= hi.
Proof. intros H. destruct x as [s|[]| |s m e]; unfold f_to_int; lia. Qed.

(** ** When an operation can return a NaN *)

Lemma shr_1_nonneg mrs : 0 <= shr_m mrs -> 0 <= shr_m (shr_1 mrs).
Proof. destruct mrs as [[|[]|[]] r s]; cbn; lia. Qed.

Lemma iter_pos_ind {A} (P : A -> Prop) (f : A -> A) (n : positive) :
  (forall a, P a -> P (f a)) -> forall a, P a -> P (SpecFloat.iter_pos f n a).
Proof. intros Hf. induction n; cbn; auto. Qed.

Lemma shr_nonneg mrs e n : 0 <= shr_m mrs -> 0 <= shr_m (fst (shr mrs e n)).
Proof.
  intros H. destruct n; cbn; try assumption.
  apply (iter_pos_ind (fun r => 0 <= shr_m r)); [apply shr_1_nonneg|assumption].
Qed.

Lemma shr_fexp_nonneg prec emax m e l :
  0 <= m -> 0 <= shr_m (fst (shr_fexp prec emax m e l)).
Proof. intros H. apply shr_nonneg. destruct l as [|[]]; exact H. Qed.

Lemma round_nearest_even_nonneg m l : 0 <= m -> 0 <= round_nearest_even m l.
Proof. intros. destruct l as [|[]]; cbn; try destruct (Z.even m); lia. Qed.

Lemma binary_round_aux_not_nan prec emax s m e l :
  0 <= m -> is_nan (binary_round_aux prec emax s m e l) = false.
Proof.
  intros Hm. unfold binary_round_aux.
  pose proof (shr_fexp_nonneg prec emax m e l Hm) as H1.
  destruct (shr_fexp prec emax m e l) as [mrs1 e1]. cbn [fst] in H1.
  pose proof (shr_fexp_nonneg prec emax _ e1 loc_Exact
                (round_nearest_even_nonneg _ (loc_of_shr_record mrs1) H1)) as H2.
  destruct (shr_fexp prec emax (round_nearest_even _ _) e1 loc_Exact) as [mrs2 e2].
  cbn [fst] in H2. destruct (shr_m mrs2); [done| |lia]. by destruct (_ <=? _)%Z.
Qed.

Lemma binary_round_not_nan prec emax s m e : is_nan (binary_round prec emax s m e) = false.
Proof.
  unfold binary_round. destruct (shl_align _ _ _). apply binary_round_aux_not_nan. lia.
Qed.

Lemma binary_normalize_not_nan prec emax m e s :
  is_nan (binary_normalize prec emax m e s) = false.
Proof. destruct m; cbn; try done; apply binary_round_not_nan. Qed.

Lemma f64_of_Z_not_nan z : is_nan (f64_of_Z z) = false.
Proof. apply binary_normalize_not_nan. Qed.
Lemma f32_of_Z_not_nan z : is_nan (f32_of_Z z) = false.
Proof. apply binary_normalize_not_nan. Qed.

Lemma f_convert_nan prec emax x : is_nan (f_convert prec emax x) = is_nan x.
Proof. destruct x; cbn; try done. apply binary_round_not_nan. Qed.

Lemma is_finite_not_nan x : is_finite x = true -> is_nan x = false.
Proof. by destruct x. Qed.

(** Addition and subtraction return a NaN only on a NaN or on opposing infinities. *)
Lemma SFadd_not_nan prec emax x y :
  is_nan x = false -> is_nan y = false -> is_finite x = true \/ is_finite y = true ->
  is_nan (SFadd prec emax x y) = false.
Proof.
  destruct x as [[]|[]| |], y as [[]|[]| |]; cbn [SFadd]; try done;
    try (intros; apply binary_normalize_not_nan); intros _ _ []; done.
Qed.

Lemma SFsub_not_nan prec emax x y :
  is_nan x = false -> is_nan y = false -> is_finite x = true \/ is_finite y = true ->
  is_nan (SFsub prec emax x y) = false.
Proof.
  destruct x as [[]|[]| |], y as [[]|[]| |]; cbn [SFsub]; try done;
    try (intros; apply binary_normalize_not_nan); intros _ _ []; done.
Qed.

(** A sum of two floats of the same sign is never a NaN. *)
Definition f_sign (x : spec_float) : bool :=
  match x with
  | S754_zero s | S754_infinity s | S754_finite s _ _ => s
  | S754_nan => false
  end.

Lemma SFadd_same_sign_not_nan prec emax x y :
  is_nan x = false -> is_nan y = false -> f_sign x = f_sign y ->
  is_nan (SFadd prec emax x y) = false.
Proof.
  destruct x as [[]|[]| |[]], y as [[]|[]| |[]]; cbn [SFadd f_sign]; try done;
    intros; apply binary_normalize_not_nan.
Qed.

(** A product by a finite non-zero float is not a NaN unless the other factor is. *)
Lemma SFmul_not_nan prec emax s m e x :
  is_nan x = false -> is_nan (SFmul prec emax (S754_finite s m e) x) = false.
Proof.
  destruct x; cbn [SFmul]; try done. intros _. apply binary_round_aux_not_nan. lia.
Qed.

Lemma SFmul_not_nan_r prec emax s m e x :
  is_nan x = false -> is_nan (SFmul prec emax x (S754_finite s m e)) = false.
Proof.
  destruct x; cbn [SFmul]; try done. intros _. apply binary_round_aux_not_nan. lia.
Qed.

Lemma SFdiv_core_nonneg prec emax m1 e1 m2 e2 :
  0 <= m1 -> 0 < m2 -> 0 <= fst (fst (SFdiv_core_binary prec emax m1 e1 m2 e2)).
Proof.
  intros H1 H2. unfold SFdiv_core_binary.
  set (s := (_ - _ - _)).
  pose proof (Z.div_pos (match s with 0 => m1 | Z.pos _ => Z.shiftl m1 s | Z.neg _ => 0 end) m2) as Hd.
  unfold Z.div in Hd. destruct (Z.div_eucl _ m2) as [q r]. cbn. apply Hd; [|lia].
  destruct s; [lia| |lia]. apply Z.shiftl_nonneg. lia.
Qed.

(** A quotient of a finite float by a finite non-zero one is not a NaN. *)
Lemma SFdiv_not_nan prec emax x s m e :
  is_nan x = false -> is_nan (SFdiv prec emax x (S754_finite s m e)) = false.
Proof.
  destruct x as [| | |sx mx ex]; cbn [SFdiv]; try done. intros _.
  pose proof (SFdiv_core_nonneg prec emax (Z.pos mx) ex (Z.pos m) e) as H.
  destruct (SFdiv_core_binary _ _ _ _ _ _) as [[q e'] l]. cbn in H.
  apply binary_round_aux_not_nan. apply H; lia.
Qed.

(** ** Negation *)

(** Two floats no comparison tells apart (the zeros have two signs). *)
Definition f_eqv (x y : spec_float) : Prop := is_nan x = is_nan y /\ fkey x = fkey y.
#[export] Instance f_eqv_equivalence : Equivalence f_eqv.
Proof.
  split; [done|by intros ?? [? ?]|].
  intros ??? [? ?] [? ?]. split; congruence.
Qed.

#[export] Instance SFltb_proper : Proper (f_eqv ==> f_eqv ==> eq) SFltb.
Proof.
  intros x x' [Hn Hk] y y' [Hn' Hk'].
  apply eq_true_iff_eq. by rewrite !SFltb_true, Hn, Hk, Hn', Hk'.
Qed.
#[export] Instance SFleb_proper : Proper (f_eqv ==> f_eqv ==> eq) SFleb.
Proof.
  intros x x' [Hn Hk] y y' [Hn' Hk'].
  apply eq_true_iff_eq. by rewrite !SFleb_true, Hn, Hk, Hn', Hk'.
Qed.

Lemma SFopp_nan x : is_nan (SFopp x) = is_nan x.
Proof. by destruct x. Qed.
Lemma SFopp_involutive x : SFopp (SFopp x) = x.
Proof. destruct x; cbn; by rewrite ?negb_involutive. Qed.

Lemma klt_opp x y : is_nan x = false -> is_nan y = false ->
  klt (fkey (SFopp x)) (fkey (SFopp y)) <-> klt (fkey y) (fkey x).
Proof.
  destruct x as [|[]| |[]], y as [|[]| |[]]; cbn; try discriminate; intros _ _; lia.
Qed.

Lemma SFltb_opp x y : SFltb (SFopp x) (SFopp y) = SFltb y x.
Proof.
  apply eq_true_iff_eq. rewrite !SFltb_true, !SFopp_nan.
  destruct (is_nan x) eqn:?, (is_nan y) eqn:?; try (intuition discriminate).
  rewrite klt_opp by done. tauto.
Qed.

Lemma SFleb_negb_ltb x y : is_nan x = false -> is_nan y = false -> SFleb x y = negb (SFltb y x).
Proof.
  intros. destruct (SFltb y x) eqn:E; cbn; f_order.
Qed.

Lemma SFleb_opp x y : SFleb (SFopp x) (SFopp y) = SFleb y x.
Proof.
  destruct (is_nan x) eqn:?; [by rewrite !SFleb_nan by (rewrite ?SFopp_nan; auto)|].
  destruct (is_nan y) eqn:?; [by rewrite !SFleb_nan by (rewrite ?SFopp_nan; auto)|].
  rewrite !SFleb_negb_ltb by (rewrite ?SFopp_nan; auto). by rewrite SFltb_opp.
Qed.

Lemma binary_round_aux_opp prec emax s m e l :
  binary_round_aux prec emax (negb s) m e l = SFopp (binary_round_aux prec emax s m e l).
Proof.
  unfold binary_round_aux. destruct (shr_fexp _ _ _ _ _) as [mrs e'].
  destruct (shr_fexp _ _ _ e' _) as [mrs' e'']. destruct (shr_m mrs'); cbn; try done.
  by destruct (e'' <=? emax - prec).
Qed.

Lemma binary_normalize_opp prec emax m e :
  m <> 0 ->
  binary_normalize prec emax (- m) e false = SFopp (binary_normalize prec emax m e false).
Proof.
  intros Hm. destruct m as [|p|p]; [done|..];
    rewrite ?Pos2Z.opp_pos, ?Pos2Z.opp_neg; unfold binary_normalize, binary_round; destruct (shl_align _ _ _); rewrite <- binary_round_aux_opp; done.
Qed.

(** Adding on the positive side is subtracting on the negative side, up to the sign of a
    zero. *)
Lemma SFsub_opp prec emax x h : f_eqv (SFsub prec emax (SFopp x) h) (SFopp (SFadd prec emax x h)).
Proof.
  destruct x as [sx|sx| |sx mx ex], h as [sy|sy| |sy my ey];
    try (destruct sx; try destruct sy; by split); try (destruct sy; by split);
    try (by split).
  cbn [SFopp SFsub SFadd].
  set (a := Z.pos (shl_align mx ex (Z.min ex ey)).1). set (b := Z.pos (shl_align my ey _).1).
  replace (cond_Zopp (negb sx) a - cond_Zopp sy b)
    with (- (cond_Zopp sx a + cond_Zopp sy b)) by (destruct sx, sy; cbn; lia).
  destruct (Z.eq_dec (cond_Zopp sx a + cond_Zopp sy b) 0) as [->|]; [by split|].
  by rewrite binary_normalize_opp.
Qed.

(** ** Integers of machine width convert to finite floats *)

Lemma digits2_pos_log2 p : Z.pos (digits2_pos p) = Z.log2 (Z.pos p) + 1.
Proof.
  induction p as [p IH|p IH|]; cbn [digits2_pos]; [..|done]; rewrite Pos2Z.inj_succ, IH.
  - rewrite Pos2Z.inj_xI, Z.log2_succ_double; lia.
  - rewrite Pos2Z.inj_xO, Z.log2_double; lia.
Qed.

Lemma Zdigits2_bounds m d : 0 < m -> 0 <= d -> Zdigits2 m <= d <-> m < 2 ^ d.
Proof.
  intros Hm Hd. destruct m as [|p|p]; try lia. cbn [Zdigits2]. rewrite digits2_pos_log2.
  rewrite (Z.log2_lt_pow2 (Z.pos p) d) by lia. lia.
Qed.

Lemma Zdigits2_lower m : 0 < m -> 2 ^ (Zdigits2 m - 1) <= m < 2 ^ (Zdigits2 m).
Proof.
  intros Hm. destruct m as [|p|p]; try lia. cbn [Zdigits2]. rewrite digits2_pos_log2.
  replace (Z.log2 (Z.pos p) + 1 - 1) with (Z.log2 (Z.pos p)) by lia.
  replace (Z.log2 (Z.pos p) + 1) with (Z.succ (Z.log2 (Z.pos p))) by lia.
  apply Z.log2_spec. lia.
Qed.

Lemma shr_1_div2 mrs : 0 <= shr_m mrs -> shr_m (shr_1 mrs) = shr_m mrs / 2.
Proof.
  rewrite <- Z.div2_div. by destruct mrs as [[|[]|[]] r s].
Qed.

Lemma iter_shr_1 n : forall mrs, 0 <= shr_m mrs ->
  shr_m (SpecFloat.iter_pos shr_1 n mrs) = shr_m mrs / 2 ^ Z.pos n.
Proof.
  induction n as [n IH|n IH|]; intros mrs Hm; cbn [SpecFloat.iter_pos].
  - pose proof (shr_1_nonneg mrs Hm) as H1.
    assert (0 <= shr_m (SpecFloat.iter_pos shr_1 n (shr_1 mrs))).
    { rewrite IH by done. apply Z.div_pos; lia. }
    rewrite !IH, shr_1_div2 by done. rewrite !Z.div_div by lia. f_equal.
    rewrite <- Z.pow_add_r, <- Z.pow_succ_r by lia. f_equal. lia.
  - assert (0 <= shr_m (SpecFloat.iter_pos shr_1 n mrs)).
    { rewrite IH by done. apply Z.div_pos; lia. }
    rewrite !IH by done. rewrite Z.div_div by lia. f_equal.
    rewrite <- Z.pow_add_r by lia. f_equal. lia.
  - by apply shr_1_div2.
Qed.

(** Where [shr_fexp] shifts a positive mantissa to. *)
Lemma shr_fexp_pos prec emax m e l mrs e' :
  0 < prec -> 0 < m -> emin prec emax <= e ->
  shr_fexp prec emax m e l = (mrs, e') ->
  0 < shr_m mrs /\ e' = Z.max e (Zdigits2 m + e - prec) /\ Zdigits2 (shr_m mrs) <= prec.
Proof.
  intros Hp Hm He. unfold shr_fexp, fexp.
  set (n := (Z.max (Zdigits2 m + e - prec) (emin prec emax) - e)).
  assert (Hsm : shr_m (shr_record_of_loc m l) = m) by (destruct l as [|[]]; reflexivity).
  pose proof (Zdigits2_lower m Hm) as [Hlo Hhi].
  destruct (Z_le_gt_dec n 0) as [Hn|Hn].
  - assert (Hdig : Zdigits2 m <= prec) by lia.
    intros Hs. assert (mrs = shr_record_of_loc m l /\ e' = e) as [-> ->].
    { destruct n; cbn in Hs; [by simplify_eq|lia|by simplify_eq]. }
    rewrite Hsm. split_and!; [done|lia|done].
  - destruct n as [|n'|] eqn:En; [lia| |lia]. cbn. intros Hs. simplify_eq.
    rewrite iter_shr_1, Hsm by lia.
    assert (Hd : Zdigits2 m = prec + Z.pos n') by lia.
    assert (0 < m / 2 ^ Z.pos n').
    { apply Z.div_str_pos. split; [lia|]. etransitivity; [|exact Hlo].
      apply Z.pow_le_mono_r; lia. }
    split_and!; [done|lia|]. apply Zdigits2_bounds; [done|lia|].
    apply Z.div_lt_upper_bound; [lia|]. rewrite <- Z.pow_add_r by lia.
    rewrite Hd in Hhi. by rewrite Z.add_comm.
Qed.

Lemma round_nearest_even_bounds m l : m <= round_nearest_even m l <= m + 1.
Proof. destruct l as [|[]]; cbn; try destruct (Z.even m); lia. Qed.

Lemma binary_round_aux_finite prec emax s m e l :
  0 < prec -> 0 < m -> emin prec emax <= e ->
  Z.max e (Zdigits2 m + e - prec) + 1 <= emax - prec ->
  exists m' e', binary_round_aux prec emax s m e l = S754_finite s m' e'.
Proof.
  intros Hp Hm He Hmax. unfold binary_round_aux.
  destruct (shr_fexp prec emax m e l) as [mrs1 e1] eqn:H1.
  apply shr_fexp_pos in H1 as (Hm1 & -> & Hd1); [|done..].
  pose proof (round_nearest_even_bounds (shr_m mrs1) (loc_of_shr_record mrs1)) as Hr.
  set (m2 := round_nearest_even _ _) in *.
  destruct (shr_fexp prec emax m2 _ loc_Exact) as [mrs2 e2] eqn:H2.
  apply shr_fexp_pos in H2 as (Hm2 & -> & Hd2); [|done|lia|lia].
  assert (Zdigits2 m2 <= prec + 1).
  { apply Zdigits2_bounds; [lia|lia|].
    apply Zdigits2_bounds in Hd1; [|done|lia].
    rewrite Z.pow_add_r by lia. pose proof (Z.pow_pos_nonneg 2 prec). lia. }
  destruct (shr_m mrs2) as [|m3|m3]; [lia| |lia].
  rewrite (proj2 (Z.leb_le _ _)); [eauto|lia].
Qed.

Lemma shl_align_int p e : exists m', shl_align p 0 e = (m', Z.min 0 e) /\
  Z.pos (digits2_pos m') = Z.pos (digits2_pos p) + Z.max 0 (- e).
Proof.
  unfold shl_align. destruct e as [|e|e]; cbn; [by eexists; split; [done|lia]..|].
  eexists. split; [done|].
  induction e as [|e IH] using Pos.peano_ind; cbn [Pos.iter digits2_pos]; [lia|].
  rewrite Pos.iter_succ. cbn [digits2_pos]. rewrite Pos2Z.inj_succ, IH. lia.
Qed.

Lemma f_of_pos_finite prec emax p :
  0 < prec -> prec < emax -> Z.pos p < 2 ^ (emax - 1) ->
  exists m e, binary_normalize prec emax (Z.pos p) 0 false = S754_finite false m e.
Proof.
  intros Hp Hpe Hlt. unfold binary_normalize, binary_round.
  assert (Zdigits2 (Z.pos p) <= emax - 1) as Hd by (apply Zdigits2_bounds; lia).
  cbn [Zdigits2] in Hd. unfold fexp, emin.
  set (f := Z.max _ _). destruct (shl_align_int p f) as (m' & -> & Hm').
  apply binary_round_aux_finite; [done|lia|unfold emin; lia|]. cbn [Zdigits2]. lia.
Qed.

(** Every positive integer an unsigned 64-bit word holds becomes a positive finite
    float. *)
Lemma f32_of_Z_pos z : 0 < z <= u64_max -> exists m e, f32_of_Z z = S754_finite false m e.
Proof.
  intros Hz. destruct z as [|p|p]; try lia. apply f_of_pos_finite; try lia.
  unfold u64_max in Hz. change (2 ^ (128 - 1)) with 170141183460469231731687303715884105728. lia.
Qed.
Lemma f64_of_Z_pos z : 0 < z <= u64_max -> exists m e, f64_of_Z z = S754_finite false m e.
Proof.
  intros Hz. destruct z as [|p|p]; try lia. apply f_of_pos_finite; try lia.
  eapply Z.le_lt_trans; [apply Hz|]. vm_compute. reflexivity.
Qed.

Lemma pos_finite_inv x : is_finite x = true -> SFltb f_zero x = true ->
  exists m e, x = S754_finite false m e.
Proof. destruct x as [|[]| |[]]; try done; eauto. Qed.

(** ** The unit interval *)

Definition in_unit (one x : spec_float) : bool := SFleb f_zero x && SFleb x one.

Lemma f_clamp_in_unit one x :
  SFleb f_zero one = true -> is_nan x = false -> in_unit one (f_clamp x f_zero one) = true.
Proof.
  intros Ho Hx. unfold in_unit.
  destruct (f_clamp_range x f_zero one) as [-> ->]; done.
Qed.
