(* ===== verification/FloatRound.v ===== *)
(** * FloatRound: where rounding lands

    The value of a float is an integer multiple of [2 ^ emin]; [f_val] is that integer.
    Comparisons of canonical floats are comparisons of values, and rounding a number that
    lies between two floats gives a float between them: a number that is a float is
    rounded to itself, and an operation is bounded by bounding its exact result. *)

From Stdlib Require Import ZArith Lia SpecFloat.
From stdpp Require Import base tactics numbers.
From S2P Require Import Prelude Float.
Local Open Scope Z_scope.

(** ** Values *)

(** The value of a finite float in units of [2 ^ b]; meaningful for [b] at most its
    exponent. *)
Definition f_val (b : Z) (x : spec_float) : Z :=
  match x with
  | S754_finite s m e => cond_Zopp s (Z.pos m * 2 ^ (e - b))
  | _ => 0
  end.

(** One unit up when something was cut off. *)
Definition loc_bit (l : location) : Z := match l with loc_Exact => 0 | _ => 1 end.

Lemma pow2_pos n : 0 <= n -> 0 < 2 ^ n.
Proof. intros. by apply Z.pow_pos_nonneg. Qed.
#[export] Hint Resolve pow2_pos : argus.

Lemma pow2_split a b c : c <= b -> b <= a -> 2 ^ (a - c) = 2 ^ (a - b) * 2 ^ (b - c).
Proof. intros. rewrite <- Z.pow_add_r by lia. f_equal. lia. Qed.

Section Round.
Context (prec emax : Z) (Hprec : 0 < prec) (Hemax : prec < emax).

Let emin := SpecFloat.emin prec emax.
Let fexp := SpecFloat.fexp prec emax.

Lemma fexp_spec e : fexp e = Z.max (e - prec) emin.
Proof. reflexivity. Qed.

(** *** Canonical floats *)

Lemma valid_finite s m e : valid_binary prec emax (S754_finite s m e) = true ->
  e = Z.max (Zdigits2 (Z.pos m) + e - prec) emin /\ e <= emax - prec.
Proof.
  cbn [valid_binary]. unfold bounded, canonical_mantissa. intros H. split_bools.
  apply Z.eqb_eq in H. apply Z.leb_le in H0. change (digits2_pos m) with (digits2_pos m).
  unfold SpecFloat.fexp in H. cbn [Zdigits2]. split; [|done]. unfold emin. lia.
Qed.

Lemma canonical_mantissa_bounds s m e : valid_binary prec emax (S754_finite s m e) = true ->
  emin <= e /\ Z.pos m < 2 ^ prec /\ (emin < e -> 2 ^ (prec - 1) <= Z.pos m).
Proof.
  intros Hv. apply valid_finite in Hv as [He _].
  destruct (Zdigits2_lower (Z.pos m)) as [Hlo Hhi]; [lia|].
  split_and!; [lia| |].
  - eapply Z.lt_le_trans; [exact Hhi|]. apply Z.pow_le_mono_r; lia.
  - intros. replace prec with (Zdigits2 (Z.pos m)) by lia. done.
Qed.

Lemma exponent_order m1 e1 m2 e2 s1 s2 :
  valid_binary prec emax (S754_finite s1 m1 e1) = true ->
  valid_binary prec emax (S754_finite s2 m2 e2) = true ->
  e1 < e2 -> Z.pos m1 * 2 ^ (e1 - emin) < Z.pos m2 * 2 ^ (e2 - emin).
Proof.
  intros H1%canonical_mantissa_bounds H2%canonical_mantissa_bounds Hlt.
  destruct H1 as (He1 & Hm1 & _), H2 as (He2 & _ & Hm2). specialize (Hm2 ltac:(lia)).
  rewrite (pow2_split e2 (e1 + 1) emin) by lia.
  replace (e1 + 1 - emin) with (1 + (e1 - emin)) by lia. rewrite Z.pow_add_r by lia.
  assert (Hh : 2 ^ prec = 2 * 2 ^ (prec - 1)) by (rewrite <- Z.pow_succ_r by lia; f_equal; lia).
  pose proof (pow2_pos (e1 - emin)) as HP. pose proof (pow2_pos (e2 - (e1 + 1))) as HQ.
  set (P := 2 ^ (e1 - emin)) in *. set (Q := 2 ^ (e2 - (e1 + 1))) in *.
  apply Z.lt_le_trans with (2 * 2 ^ (prec - 1) * P); [apply Z.mul_lt_mono_pos_r; lia|].
  replace (Z.pos m2 * (Q * (2 ^ 1 * P))) with (2 * (Z.pos m2 * Q) * P) by ring.
  apply Z.mul_le_mono_nonneg_r; [lia|]. nia.
Qed.

Lemma finite_key_val x y :
  is_finite x = true -> is_finite y = true ->
  valid_binary prec emax x = true -> valid_binary prec emax y = true ->
  klt (fkey x) (fkey y) -> f_val emin x < f_val emin y.
Proof.
  assert (Hpos : forall s m e, valid_binary prec emax (S754_finite s m e) = true ->
    0 < Z.pos m * 2 ^ (e - emin)).
  { intros s m e Hv. apply canonical_mantissa_bounds in Hv as (? & _).
    pose proof (pow2_pos (e - emin)). nia. }
  assert (Hmono : forall s1 s2 m1 e1 m2 e2,
    valid_binary prec emax (S754_finite s1 m1 e1) = true ->
    valid_binary prec emax (S754_finite s2 m2 e2) = true ->
    e1 < e2 \/ e1 = e2 /\ Z.pos m1 < Z.pos m2 ->
    Z.pos m1 * 2 ^ (e1 - emin) < Z.pos m2 * 2 ^ (e2 - emin)).
  { intros s1 s2 m1 e1 m2 e2 H1 H2 [Hlt|[-> Hlt]]; [by eapply exponent_order|].
    apply canonical_mantissa_bounds in H1 as (? & _). pose proof (pow2_pos (e2 - emin)). nia. }
  intros Hx Hy Hvx Hvy Hk.
  destruct x as [s1|s1| |[] m1 e1], y as [s2|s2| |[] m2 e2]; try discriminate; cbn [fkey klt] in Hk;
    cbn [f_val cond_Zopp]; try lia; try (pose proof (Hpos _ _ _ Hvx)); try (pose proof (Hpos _ _ _ Hvy)); try lia.
  - apply Z.opp_lt_mono. rewrite !Z.opp_involutive. eapply Hmono; [exact Hvy|exact Hvx|lia].
  - eapply Hmono; [exact Hvx|exact Hvy|lia].
Qed.

Lemma finite_key_val_eq x y :
  is_finite x = true -> is_finite y = true -> fkey x = fkey y -> f_val emin x = f_val emin y.
Proof.
  destruct x as [s1|s1| |[] m1 e1], y as [s2|s2| |[] m2 e2]; try discriminate; cbn [fkey f_val];
    intros _ _; try congruence; intros Hk; injection Hk; intros; f_equal; try lia.
  f_equal; [lia|]. do 2 f_equal. lia.
Qed.

(** Comparing canonical floats compares their values. *)
Lemma SFleb_val x y :
  is_finite x = true -> is_finite y = true ->
  valid_binary prec emax x = true -> valid_binary prec emax y = true ->
  SFleb x y = true <-> f_val emin x <= f_val emin y.
Proof.
  intros Hx Hy Hvx Hvy. rewrite SFleb_true. unfold kle. split.
  - intros (_ & _ & [Hk|Hk]); [apply finite_key_val in Hk; try done; lia|].
    apply finite_key_val_eq in Hk; [lia|done..].
  - intros Hle. split_and!; [by apply is_finite_not_nan..|].
    destruct (KeyOrder.lt_total (fkey x) (fkey y)) as [Hk|[Hk|Hk]]; [by left|by right|].
    apply finite_key_val in Hk; try done. lia.
Qed.

(** *** Shifting to the exponent of the format *)

Lemma shr_1_exact m : 0 <= m -> m mod 2 = 0 ->
  shr_1 {| shr_m := m; shr_r := false; shr_s := false |} =
  {| shr_m := m / 2; shr_r := false; shr_s := false |}.
Proof.
  intros Hm H2. rewrite <- Z.div2_div. destruct m as [|[p|p|]|p]; try done; try lia.
  exfalso. change (Z.pos p~1) with (2 * Z.pos p + 1) in H2.
  rewrite Z.add_comm, Z.mul_comm, Z_mod_plus_full in H2. done.
Qed.

Lemma iter_shr_1_exact n : forall m, 0 <= m -> (2 ^ Z.pos n | m) ->
  SpecFloat.iter_pos shr_1 n {| shr_m := m; shr_r := false; shr_s := false |} =
  {| shr_m := m / 2 ^ Z.pos n; shr_r := false; shr_s := false |}.
Proof.
  induction n as [n IH|n IH|]; intros m Hm [k Hk]; cbn [SpecFloat.iter_pos].
  3: { change (2 ^ 1) with 2 in *. apply shr_1_exact; [done|]. subst m. by apply Z_mod_mult. }
  all: assert (0 < 2 ^ Z.pos n) as Hp by (apply pow2_pos; lia).
  - assert (E : 2 ^ Z.pos n~1 = 2 * (2 ^ Z.pos n * 2 ^ Z.pos n)).
    { rewrite <- Z.pow_add_r, <- Z.pow_succ_r by lia. f_equal. lia. }
    rewrite E in *. set (P := 2 ^ Z.pos n) in *.
    assert (Hm' : m = k * P * P * 2) by (subst m; ring). clear Hk.
    assert (0 <= k) by nia.
    rewrite shr_1_exact by (try done; subst m; by apply Z_mod_mult).
    replace (m / (2 * (P * P))) with k by (subst m; apply Z.div_unique_exact; [nia|ring]).
    rewrite Hm', Z.div_mul by lia.
    rewrite IH by (nia || by eexists). rewrite Z.div_mul by lia.
    rewrite IH by (nia || by eexists). by rewrite Z.div_mul by lia.
  - assert (E : 2 ^ Z.pos n~0 = 2 ^ Z.pos n * 2 ^ Z.pos n).
    { rewrite <- Z.pow_add_r by lia. f_equal. lia. }
    rewrite E in *. set (P := 2 ^ Z.pos n) in *.
    assert (Hm' : m = k * P * P) by (subst m; ring). clear Hk.
    assert (0 <= k) by nia.
    replace (m / (P * P)) with k by (subst m; apply Z.div_unique_exact; [nia|ring]).
    rewrite Hm'.
    rewrite IH by (nia || by eexists). rewrite Z.div_mul by lia.
    rewrite IH by (nia || by eexists). by rewrite Z.div_mul by lia.
Qed.

Lemma shr_fexp_floor m e l :
  0 <= m -> e <= fexp (Zdigits2 m + e) ->
  let e1 := fexp (Zdigits2 m + e) in
  exists mrs, shr_fexp prec emax m e l = (mrs, e1) /\ shr_m mrs = m / 2 ^ (e1 - e) /\
    (l = loc_Exact -> (2 ^ (e1 - e) | m) -> loc_of_shr_record mrs = loc_Exact).
Proof.
  intros Hm He e1. unfold shr_fexp. change (SpecFloat.fexp prec emax (Zdigits2 m + e)) with e1.
  assert (Hsm : shr_m (shr_record_of_loc m l) = m) by (destruct l as [|[]]; reflexivity).
  destruct (Z.eq_dec e1 e) as [E|Hne].
  - rewrite E, Z.sub_diag. cbn [shr]. eexists. split_and!; [done| |by intros ->].
    by rewrite Hsm, Z.pow_0_r, Z.div_1_r.
  - destruct (e1 - e) as [|n|n] eqn:En; try (unfold e1 in *; lia). cbn [shr]. eexists. split_and!.
    + f_equal. lia.
    + by rewrite iter_shr_1, Hsm by lia.
    + intros -> Hd. cbn [shr_record_of_loc]. by rewrite iter_shr_1_exact.
Qed.

(** *** The float with a given value *)

(** [x] is the float of sign [s] whose absolute value is [v] units, or the infinity when
    that is out of range. *)
Definition is_value (s : bool) (v : Z) (x : spec_float) : Prop :=
  if v <? 2 ^ (emax - emin)
  then is_finite x = true /\ valid_binary prec emax x = true /\ f_val emin x = cond_Zopp s v /\
       f_sign x = s
  else x = S754_infinity s.

Lemma Zdigits2_unique m d : 0 <= d -> 2 ^ d <= m < 2 ^ (d + 1) -> Zdigits2 m = d + 1.
Proof.
  intros Hd [Hlo Hhi]. assert (0 < m) by (pose proof (pow2_pos d Hd); lia).
  destruct (Zdigits2_lower m) as [Hlo' Hhi']; [done|].
  assert (d < Zdigits2 m) by (apply (Z.pow_lt_mono_r_iff 2); [lia| |lia]; destruct m; cbn; lia).
  assert (Zdigits2 m - 1 < d + 1) by (apply (Z.pow_lt_mono_r_iff 2); lia).
  lia.
Qed.

Lemma finite_is_value s m e :
  emin <= e -> Z.pos m < 2 ^ prec -> (emin < e -> 2 ^ (prec - 1) <= Z.pos m) ->
  is_value s (Z.pos m * 2 ^ (e - emin))
    (if e <=? emax - prec then S754_finite s m e else S754_infinity s).
Proof.
  intros He Hm Hn. unfold is_value.
  assert (Hmin : emin < emax - prec + 1) by (unfold emin, SpecFloat.emin in *; lia).
  assert (Hd : Zdigits2 (Z.pos m) <= prec) by (apply Zdigits2_bounds; lia).
  destruct (Z.leb_spec e (emax - prec)) as [Hle|Hgt].
  - rewrite (proj2 (Z.ltb_lt _ _)).
    + split_and!; try done. cbn [valid_binary]. unfold bounded, canonical_mantissa.
      apply andb_true_iff. split; [|by apply Z.leb_le]. apply Z.eqb_eq.
      change (Z.pos (digits2_pos m)) with (Zdigits2 (Z.pos m)).
      change (SpecFloat.fexp prec emax) with fexp. rewrite fexp_spec.
      destruct (Z.eq_dec e emin) as [->|]; [lia|].
      rewrite (Zdigits2_unique (Z.pos m) (prec - 1)); [lia|lia|].
      replace (prec - 1 + 1) with prec by lia. split; [apply Hn; lia|done].
    + apply Z.lt_le_trans with (2 ^ prec * 2 ^ (e - emin)).
      * apply Z.mul_lt_mono_pos_r; [apply pow2_pos; lia|done].
      * rewrite <- Z.pow_add_r by lia. apply Z.pow_le_mono_r; lia.
  - rewrite (proj2 (Z.ltb_ge _ _)); [done|].
    apply Z.le_trans with (2 ^ (prec - 1) * 2 ^ (e - emin)).
    + rewrite <- Z.pow_add_r by lia. apply Z.pow_le_mono_r; lia.
    + apply Z.mul_le_mono_nonneg_r; [pose proof (pow2_pos (e - emin)); lia|]. apply Hn. lia.
Qed.

(** The second half of [binary_round_aux]. *)
Lemma renormalize_is_value s r e1 :
  emin <= e1 -> 0 <= r <= 2 ^ prec -> (emin < e1 -> 2 ^ (prec - 1) <= r) ->
  is_value s (r * 2 ^ (e1 - emin))
    (let '(mrs, e) := shr_fexp prec emax r e1 loc_Exact in
     match shr_m mrs with
     | Z0 => S754_zero s
     | Zpos m => if e <=? emax - prec then S754_finite s m e else S754_infinity s
     | _ => S754_nan
     end).
Proof.
  intros He [H0 Hr] Hn. unfold shr_fexp.
  change (SpecFloat.fexp prec emax) with fexp. rewrite fexp_spec.
  cbn [shr_record_of_loc].
  destruct (Z.eq_dec r (2 ^ prec)) as [E|Hne].
  - assert (Hd : Zdigits2 r = prec + 1).
    { apply Zdigits2_unique; [lia|]. rewrite E. split; [lia|]. apply Z.pow_lt_mono_r; lia. }
    rewrite Hd. replace (Z.max _ _ - e1) with 1 by lia. cbn [shr SpecFloat.iter_pos].
    assert (H2 : r = 2 ^ (prec - 1) * 2) by (rewrite E, Z.mul_comm, <- Z.pow_succ_r by lia; f_equal; lia).
    pose proof (pow2_pos (prec - 1)) as Hp. specialize (Hp ltac:(lia)).
    rewrite shr_1_exact; [|lia|by rewrite H2; apply Z_mod_mult]. cbn [shr_m].
    rewrite H2, Z.div_mul by lia.
    destruct (2 ^ (prec - 1)) as [|m|m] eqn:Em; try lia.
    replace (Z.pos m * 2 * 2 ^ (e1 - emin)) with (Z.pos m * 2 ^ (e1 + 1 - emin)).
    2: { replace (e1 + 1 - emin) with (Z.succ (e1 - emin)) by lia. rewrite Z.pow_succ_r by lia. ring. }
    apply finite_is_value; [lia|lia|lia].
  - assert (Hd : Zdigits2 r <= prec).
    { destruct (Z.eq_dec r 0) as [->|]; [cbn; lia|]. apply Zdigits2_bounds; lia. }
    destruct (Z.max (Zdigits2 r + e1 - prec) emin - e1) as [|n|n] eqn:En; [|lia|];
      cbn [shr shr_m].
    all: destruct r as [|m|m]; [|apply finite_is_value; lia|lia].
    all: rewrite Z.mul_0_l; unfold is_value.
    all: rewrite (proj2 (Z.ltb_lt _ _)) by (apply pow2_pos; unfold emin, SpecFloat.emin; lia).
    all: split_and!; try done; by destruct s.
Qed.

Lemma round_nearest_even_exact m : round_nearest_even m loc_Exact = m.
Proof. done. Qed.

(** What [binary_round_aux] returns: one of the two multiples of the unit in the last
    place around the number, the lower one when the number is a multiple of it. *)
Lemma round_aux_value s m e l :
  0 <= m -> e <= fexp (Zdigits2 m + e) ->
  let e1 := fexp (Zdigits2 m + e) in
  let q := m / 2 ^ (e1 - e) in
  exists r, q <= r <= q + 1 /\
    (l = loc_Exact -> (2 ^ (e1 - e) | m) -> r = q) /\
    is_value s (r * 2 ^ (e1 - emin)) (binary_round_aux prec emax s m e l) /\
    (emin < e1 -> 2 ^ (prec - 1) <= q).
Proof.
  intros Hm He e1 q. destruct (shr_fexp_floor m e l Hm He) as (mrs & Hs & Hq & Hex).
  fold e1 in Hs, Hex, Hq.
  change (shr_m mrs = q) in Hq.
  assert (Hqlt : q < 2 ^ prec /\ (emin < e1 -> 2 ^ (prec - 1) <= q)).
  { unfold q. destruct (Z.eq_dec m 0) as [->|].
    { rewrite Z.div_0_l by (pose proof (pow2_pos (e1 - e)); unfold e1 in *; lia).
      split; [apply pow2_pos; lia|].
      unfold e1 in *. rewrite fexp_spec in *. cbn [Zdigits2] in *. lia. }
    destruct (Zdigits2_lower m) as [Hlo Hhi]; [lia|].
    assert (He1 : e1 = Z.max (Zdigits2 m + e - prec) emin) by apply fexp_spec.
    split.
    - apply Z.div_lt_upper_bound; [apply pow2_pos; lia|]. rewrite <- Z.pow_add_r by lia.
      eapply Z.lt_le_trans; [exact Hhi|]. apply Z.pow_le_mono_r; lia.
    - intros. apply Z.div_le_lower_bound; [apply pow2_pos; lia|]. rewrite <- Z.pow_add_r by lia.
      eapply Z.le_trans; [|exact Hlo]. apply Z.pow_le_mono_r; lia. }
  destruct Hqlt as [Hq1 Hq2].
  assert (0 <= q) by (apply Z.div_pos; [done|apply pow2_pos; lia]).
  exists (round_nearest_even q (loc_of_shr_record mrs)).
  pose proof (round_nearest_even_bounds q (loc_of_shr_record mrs)) as Hr.
  split_and!; [lia|lia| | |done].
  - intros -> Hd. by rewrite Hex.
  - unfold binary_round_aux. rewrite Hs, Hq.
    apply renormalize_is_value; [unfold e1; rewrite fexp_spec; lia|lia|lia].
Qed.

(** *** Rounding stays between floats *)

(** A number of units that is the value of a float, were the exponent range unbounded
    above. *)
Definition representable (v : Z) : Prop :=
  exists m e, 0 <= m < 2 ^ prec /\ emin <= e /\ v = m * 2 ^ (e - emin).

Lemma round_aux_between s m e l b :
  0 <= m -> e <= fexp (Zdigits2 m + e) -> b <= e -> b <= emin ->
  exists v, is_value s v (binary_round_aux prec emax s m e l) /\ 0 <= v /\
    forall w, representable w ->
      (m * 2 ^ (e - b) + loc_bit l <= w * 2 ^ (emin - b) -> v <= w) /\
      (w * 2 ^ (emin - b) < (m + 1) * 2 ^ (e - b) -> w <= v).
Proof.
  intros Hm He Hbe Hbm. destruct (round_aux_value s m e l Hm He) as (r & Hr & Hex & Hv & Hq).
  set (e1 := fexp (Zdigits2 m + e)) in *. set (q := m / 2 ^ (e1 - e)) in *.
  assert (Hmin : emin <= e1) by (unfold e1; rewrite fexp_spec; lia).
  assert (HD : 0 < 2 ^ (e1 - e)) by (apply pow2_pos; lia).
  assert (HB : 0 < 2 ^ (e - b)) by (apply pow2_pos; lia).
  assert (HE : 0 < 2 ^ (e1 - emin)) by (apply pow2_pos; lia).
  assert (HM : 0 < 2 ^ (emin - b)) by (apply pow2_pos; lia).
  assert (Heb : 2 ^ (e1 - emin) * 2 ^ (emin - b) = 2 ^ (e1 - e) * 2 ^ (e - b))
    by (rewrite <- !pow2_split by lia; done).
  pose proof (Z.div_mod m (2 ^ (e1 - e)) ltac:(lia)) as Hdm. fold q in Hdm.
  pose proof (Z.mod_pos_bound m (2 ^ (e1 - e)) HD) as Hrem.
  assert (0 <= q) by (apply Z.div_pos; lia).
  exists (r * 2 ^ (e1 - emin)). split_and!; [done|nia|].
  intros w (my & ey & Hmy & Hey & ->).
  set (D := 2 ^ (e1 - e)) in *. set (B := 2 ^ (e - b)) in *. set (E := 2 ^ (e1 - emin)) in *.
  set (M := 2 ^ (emin - b)) in *.
  destruct (Z_lt_le_dec ey e1) as [Hlt|Hge].
  - assert (Hw : my * 2 ^ (ey - emin) < q * E).
    { specialize (Hq ltac:(lia)). unfold E. rewrite (pow2_split e1 (ey + 1) emin) by lia.
      replace (ey + 1 - emin) with (Z.succ (ey - emin)) by lia. rewrite Z.pow_succ_r by lia.
      assert (2 ^ prec = 2 * 2 ^ (prec - 1)) by (rewrite <- Z.pow_succ_r by lia; f_equal; lia).
      assert (HF : 0 < 2 ^ (ey - emin)) by (apply pow2_pos; lia).
      assert (HG : 0 < 2 ^ (e1 - (ey + 1))) by (apply pow2_pos; lia).
      set (F := 2 ^ (ey - emin)) in *. set (G := 2 ^ (e1 - (ey + 1))) in *.
      apply Z.lt_le_trans with (2 * 2 ^ (prec - 1) * F); [apply Z.mul_lt_mono_pos_r; lia|].
      replace (q * (G * (2 * F))) with (2 * (q * G) * F) by ring.
      apply Z.mul_le_mono_nonneg_r; [lia|]. nia. }
    split; [|nia]. intros Hup. exfalso.
    assert (Hqm : q * E * M <= m * B).
    { rewrite <- Z.mul_assoc, Heb, Z.mul_assoc. apply Z.mul_le_mono_nonneg_r; lia. }
    assert (my * 2 ^ (ey - emin) * M < q * E * M) by (apply Z.mul_lt_mono_pos_r; lia).
    assert (0 <= loc_bit l) by (destruct l; cbn; lia). nia.
  - rewrite (pow2_split ey e1 emin) by lia. fold E. rewrite Z.mul_assoc.
    set (k := my * 2 ^ (ey - e1)).
    replace (k * E * M) with (k * D * B) by (rewrite <- !Z.mul_assoc, Heb; ring).
    split; intros Hb; apply Z.mul_le_mono_nonneg_r; try lia.
    + assert (Hmk : m + loc_bit l <= k * D) by (destruct l; cbn [loc_bit] in *; nia).
      destruct (Z.eq_dec r q) as [->|Hrq].
      * assert (0 <= loc_bit l) by (destruct l; cbn; lia). nia.
      * assert (Hin : 0 < loc_bit l \/ 0 < m mod D).
        { destruct l; [|left; cbn; lia]. right.
          destruct (Z.eq_dec (m mod D) 0) as [E0|]; [|lia]. destruct Hrq. apply Hex; [done|].
          apply Z.mod_divide; [lia|done]. }
        assert (0 <= loc_bit l) by (destruct l; cbn; lia). nia.
    + apply Z.mul_lt_mono_pos_r in Hb; [|done]. assert (k * D < (q + 1) * D) by nia. nia.
Qed.

(** A finite float of the format. *)
Definition good (x : spec_float) : Prop := is_finite x = true /\ valid_binary prec emax x = true.

Lemma good_finite s m e : good (S754_finite s m e) ->
  emin <= e /\ Z.pos m < 2 ^ prec /\ (emin < e -> 2 ^ (prec - 1) <= Z.pos m).
Proof. intros [_ H]. by eapply canonical_mantissa_bounds. Qed.

Lemma good_representable x : good x -> 0 <= f_val emin x -> representable (f_val emin x).
Proof.
  intros Hg H0. destruct x as [s|s| |s m e]; try by destruct Hg.
  - exists 0, emin. split_and!; [done|apply pow2_pos; lia|lia|done].
  - apply good_finite in Hg as (He & Hm & _). pose proof (pow2_pos (e - emin)).
    destruct s; cbn [f_val cond_Zopp] in *; [nia|]. exists (Z.pos m), e. by split_and!.
Qed.

Lemma good_bound x : good x -> f_val emin x < 2 ^ (emax - emin).
Proof.
  assert (0 < 2 ^ (emax - emin)) by (apply pow2_pos; unfold emin, SpecFloat.emin; lia).
  intros Hg. destruct x as [s|s| |s m e]; cbn [f_val]; try lia.
  pose proof Hg as (He & Hm & _)%good_finite. destruct Hg as [_ [_ Hle]%valid_finite].
  assert (0 < 2 ^ (e - emin)) by (apply pow2_pos; lia).
  assert (Z.pos m * 2 ^ (e - emin) < 2 ^ (emax - emin)).
  { apply Z.lt_le_trans with (2 ^ prec * 2 ^ (e - emin)); [by apply Z.mul_lt_mono_pos_r|].
    rewrite <- Z.pow_add_r by lia. apply Z.pow_le_mono_r; lia. }
  destruct s; cbn [cond_Zopp]; nia.
Qed.

(** [z] is a correct rounding of a non-negative number of which the comparisons with the
    floats are given: above those below it and below those above it. *)
Definition rounding (z : spec_float) (le ge : Z -> Prop) : Prop :=
  (good z /\ 0 <= f_val emin z \/ z = S754_infinity false) /\
  forall w, good w ->
    (ge (f_val emin w) -> good z /\ 0 <= f_val emin z <= f_val emin w) /\
    (le (f_val emin w) -> good z -> f_val emin w <= f_val emin z).

Lemma is_value_rounding v z (le ge : Z -> Prop) :
  is_value false v z -> 0 <= v ->
  (forall w, ge w -> 0 <= w) ->
  (forall w, representable w -> (ge w -> v <= w) /\ (le w -> w <= v)) ->
  rounding z le ge.
Proof.
  unfold is_value. intros Hv H0 Hge Hw. split.
  { destruct (_ <? _) in Hv; [left|by right]. destruct Hv as (? & ? & -> & _). by split. }
  intros w Hg. pose proof (good_bound w Hg).
  destruct (Z.ltb_spec v (2 ^ (emax - emin))) as [Hlt|Hle].
  - destruct Hv as (Hf & Hvb & Hval & _). cbn [cond_Zopp] in Hval.
    split; intros Hc; rewrite Hval.
    + specialize (Hge _ Hc). destruct (Hw (f_val emin w)) as [Hu _]; [by apply good_representable|].
      split; [by split|]. specialize (Hu Hc). lia.
    + intros _. destruct (Z_lt_le_dec (f_val emin w) 0); [lia|].
      destruct (Hw (f_val emin w)) as [_ Hl]; [by apply good_representable|]. auto.
  - subst z. split; intros Hc; [|by intros []]. specialize (Hge _ Hc).
    destruct (Hw (f_val emin w)) as [Hu _]; [by apply good_representable|]. specialize (Hu Hc). lia.
Qed.

(** ** The operations *)

Lemma emin_neg : emin < 0 -> 0 < 2 ^ (- emin).
Proof. intros. apply pow2_pos. lia. Qed.

Lemma Zdigits2_mul_ge a b : 0 < a -> 0 < b -> Zdigits2 a <= Zdigits2 (a * b).
Proof.
  intros Ha Hb. destruct (Zdigits2_lower a Ha) as [Hlo _].
  destruct (Zdigits2_lower (a * b)) as [_ Hhi]; [nia|].
  enough (Zdigits2 a - 1 < Zdigits2 (a * b)) by lia.
  apply (Z.pow_lt_mono_r_iff 2); [lia| |nia]. destruct (a * b); cbn; lia.
Qed.

Lemma canonical_digits s m e : good (S754_finite s m e) -> emin < e -> Zdigits2 (Z.pos m) = prec.
Proof.
  intros Hg He. pose proof Hg as (_ & Hm & Hn)%good_finite. specialize (Hn He).
  rewrite (Zdigits2_unique (Z.pos m) (prec - 1)); [lia|lia|].
  by replace (prec - 1 + 1) with prec by lia.
Qed.

Lemma zero_rounding s (le ge : Z -> Prop) :
  (forall w, ge w -> 0 <= w) -> (forall w, le w -> w <= 0) -> rounding (S754_zero s) le ge.
Proof.
  intros Hge Hle. split; [by left|]. intros w _. cbn [f_val]. split; intros Hc.
  - specialize (Hge _ Hc). split; [done|lia].
  - intros _. by apply Hle.
Qed.

Lemma finite_nonneg_sign s m e : good (S754_finite s m e) -> 0 <= f_val emin (S754_finite s m e) -> s = false.
Proof.
  intros (He & _)%good_finite. cbn [f_val]. pose proof (pow2_pos (e - emin)).
  destruct s; cbn [cond_Zopp]; [nia|done].
Qed.

(** A product: the value of [x * y] in units of [2 ^ (2 * emin)]. *)
Lemma SFmul_rounding x y : emin < 0 -> good x -> good y ->
  0 <= f_val emin x -> 0 <= f_val emin y ->
  let v := f_val emin x * f_val emin y in
  rounding (SFmul prec emax x y) (fun w => w * 2 ^ (- emin) <= v) (fun w => v <= w * 2 ^ (- emin)).
Proof.
  intros He0 Hx Hy Hsx Hsy. pose proof (emin_neg He0) as Hpe.
  destruct x as [sx|sx| |sx mx ex], y as [sy|sy| |sy my ey]; try (by destruct Hx); try (by destruct Hy);
    cbn [SFmul]; cbn zeta.
  1,2,3: cbn [f_val]; rewrite ?Z.mul_0_l, ?Z.mul_0_r; apply zero_rounding; [intros; nia..].
  apply finite_nonneg_sign in Hsx as ->; [|done]. apply finite_nonneg_sign in Hsy as ->; [|done].
  cbn [f_val cond_Zopp xorb].
  pose proof Hx as (Hex & Hmx & _)%good_finite. pose proof Hy as (Hey & Hmy & _)%good_finite.
  assert (Hpre : ex + ey <= fexp (Zdigits2 (Z.pos (mx * my)) + (ex + ey))).
  { rewrite fexp_spec, Pos2Z.inj_mul.
    destruct (Z.eq_dec ex emin) as [->|], (Z.eq_dec ey emin) as [->|]; try lia.
    - pose proof (Zdigits2_mul_ge (Z.pos my) (Z.pos mx)). rewrite Z.mul_comm.
      rewrite (canonical_digits false my ey) in * by (done || lia). lia.
    - pose proof (Zdigits2_mul_ge (Z.pos mx) (Z.pos my)).
      rewrite (canonical_digits false mx ex) in * by (done || lia). lia.
    - pose proof (Zdigits2_mul_ge (Z.pos mx) (Z.pos my)).
      rewrite (canonical_digits false mx ex) in * by (done || lia). lia. }
  destruct (round_aux_between false (Z.pos (mx * my)) (ex + ey) loc_Exact (2 * emin))
    as (v & Hv & H0 & Hb); [lia|done|lia|lia|].
  assert (Hval : Z.pos (mx * my) * 2 ^ (ex + ey - 2 * emin) =
    Z.pos mx * 2 ^ (ex - emin) * (Z.pos my * 2 ^ (ey - emin))).
  { rewrite Pos2Z.inj_mul. replace (ex + ey - 2 * emin) with ((ex - emin) + (ey - emin)) by lia.
    rewrite Z.pow_add_r by lia. ring. }
  assert (0 < 2 ^ (ex + ey - 2 * emin)) by (apply pow2_pos; lia).
  replace (emin - 2 * emin) with (- emin) in Hb by lia. rewrite Hval in Hb. cbn [loc_bit] in Hb.
  apply (is_value_rounding v); [done|done| |].
  - intros w Hw. assert (0 < Z.pos mx * 2 ^ (ex - emin) * (Z.pos my * 2 ^ (ey - emin))) by (rewrite <- Hval; lia).
    nia.
  - intros w Hr. destruct (Hb w Hr) as [Hu Hl]. split; intros Hc; [apply Hu; lia|].
    apply Hl. rewrite <- Hval in Hc. lia.
Qed.

(** Shifting left keeps the value. *)
Lemma shl_align_value p e e' : exists p', shl_align p e e' = (p', Z.min e e') /\
  Z.pos p' = Z.pos p * 2 ^ (e - Z.min e e').
Proof.
  unfold shl_align. destruct (e' - e) as [|d|d] eqn:Ed.
  - exists p. replace (Z.min e e') with e by lia. rewrite Z.sub_diag. split; [done|lia].
  - exists p. replace (Z.min e e') with e by lia. rewrite Z.sub_diag. split; [done|lia].
  - eexists. replace (Z.min e e') with e' by lia. split; [done|].
    replace (e - e') with (Z.pos d) by lia. clear.
    induction d as [|d IH] using Pos.peano_ind; [by rewrite Z.mul_comm|].
    rewrite Pos.iter_succ, Pos2Z.inj_succ, Z.pow_succ_r by lia.
    rewrite Pos2Z.inj_xO, IH. ring.
Qed.

Lemma Zdigits2_shift m n : 0 < m -> 0 <= n -> Zdigits2 (m * 2 ^ n) = Zdigits2 m + n.
Proof.
  intros Hm Hn. destruct (Zdigits2_lower m Hm) as [Hlo Hhi].
  pose proof (pow2_pos n Hn) as Hp.
  assert (0 < Zdigits2 m) by (destruct m; cbn; lia).
  replace (Zdigits2 m + n) with (Zdigits2 m - 1 + n + 1) by lia.
  apply Zdigits2_unique; [lia|]. replace (Zdigits2 m - 1 + n + 1) with (Zdigits2 m + n) by lia.
  rewrite !Z.pow_add_r by lia. split; [by apply Z.mul_le_mono_nonneg_r; lia|by apply Z.mul_lt_mono_pos_r].
Qed.

(** A number of units is rounded between the floats around it, and to itself when it is one. *)
Lemma binary_round_between s p e b : b <= e -> b <= emin ->
  exists v, is_value s v (binary_round prec emax s p e) /\ 0 <= v /\
    forall w, representable w ->
      (Z.pos p * 2 ^ (e - b) <= w * 2 ^ (emin - b) -> v <= w) /\
      (w * 2 ^ (emin - b) <= Z.pos p * 2 ^ (e - b) -> w <= v).
Proof.
  intros Hb1 Hb2. unfold binary_round.
  change (SpecFloat.fexp prec emax) with fexp.
  change (Z.pos (digits2_pos p)) with (Zdigits2 (Z.pos p)).
  set (e' := fexp (Zdigits2 (Z.pos p) + e)).
  assert (Hmin : emin <= e') by (unfold e'; rewrite fexp_spec; lia).
  destruct (shl_align_value p e e') as (p' & -> & Hp').
  assert (Hval : Z.pos p' * 2 ^ (Z.min e e' - b) = Z.pos p * 2 ^ (e - b)).
  { rewrite Hp', <- Z.mul_assoc, <- Z.pow_add_r by lia. do 2 f_equal. lia. }
  destruct (round_aux_between s (Z.pos p') (Z.min e e') loc_Exact b) as (v & Hv & H0 & Hw); [lia| |lia|lia|].
  { rewrite Hp', Zdigits2_shift by lia.
    replace (Zdigits2 (Z.pos p) + (e - Z.min e e') + Z.min e e') with (Zdigits2 (Z.pos p) + e) by lia.
    fold e'. lia. }
  exists v. split_and!; [done|done|]. intros w Hr. destruct (Hw w Hr) as [Hu Hl].
  cbn [loc_bit] in Hu. rewrite Hval in Hu. rewrite Z.mul_add_distr_r, Hval in Hl.
  assert (0 < 2 ^ (Z.min e e' - b)) by (apply pow2_pos; lia).
  split; intros Hc; [apply Hu; lia|apply Hl; lia].
Qed.

Lemma binary_normalize_rounding m e : emin <= e -> 0 <= m ->
  let v := m * 2 ^ (e - emin) in
  rounding (binary_normalize prec emax m e false) (fun w => w <= v) (fun w => v <= w).
Proof.
  intros He Hm. cbn zeta. pose proof (pow2_pos (e - emin)) as Hp. specialize (Hp ltac:(lia)).
  destruct m as [|p|p]; [|cbn [binary_normalize]|lia].
  - rewrite Z.mul_0_l. apply (is_value_rounding 0); [|lia|lia|lia].
    unfold is_value. rewrite (proj2 (Z.ltb_lt _ _)) by (apply pow2_pos; unfold emin, SpecFloat.emin; lia). done.
  - destruct (binary_round_between false p e emin) as (v & Hv & H0 & Hw); [done|lia|].
    apply (is_value_rounding v); [done|done|nia|].
    intros w Hr. destruct (Hw w Hr) as [Hu Hl]. rewrite Z.sub_diag, Z.mul_1_r in *. split; auto.
Qed.

(** A difference that is not negative, and a sum of two floats that are not negative. *)
Lemma good_align_value s m e e' : emin <= e' -> e' <= e ->
  cond_Zopp s (Z.pos (shl_align m e e').1) * 2 ^ (e' - emin) = f_val emin (S754_finite s m e).
Proof.
  intros H1 H2. destruct (shl_align_value m e e') as (p' & -> & Hp'). cbn [fst f_val].
  rewrite Z.min_r in Hp' by lia. rewrite Hp', (pow2_split e e' emin) by lia.
  destruct s; cbn [cond_Zopp]; ring.
Qed.

Lemma rounding_exact x : good x -> 0 <= f_val emin x ->
  rounding x (fun w => w <= f_val emin x) (fun w => f_val emin x <= w).
Proof.
  intros Hg H0. split; [by left|]. intros w _. by split.
Qed.

Lemma good_opp x : good x -> good (SFopp x).
Proof. by destruct x. Qed.
Lemma f_val_opp x : f_val emin (SFopp x) = - f_val emin x.
Proof. destruct x as [| | |[] m e]; cbn; lia. Qed.

Lemma SFsub_rounding x y : good x -> good y ->
  let v := f_val emin x - f_val emin y in
  0 <= v -> rounding (SFsub prec emax x y) (fun w => w <= v) (fun w => v <= w).
Proof.
  intros Hx Hy v Hv. subst v.
  destruct x as [sx|sx| |sx mx ex], y as [sy|sy| |sy my ey]; try (by destruct Hx); try (by destruct Hy).
  - change (f_val emin (S754_zero sx) - f_val emin (S754_zero sy)) with 0.
    assert (exists t, SFsub prec emax (S754_zero sx) (S754_zero sy) = S754_zero t) as [t ->]
      by (destruct sx, sy; cbn; eauto).
    by apply (rounding_exact (S754_zero t)).
  - rewrite Z.sub_0_l in *.
    rewrite <- (f_val_opp (S754_finite sy my ey)) in *. apply rounding_exact; [by apply good_opp|done].
  - change (f_val emin (S754_zero sy)) with 0 in *. rewrite Z.sub_0_r in *. by apply rounding_exact.
  - pose proof Hx as (Hex & _)%good_finite. pose proof Hy as (Hey & _)%good_finite.
    cbn [SFsub]. rewrite <- (good_align_value sx mx ex (Z.min ex ey)) in * by lia.
    rewrite <- (good_align_value sy my ey (Z.min ex ey)) in * by lia.
    rewrite <- Z.mul_sub_distr_r in *.
    apply binary_normalize_rounding; [lia|].
    assert (0 < 2 ^ (Z.min ex ey - emin)) by (apply pow2_pos; lia). nia.
Qed.

Lemma SFadd_rounding x y : good x -> good y ->
  let v := f_val emin x + f_val emin y in
  0 <= v -> rounding (SFadd prec emax x y) (fun w => w <= v) (fun w => v <= w).
Proof.
  intros Hx Hy v Hv. subst v.
  destruct x as [sx|sx| |sx mx ex], y as [sy|sy| |sy my ey]; try (by destruct Hx); try (by destruct Hy).
  - change (f_val emin (S754_zero sx) + f_val emin (S754_zero sy)) with 0.
    assert (exists t, SFadd prec emax (S754_zero sx) (S754_zero sy) = S754_zero t) as [t ->]
      by (destruct sx, sy; cbn; eauto).
    by apply (rounding_exact (S754_zero t)).
  - change (f_val emin (S754_zero sx)) with 0 in *. rewrite Z.add_0_l in *. by apply rounding_exact.
  - change (f_val emin (S754_zero sy)) with 0 in *. rewrite Z.add_0_r in *. by apply rounding_exact.
  - pose proof Hx as (Hex & _)%good_finite. pose proof Hy as (Hey & _)%good_finite.
    cbn [SFadd]. rewrite <- (good_align_value sx mx ex (Z.min ex ey)) in * by lia.
    rewrite <- (good_align_value sy my ey (Z.min ex ey)) in * by lia.
    rewrite <- Z.mul_add_distr_r in *.
    apply binary_normalize_rounding; [lia|].
    assert (0 < 2 ^ (Z.min ex ey - emin)) by (apply pow2_pos; lia). nia.
Qed.

(** *** The sign of a difference *)

Lemma SFsub_swap x y : good x -> good y -> f_val emin x <> f_val emin y ->
  SFsub prec emax y x = SFopp (SFsub prec emax x y).
Proof.
  intros Hx Hy Hne.
  destruct x as [sx|sx| |sx mx ex], y as [sy|sy| |sy my ey]; try (by destruct Hx); try (by destruct Hy).
  - cbn [SFsub SFopp]. by rewrite ?negb_involutive.
  - pose proof Hx as (Hex & _)%good_finite. pose proof Hy as (Hey & _)%good_finite.
    rewrite <- (good_align_value sx mx ex (Z.min ex ey)) in Hne by lia.
    rewrite <- (good_align_value sy my ey (Z.min ex ey)) in Hne by lia.
    cbn [SFsub]. rewrite (Z.min_comm ey ex).
    set (a := cond_Zopp sx _) in *. set (b := cond_Zopp sy _) in *.
    rewrite <- binary_normalize_opp by (intros H0; apply Hne; f_equal; lia). f_equal. lia.
Qed.

(** The smallest float above zero. *)
Lemma good_min_positive : good (S754_finite false 1 emin) /\ f_val emin (S754_finite false 1 emin) = 1.
Proof.
  split; [|cbn [f_val cond_Zopp]; by rewrite Z.sub_diag].
  split; [done|]. cbn [valid_binary]. unfold bounded, canonical_mantissa.
  change (SpecFloat.fexp prec emax) with fexp. rewrite fexp_spec. cbn [digits2_pos].
  unfold emin, SpecFloat.emin. apply andb_true_iff. rewrite Z.eqb_eq, Z.leb_le. lia.
Qed.

Lemma good_positive z : good z -> 0 < f_val emin z -> SFltb f_zero z = true.
Proof.
  destruct z as [s|s| |[] m e]; intros Hg; cbn [f_val cond_Zopp]; try lia; try done.
Qed.

Lemma SFsub_positive x y : good x -> good y -> f_val emin y < f_val emin x ->
  SFltb f_zero (SFsub prec emax x y) = true.
Proof.
  intros Hx Hy Hlt. destruct (SFsub_rounding x y Hx Hy) as [Hz Hr]; [lia|].
  destruct Hz as [[Hg H0]| ->]; [|done]. apply good_positive; [done|].
  destruct good_min_positive as [Hm H1]. destruct (Hr _ Hm) as [_ Hle]. rewrite H1 in Hle.
  specialize (Hle ltac:(lia) Hg). lia.
Qed.

(** The sign of a difference is the outcome of the comparison. *)
Lemma SFsub_lt_zero x y : is_nan x = false -> valid_binary prec emax x = true -> good y ->
  SFltb (SFsub prec emax x y) f_zero = SFltb x y.
Proof.
  intros Hn Hv Hy.
  destruct (is_finite x) eqn:Hf.
  2: { destruct x as [|[]| |]; try done; destruct y as [| | |[] m e]; try done; by destruct Hy. }
  assert (Hx : good x) by done.
  assert (Hlt : SFltb x y = (f_val emin x <? f_val emin y)).
  { pose proof (SFleb_val y x) as Hc. destruct Hy as [Hfy Hvy]. specialize (Hc Hfy Hf Hvy Hv).
    rewrite SFleb_negb_ltb in Hc by by apply is_finite_not_nan.
    destruct (SFltb x y), (Z.ltb_spec (f_val emin x) (f_val emin y)); cbn in Hc; try done.
    - destruct Hc as [_ Hc]. specialize (Hc ltac:(lia)). done.
    - destruct Hc as [Hc _]. specialize (Hc eq_refl). lia. }
  rewrite Hlt. destruct (Z.ltb_spec (f_val emin x) (f_val emin y)).
  - rewrite (SFsub_swap y x) by (done || lia).
    rewrite <- (SFopp_involutive f_zero), SFltb_opp. by apply SFsub_positive.
  - destruct (SFsub_rounding x y Hx Hy) as [[[Hg H0]| ->] _]; [lia| |done].
    destruct (SFsub prec emax x y) as [s|s| |[] m e]; try done; try (by destruct Hg); cbn [f_val cond_Zopp] in H0.
    pose proof Hg as (He & _)%good_finite. pose proof (pow2_pos (e - emin)). nia.
Qed.

(** *** Quotients *)

Lemma new_location_bit n k : 0 <= k -> loc_bit (new_location n k) = (if k =? 0 then 0 else 1).
Proof.
  intros Hk. unfold new_location, new_location_even, new_location_odd.
  by destruct (Z.even n), (k =? 0).
Qed.

(** What the long division computes. *)
Lemma SFdiv_core_spec m1 e1 m2 e2 : 0 < m1 -> 0 < m2 ->
  exists q r e,
    SFdiv_core_binary prec emax m1 e1 m2 e2 = (q, e, new_location m2 r) /\
    0 <= r < m2 /\ 0 <= q /\ e <= e1 - e2 /\ m1 * 2 ^ (e1 - e2 - e) = q * m2 + r /\
    e <= fexp (Zdigits2 q + e).
Proof.
  intros H1 H2. unfold SFdiv_core_binary.
  change (SpecFloat.fexp prec emax) with fexp.
  set (d := Zdigits2 m1 + e1 - (Zdigits2 m2 + e2)).
  set (e := Z.min (fexp d) (e1 - e2)).
  assert (Hs : 0 <= e1 - e2 - e) by lia.
  assert (Hm : match e1 - e2 - e with 0 => m1 | Z.pos _ => Z.shiftl m1 (e1 - e2 - e) | Z.neg _ => 0 end
    = m1 * 2 ^ (e1 - e2 - e)).
  { destruct (e1 - e2 - e) eqn:E; [lia| |lia]. by rewrite Z.shiftl_mul_pow2 by lia. }
  rewrite Hm. set (m := m1 * 2 ^ (e1 - e2 - e)) in *.
  assert (0 < m) by (pose proof (pow2_pos _ Hs); unfold m; nia).
  pose proof (Z.div_mod m m2 ltac:(lia)) as Hdm. pose proof (Z.mod_pos_bound m m2 H2) as Hr.
  assert (Hq : 0 <= m / m2) by (apply Z.div_pos; lia).
  replace (Z.div_eucl m m2) with (m / m2, m mod m2)
    by (unfold Z.div, Z.modulo; by destruct (Z.div_eucl m m2)).
  exists (m / m2), (m mod m2), e. split_and!; [done|lia|lia|done|lia|lia|].
  assert (Hd : d - e <= Zdigits2 (m / m2)).
  { destruct (Z_le_gt_dec (d - e) 0) as [|Hpos]; [destruct (m / m2); cbn; lia|].
    assert (Hdm1 : Zdigits2 m = Zdigits2 m1 + (e1 - e2 - e)) by (apply Zdigits2_shift; lia).
    destruct (Zdigits2_lower m) as [Hlo _]; [done|]. destruct (Zdigits2_lower m2) as [_ Hhi]; [done|].
    assert (Hle : 2 ^ (d - e - 1) <= m / m2).
    { apply Z.div_le_lower_bound; [done|]. apply Z.le_trans with (2 ^ Zdigits2 m2 * 2 ^ (d - e - 1)).
      - apply Z.mul_le_mono_nonneg_r; [pose proof (pow2_pos (d - e - 1)); lia|lia].
      - assert (0 < Zdigits2 m2) by (destruct m2; cbn; lia).
        rewrite <- Z.pow_add_r by lia.
        eapply Z.le_trans; [|exact Hlo]. apply Z.pow_le_mono_r; lia. }
    assert (0 < m / m2) by (pose proof (pow2_pos (d - e - 1)); lia).
    destruct (Zdigits2_lower (m / m2)) as [_ Hqh]; [done|].
    enough (d - e - 1 < Zdigits2 (m / m2)) by lia.
    apply (Z.pow_lt_mono_r_iff 2); [lia| |lia]. destruct (m / m2); cbn; lia. }
  unfold e in *. rewrite !fexp_spec in *. lia.
Qed.

(** Rounding [m1 * 2 ^ e1 / (m2 * 2 ^ e2)]. *)
Lemma div_core_between s m1 e1 m2 e2 : 0 < m1 -> 0 < m2 ->
  let '(q, e, l) := SFdiv_core_binary prec emax m1 e1 m2 e2 in
  exists v, is_value s v (binary_round_aux prec emax s q e l) /\ 0 <= v /\
    forall b w, b <= emin -> b <= e1 - e2 -> representable w ->
      (m1 * 2 ^ (e1 - e2 - b) <= w * m2 * 2 ^ (emin - b) -> v <= w) /\
      (w * m2 * 2 ^ (emin - b) <= m1 * 2 ^ (e1 - e2 - b) -> w <= v).
Proof.
  intros H1 H2. destruct (SFdiv_core_spec m1 e1 m2 e2 H1 H2) as (q & r & e & -> & Hr & Hq & He & Hdiv & Hpre).
  set (c := Z.min e emin).
  destruct (round_aux_between s q e (new_location m2 r) c) as (v & Hv & H0 & Hw); [done..|lia|lia|].
  exists v. split_and!; [done|done|]. intros b w Hb1 Hb2 Hrep. destruct (Hw w Hrep) as [Hu Hl].
  rewrite new_location_bit in Hu by lia.
  set (c' := Z.min b c).
  assert (Hk : forall x y : Z, (x * 2 ^ (e1 - e2 - b) <= y * 2 ^ (emin - b) <->
    x * 2 ^ (e1 - e2 - c) <= y * 2 ^ (emin - c)) /\ (y * 2 ^ (emin - b) <= x * 2 ^ (e1 - e2 - b) <->
    y * 2 ^ (emin - c) <= x * 2 ^ (e1 - e2 - c))).
  { intros x y. rewrite (Z.mul_le_mono_pos_r _ _ (2 ^ (b - c'))) by (apply pow2_pos; lia).
    rewrite (Z.mul_le_mono_pos_r (x * 2 ^ (e1 - e2 - c)) _ (2 ^ (c - c'))) by (apply pow2_pos; lia).
    rewrite (Z.mul_le_mono_pos_r (y * 2 ^ (emin - b)) _ (2 ^ (b - c'))) by (apply pow2_pos; lia).
    rewrite (Z.mul_le_mono_pos_r (y * 2 ^ (emin - c)) _ (2 ^ (c - c'))) by (apply pow2_pos; lia).
    rewrite <- !Z.mul_assoc, <- !pow2_split by lia. done. }
  destruct (Hk m1 (w * m2)) as [Hk1 Hk2].
  assert (HB : 0 < 2 ^ (e - c)) by (apply pow2_pos; lia).
  assert (Hx : m1 * 2 ^ (e1 - e2 - c) = (q * m2 + r) * 2 ^ (e - c)).
  { rewrite <- Hdiv, <- Z.mul_assoc, <- Z.pow_add_r by lia. do 2 f_equal. lia. }
  rewrite Hx in Hk1, Hk2. set (B := 2 ^ (e - c)) in *. set (M := 2 ^ (emin - c)) in *.
  split; intros Hc.
  - apply Hu. apply Hk1 in Hc. destruct (Z.eqb_spec r 0) as [->|]; nia.
  - apply Hl. apply Hk2 in Hc. nia.
Qed.

(** A quotient of a float that is not negative by a positive one. *)
Lemma SFdiv_rounding x m e : emin < 0 -> good x -> 0 <= f_val emin x ->
  good (S754_finite false m e) ->
  let y := f_val emin (S754_finite false m e) in
  rounding (SFdiv prec emax x (S754_finite false m e))
    (fun w => w * y <= f_val emin x * 2 ^ (- emin)) (fun w => f_val emin x * 2 ^ (- emin) <= w * y).
Proof.
  intros He0 Hx Hs Hy y. pose proof (emin_neg He0) as Hpe.
  pose proof Hy as (Hey & Hmy & _)%good_finite.
  assert (Hy0 : 0 < y) by (unfold y; cbn [f_val cond_Zopp]; pose proof (pow2_pos (e - emin)); nia).
  destruct x as [sx|sx| |sx mx ex]; try (by destruct Hx); cbn [SFdiv].
  - apply zero_rounding; cbn [f_val]; nia.
  - apply finite_nonneg_sign in Hs as ->; [|done]. cbn [xorb]. pose proof Hx as (Hex & _)%good_finite.
    pose proof (div_core_between false (Z.pos mx) ex (Z.pos m) e) as Hc. 
    destruct (SFdiv_core_binary prec emax (Z.pos mx) ex (Z.pos m) e) as [[q e'] l].
    destruct Hc as (v & Hv & H0 & Hw); [lia|lia|].
    set (xv := f_val emin (S754_finite false mx ex)).
    assert (Hx0 : 0 < xv) by (unfold xv; cbn [f_val cond_Zopp]; pose proof (pow2_pos (ex - emin)); nia).
    apply (is_value_rounding v); [done|done|nia|].
    intros w Hr. set (b := Z.min emin (ex - e) ).
    destruct (Hw b w ltac:(lia) ltac:(lia) Hr) as [Hu Hl].
    assert (Hxv : xv * 2 ^ (- emin) * 2 ^ (emin - b) = Z.pos mx * 2 ^ (ex - e - b) * 2 ^ (e - emin)).
    { unfold xv. cbn [f_val cond_Zopp]. rewrite <- !Z.mul_assoc, <- !Z.pow_add_r by lia. do 2 f_equal. lia. }
    assert (Hyv : w * y * 2 ^ (emin - b) = w * Z.pos m * 2 ^ (emin - b) * 2 ^ (e - emin)).
    { unfold y. cbn [f_val cond_Zopp]. ring. }
    assert (0 < 2 ^ (emin - b)) by (apply pow2_pos; lia).
    assert (0 < 2 ^ (e - emin)) by (apply pow2_pos; lia).
    split; intros Hc; [apply Hu|apply Hl];
      apply (Z.mul_le_mono_pos_r _ _ (2 ^ (e - emin))); try done; rewrite <- Hxv, <- Hyv;
      apply Z.mul_le_mono_nonneg_r; lia.
Qed.

Lemma is_value_valid s v x : is_value s v x -> valid_binary prec emax x = true.
Proof. unfold is_value. destruct (_ <? _); [naive_solver|by intros ->]. Qed.

Lemma SFdiv_valid x s m e : valid_binary prec emax (SFdiv prec emax x (S754_finite s m e)) = true.
Proof.
  destruct x as [sx|sx| |sx mx ex]; try done. cbn [SFdiv].
  pose proof (div_core_between (xorb sx s) (Z.pos mx) ex (Z.pos m) e) as Hc.
  destruct (SFdiv_core_binary prec emax (Z.pos mx) ex (Z.pos m) e) as [[q e'] l].
  destruct Hc as (v & Hv & _); [lia|lia|]. by eapply is_value_valid.
Qed.

(** ** Exactness *)

(** A float is determined by its sign and its value. *)
Lemma f_val_inj x y : good x -> good y -> f_sign x = f_sign y -> f_val emin x = f_val emin y -> x = y.
Proof.
  intros [Hfx Hvx] [Hfy Hvy] Hs Hv.
  destruct (KeyOrder.lt_total (fkey x) (fkey y)) as [Hk|[Hk|Hk]];
    [apply finite_key_val in Hk; (done || lia)| |apply finite_key_val in Hk; (done || lia)].
  destruct x as [sx|sx| |sx mx ex], y as [sy|sy| |sy my ey]; try done; cbn [f_sign] in Hs; subst.
  - done.
  - by destruct sy.
  - by destruct sy.
  - unfold KeyOrder.eq in Hk. destruct sy; cbn [fkey] in Hk; injection Hk as Hm He; f_equal; lia.
Qed.

Lemma is_value_unique s v x y : is_value s v x -> good y -> f_sign y = s -> f_val emin y = cond_Zopp s v ->
  x = y.
Proof.
  unfold is_value. intros Hx Hy Hs Hv. pose proof (good_bound _ Hy) as Hb.
  assert (Ho : f_val emin y = v \/ f_val emin (SFopp y) = v).
  { rewrite f_val_opp, Hv. destruct s; cbn [cond_Zopp]; lia. }
  pose proof (good_bound _ (good_opp _ Hy)).
  rewrite (proj2 (Z.ltb_lt _ _)) in Hx by lia. destruct Hx as (? & ? & Hvx & Hsx).
  apply f_val_inj; [by split|done|congruence|congruence].
Qed.

(** The nearest float to the ratio of two integers whose ratio is a float is that float. *)
Lemma ratio_to_float_exact s m e n d : good (S754_finite s m e) -> 0 < n -> 0 < d ->
  n * 2 ^ Z.max 0 (- e) = Z.pos m * 2 ^ Z.max 0 e * d ->
  ratio_to_float prec emax s n d = S754_finite s m e.
Proof.
  intros Hg Hn Hd Heq. unfold ratio_to_float. rewrite (proj2 (Z.eqb_neq _ _)) by lia.
  pose proof (div_core_between s n 0 d 0 Hn Hd) as Hc.
  destruct (SFdiv_core_binary prec emax n 0 d 0) as [[q e'] l].
  destruct Hc as (v & Hv & H0 & Hw).
  pose proof Hg as (He & Hm & _)%good_finite.
  set (w := Z.pos m * 2 ^ (e - emin)).
  assert (Hr : representable w) by (exists (Z.pos m), e; by split_and!).
  set (b := Z.min emin 0). destruct (Hw b w) as [Hu Hl]; [lia|lia|done|].
  assert (Hx : n * 2 ^ (0 - 0 - b) = w * d * 2 ^ (emin - b)).
  { apply (Z.mul_reg_r _ _ (2 ^ Z.max 0 (- e))); [pose proof (pow2_pos (Z.max 0 (- e))); lia|].
    unfold w. replace (n * 2 ^ (0 - 0 - b) * 2 ^ Z.max 0 (- e))
      with (n * 2 ^ Z.max 0 (- e) * 2 ^ (0 - 0 - b)) by ring.
    rewrite Heq.
    replace (Z.pos m * 2 ^ Z.max 0 e * d * 2 ^ (0 - 0 - b))
      with (Z.pos m * d * (2 ^ Z.max 0 e * 2 ^ (0 - 0 - b))) by ring.
    replace (Z.pos m * 2 ^ (e - emin) * d * 2 ^ (emin - b) * 2 ^ Z.max 0 (- e))
      with (Z.pos m * d * (2 ^ (e - emin) * 2 ^ (emin - b) * 2 ^ Z.max 0 (- e))) by ring.
    rewrite <- !Z.pow_add_r by lia. do 2 f_equal. lia. }
  assert (v = w) as -> by lia.
  eapply is_value_unique; [exact Hv|done|done|]. by destruct s.
Qed.

End Round.

(** ** The two formats *)

Abbreviation emin64 := (-1074) (only parsing).
Definition good64 (x : f64) : Prop := good 53 1024 x.
Definition val64 (x : f64) : Z := f_val emin64 x.

(** Widening is exact. *)
Lemma f64_of_f32_val s m e : good 24 128 (S754_finite s m e) ->
  good64 (f64_of_f32 (S754_finite s m e)) /\ f_sign (f64_of_f32 (S754_finite s m e)) = s /\
  val64 (f64_of_f32 (S754_finite s m e)) = f_val emin64 (S754_finite s m e).
Proof.
  intros Hg. pose proof Hg as (He & Hm & _)%good_finite; [|done].
  destruct Hg as [_ [_ Hle]%valid_finite].
  change (emin 24 128) with (-149) in He.
  destruct (binary_round_between 53 1024 ltac:(done) ltac:(done) s m e emin64) as (v & Hv & H0 & Hw);
    [lia|done|].
  destruct (Hw (Z.pos m * 2 ^ (e - emin64))) as [Hu Hl].
  { exists (Z.pos m), e. split_and!; [lia|lia| |done]. change (emin 53 1024) with (-1074). lia. }
  change (emin 53 1024 - emin64) with 0 in *. rewrite Z.pow_0_r, Z.mul_1_r in Hu, Hl.
  assert (v = Z.pos m * 2 ^ (e - emin64)) as -> by lia.
  unfold is_value in Hv. rewrite (proj2 (Z.ltb_lt _ _)) in Hv.
  - destruct Hv as (? & ? & ? & ?). by split_and!.
  - apply Z.lt_le_trans with (2 ^ 24 * 2 ^ (e - emin64)).
    + apply Z.mul_lt_mono_pos_r; [apply pow2_pos; lia|done].
    + rewrite <- Z.pow_add_r by lia. apply Z.pow_le_mono_r; [lia|].
      change (emin 53 1024) with (-1074). lia.
Qed.
