(* ===== verification/RustStr.v ===== *)
(** * RustStr: the string functions of Rust's standard library the program calls

    A [str] is a [string] of bytes (UTF-8).  White space and letter case are those of
    ASCII, which is what [/proc] and [/sys] contain; on ASCII text every function below
    agrees with the one of the same name.  Numbers are parsed by the grammars of
    [u64::from_str], [i32::from_str] and [f64::from_str] and printed by [Display]
    ([pretty]). *)

From Stdlib Require Import ZArith Lia SpecFloat Ascii String.
From stdpp Require Import base tactics numbers list strings pretty.
From S2P Require Import Prelude Float.
Local Open Scope string_scope.
Local Open Scope Z_scope.

Definition ascii_code (c : ascii) : Z := Z.of_nat (Ascii.nat_of_ascii c).

(** [char::is_whitespace] on ASCII. *)
Definition is_whitespace (c : ascii) : bool :=
  let n := ascii_code c in ((9 <=? n) && (n <=? 13)) || (n =? 32).

(** [char::is_ascii_digit] with its value. *)
Definition digit_value (c : ascii) : option Z :=
  let n := ascii_code c in if (48 <=? n) && (n <=? 57) then Some (n - 48) else None.
Definition is_digit (c : ascii) : bool :=
  match digit_value c with Some _ => true | None => false end.

(** ** Trimming, splitting, searching *)

Fixpoint all_chars (p : ascii -> bool) (s : string) : bool :=
  match s with "" => true | String c s => p c && all_chars p s end.

Fixpoint trim_start (s : string) : string :=
  match s with
  | String c r => if is_whitespace c then trim_start r else s
  | "" => ""
  end.
Fixpoint trim_end (s : string) : string :=
  match s with
  | String c r =>
      match trim_end r with
      | "" => if is_whitespace c then "" else String c ""
      | r => String c r
      end
  | "" => ""
  end.
Definition trim (s : string) : string := trim_end (trim_start s).

Fixpoint strip_prefix (p s : string) : option string :=
  match p, s with
  | "", _ => Some s
  | String a p, String b s => if Ascii.eqb a b then strip_prefix p s else None
  | _, "" => None
  end.

(** [s.trim_end_matches(p)] for a non-empty pattern: drop the suffix as often as it is
    there. *)
Fixpoint trim_end_matches (p s : string) : string :=
  match s with
  | "" => ""
  | String c r =>
      let r := trim_end_matches p r in
      if String.eqb (String c r) p then "" else String c r
  end.

(** [s.lines()]: split at [\n], drop one [\r] before it, no line after the last [\n]. *)
Fixpoint chomp (s : string) : string :=
  match s with
  | "" => ""
  | String c "" => if ascii_code c =? 13 then "" else s
  | String c r => String c (chomp r)
  end.
Fixpoint split_nl (s : string) : list string :=
  match s with
  | "" => []
  | String c r =>
      if ascii_code c =? 10 then "" :: split_nl r
      else match split_nl r with [] => [String c ""] | l :: ls => String c l :: ls end
  end.
Fixpoint ends_nl (s : string) : bool :=
  match s with "" => false | String c "" => ascii_code c =? 10 | String _ r => ends_nl r end.
(** A line not ended by [\n] keeps its [\r]. *)
Fixpoint chomp_lines (last_ends : bool) (ls : list string) : list string :=
  match ls with
  | [] => []
  | [l] => [if last_ends then chomp l else l]
  | l :: ls => chomp l :: chomp_lines last_ends ls
  end.
Definition lines (s : string) : list string := chomp_lines (ends_nl s) (split_nl s).

(** [s.split_whitespace()]: the non-empty tokens. *)
Fixpoint split_on (sep : ascii -> bool) (s : string) : list string :=
  match s with
  | "" => [""]
  | String c r =>
      if sep c then "" :: split_on sep r
      else match split_on sep r with [] => [String c ""] | t :: ts => String c t :: ts end
  end.
Definition non_empty (s : string) : bool := negb (String.eqb s "").
Definition split_whitespace (s : string) : list string :=
  List.filter non_empty (split_on is_whitespace s).

(** The rest of [s] after the first occurrence of [p] ([s.find(p)] and slicing). *)
Fixpoint find_after (p s : string) : option string :=
  match strip_prefix p s with
  | Some r => Some r
  | None => match s with "" => None | String _ r => find_after p r end
  end.
Definition str_contains (p s : string) : bool :=
  match find_after p s with Some _ => true | None => false end.

(** The part of [s] before the first [c] ([&s[..s.find(c)?]]). *)
Fixpoint find_before (c : ascii) (s : string) : option string :=
  match s with
  | "" => None
  | String a r =>
      if Ascii.eqb a c then Some ""
      else match find_before c r with Some t => Some (String a t) | None => None end
  end.

Fixpoint take_while (p : ascii -> bool) (s : string) : string :=
  match s with
  | String c r => if p c then String c (take_while p r) else ""
  | "" => ""
  end.

(** ** Case *)

Definition shift_char (lo hi d : Z) (c : ascii) : ascii :=
  let n := ascii_code c in
  if (lo <=? n) && (n <=? hi) then Ascii.ascii_of_nat (Z.to_nat (n + d)) else c.
Fixpoint map_chars (f : ascii -> ascii) (s : string) : string :=
  match s with "" => "" | String c s => String (f c) (map_chars f s) end.
Definition to_lowercase : string -> string := map_chars (shift_char 65 90 32).
Definition to_uppercase : string -> string := map_chars (shift_char 97 122 (-32)).
Definition eq_ignore_ascii_case (s t : string) : bool :=
  String.eqb (to_lowercase s) (to_lowercase t).

(** ** Integers *)

Fixpoint parse_digits (acc : Z) (s : string) : option Z :=
  match s with
  | "" => Some acc
  | String c r =>
      match digit_value c with Some d => parse_digits (10 * acc + d) r | None => None end
  end.
Definition parse_nat (s : string) : option Z :=
  match s with "" => None | _ => parse_digits 0 s end.

(** [s.parse::<uN>()] with maximum [hi]: an optional [+], then digits. *)
Definition parse_uint (hi : Z) (s : string) : option Z :=
  let digits := match s with String "+" r => r | _ => s end in
  match parse_nat digits with
  | Some n => if n <=? hi then Some n else None
  | None => None
  end.
Definition parse_u64 : string -> option Z := parse_uint u64_max.
Definition parse_u32 : string -> option Z := parse_uint u32_max.

(** [s.parse::<iN>()]: an optional sign, then digits. *)
Definition parse_int (lo hi : Z) (s : string) : option Z :=
  let '(neg, digits) :=
    match s with
    | String "-" r => (true, r)
    | String "+" r => (false, r)
    | _ => (false, s)
    end in
  match parse_nat digits with
  | Some n =>
      let v := if neg then - n else n in
      if (lo <=? v) && (v <=? hi) then Some v else None
  | None => None
  end.
Definition parse_i32 : string -> option Z := parse_int i32_min i32_max.
Definition parse_i64 : string -> option Z := parse_int i64_min i64_max.

(** ** [f64::from_str] *)

(** The digits at the front: their value after [acc], their number, the rest. *)
Fixpoint take_digits (acc : Z) (n : Z) (s : string) : Z * Z * string :=
  match s with
  | String c r =>
      match digit_value c with
      | Some d => take_digits (10 * acc + d) (n + 1) r
      | None => (acc, n, s)
      end
  | "" => (acc, n, "")
  end.

Definition parse_exponent (s : string) : option Z :=
  match s with
  | "" => Some 0
  | String c r =>
      if Ascii.eqb c "e" || Ascii.eqb c "E" then
        match r with
        | String "-" t => match parse_nat t with Some n => Some (- n) | None => None end
        | String "+" t => parse_nat t
        | _ => parse_nat r
        end
      else None
  end.

(** [m * 10 ^ e], correctly rounded. *)
Definition f64_of_decimal (neg : bool) (m e : Z) : f64 :=
  if 0 <=? e then ratio_to_float 53 1024 neg (m * 10 ^ e) 1
  else ratio_to_float 53 1024 neg m (10 ^ (- e)).

Definition parse_number (neg : bool) (s : string) : option f64 :=
  let '(i, ni, r) := take_digits 0 0 s in
  let '(m, nf, r) :=
    match r with String "." t => take_digits i 0 t | _ => (i, 0, r) end in
  if ni + nf =? 0 then None
  else match parse_exponent r with
       | Some e => Some (f64_of_decimal neg m (e - nf))
       | None => None
       end.

Definition parse_f64 (s : string) : option f64 :=
  let '(neg, t) :=
    match s with
    | String "-" r => (true, r)
    | String "+" r => (false, r)
    | _ => (false, s)
    end in
  let l := to_lowercase t in
  if String.eqb l "inf" || String.eqb l "infinity" then Some (S754_infinity neg)
  else if String.eqb l "nan" then Some S754_nan
  else parse_number neg t.

(** ** Lemmas: trimming *)

#[local] Arguments String.append !_ _ / : simpl nomatch.

Lemma all_chars_app p s t : all_chars p (s +:+ t) = all_chars p s && all_chars p t.
Proof. induction s; cbn; [done|]. by rewrite IHs, andb_assoc. Qed.

Lemma all_chars_impl (p q : ascii -> bool) s :
  (forall c, p c = true -> q c = true) -> all_chars p s = true -> all_chars q s = true.
Proof. intros H. induction s; cbn; [done|]. intros. split_bools. rewrite H, IHs; auto. Qed.

Lemma str_app_nil_r s : s +:+ "" = s.
Proof. induction s; cbn; congruence. Qed.

Lemma trim_start_app s t :
  all_chars is_whitespace s = true -> trim_start (s +:+ t) = trim_start t.
Proof. induction s; cbn; [done|]. intros. split_bools. by rewrite H, IHs. Qed.

Lemma trim_start_id s :
  match s with String c _ => is_whitespace c = false | "" => True end -> trim_start s = s.
Proof. destruct s as [|c s]; cbn; [done|]. by intros ->. Qed.

(** [trim_end] stops at the last character that is not white space. *)
Lemma trim_end_app s t : trim_end t <> "" -> trim_end (s +:+ t) = s +:+ trim_end t.
Proof.
  intros Ht. induction s as [|c s IH]; cbn; [done|]. rewrite IH.
  destruct (s +:+ trim_end t) eqn:E; [|done].
  destruct s; cbn in E; congruence.
Qed.

Lemma trim_end_ws s t :
  all_chars is_whitespace t = true -> trim_end (s +:+ t) = trim_end s.
Proof.
  intros Ht. induction s as [|c s IH]; cbn; [|by rewrite IH].
  induction t as [|c t IHt]; cbn; [done|]. cbn in Ht. split_bools.
  rewrite IHt by done. by rewrite H.
Qed.

Lemma trim_end_no_ws s :
  all_chars (fun c => negb (is_whitespace c)) s = true -> trim_end s = s.
Proof.
  induction s as [|c s IH]; cbn; [done|]. intros. split_bools.
  rewrite IH by done. destruct s; [by rewrite H|done].
Qed.

Lemma trim_no_ws s :
  all_chars (fun c => negb (is_whitespace c)) s = true -> trim s = s.
Proof.
  intros H. unfold trim. rewrite trim_start_id; [by apply trim_end_no_ws|].
  destruct s; cbn in *; [done|]. by split_bools.
Qed.

Lemma trim_end_matches_app c0 p s t :
  all_chars (fun c => negb (Ascii.eqb c c0)) s = true ->
  trim_end_matches (String c0 p) (s +:+ t) = s +:+ trim_end_matches (String c0 p) t.
Proof.
  induction s as [|c s IH]; cbn; [done|]. intros. split_bools. rewrite IH by done.
  by rewrite H.
Qed.

Lemma strip_prefix_app p s : strip_prefix p (p +:+ s) = Some s.
Proof. induction p as [|c p IH]; cbn; [done|]. by rewrite Ascii.eqb_refl. Qed.

Lemma strip_prefix_Some p s r : strip_prefix p s = Some r <-> s = p +:+ r.
Proof.
  split; [|intros ->; apply strip_prefix_app].
  revert s. induction p as [|c p IH]; intros s; cbn; [by intros [= ->]|].
  destruct s as [|d s]; [done|]. destruct (Ascii.eqb_spec c d) as [->|]; [|done].
  intros H. by rewrite (IH _ H).
Qed.

Lemma find_after_Some p s r : find_after p s = Some r -> exists t, s = t +:+ p +:+ r.
Proof.
  induction s as [|c s IH]; cbn [find_after].
  - destruct (strip_prefix p "") eqn:E; [|done]. intros [= ->].
    exists "". by apply strip_prefix_Some in E.
  - destruct (strip_prefix p (String c s)) eqn:E.
    + intros [= ->]. exists "". by apply strip_prefix_Some in E.
    + intros H. destruct (IH H) as [t ->]. by exists (String c t).
Qed.

(** ** Lemmas: numbers print and parse *)

Lemma digit_value_bounds c d : digit_value c = Some d -> 0 <= d <= 9.
Proof.
  unfold digit_value. destruct (Z.leb_spec 48 (ascii_code c)); cbn; [|done].
  destruct (Z.leb_spec (ascii_code c) 57); [|done]. intros [= <-]. lia.
Qed.

Lemma digit_value_pretty n : (n < 10)%N -> digit_value (pretty_N_char n) = Some (Z.of_N n).
Proof.
  intros Hn. destruct n as [|p]; [done|].
  do 4 (destruct p as [p|p|]; try done; try (exfalso; lia)).
Qed.

Lemma parse_digits_pretty_go x s :
  parse_digits 0 (pretty_N_go x s) = parse_digits (Z.of_N x) s.
Proof.
  revert s. induction (N.lt_wf_0 x) as [x _ IH]; intros s.
  destruct (decide (x = 0)%N) as [->|Hx]; [by rewrite pretty_N_go_0|].
  rewrite pretty_N_go_step by lia. rewrite IH by (apply N.div_lt; lia).
  cbn [parse_digits]. rewrite digit_value_pretty by (apply N.mod_lt; lia).
  f_equal. pose proof (N.div_mod x 10). lia.
Qed.

Lemma pretty_go_digits x s :
  all_chars is_digit s = true -> all_chars is_digit (pretty_N_go x s) = true.
Proof.
  revert s. induction (N.lt_wf_0 x) as [x _ IH]; intros s Hs.
  destruct (decide (x = 0)%N) as [->|Hx]; [by rewrite pretty_N_go_0|].
  rewrite pretty_N_go_step by lia. apply IH; [apply N.div_lt; lia|].
  cbn [all_chars]. unfold is_digit at 1.
  by rewrite digit_value_pretty by (apply N.mod_lt; lia).
Qed.

Lemma pretty_go_nonempty x s : (0 < x)%N -> pretty_N_go x s <> "".
Proof.
  revert s. induction (N.lt_wf_0 x) as [x _ IH]; intros s Hx.
  rewrite pretty_N_go_step by lia.
  destruct (decide (x `div` 10 = 0)%N) as [E|E]; [by rewrite E, pretty_N_go_0|].
  apply IH; [apply N.div_lt; lia | by apply N.neq_0_lt_0].
Qed.

Lemma pretty_Z_digits z : 0 <= z -> all_chars is_digit (pretty z) = true.
Proof.
  intros Hz. destruct z as [|p|p]; [done| |lia].
  unfold pretty, pretty_Z, pretty, pretty_positive, pretty, pretty_N.
  case_decide; [done|]. by apply pretty_go_digits.
Qed.

Lemma pretty_Z_nonempty z : 0 <= z -> pretty z <> "".
Proof.
  intros Hz. destruct z as [|p|p]; [done| |lia].
  unfold pretty, pretty_Z, pretty, pretty_positive, pretty, pretty_N.
  case_decide; [done|]. apply pretty_go_nonempty. lia.
Qed.

Lemma parse_digits_pretty z : 0 <= z -> parse_digits 0 (pretty z) = Some z.
Proof.
  intros Hz. destruct z as [|p|p]; [done| |lia].
  unfold pretty, pretty_Z, pretty, pretty_positive, pretty, pretty_N.
  case_decide; [done|]. by rewrite parse_digits_pretty_go.
Qed.

Lemma digit_not_plus c : is_digit c = true -> Ascii.eqb c "+" = false /\ Ascii.eqb c "-" = false.
Proof.
  intros H. split; apply Bool.not_true_iff_false; intros E%Ascii.eqb_eq; by subst c.
Qed.

Lemma digit_not_ws c : is_digit c = true -> is_whitespace c = false.
Proof.
  unfold is_digit, digit_value, is_whitespace.
  destruct (Z.leb_spec 48 (ascii_code c)); cbn; [|done].
  destruct (Z.leb_spec (ascii_code c) 57); [|done]. intros _.
  destruct (Z.leb_spec 9 (ascii_code c)), (Z.leb_spec (ascii_code c) 13),
    (Z.eqb_spec (ascii_code c) 32); cbn; (done || lia).
Qed.

(** What [Display] prints, [parse] reads back. *)
Lemma parse_uint_pretty hi z : 0 <= z <= hi -> parse_uint hi (pretty z) = Some z.
Proof.
  intros [H0 H1]. unfold parse_uint.
  pose proof (pretty_Z_digits z H0) as Hd. pose proof (pretty_Z_nonempty z H0) as Hn.
  pose proof (parse_digits_pretty z H0) as Hp.
  destruct (pretty z) as [|c r] eqn:E; [done|]. cbn in Hd. split_bools.
  destruct (digit_not_plus c H) as [Hplus _].
  replace (match c with "+"%char => r | _ => String c r end) with (String c r).
  - unfold parse_nat. rewrite Hp. by rewrite (proj2 (Z.leb_le _ _) H1).
  - destruct c as [[] [] [] [] [] [] [] []]; done.
Qed.

(** ** Lemmas: tokens *)

Lemma split_on_cons sep s : exists t ts, split_on sep s = t :: ts.
Proof.
  induction s as [|c s (t & ts & IH)]; cbn; [eauto|]. rewrite IH. destruct (sep c); eauto.
Qed.

Lemma split_on_token sep t r :
  all_chars (fun c => negb (sep c)) t = true ->
  split_on sep (t +:+ r) = match split_on sep r with x :: xs => (t +:+ x) :: xs | [] => [] end.
Proof.
  destruct (split_on_cons sep r) as (x & xs & Hr). rewrite Hr.
  induction t as [|c t IH]; cbn; [done|]. intros. split_bools.
  by rewrite IH, H.
Qed.

Lemma split_whitespace_blanks b r :
  all_chars is_whitespace b = true -> split_whitespace (b +:+ r) = split_whitespace r.
Proof.
  unfold split_whitespace. induction b as [|c b IH]; cbn; [done|]. intros. split_bools.
  rewrite H. cbn. auto.
Qed.

Lemma split_whitespace_token t b r :
  all_chars (fun c => negb (is_whitespace c)) t = true -> t <> "" ->
  all_chars is_whitespace b = true -> b <> "" ->
  split_whitespace (t +:+ b +:+ r) = t :: split_whitespace r.
Proof.
  intros Ht Hne Hb Hbne. destruct b as [|c b]; [done|]. cbn in Hb. split_bools.
  unfold split_whitespace at 1. rewrite split_on_token by done. cbn. rewrite H. cbn.
  rewrite str_app_nil_r. destruct t; [done|]. cbn. f_equal.
  by apply split_whitespace_blanks.
Qed.

Lemma split_whitespace_last t :
  all_chars (fun c => negb (is_whitespace c)) t = true -> t <> "" -> split_whitespace t = [t].
Proof.
  intros Ht Hne. unfold split_whitespace. rewrite <- (str_app_nil_r t) at 1.
  rewrite split_on_token by done. cbn. rewrite str_app_nil_r. by destruct t.
Qed.

Lemma pretty_Z_no_ws z : 0 <= z -> all_chars (fun c => negb (is_whitespace c)) (pretty z) = true.
Proof.
  intros Hz. eapply all_chars_impl; [|by apply pretty_Z_digits]. intros c Hc. by rewrite digit_not_ws.
Qed.
