(* ===== verification/Fmt.v ===== *)
(** * Fmt: the part of Rust's text formatting the reports use

    [{:.p}], [{:w.p}], [{:+w.p}] of floats, [{:<w}] and [{:>w}], and [{:?}] of texts and of
    vectors of texts (std::fmt, as src/sim/trajectory.rs uses it). *)

From Stdlib Require Import ZArith Lia SpecFloat Ascii String.
From stdpp Require Import base tactics numbers list strings pretty.
From S2P Require Import Prelude Float FloatRound RustStr.
Local Open Scope string_scope.
Local Open Scope Z_scope.

(** ** Fixed precision *)

(** [n / d] to the nearest integer, ties to even. *)
Definition div_half_even (n d : Z) : Z :=
  let q := n / d in
  let r := n mod d in
  if 2 * r <? d then q else if d <? 2 * r then q + 1 else if Z.even q then q else q + 1.

(** [m * 2 ^ e * 10 ^ p], rounded to an integer. *)
Definition scaled (p : nat) (m : positive) (e : Z) : Z :=
  let n := Z.pos m * 10 ^ Z.of_nat p in
  if 0 <=? e then n * 2 ^ e else div_half_even n (2 ^ (- e)).

Definition digit_char (d : Z) : ascii := Ascii.ascii_of_nat (Z.to_nat (48 + d)).

(** The last [p] decimal digits of [n], before [s]. *)
Fixpoint last_digits (p : nat) (n : Z) (s : string) : string :=
  match p with
  | O => s
  | S p => last_digits p (n / 10) (String (digit_char (n mod 10)) s)
  end.

(** The decimal notation of [n / 10 ^ p]. *)
Definition point_digits (p : nat) (n : Z) : string :=
  pretty (n / 10 ^ Z.of_nat p) +:+
  match p with O => "" | S _ => String "." (last_digits p n "") end.

(** [{:.p}], with [plus] for what stands before a number that is not negative. *)
Definition fixed_signed (plus : string) (p : nat) (x : spec_float) : string :=
  let sign (s : bool) := if s then "-" else plus in
  match x with
  | S754_nan => "NaN"
  | S754_infinity s => sign s +:+ "inf"
  | S754_zero s => sign s +:+ point_digits p 0
  | S754_finite s m e => sign s +:+ point_digits p (scaled p m e)
  end.
Definition fixed : nat -> spec_float -> string := fixed_signed "".

(** ** [{}] of floats: the shortest decimal that reads back, never in scientific notation *)

Definition same_float (x y : spec_float) : bool :=
  match x, y with
  | S754_finite s m e, S754_finite s' m' e' => Bool.eqb s s' && Pos.eqb m m' && (e =? e')
  | S754_zero s, S754_zero s' => Bool.eqb s s'
  | _, _ => false
  end.

(** The exponent of the first decimal digit of [num / den]. *)
Definition decimal_exponent (num den : Z) : Z :=
  let digits z := Z.of_nat (String.length (pretty z)) in
  if den <=? num then digits (num / den) - 1 else - digits ((den - 1) / num).

(** The decimals with [k] digits around [num / den], the nearer one first, each as
    [n / 10 ^ p]. *)
Definition around (num den : Z) (k : Z) : list (Z * nat) :=
  let x := decimal_exponent num den + 1 - k in
  let p := Z.to_nat (- x) in
  let u := 10 ^ Z.max 0 x in
  let scaled_num := num * 10 ^ Z.of_nat p in
  let q := scaled_num / (den * u) in
  let lower := (q * u, p) in
  let upper := ((q + 1) * u, p) in
  if 2 * (scaled_num mod (den * u)) <=? den * u then [lower; upper] else [upper; lower].

(** The first among the decimals with [k], [k + 1], ... digits that reads back as [x]. *)
Fixpoint shortest (fuel : nat) (x : spec_float) (num den k : Z) : option (Z * nat) :=
  match fuel with
  | O => None
  | S fuel =>
      match List.find (fun c => same_float (f64_of_decimal (f_sign x) c.1 (- Z.of_nat c.2)) x)
              (around num den k) with
      | Some c => Some c
      | None => shortest fuel x num den (k + 1)
      end
  end.

(** Seventeen digits are always enough for binary64; the fallback prints the float exactly. *)
Definition display (x : f64) : string :=
  match x with
  | S754_finite s m e =>
      let num := Z.pos m * 2 ^ Z.max 0 e in
      let den := 2 ^ Z.max 0 (- e) in
      let '(n, p) := default (num * 10 ^ Z.max 0 (- e) / den, Z.to_nat (- e)) (shortest 17 x num den 1) in
      (if s then "-" else "") +:+ point_digits p n
  | _ => fixed 0 x
  end.

(** ** Padding: widths count characters, not bytes *)

(** A byte that continues a UTF-8 character. *)
Definition continues_char (c : ascii) : bool := (128 <=? ascii_code c) && (ascii_code c <? 192).
Fixpoint char_count (s : string) : nat :=
  match s with
  | "" => O
  | String c s => if continues_char c then char_count s else S (char_count s)
  end.
Fixpoint spaces (n : nat) : string := match n with O => "" | S n => String " " (spaces n) end.

Definition pad_left (w : nat) (s : string) : string := spaces (w - char_count s) +:+ s.
Definition pad_right (w : nat) (s : string) : string := s +:+ spaces (w - char_count s).

(** [{:w.p}] and [{:+w.p}]. *)
Definition float_wp (w p : nat) (x : spec_float) : string := pad_left w (fixed p x).
Definition float_plus_wp (w p : nat) (x : spec_float) : string := pad_left w (fixed_signed "+" p x).

(** ** Debug *)

Definition hex_digit (d : Z) : ascii := if d <? 10 then digit_char d else Ascii.ascii_of_nat (Z.to_nat (87 + d)).

(** [{:?}] of a text: quotes, backslashes and control characters escaped; the bytes of
    other characters are kept (they are, for the printable ones). *)
Definition escape_char (c : ascii) : string :=
  let n := ascii_code c in
  if n =? 34 then String "092" (String "034" "")
  else if n =? 92 then String "092" (String "092" "")
  else if n =? 9 then String "092" "t"
  else if n =? 10 then String "092" "n"
  else if n =? 13 then String "092" "r"
  else if n =? 0 then String "092" "0"
  else if (n <? 32) || (n =? 127) then
    String "092" ("u{" +:+ (if n <? 16 then String (hex_digit n) "}"
                            else String (hex_digit (n / 16)) (String (hex_digit (n mod 16)) "}")))
  else String c "".
Fixpoint escape_chars (s : string) : string :=
  match s with "" => "" | String c s => escape_char c +:+ escape_chars s end.
Definition debug_str (s : string) : string :=
  String "034" (escape_chars s +:+ String "034" "").

(** [slice.join(sep)]. *)
Definition join (sep : string) (l : list string) : string := String.concat sep l.
Definition debug_strs (l : list string) : string := "[" +:+ join ", " (map debug_str l) +:+ "]".

(** ** Lemmas *)

Lemma same_float_true x y : same_float x y = true -> x = y.
Proof.
  destruct x as [s| | |s m e], y as [s'| | |s' m' e']; try done; cbn [same_float].
  - by intros ->%eqb_prop.
  - intros [[->%eqb_prop ->%Pos.eqb_eq]%andb_true_iff ->%Z.eqb_eq]%andb_true_iff. done.
Qed.

Lemma div_half_even_near n d : 0 < d -> 2 * Z.abs (div_half_even n d * d - n) <= d.
Proof.
  intros Hd. unfold div_half_even. pose proof (Z.div_mod n d). pose proof (Z.mod_pos_bound n d Hd).
  destruct (Z.ltb_spec (2 * (n mod d)) d); [nia|]. destruct (Z.ltb_spec d (2 * (n mod d))); [nia|].
  destruct (Z.even _); nia.
Qed.
Lemma div_half_even_nonneg n d : 0 < d -> 0 <= n -> 0 <= div_half_even n d.
Proof.
  intros Hd Hn. unfold div_half_even. assert (0 <= n / d) by (apply Z.div_pos; lia).
  repeat case_match; lia.
Qed.

Lemma scaled_nonneg p m e : 0 <= scaled p m e.
Proof.
  assert (0 <= 10 ^ Z.of_nat p) by (apply Z.pow_nonneg; lia).
  unfold scaled. destruct (Z.leb_spec 0 e).
  - apply Z.mul_nonneg_nonneg; [lia|apply Z.pow_nonneg; lia].
  - apply div_half_even_nonneg; [apply Z.pow_pos_nonneg; lia|lia].
Qed.

Lemma digit_value_char d : 0 <= d < 10 -> digit_value (digit_char d) = Some d.
Proof.
  intros Hd. assert (Hc : d = 0 \/ d = 1 \/ d = 2 \/ d = 3 \/ d = 4 \/ d = 5 \/ d = 6 \/ d = 7 \/
    d = 8 \/ d = 9) by lia.
  destruct Hc as [->|[->|[->|[->|[->|[->|[->|[->|[->| ->]]]]]]]]]; reflexivity.
Qed.

Lemma last_digits_digits p : forall n s, all_chars is_digit s = true ->
  all_chars is_digit (last_digits p n s) = true.
Proof.
  induction p as [|p IH]; intros n s Hs; cbn [last_digits]; [done|]. apply IH. cbn [all_chars].
  unfold is_digit at 1. rewrite digit_value_char by (apply Z.mod_pos_bound; lia). done.
Qed.

Lemma last_digits_length p : forall n s,
  String.length (last_digits p n s) = (p + String.length s)%nat.
Proof. induction p as [|p IH]; intros n s; cbn [last_digits]; [done|]. rewrite IH. cbn. lia. Qed.

(** Reading the last digits back. *)
Lemma parse_last_digits p : forall n acc s,
  parse_digits acc (last_digits p n s) =
  parse_digits (acc * 10 ^ Z.of_nat p + n mod 10 ^ Z.of_nat p) s.
Proof.
  induction p as [|p IH]; intros n acc s; cbn [last_digits].
  { cbn. rewrite Z.mod_1_r. f_equal. lia. }
  rewrite IH. cbn [parse_digits]. rewrite digit_value_char by (apply Z.mod_pos_bound; lia).
  f_equal. rewrite Nat2Z.inj_succ, Z.pow_succ_r by lia.
  rewrite (Z.rem_mul_r n 10 (10 ^ Z.of_nat p)) by (try apply Z.pow_pos_nonneg; lia). lia.
Qed.

(** The digits at the front of a text, whatever follows that is not a digit. *)
Definition no_digit (r : string) : Prop :=
  match r with "" => True | String c _ => digit_value c = None end.
Lemma take_digits_app s : forall acc n r v, all_chars is_digit s = true -> no_digit r ->
  parse_digits acc s = Some v ->
  take_digits acc n (s +:+ r) = (v, n + Z.of_nat (String.length s), r).
Proof.
  induction s as [|c s IH]; intros acc n r v Hs Hr; cbn [parse_digits all_chars String.app String.length].
  - intros [= ->]. rewrite Z.add_0_r. change ("" +:+ r) with r.
    destruct r as [|c r]; cbn [take_digits]; [done|]. cbn [no_digit] in Hr. by rewrite Hr.
  - cbn in Hs. unfold is_digit at 1 in Hs. destruct (digit_value c) as [d|] eqn:Hd; [|done]. cbn in Hs.
    intros Hv. cbn [take_digits]. change (String c s +:+ r) with (String c (s +:+ r)).
    cbn [take_digits]. rewrite Hd, (IH _ _ _ v) by done. f_equal. f_equal. lia.
Qed.

(** The decimal notation is read back as the number it denotes. *)
Lemma parse_point_digits neg p n : 0 <= n ->
  parse_number neg (point_digits p n) = Some (f64_of_decimal neg n (- Z.of_nat p)).
Proof.
  intros Hn. unfold parse_number, point_digits.
  assert (Hp : 0 < 10 ^ Z.of_nat p) by (apply Z.pow_pos_nonneg; lia).
  assert (Hi : 0 <= n / 10 ^ Z.of_nat p) by (apply Z.div_pos; lia).
  rewrite (take_digits_app _ 0 0 _ (n / 10 ^ Z.of_nat p));
    [|by apply pretty_Z_digits|by destruct p|by apply parse_digits_pretty].
  pose proof (pretty_Z_nonempty _ Hi) as Hne.
  assert (Hlen : 0 < Z.of_nat (String.length (pretty (n / 10 ^ Z.of_nat p)))).
  { destruct (pretty _); [done|]. cbn [String.length]. lia. }
  destruct p as [|p].
  - rewrite (proj2 (Z.eqb_neq _ _)) by lia. cbn [parse_exponent]. by rewrite Z.div_1_r.
  - rewrite <- (str_app_nil_r (last_digits (S p) n "")).
    rewrite (take_digits_app _ _ _ "" n); [|by apply last_digits_digits|done|].
    + rewrite last_digits_length. rewrite (proj2 (Z.eqb_neq _ _)) by lia. cbn [parse_exponent].
      do 2 f_equal. cbn [String.length]. lia.
    + rewrite parse_last_digits. cbn [parse_digits]. f_equal.
      pose proof (Z.div_mod n (10 ^ Z.of_nat (S p))). lia.
Qed.

Lemma point_digits_head p n : 0 <= n ->
  exists c r, point_digits p n = String c r /\ is_digit c = true.
Proof.
  intros Hn. unfold point_digits.
  assert (Hi : 0 <= n / 10 ^ Z.of_nat p) by (apply Z.div_pos; [lia|apply Z.pow_pos_nonneg; lia]).
  pose proof (pretty_Z_digits _ Hi) as Hd. pose proof (pretty_Z_nonempty _ Hi) as Hne.
  destruct (pretty _) as [|c r]; [done|]. cbn in Hd. split_bools. by eexists c, _.
Qed.

Lemma to_lowercase_digit c r : is_digit c = true ->
  to_lowercase (String c r) = String c (to_lowercase r).
Proof.
  unfold is_digit, digit_value. intros Hc. unfold to_lowercase. cbn [map_chars]. f_equal.
  unfold shift_char. destruct (Z.leb_spec 48 (ascii_code c)); cbn in Hc; [|done].
  destruct (Z.leb_spec (ascii_code c) 57); [|done].
  by rewrite (proj2 (Z.leb_gt 65 (ascii_code c))) by lia.
Qed.

Lemma parse_f64_point neg p n : 0 <= n ->
  parse_f64 ((if neg : bool then "-" else "") +:+ point_digits p n) =
  Some (f64_of_decimal neg n (- Z.of_nat p)).
Proof.
  intros Hn. rewrite <- parse_point_digits by done.
  destruct (point_digits_head p n Hn) as (c & r & -> & Hc).
  assert (Hwords : forall w, String.eqb (to_lowercase (String c r)) w = false \/
    (exists d t, w = String d t /\ is_digit d = true) \/ w = "").
  { intros [|d t]; [by right; right|]. rewrite to_lowercase_digit by done.
    destruct (String.eqb_spec (String c (to_lowercase r)) (String d t)) as [E|]; [|by left].
    right; left. exists d, t. injection E as <- _. done. }
  assert (Hw : forall d t, is_digit d = false -> String.eqb (to_lowercase (String c r)) (String d t) = false).
  { intros d t Hd. destruct (Hwords (String d t)) as [?|[(d' & t' & [= <- <-] & ?)|?]]; congruence. }
  destruct neg; cbn [String.append].
  - change ("-" +:+ String c r) with (String "-" (String c r)). unfold parse_f64.
    by rewrite !Hw by reflexivity.
  - change ("" +:+ String c r) with (String c r). unfold parse_f64.
    destruct (digit_not_plus c Hc) as [Hplus Hminus].
    replace (match c with "-"%char => (true, r) | "+"%char => (false, r) | _ => (false, String c r) end)
      with (false, String c r).
    + by rewrite !Hw by reflexivity.
    + destruct c as [[] [] [] [] [] [] [] []]; done.
Qed.

(** The decimals tried, and the one printed, read back as the float. *)
Lemma around_nonneg num den k n p : 0 <= num -> 0 < den -> In (n, p) (around num den k) -> 0 <= n.
Proof.
  intros Hn Hd. unfold around. set (x := decimal_exponent num den + 1 - k).
  set (q := num * 10 ^ Z.of_nat (Z.to_nat (- x)) / (den * 10 ^ Z.max 0 x)).
  assert (Hu : 0 < 10 ^ Z.max 0 x) by (apply Z.pow_pos_nonneg; lia).
  assert (0 <= 10 ^ Z.of_nat (Z.to_nat (- x))) by (apply Z.pow_nonneg; lia).
  assert (Hq : 0 <= q) by (apply Z.div_pos; nia).
  destruct (_ <=? _); intros [[= <- _]|[[= <- _]|[]]]; nia.
Qed.

Lemma shortest_reads_back fuel x num den : 0 <= num -> 0 < den -> forall k n p,
  shortest fuel x num den k = Some (n, p) -> 0 <= n /\ f64_of_decimal (f_sign x) n (- Z.of_nat p) = x.
Proof.
  intros Hn Hd. induction fuel as [|fuel IH]; intros k n p; cbn [shortest]; [done|].
  destruct (List.find _ _) as [[n' p']|] eqn:Hf; [|apply IH]. intros [= <- <-].
  apply find_some in Hf as [Hin Hs]. split; [by eapply around_nonneg|]. by apply same_float_true.
Qed.

(** The exact decimal notation of a float. *)
Lemma exact_decimal s m e : good64 (S754_finite s m e) ->
  f64_of_decimal s (Z.pos m * 2 ^ Z.max 0 e * 10 ^ Z.max 0 (- e) / 2 ^ Z.max 0 (- e))
    (- Z.of_nat (Z.to_nat (- e))) = S754_finite s m e.
Proof.
  intros Hg. assert (H10 : forall a, 0 <= a -> 10 ^ a = 2 ^ a * 5 ^ a)
    by (intros; by rewrite <- Z.pow_mul_l).
  rewrite H10 by lia. set (a := Z.max 0 (- e)).
  assert (H2 : 0 < 2 ^ a) by (apply pow2_pos; lia).
  assert (H5 : 0 < 5 ^ a) by (apply Z.pow_pos_nonneg; lia).
  assert (HE : 0 < 2 ^ Z.max 0 e) by (apply pow2_pos; lia).
  replace (Z.pos m * 2 ^ Z.max 0 e * (2 ^ a * 5 ^ a)) with (Z.pos m * 2 ^ Z.max 0 e * 5 ^ a * 2 ^ a) by ring.
  rewrite Z.div_mul by lia. unfold f64_of_decimal.
  destruct (Z.leb_spec 0 (- Z.of_nat (Z.to_nat (- e)))) as [Hle|Hgt].
  - replace (- Z.of_nat (Z.to_nat (- e))) with 0 by lia. assert (a = 0) as -> by lia.
    apply ratio_to_float_exact; try done; [cbn; nia|]. replace (Z.max 0 (- e)) with 0 by lia. ring.
  - replace (- - Z.of_nat (Z.to_nat (- e))) with a by lia. rewrite H10 by lia.
    apply ratio_to_float_exact; try done; [nia|nia|]. fold a. ring.
Qed.

Lemma display_finite s m e : good64 (S754_finite s m e) ->
  exists n p, display (S754_finite s m e) = (if s then "-" else "") +:+ point_digits p n /\ 0 <= n /\
    f64_of_decimal s n (- Z.of_nat p) = S754_finite s m e.
Proof.
  intros Hg. unfold display. set (num := Z.pos m * 2 ^ Z.max 0 e). set (den := 2 ^ Z.max 0 (- e)).
  assert (Hnum : 0 <= num) by (unfold num; pose proof (pow2_pos (Z.max 0 e)); nia).
  assert (Hden : 0 < den) by (apply pow2_pos; lia).
  destruct (shortest 17 _ num den 1) as [[n p]|] eqn:Hs; cbn [default].
  - exists n, p. split; [done|]. by apply (shortest_reads_back 17 (S754_finite s m e) num den Hnum Hden 1).
  - eexists _, _. split; [done|]. split; [|by apply exact_decimal].
    apply Z.div_pos; [|done]. apply Z.mul_nonneg_nonneg; [done|]. apply Z.pow_nonneg. lia.
Qed.

(** The characters of a printed float. *)
Definition float_char (c : ascii) : bool :=
  is_digit c || Ascii.eqb c "-" || Ascii.eqb c "." || Ascii.eqb c "i" || Ascii.eqb c "n" ||
  Ascii.eqb c "f" || Ascii.eqb c "N" || Ascii.eqb c "a".

Lemma point_digits_chars p n : 0 <= n -> all_chars float_char (point_digits p n) = true.
Proof.
  intros Hn. assert (Hd : forall t, all_chars is_digit t = true -> all_chars float_char t = true).
  { intros t. apply all_chars_impl. intros c Hc. unfold float_char. by rewrite Hc. }
  unfold point_digits. rewrite all_chars_app.
  rewrite Hd by (apply pretty_Z_digits, Z.div_pos; [lia|apply Z.pow_pos_nonneg; lia]).
  destruct p as [|p]; [done|]. cbn [andb]. cbn [all_chars].
  rewrite Hd; [done|]. by apply last_digits_digits.
Qed.

Lemma display_chars x : valid_binary 53 1024 x = true -> all_chars float_char (display x) = true.
Proof.
  destruct x as [s|s| |s m e]; intros Hv; [by destruct s|by destruct s|done|].
  destruct (display_finite s m e) as (n & p & -> & Hn & _); [done|].
  rewrite all_chars_app, point_digits_chars by done. by destruct s.
Qed.

(** Joined texts are taken apart again, when none of them has the separator. *)
Lemma split_on_join c l : l <> [] ->
  Forall (fun t => all_chars (fun x => negb (Ascii.eqb x c)) t = true) l ->
  split_on (fun x => Ascii.eqb x c) (join (String c "") l) = l.
Proof.
  intros Hne Hall. unfold join. induction Hall as [|t l Ht Hall IH]; [done|].
  destruct l as [|u l].
  - cbn [String.concat]. rewrite <- (str_app_nil_r t) at 1. rewrite split_on_token by done.
    cbn [split_on]. by rewrite str_app_nil_r.
  - change (String.concat (String c "") (t :: u :: l))
      with (t +:+ String c (String.concat (String c "") (u :: l))).
    rewrite split_on_token by done. cbn [split_on]. rewrite Ascii.eqb_refl, str_app_nil_r.
    f_equal. by apply IH.
Qed.

Lemma float_char_not c : float_char c = false -> forall x, valid_binary 53 1024 x = true ->
  all_chars (fun d => negb (Ascii.eqb d c)) (display x) = true.
Proof.
  intros Hc x Hv. eapply all_chars_impl; [|by apply display_chars].
  intros d Hd. cbn. destruct (Ascii.eqb_spec d c) as [->|]; [congruence|done].
Qed.

(** A float printed with [{}] is read back as it was, infinities, NaN and the two zeros
    included. *)
Lemma display_reads_back x : valid_binary 53 1024 x = true -> parse_f64 (display x) = Some x.
Proof.
  destruct x as [s|s| |s m e]; intros Hv; [by destruct s|by destruct s|done|].
  destruct (display_finite s m e) as (n & p & -> & Hn & Hr); [done|].
  rewrite parse_f64_point by done. by rewrite Hr.
Qed.

(** ** Properties *)

(** [n / 10 ^ p] is a multiple of [10 ^ -p] nearest to [m * 2 ^ e]. *)
Definition nearest_decimal (p : nat) (m : positive) (e n : Z) : Prop :=
  2 * Z.abs (n * 2 ^ Z.max 0 (- e) - Z.pos m * 10 ^ Z.of_nat p * 2 ^ Z.max 0 e) <= 2 ^ Z.max 0 (- e).

(** A printed number reads back.  At every precision, the text of a finite float
    parses as the float nearest to a decimal with that many places, of the same sign,
    which is as near to the float as such a decimal can be. *)
Theorem fixed_reads_back p x : is_finite x = true ->
  exists n, 0 <= n /\ parse_f64 (fixed p x) = Some (f64_of_decimal (f_sign x) n (- Z.of_nat p)) /\
    match x with S754_finite _ m e => nearest_decimal p m e n | _ => n = 0 end.
Proof.
  destruct x as [s|s| |s m e]; try done; intros _; cbn [fixed fixed_signed f_sign].
  - exists 0. split_and!; [done|by apply (parse_f64_point s)|done].
  - exists (scaled p m e). pose proof (scaled_nonneg p m e).
    split_and!; [done|by apply (parse_f64_point s)|].
    unfold nearest_decimal, scaled. destruct (Z.leb_spec 0 e).
    + rewrite (Z.max_r 0 e), (Z.max_l 0 (- e)) by lia. rewrite Z.pow_0_r.
      replace (_ - _) with 0 by lia. cbn. lia.
    + rewrite (Z.max_l 0 e), (Z.max_r 0 (- e)) by lia. rewrite Z.pow_0_r, Z.mul_1_r.
      apply div_half_even_near. apply Z.pow_pos_nonneg; lia.
Qed.

Example display_examples :
  map display [f64_lit 1 10; f64_of_Z 1; f64_lit (-5) 2; f64_lit 314159 100000; f64_of_Z 1073741824;
               f64_div (f64_of_Z 1) (f64_of_Z 3); f_zero; f64_lit 1 1000000000]
  = ["0.1"; "1"; "-2.5"; "3.14159"; "1073741824"; "0.3333333333333333"; "0"; "0.000000001"].
Proof. vm_compute. reflexivity. Qed.

Example fixed_examples :
  (fixed 2 (f64_lit 5 2), fixed 1 (f64_lit 1 4), fixed 0 (f64_lit (-5) 2), fixed 3 (f64_lit 1 1000),
   float_plus_wp 8 2 (f64_lit 314 100))
  = ("2.50", "0.2", "-2", "0.001", "   +3.14").
Proof. vm_compute. reflexivity. Qed.

Lemma fixed_reads_back_witness :
  exists n, 0 <= n /\ parse_f64 "2.67" = Some (f64_of_decimal false n (-2)) /\
    nearest_decimal 2 (match f64_lit 8 3 with S754_finite _ m _ => m | _ => 1%positive end)
      (match f64_lit 8 3 with S754_finite _ _ e => e | _ => 0 end) n.
Proof.
  destruct (fixed_reads_back 2 (f64_lit 8 3)) as (n & Hn & Hp & Hd); [reflexivity|].
  exists n. split; [exact Hn|]. split; [|exact Hd].
  assert (Ht : fixed 2 (f64_lit 8 3) = "2.67") by (vm_compute; reflexivity).
  rewrite Ht in Hp. exact Hp.
Defined.
