(* ===== verification/BTree.v ===== *)
(** * BTree: ordered maps from texts (std's BTreeMap, as src/sim/trajectory.rs uses it)

    A map is the list of its entries in the order of their keys, which is the order the
    reports iterate in. *)

From Stdlib Require Import ZArith Lia Ascii String Sorting.Sorted.
From stdpp Require Import base tactics numbers list strings.
Local Open Scope list_scope.

Definition BTreeMap (A : Type) := list (string * A).

Section BTree.
Context {A : Type}.

Fixpoint bt_get (m : BTreeMap A) (k : string) : option A :=
  match m with
  | [] => None
  | (k', v) :: m => if String.eqb k' k then Some v else bt_get m k
  end.

(** [entry(k)], then [and_modify] or [or_insert]: the new value from the old one. *)
Fixpoint bt_update (m : BTreeMap A) (k : string) (f : option A -> A) : BTreeMap A :=
  match m with
  | [] => [(k, f None)]
  | (k', v) :: rest =>
      match String.compare k k' with
      | Lt => (k, f None) :: m
      | Eq => (k', f (Some v)) :: rest
      | Gt => (k', v) :: bt_update rest k f
      end
  end.

Definition key_lt (a b : string * A) : Prop := String.compare a.1 b.1 = Lt.
Definition ordered (m : BTreeMap A) : Prop := StronglySorted key_lt m.
End BTree.

(** The tallies of the reports: [*entry(k).or_insert(0) += n]. *)
Definition tally (m : BTreeMap Z) (k : string) (n : Z) : BTreeMap Z :=
  bt_update m k (fun o => default 0%Z o + n)%Z.
Definition total (m : BTreeMap Z) : Z := foldr (fun e n => e.2 + n)%Z 0%Z m.

(** ** Lemmas: the order of texts *)

Lemma ascii_compare_trans a b c :
  Ascii.compare a b = Lt -> Ascii.compare b c = Lt -> Ascii.compare a c = Lt.
Proof. unfold Ascii.compare. rewrite !N.compare_lt_iff. lia. Qed.
Lemma ascii_compare_refl a : Ascii.compare a a = Eq.
Proof. unfold Ascii.compare. apply N.compare_refl. Qed.
Lemma string_compare_refl s : String.compare s s = Eq.
Proof. induction s as [|c s IH]; cbn; [done|]. by rewrite ascii_compare_refl. Qed.

Lemma string_compare_trans s1 : forall s2 s3,
  String.compare s1 s2 = Lt -> String.compare s2 s3 = Lt -> String.compare s1 s3 = Lt.
Proof.
  induction s1 as [|a s1 IH]; intros [|b s2] [|c s3]; cbn; try done.
  destruct (Ascii.compare a b) eqn:Hab; try done.
  - apply Ascii.compare_eq_iff in Hab as ->. destruct (Ascii.compare b c); try done. apply IH.
  - intros _. destruct (Ascii.compare b c) eqn:Hbc; try done.
    + apply Ascii.compare_eq_iff in Hbc as ->. by rewrite Hab.
    + by rewrite (ascii_compare_trans _ _ _ Hab Hbc).
Qed.

Lemma string_compare_gt a b : String.compare a b = Gt -> String.compare b a = Lt.
Proof. rewrite String.compare_antisym. by destruct (String.compare b a). Qed.

(** ** Lemmas: updates *)

Section Lemmas.
Context {A : Type}.
Implicit Types m : BTreeMap A.

Lemma bt_update_keys m k f : forall e, In e (bt_update m k f) -> e.1 = k \/ In e.1 (map fst m).
Proof.
  induction m as [|[k' v] m IH]; cbn; [intros e [<-|[]]; by left|].
  intros e. destruct (String.compare k k'); cbn.
  - intros [<-|Hin]; right; [by left|]. right. by apply in_map.
  - intros [<-|[<-|Hin]]; [by left|right; by left|]. right. right. by apply in_map.
  - intros [<-|Hin]; [right; by left|]. destruct (IH e Hin); auto.
Qed.

Lemma bt_update_ordered m k f : ordered m -> ordered (bt_update m k f).
Proof.
  unfold ordered. induction 1 as [|[k' v] m Hs IH Hall]; cbn; [by repeat constructor|].
  destruct (String.compare k k') eqn:Hc.
  - constructor; [done|]. exact Hall.
  - constructor; [by constructor|]. constructor; [done|].
    eapply Forall_impl; [exact Hall|]. intros e He. unfold key_lt in *; cbn in *.
    by eapply string_compare_trans.
  - constructor; [done|]. apply List.Forall_forall. intros e He.
    apply bt_update_keys in He as [He|He]; unfold key_lt; cbn.
    + rewrite He. by apply string_compare_gt.
    + apply in_map_iff in He as ([k2 v2] & Hk & Hin). cbn in Hk. rewrite <- Hk.
      rewrite List.Forall_forall in Hall. exact (Hall _ Hin).
Qed.

(** A smaller key is not in the map. *)
Lemma bt_get_below m k : Forall (fun e => String.compare k e.1 = Lt) m -> bt_get m k = None.
Proof.
  induction 1 as [|[k' v] m Hk _ IH]; cbn; [done|]. cbn in Hk.
  destruct (String.eqb_spec k' k) as [->|]; [|done]. by rewrite string_compare_refl in Hk.
Qed.

Lemma bt_get_update m k f k' : ordered m ->
  bt_get (bt_update m k f) k' = if String.eqb k k' then Some (f (bt_get m k)) else bt_get m k'.
Proof.
  unfold ordered. induction 1 as [|[k1 v] m Hs IH Hall]; cbn; [done|].
  destruct (String.compare k k1) eqn:Hc; cbn.
  - apply String.compare_eq_iff in Hc as ->. rewrite String.eqb_refl. by destruct (String.eqb k1 k').
  - assert (Hb : bt_get ((k1, v) :: m) k = None).
    { apply bt_get_below. constructor; [done|]. eapply Forall_impl; [exact Hall|].
      intros e He. unfold key_lt in He; cbn in He. by eapply string_compare_trans. }
    cbn in Hb. rewrite Hb. done.
  - assert (Hne : String.eqb k1 k = false).
    { apply String.eqb_neq. intros ->. by rewrite string_compare_refl in Hc. }
    rewrite Hne, IH. destruct (String.eqb_spec k1 k') as [->|]; [|done].
    rewrite String.eqb_sym, Hne. done.
Qed.
End Lemmas.

(** An update that adds [c] to the weight of one entry adds [c] to the sum of the weights. *)
Lemma bt_update_weight {A} (w : A -> Z) (m : BTreeMap A) k f c :
  (forall o, w (f o) = match o with Some v => w v | None => 0 end + c)%Z ->
  foldr (fun e n => w e.2 + n)%Z 0%Z (bt_update m k f) = (foldr (fun e n => w e.2 + n)%Z 0%Z m + c)%Z.
Proof.
  intros Hf. induction m as [|[k' v] m IH]; cbn [bt_update].
  - cbn. rewrite Hf. lia.
  - destruct (String.compare k k'); cbn [foldr fst snd]; rewrite ?Hf, ?IH; lia.
Qed.

Lemma total_tally m k n : total (tally m k n) = (total m + n)%Z.
Proof. apply (bt_update_weight id). by intros [v|]. Qed.

(** ** Lemmas: counting a list of keys *)

Definition tally_all (m : BTreeMap Z) (ks : list string) : BTreeMap Z :=
  fold_left (fun m k => tally m k 1%Z) ks m.
Definition occurrences (k : string) (ks : list string) : nat := length (List.filter (String.eqb k) ks).
Definition counted (n : nat) : option Z := match n with O => None | _ => Some (Z.of_nat n) end.

Lemma tally_all_ordered ks : forall m, ordered m -> ordered (tally_all m ks).
Proof. induction ks as [|k ks IH]; intros m Hm; [done|]. by apply IH, bt_update_ordered. Qed.

Lemma tally_all_total ks : forall m, total (tally_all m ks) = (total m + Z.of_nat (length ks))%Z.
Proof.
  induction ks as [|k ks IH]; intros m; cbn [tally_all fold_left length]; [lia|].
  fold (tally_all (tally m k 1) ks). rewrite IH, total_tally. lia.
Qed.

Lemma tally_all_get_from ks k : forall m, ordered m ->
  bt_get (tally_all m ks) k =
  match occurrences k ks with
  | O => bt_get m k
  | n => Some (default 0 (bt_get m k) + Z.of_nat n)%Z
  end.
Proof.
  induction ks as [|k1 ks IH]; intros m Hm; [done|]. cbn [tally_all fold_left].
  fold (tally_all (tally m k1 1) ks). rewrite IH by by apply bt_update_ordered.
  unfold tally at 1 2. rewrite bt_get_update by done.
  unfold occurrences; cbn [List.filter]. rewrite String.eqb_sym.
  destruct (String.eqb_spec k k1) as [->|]; [|done]. cbn [length].
  destruct (length _); cbn [default]; unfold id; f_equal; lia.
Qed.

Lemma tally_all_get ks k : bt_get (tally_all [] ks) k = counted (occurrences k ks).
Proof. rewrite tally_all_get_from by constructor. by destruct (occurrences k ks). Qed.
