(* ===== verification/Signal.v ===== *)
(** * Signal: the monitors' vocabulary (src/signal.rs, src/types.rs, src/emitter/dbus.rs)

    The levels, reasons and signals that monitors produce and policies consume, their
    D-Bus names in both directions, and the message the D-Bus emitter sends for each
    signal. *)

From Stdlib Require Import ZArith Lia SpecFloat Ascii String.
From stdpp Require Import base tactics numbers list strings.
From S2P Require Import Prelude Float.
Local Open Scope string_scope.
Local Open Scope Z_scope.

(** ** Levels (src/signal.rs) *)

Inductive Level := Normal | Warning | Critical | Emergency.
#[export] Instance Level_eq_dec : EqDecision Level.
Proof. solve_decision. Defined.

(** The derived order: position in the declaration. *)
Definition level_rank (l : Level) : Z :=
  match l with Normal => 0 | Warning => 1 | Critical => 2 | Emergency => 3 end.
Definition level_ltb (a b : Level) : bool := level_rank a <? level_rank b.
Definition level_leb (a b : Level) : bool := level_rank a <=? level_rank b.
Definition level_le (a b : Level) : Prop := level_rank a <= level_rank b.

#[export] Instance level_le_dec : RelDecision level_le.
Proof. intros a b. unfold level_le. apply _. Defined.
#[export] Instance level_le_total : TotalOrder level_le.
Proof.
  split; [split; [split|]|].
  - intros []; unfold level_le; cbn; lia.
  - intros a b c; unfold level_le; lia.
  - intros [] []; unfold level_le; cbn; (done || lia).
  - intros a b; unfold strict, level_le.
    destruct (Z.lt_trichotomy (level_rank a) (level_rank b)) as [|[]]; [left|right;left|right;right].
    + lia.
    + destruct a, b; done.
    + lia.
Qed.

Inductive RecommendedBackend := BackendCpu | BackendGpu | BackendAny.
Inductive ComputeReason :=
| CpuBottleneck | GpuBottleneck | CpuAvailable | GpuAvailable | BothLoaded | Balanced.
Inductive EnergyReason :=
| BatteryLow | BatteryCritical | PowerLimit | ThermalPower | Charging | NoReason.

#[export] Instance RecommendedBackend_eq_dec : EqDecision RecommendedBackend.
Proof. solve_decision. Defined.
#[export] Instance ComputeReason_eq_dec : EqDecision ComputeReason.
Proof. solve_decision. Defined.
#[export] Instance EnergyReason_eq_dec : EqDecision EnergyReason.
Proof. solve_decision. Defined.

(** ** D-Bus names, parsing (src/signal.rs) *)

Definition level_from_dbus_str (s : string) : option Level :=
  if String.eqb s "normal" then Some Normal
  else if String.eqb s "warning" then Some Warning
  else if String.eqb s "critical" then Some Critical
  else if String.eqb s "emergency" then Some Emergency
  else None.

Definition backend_from_dbus_str (s : string) : option RecommendedBackend :=
  if String.eqb s "cpu" then Some BackendCpu
  else if String.eqb s "gpu" then Some BackendGpu
  else if String.eqb s "any" then Some BackendAny
  else None.

Definition compute_reason_from_dbus_str (s : string) : option ComputeReason :=
  if String.eqb s "cpu_bottleneck" then Some CpuBottleneck
  else if String.eqb s "gpu_bottleneck" then Some GpuBottleneck
  else if String.eqb s "cpu_available" then Some CpuAvailable
  else if String.eqb s "gpu_available" then Some GpuAvailable
  else if String.eqb s "both_loaded" then Some BothLoaded
  else if String.eqb s "balanced" then Some Balanced
  else None.

Definition energy_reason_from_dbus_str (s : string) : option EnergyReason :=
  if String.eqb s "battery_low" then Some BatteryLow
  else if String.eqb s "battery_critical" then Some BatteryCritical
  else if String.eqb s "power_limit" then Some PowerLimit
  else if String.eqb s "thermal_power" then Some ThermalPower
  else if String.eqb s "charging" then Some Charging
  else if String.eqb s "none" then Some NoReason
  else None.

(** ** Signals (src/signal.rs) *)

Inductive SystemSignal :=
| MemoryPressure (level : Level) (available_bytes total_bytes reclaim_target_bytes : Z)
| ComputeGuidance (level : Level) (recommended_backend : RecommendedBackend)
    (reason : ComputeReason) (cpu_usage_pct gpu_usage_pct : f64)
| ThermalAlert (level : Level) (temperature_mc : Z) (throttling_active : bool)
    (throttle_ratio : f64)
| EnergyConstraint (level : Level) (reason : EnergyReason) (power_budget_mw : Z).

Definition signal_level (s : SystemSignal) : Level :=
  match s with
  | MemoryPressure l _ _ _ => l
  | ComputeGuidance l _ _ _ _ => l
  | ThermalAlert l _ _ _ => l
  | EnergyConstraint l _ _ => l
  end.

(** ** Operating modes (src/types.rs) *)

Inductive OperatingMode := ModeNormal | ModeWarning | ModeCritical.
#[export] Instance OperatingMode_eq_dec : EqDecision OperatingMode.
Proof. solve_decision. Defined.

(** ** D-Bus names, printing, and the emitted message (src/emitter/dbus.rs) *)

Definition level_to_str (l : Level) : string :=
  match l with
  | Normal => "normal" | Warning => "warning"
  | Critical => "critical" | Emergency => "emergency"
  end.

Definition backend_to_str (b : RecommendedBackend) : string :=
  match b with BackendCpu => "cpu" | BackendGpu => "gpu" | BackendAny => "any" end.

Definition compute_reason_to_str (r : ComputeReason) : string :=
  match r with
  | CpuBottleneck => "cpu_bottleneck" | GpuBottleneck => "gpu_bottleneck"
  | CpuAvailable => "cpu_available" | GpuAvailable => "gpu_available"
  | BothLoaded => "both_loaded" | Balanced => "balanced"
  end.

Definition energy_reason_to_str (r : EnergyReason) : string :=
  match r with
  | BatteryLow => "battery_low" | BatteryCritical => "battery_critical"
  | PowerLimit => "power_limit" | ThermalPower => "thermal_power"
  | Charging => "charging" | NoReason => "none"
  end.

(** One argument of a D-Bus signal body. *)
Inductive DbusArg :=
| DStr (s : string) | DU64 (n : Z) | DU32 (n : Z) | DI32 (n : Z) | DBool (b : bool) | DF64 (x : f64).

(** The member name and body that [DbusEmitter::emit_signal] hands to the connection. *)
Definition dbus_emit_signal (s : SystemSignal) : string * list DbusArg :=
  match s with
  | MemoryPressure l avail total reclaim =>
      ("MemoryPressure", [DStr (level_to_str l); DU64 avail; DU64 total; DU64 reclaim])
  | ComputeGuidance l b r cpu gpu =>
      ("ComputeGuidance",
        [DStr (level_to_str l); DStr (backend_to_str b); DStr (compute_reason_to_str r);
         DF64 cpu; DF64 gpu])
  | ThermalAlert l t throttling ratio =>
      ("ThermalAlert", [DStr (level_to_str l); DI32 t; DBool throttling; DF64 ratio])
  | EnergyConstraint l r budget =>
      ("EnergyConstraint", [DStr (level_to_str l); DStr (energy_reason_to_str r); DU32 budget])
  end.

(** The emitter on its connection: the messages the bus has taken, and whether an operation
    succeeded.  The bus may refuse a message. *)
Section DbusEmitter.
Context (system_bus name_granted : bool) (accepts : string * list DbusArg -> bool).

Definition dbus_new : option (list (string * list DbusArg)) :=
  if system_bus && name_granted then Some [] else None.
Definition dbus_emit (bus : list (string * list DbusArg)) (s : SystemSignal)
    : list (string * list DbusArg) * bool :=
  let m := dbus_emit_signal s in
  if accepts m then ((bus ++ [m])%list, true) else (bus, false).
(** The first message refused ends it. *)
Fixpoint dbus_emit_initial (bus : list (string * list DbusArg)) (signals : list SystemSignal)
    : list (string * list DbusArg) * bool :=
  match signals with
  | [] => (bus, true)
  | s :: signals =>
      let '(bus, ok) := dbus_emit bus s in
      if ok then dbus_emit_initial bus signals else (bus, false)
  end.
End DbusEmitter.

(** What a D-Bus listener that parses the names with the [from_dbus_str] functions reads
    back. *)
Definition dbus_parse_signal (m : string * list DbusArg) : option SystemSignal :=
  match m with
  | (name, DStr l :: args) =>
      l ← level_from_dbus_str l;
      match args with
      | [DU64 a; DU64 t; DU64 r] =>
          if String.eqb name "MemoryPressure" then Some (MemoryPressure l a t r) else None
      | [DStr b; DStr r; DF64 c; DF64 g] =>
          if String.eqb name "ComputeGuidance"
          then b ← backend_from_dbus_str b; r ← compute_reason_from_dbus_str r;
               Some (ComputeGuidance l b r c g)
          else None
      | [DI32 t; DBool th; DF64 x] =>
          if String.eqb name "ThermalAlert" then Some (ThermalAlert l t th x) else None
      | [DStr r; DU32 p] =>
          if String.eqb name "EnergyConstraint"
          then r ← energy_reason_from_dbus_str r; Some (EnergyConstraint l r p)
          else None
      | _ => None
      end
  | _ => None
  end.

Lemma level_dbus_roundtrip l : level_from_dbus_str (level_to_str l) = Some l.
Proof. by destruct l. Qed.
Lemma backend_dbus_roundtrip b : backend_from_dbus_str (backend_to_str b) = Some b.
Proof. by destruct b. Qed.
Lemma compute_reason_dbus_roundtrip r :
  compute_reason_from_dbus_str (compute_reason_to_str r) = Some r.
Proof. by destruct r. Qed.
Lemma energy_reason_dbus_roundtrip r :
  energy_reason_from_dbus_str (energy_reason_to_str r) = Some r.
Proof. by destruct r. Qed.

#[export] Hint Rewrite level_dbus_roundtrip backend_dbus_roundtrip
  compute_reason_dbus_roundtrip energy_reason_dbus_roundtrip : argus.

(** The parsers accept nothing but the printed names. *)
Lemma level_from_dbus_str_Some s l : level_from_dbus_str s = Some l -> s = level_to_str l.
Proof.
  unfold level_from_dbus_str. intros H.
  repeat (case_match; [apply String.eqb_eq in H0; naive_solver|clear H0]); done.
Qed.

(** D-Bus round trip.  Every signal the emitter sends is read back as itself by a
    listener that parses the names with the [from_dbus_str] functions: no two signals
    share a message. *)
Theorem dbus_signal_roundtrip s : dbus_parse_signal (dbus_emit_signal s) = Some s.
Proof. destruct s; cbn; by autorewrite with argus. Qed.

(** What the emitter puts on the bus for the initial signals is read back as those of them
    before the first refused, all of them on success. *)
Lemma dbus_emit_initial_read accepts signals : forall bus,
  exists n, dbus_emit_initial accepts bus signals =
    ((bus ++ map dbus_emit_signal (take n signals))%list, Nat.eqb n (length signals)) /\
  map dbus_parse_signal (map dbus_emit_signal (take n signals)) = map Some (take n signals).
Proof.
  assert (Hread : forall l, map dbus_parse_signal (map dbus_emit_signal l) = map Some l).
  { induction l as [|s l IH]; [done|]. cbn [map]. by rewrite IH, dbus_signal_roundtrip. }
  induction signals as [|s signals IH]; intros bus; cbn [dbus_emit_initial dbus_emit].
  { exists O. cbn. by rewrite app_nil_r. }
  unfold dbus_emit. destruct (accepts _).
  - destruct (IH (bus ++ [dbus_emit_signal s])%list) as (n & Hn & _). exists (S n).
    split; [|apply Hread]. rewrite Hn. cbn. by rewrite <- app_assoc.
  - exists O. cbn. by rewrite app_nil_r.
Qed.
