(* ===== verification/Config.v ===== *)
(** * Config: the manager's configuration and its defaults (src/config.rs)

    Deserialization from TOML is the work of [toml] and [serde]; what the program states
    itself are the record fields and the value of each when it is absent, which are the
    [default_*] definitions below. *)

From Stdlib Require Import ZArith SpecFloat Ascii String.
From stdpp Require Import base tactics numbers list strings.
From S2P Require Import Prelude Float.
Local Open Scope string_scope.
Local Open Scope Z_scope.

Record ManagerConfig := { mgr_poll_interval_ms : Z }.
Definition default_ManagerConfig : ManagerConfig := {| mgr_poll_interval_ms := 1000 |}.

Record MemoryMonitorConfig := {
  mem_enabled : bool;
  mem_poll_interval_ms : option Z;
  mem_warning_pct : f64;
  mem_critical_pct : f64;
  mem_emergency_pct : f64;
  mem_hysteresis_pct : f64
}.
Definition default_MemoryMonitorConfig : MemoryMonitorConfig := {|
  mem_enabled := true;
  mem_poll_interval_ms := None;
  mem_warning_pct := f64_lit 40 1;
  mem_critical_pct := f64_lit 20 1;
  mem_emergency_pct := f64_lit 10 1;
  mem_hysteresis_pct := f64_lit 5 1
|}.

Record ThermalMonitorConfig := {
  th_enabled : bool;
  th_poll_interval_ms : option Z;
  th_zone_types : list string;
  th_warning_mc : Z;
  th_critical_mc : Z;
  th_emergency_mc : Z;
  th_hysteresis_mc : Z
}.
Definition default_ThermalMonitorConfig : ThermalMonitorConfig := {|
  th_enabled := true;
  th_poll_interval_ms := None;
  th_zone_types := [];
  th_warning_mc := 60000;
  th_critical_mc := 75000;
  th_emergency_mc := 85000;
  th_hysteresis_mc := 5000
|}.

Inductive GpuBackend :=
| GpuAuto
| GpuNull
| GpuSysfs
| GpuCustomSysfs (path : string)
| GpuJetson
| GpuJetsonExplicit (freq_path : string) (tegrastats_bin : option string).
#[export] Instance GpuBackend_eq_dec : EqDecision GpuBackend.
Proof. solve_decision. Defined.

Record ComputeMonitorConfig := {
  cpu_enabled : bool;
  cpu_poll_interval_ms : option Z;
  cpu_warning_pct : f64;
  cpu_critical_pct : f64;
  cpu_hysteresis_pct : f64;
  gpu_sysfs_path : option string;
  gpu_backend : GpuBackend
}.
Definition default_ComputeMonitorConfig : ComputeMonitorConfig := {|
  cpu_enabled := true;
  cpu_poll_interval_ms := None;
  cpu_warning_pct := f64_lit 70 1;
  cpu_critical_pct := f64_lit 90 1;
  cpu_hysteresis_pct := f64_lit 5 1;
  gpu_sysfs_path := None;
  gpu_backend := GpuAuto
|}.

Record EnergyMonitorConfig := {
  en_enabled : bool;
  en_poll_interval_ms : option Z;
  en_warning_pct : f64;
  en_critical_pct : f64;
  en_emergency_pct : f64;
  en_warning_power_budget_mw : Z;
  en_critical_power_budget_mw : Z;
  en_emergency_power_budget_mw : Z;
  en_ignore_when_charging : bool
}.
Definition default_EnergyMonitorConfig : EnergyMonitorConfig := {|
  en_enabled := true;
  en_poll_interval_ms := None;
  en_warning_pct := f64_lit 30 1;
  en_critical_pct := f64_lit 15 1;
  en_emergency_pct := f64_lit 5 1;
  en_warning_power_budget_mw := 3000;
  en_critical_power_budget_mw := 1500;
  en_emergency_power_budget_mw := 500;
  en_ignore_when_charging := true
|}.

Record ExternalMonitorConfig := { ext_enabled : bool; ext_transport : string }.
Definition default_ExternalMonitorConfig : ExternalMonitorConfig :=
  {| ext_enabled := false; ext_transport := "stdin" |}.

Record TriggerConfig := {
  tbt_enter : f64;
  tbt_exit : f64;
  tbt_warmup_tokens : Z;
  mem_enter : f64;
  mem_exit : f64;
  temp_enter : f64;
  temp_exit : f64
}.
(** The values serde fills in for missing fields, one function each. *)
Definition default_temp_safe : f32 := f32_lit 35 1.
Definition default_temp_critical : f32 := f32_lit 50 1.
Definition default_tbt_enter : f64 := f64_lit 30 100.
Definition default_tbt_exit : f64 := f64_lit 10 100.
Definition default_tbt_warmup : Z := 20.
Definition default_mem_enter : f64 := f64_lit 80 100.
Definition default_mem_exit : f64 := f64_lit 60 100.
Definition default_temp_enter : f64 := f64_lit 70 100.
Definition default_temp_exit : f64 := f64_lit 50 100.
Definition default_dedup_cooldown_secs : f64 := f64_lit 60 1.

Definition default_TriggerConfig : TriggerConfig := {|
  tbt_enter := default_tbt_enter;
  tbt_exit := default_tbt_exit;
  tbt_warmup_tokens := default_tbt_warmup;
  mem_enter := default_mem_enter;
  mem_exit := default_mem_exit;
  temp_enter := default_temp_enter;
  temp_exit := default_temp_exit
|}.

Record AdaptationConfig := {
  temp_safe_c : f32;
  temp_critical_c : f32;
  trigger_cfg : TriggerConfig;
  dedup_cooldown_secs : f64
}.
Definition default_AdaptationConfig : AdaptationConfig := {|
  temp_safe_c := default_temp_safe;
  temp_critical_c := default_temp_critical;
  trigger_cfg := default_TriggerConfig;
  dedup_cooldown_secs := default_dedup_cooldown_secs
|}.

Record Config := {
  cfg_manager : ManagerConfig;
  cfg_memory : option MemoryMonitorConfig;
  cfg_thermal : option ThermalMonitorConfig;
  cfg_compute : option ComputeMonitorConfig;
  cfg_energy : option EnergyMonitorConfig;
  cfg_external : option ExternalMonitorConfig;
  cfg_adaptation : AdaptationConfig
}.
Definition default_Config : Config := {|
  cfg_manager := default_ManagerConfig;
  cfg_memory := None;
  cfg_thermal := None;
  cfg_compute := None;
  cfg_energy := None;
  cfg_external := None;
  cfg_adaptation := default_AdaptationConfig
|}.
