(* ===== verification/Evaluator.v ===== *)
(** * Evaluator: hysteresis thresholds (src/evaluator.rs)

    The threshold evaluator every level-producing monitor embeds, and the specification
    it implements: one evaluation moves the current level into the interval between the
    highest level whose threshold the value reaches and the highest level whose recovery
    threshold the value has not crossed. *)

From Stdlib Require Import ZArith Lia SpecFloat.
From stdpp Require Import base tactics numbers list.
From S2P Require Import Prelude Float Signal.
Local Open Scope Z_scope.

(** ** The evaluator *)

Inductive Direction := Ascending | Descending.

Record Thresholds := {
  th_warning : f64;
  th_critical : f64;
  th_emergency : f64;
  th_hysteresis : f64
}.

Record ThresholdEvaluator := {
  ev_direction : Direction;
  ev_thresholds : Thresholds;
  ev_current : Level
}.

Definition evaluator_new (d : Direction) (t : Thresholds) : ThresholdEvaluator :=
  {| ev_direction := d; ev_thresholds := t; ev_current := Normal |}.

Local Open Scope f64_scope.

Definition level_ascending (value : f64) (current : Level)
    (warning_up critical_up emergency_up hysteresis : f64) : Level :=
  let warning_down := f64_sub warning_up hysteresis in
  let critical_down := f64_sub critical_up hysteresis in
  let emergency_down := f64_sub emergency_up hysteresis in
  if (value >=? emergency_up) && level_ltb current Emergency then Emergency
  else if (value >=? critical_up) && level_ltb current Critical then Critical
  else if (value >=? warning_up) && level_ltb current Warning then Warning
  else match current with
  | Emergency =>
      if value <? emergency_down then
        if value <? warning_down then Normal
        else if value <? critical_down then Warning
        else Critical
      else current
  | Critical =>
      if value <? critical_down then
        if value <? warning_down then Normal else Warning
      else current
  | Warning => if value <? warning_down then Normal else current
  | Normal => current
  end.

Definition level_descending (value : f64) (current : Level)
    (warning_below critical_below emergency_below hysteresis : f64) : Level :=
  let warning_up := f64_add warning_below hysteresis in
  let critical_up := f64_add critical_below hysteresis in
  let emergency_up := f64_add emergency_below hysteresis in
  if (value <=? emergency_below) && level_ltb current Emergency then Emergency
  else if (value <=? critical_below) && level_ltb current Critical then Critical
  else if (value <=? warning_below) && level_ltb current Warning then Warning
  else match current with
  | Emergency =>
      if value >? emergency_up then
        if value >? warning_up then Normal
        else if value >? critical_up then Warning
        else Critical
      else current
  | Critical =>
      if value >? critical_up then
        if value >? warning_up then Normal else Warning
      else current
  | Warning => if value >? warning_up then Normal else current
  | Normal => current
  end.

Definition next_level (e : ThresholdEvaluator) (value : f64) : Level :=
  let t := ev_thresholds e in
  match ev_direction e with
  | Ascending => level_ascending value (ev_current e) (th_warning t) (th_critical t)
                   (th_emergency t) (th_hysteresis t)
  | Descending => level_descending value (ev_current e) (th_warning t) (th_critical t)
                   (th_emergency t) (th_hysteresis t)
  end.

(** [evaluate]: the updated evaluator and [Some] of the level exactly when it changed. *)
Definition evaluate (e : ThresholdEvaluator) (value : f64)
    : ThresholdEvaluator * option Level :=
  let new_level := next_level e value in
  if negb (bool_decide (new_level = ev_current e)) then
    ({| ev_direction := ev_direction e; ev_thresholds := ev_thresholds e;
        ev_current := new_level |}, Some new_level)
  else (e, None).

Definition evaluator_level (e : ThresholdEvaluator) : Level := ev_current e.

(** A run of the evaluator over successive values. *)
Fixpoint evaluate_all (e : ThresholdEvaluator) (vs : list f64) : ThresholdEvaluator :=
  match vs with [] => e | v :: vs => evaluate_all (evaluate e v).1 vs end.

(** ** Specification *)

(** The thresholds whose crossing matters, per level: a level is [reached] by a value
    and a level is [kept] as long as its recovery threshold is not crossed. *)
Definition enter_threshold (t : Thresholds) (l : Level) : f64 :=
  match l with
  | Normal => f_zero | Warning => th_warning t
  | Critical => th_critical t | Emergency => th_emergency t
  end.
Definition recovery_threshold (d : Direction) (t : Thresholds) (l : Level) : f64 :=
  match d with
  | Ascending => f64_sub (enter_threshold t l) (th_hysteresis t)
  | Descending => f64_add (enter_threshold t l) (th_hysteresis t)
  end.

Definition reached (d : Direction) (t : Thresholds) (v : f64) (l : Level) : bool :=
  match d with
  | Ascending => enter_threshold t l <=? v
  | Descending => v <=? enter_threshold t l
  end.
Definition released (d : Direction) (t : Thresholds) (v : f64) (l : Level) : bool :=
  match d with
  | Ascending => v <? recovery_threshold d t l
  | Descending => recovery_threshold d t l <? v
  end.

(** The highest level the value reaches, and the highest level it does not release. *)
Definition floor_level (d : Direction) (t : Thresholds) (v : f64) : Level :=
  if reached d t v Emergency then Emergency
  else if reached d t v Critical then Critical
  else if reached d t v Warning then Warning else Normal.
Definition ceil_level (d : Direction) (t : Thresholds) (v : f64) : Level :=
  if released d t v Warning then Normal
  else if released d t v Critical then Warning
  else if released d t v Emergency then Critical else Emergency.

Definition level_max (a b : Level) : Level := if level_ltb a b then b else a.
Definition level_min (a b : Level) : Level := if level_ltb a b then a else b.

Definition step_spec (d : Direction) (t : Thresholds) (cur : Level) (v : f64) : Level :=
  level_max (floor_level d t v) (level_min cur (ceil_level d t v)).

(** Thresholds in severity order, each with its recovery threshold on the safe side. *)
Definition no_worse (d : Direction) (x y : f64) : bool :=
  match d with Ascending => x <=? y | Descending => y <=? x end.
Definition thresholds_wf (d : Direction) (t : Thresholds) : bool :=
  no_worse d (th_warning t) (th_critical t) && no_worse d (th_critical t) (th_emergency t) &&
  no_worse d (recovery_threshold d t Warning) (recovery_threshold d t Critical) &&
  no_worse d (recovery_threshold d t Critical) (recovery_threshold d t Emergency) &&
  no_worse d (recovery_threshold d t Warning) (th_warning t) &&
  no_worse d (recovery_threshold d t Critical) (th_critical t) &&
  no_worse d (recovery_threshold d t Emergency) (th_emergency t).

(** Negated thresholds, for reading a descending metric as an ascending one. *)
Definition opp_thresholds (t : Thresholds) : Thresholds :=
  {| th_warning := SFopp (th_warning t); th_critical := SFopp (th_critical t);
     th_emergency := SFopp (th_emergency t); th_hysteresis := th_hysteresis t |}.
Definition opp_evaluator (e : ThresholdEvaluator) : ThresholdEvaluator :=
  {| ev_direction := Ascending; ev_thresholds := opp_thresholds (ev_thresholds e);
     ev_current := ev_current e |}.

(** ** Lemmas *)

#[local] Ltac eval_cases :=
  repeat match goal with
  | |- context [if ?b then _ else _] =>
      lazymatch b with context [if _ then _ else _] => fail | _ => destruct b eqn:?; cbn end
  end; try done.

Lemma SFleb_num x y : SFleb x y = true -> is_nan x = false /\ is_nan y = false.
Proof. intros H. apply SFleb_true in H. tauto. Qed.
Lemma SFltb_num x y : SFltb x y = true -> is_nan x = false /\ is_nan y = false.
Proof. intros H. apply SFltb_true in H. tauto. Qed.

(** Both directions at once, so that the case analysis is done in one place. *)
#[local] Ltac level_cases :=
  match goal with |- context [if _ then _ else _] => idtac end;
  rewrite ?andb_true_r, ?andb_false_r; eval_cases; exfalso; f_order.

Lemma next_level_spec d t cur v : thresholds_wf d t = true ->
  next_level {| ev_direction := d; ev_thresholds := t; ev_current := cur |} v
  = step_spec d t cur v.
Proof.
  unfold thresholds_wf, no_worse, recovery_threshold. intros H.
  unfold next_level, level_ascending, level_descending, step_spec, floor_level, ceil_level,
    reached, released, recovery_threshold, level_ltb, level_max, level_min.
  destruct d; cbn in *; split_bools; destruct (is_nan v) eqn:Hv;
    try (rewrite !SFleb_nan, !SFltb_nan by auto; by destruct cur);
    destruct cur; cbn; level_cases.
Qed.

Lemma evaluate_thresholds e v : ev_thresholds (evaluate e v).1 = ev_thresholds e.
Proof. unfold evaluate. by case_bool_decide. Qed.
Lemma evaluate_direction e v : ev_direction (evaluate e v).1 = ev_direction e.
Proof. unfold evaluate. by case_bool_decide. Qed.
Lemma evaluate_current e v : ev_current (evaluate e v).1 = next_level e v.
Proof. unfold evaluate. by case_bool_decide. Qed.
#[export] Hint Rewrite evaluate_thresholds evaluate_direction evaluate_current : argus.

(** The next level of any evaluator with well-formed thresholds, by the specification. *)
Lemma next_level_clamp e v : thresholds_wf (ev_direction e) (ev_thresholds e) = true ->
  next_level e v = step_spec (ev_direction e) (ev_thresholds e) (ev_current e) v.
Proof. destruct e. apply next_level_spec. Qed.

Lemma evaluate_wf d t cur v : thresholds_wf d t = true ->
  (evaluate {| ev_direction := d; ev_thresholds := t; ev_current := cur |} v).1
  = {| ev_direction := d; ev_thresholds := t; ev_current := step_spec d t cur v |}.
Proof.
  intros Hwf. unfold evaluate. rewrite next_level_spec by done.
  case_bool_decide as E; cbn in *; congruence.
Qed.

(** Level lattice facts, by enumeration. *)
Lemma step_spec_mono d t a b v w :
  level_le (floor_level d t v) (floor_level d t w) ->
  level_le (ceil_level d t v) (ceil_level d t w) ->
  level_le a b -> level_le (step_spec d t a v) (step_spec d t b w).
Proof.
  unfold step_spec. generalize (floor_level d t v) (floor_level d t w)
    (ceil_level d t v) (ceil_level d t w).
  intros [] [] [] []; unfold level_le; cbn; try lia; destruct a, b; cbn; lia.
Qed.

Lemma reached_mono d t v w l :
  no_worse d v w = true -> reached d t v l = true -> reached d t w l = true.
Proof. destruct d; cbn; eauto using SFleb_trans. Qed.
Lemma released_mono d t v w l :
  no_worse d v w = true -> released d t w l = true -> released d t v l = true.
Proof. destruct d; cbn; eauto using SFleb_ltb_trans, SFltb_leb_trans. Qed.

Lemma floor_level_mono d t v w :
  no_worse d v w = true -> level_le (floor_level d t v) (floor_level d t w).
Proof.
  intros H. unfold floor_level, level_le.
  pose proof (fun l => reached_mono d t v w l H) as Hr.
  destruct (reached d t v Emergency) eqn:E1; [by rewrite (Hr Emergency)|].
  destruct (reached d t v Critical) eqn:E2; [rewrite (Hr Critical E2); by case_match|].
  destruct (reached d t v Warning) eqn:E3; [rewrite (Hr Warning E3)|]; by repeat case_match.
Qed.

Lemma ceil_level_mono d t v w :
  no_worse d v w = true -> level_le (ceil_level d t v) (ceil_level d t w).
Proof.
  intros H. unfold ceil_level, level_le.
  pose proof (fun l => released_mono d t v w l H) as Hr.
  destruct (released d t w Warning) eqn:E1; [by rewrite (Hr Warning)|].
  destruct (released d t w Critical) eqn:E2; [rewrite (Hr Critical E2); by case_match|].
  destruct (released d t w Emergency) eqn:E3; [rewrite (Hr Emergency E3)|]; by repeat case_match.
Qed.

Lemma level_descending_opp v cur w c em h :
  level_descending v cur w c em h
  = level_ascending (SFopp v) cur (SFopp w) (SFopp c) (SFopp em) h.
Proof.
  unfold level_descending, level_ascending, f64_sub, f64_add.
  rewrite !SFsub_opp, !SFltb_opp, !SFleb_opp. done.
Qed.

(** The decision about one level inside its dead band: at least [l], or below it. *)
Lemma step_spec_dead_band d t cur v l :
  thresholds_wf d t = true -> l <> Normal ->
  reached d t v l = false -> released d t v l = false -> is_nan v = false ->
  level_leb l (step_spec d t cur v) = level_leb l cur.
Proof.
  unfold thresholds_wf. intros Hwf Hl Hr Hd Hv. split_bools.
  unfold step_spec, floor_level, ceil_level.
  destruct l; [done|..]; destruct cur; unfold reached, released, level_max, level_min, level_ltb in *;
    destruct d; cbn in *; rewrite ?Hr, ?Hd; eval_cases; exfalso; f_order.
Qed.

(** A value past the recovery point of [Warning] that does not reach it means [Normal]. *)
Lemma step_spec_normal d t cur v :
  thresholds_wf d t = true -> released d t v Warning = true -> reached d t v Warning = false ->
  step_spec d t cur v = Normal.
Proof.
  unfold thresholds_wf. intros Hwf Hd Hr. split_bools.
  unfold step_spec, floor_level, ceil_level, level_max, level_min. rewrite Hd, Hr.
  assert (is_nan v = false) as Hv by (destruct d; apply SFltb_num in Hd; tauto).
  unfold reached in *. destruct d; cbn in *; destruct cur; eval_cases; exfalso; f_order.
Qed.

(** ** Properties *)

(** C3. The evaluator implements its specification.  With thresholds in severity order,
    one call of [evaluate] on any value (NaN included) leaves direction and thresholds
    alone, sets the level to the current one raised to the highest level the value
    reaches and lowered to the highest level it does not release, and reports a level
    exactly when it changed. *)
Theorem evaluate_refines_spec e v :
  thresholds_wf (ev_direction e) (ev_thresholds e) = true ->
  let l := step_spec (ev_direction e) (ev_thresholds e) (ev_current e) v in
  evaluate e v =
    ({| ev_direction := ev_direction e; ev_thresholds := ev_thresholds e; ev_current := l |},
     if decide (l = ev_current e) then None else Some l).
Proof.
  intros Hwf l. unfold evaluate. rewrite next_level_clamp by done. fold l.
  destruct e as [d t c]; cbn in *. case_decide as E; case_bool_decide; cbn; congruence.
Qed.

Definition demo_thresholds : Thresholds :=
  {| th_warning := f64_lit 70 1; th_critical := f64_lit 90 1;
     th_emergency := f64_MAX; th_hysteresis := f64_lit 5 1 |}.

Lemma evaluate_refines_spec_witness :
  evaluate (evaluator_new Ascending demo_thresholds) (f64_lit 95 1) =
  ({| ev_direction := Ascending; ev_thresholds := demo_thresholds; ev_current := Critical |},
   Some Critical).
Proof.
  apply (evaluate_refines_spec (evaluator_new Ascending demo_thresholds) (f64_lit 95 1)).
  vm_compute. reflexivity.
Defined.

(** C8. No oscillation.  With thresholds in the order of severity, however long a run of readings, as long as every reading lies in
    the dead band of a level (it neither reaches the level's threshold nor crosses its
    recovery threshold), the evaluator's decision about that level stays what it was. *)
Theorem evaluator_no_oscillation e l vs :
  thresholds_wf (ev_direction e) (ev_thresholds e) = true -> l <> Normal ->
  Forall (fun v => is_nan v = false /\
    reached (ev_direction e) (ev_thresholds e) v l = false /\
    released (ev_direction e) (ev_thresholds e) v l = false) vs ->
  level_leb l (ev_current (evaluate_all e vs)) = level_leb l (ev_current e).
Proof.
  intros Hwf Hl Hvs. revert e Hwf Hvs. induction vs as [|v vs IH]; intros e Hwf Hvs; cbn; [done|].
  apply Forall_cons in Hvs as [(Hn & Hr & Hd) Hvs].
  rewrite IH; autorewrite with argus; auto.
  rewrite next_level_clamp by done. by apply step_spec_dead_band.
Qed.

Lemma evaluator_no_oscillation_witness :
  level_leb Warning (ev_current (evaluate_all
    (evaluate (evaluator_new Ascending demo_thresholds) (f64_lit 72 1)).1
    [f64_lit 69 1; f64_lit 66 1; f64_lit 69 1])) = true.
Proof.
  rewrite (evaluator_no_oscillation _ Warning).
  - vm_compute. reflexivity.
  - vm_compute. reflexivity.
  - discriminate.
  - repeat constructor; vm_compute; reflexivity.
Defined.

(** Monotonicity in the readings.  Two evaluators with the same thresholds, one started
    at a level at least as high and fed readings that are pointwise at least as bad, stay
    ordered for ever; in particular a worse history never gives a lower level. *)
Theorem evaluator_monotone d t a b vs ws :
  thresholds_wf d t = true -> level_le a b ->
  Forall2 (fun v w => no_worse d v w = true) vs ws ->
  level_le
    (ev_current (evaluate_all {| ev_direction := d; ev_thresholds := t; ev_current := a |} vs))
    (ev_current (evaluate_all {| ev_direction := d; ev_thresholds := t; ev_current := b |} ws)).
Proof.
  intros Hwf Hab Hvs. revert a b Hab.
  induction Hvs as [|v w vs ws Hvw _ IH]; intros a b Hab; cbn; [done|].
  rewrite !evaluate_wf by done. apply IH, step_spec_mono; auto using floor_level_mono, ceil_level_mono.
Qed.

Lemma evaluator_monotone_witness :
  level_le
    (ev_current (evaluate_all (evaluator_new Descending (opp_thresholds demo_thresholds))
       [f64_lit (-60) 1; f64_lit (-71) 1]))
    (ev_current (evaluate_all (evaluator_new Descending (opp_thresholds demo_thresholds))
       [f64_lit (-92) 1; f64_lit (-88) 1])).
Proof.
  apply (evaluator_monotone Descending (opp_thresholds demo_thresholds) Normal Normal).
  - vm_compute. reflexivity.
  - vm_compute. discriminate.
  - repeat constructor; vm_compute; reflexivity.
Defined.

(** The two directions are one algorithm.  On any thresholds, well-formed or not, and
    over any run, a descending evaluator goes through the same levels as the ascending
    one with negated thresholds reading the negated values. *)
Theorem evaluator_directions_dual e vs :
  ev_direction e = Descending ->
  ev_current (evaluate_all e vs) = ev_current (evaluate_all (opp_evaluator e) (map SFopp vs)).
Proof.
  revert e. induction vs as [|v vs IH]; intros [d t c] Hd; cbn in *; subst d; [done|].
  rewrite IH by (autorewrite with argus; done). unfold opp_evaluator at 2.
  unfold evaluate, next_level; cbn. rewrite level_descending_opp.
  by case_bool_decide.
Qed.

Lemma evaluator_directions_dual_witness :
  ev_current (evaluate_all (evaluator_new Descending demo_thresholds) [f64_lit 80 1]) =
  ev_current (evaluate_all (opp_evaluator (evaluator_new Descending demo_thresholds))
    (map SFopp [f64_lit 80 1])).
Proof. apply evaluator_directions_dual. reflexivity. Defined.
