(* ===== verification/Wire.v ===== *)
(** * Wire: the messages exchanged with the engine

    The types come from the [argus_shared] package, whose source is not part of this
    repository; what is written here is the shape the program relies on when it builds
    and matches them exhaustively (src/lua_policy.rs, src/lua/context.rs,
    src/bin/mock_engine.rs).  The largest interval of [gpu.yield] is the package's
    constant and stays a parameter wherever it is used, and so does the packages'
    equality of commands in the deduplicator.  The built-in fallback decision
    (src/lua/fallback.rs) lives here too, being a function from signals to commands. *)

From Stdlib Require Import ZArith Lia SpecFloat String.
From stdpp Require Import base tactics numbers list strings.
From S2P Require Import Prelude Float Signal.
Local Open Scope Z_scope.

Inductive EngineCommand :=
| KvCompress (budget : f32)
| RestoreDefaults
| Suspend
| Resume
| GpuYield (every : Z)
| GpuOffload (on : bool).

Record EngineDirective := { seq_id : Z; commands : list EngineCommand }.

Inductive Phase := PhaseIdle | PhasePrefill | PhaseDecode.
Inductive EngineState := EngineIdle | EngineRunning | EngineSuspended.

Record EngineStatus := {
  kv_cache_bytes : Z;
  kv_cache_budget_bytes : Z;
  kv_cache_tokens : Z;
  tbt_ms : f32;
  phase : Phase;
  state : EngineState
}.

Inductive CommandResult :=
| ResultOk
| ResultPartial (achieved : f32) (reason : string)
| ResultRejected (reason : string).

Record CommandResponse := { resp_seq_id : Z; results : list CommandResult }.

Inductive EngineMessage :=
| Heartbeat (status : EngineStatus)
| Response (resp : CommandResponse).

(** A command that survives serialization and that the engine's types accept: the budget
    is a finite fraction in (0, 1] and the interval is within the package's bound. *)
Definition wire_valid (yield_max : Z) (c : EngineCommand) : bool :=
  match c with
  | KvCompress budget =>
      is_finite budget && SFltb f_zero budget && SFleb budget (f32_lit 1 1)
  | GpuYield every => (0 <=? every) && (every <=? yield_max)
  | _ => true
  end.

(** ** Fallback (src/lua/fallback.rs) *)

Definition fallback_decide (signal : SystemSignal) : list EngineCommand :=
  match signal with
  | MemoryPressure level _ _ _ =>
      match level with
      | Normal => [RestoreDefaults]
      | Warning => [KvCompress (f32_lit 85 100)]
      | Critical => [KvCompress (f32_lit 50 100)]
      | Emergency => [KvCompress (f32_lit 25 100)]
      end
  | ThermalAlert _ _ _ _ | ComputeGuidance _ _ _ _ _ | EnergyConstraint _ _ _ => []
  end.

Lemma fallback_wire_valid ymax s : Forall (fun c => wire_valid ymax c = true) (fallback_decide s).
Proof. destruct s as [[]| | |]; repeat constructor; vm_compute; reflexivity. Qed.

#[export] Hint Resolve fallback_wire_valid : argus.
