(* ===== verification/Monitor.v ===== *)
(** * Monitor: the environment of a monitor, and its run loop (src/monitor.rs)

    A monitor reads the operating system, so its operations take an [Env]: what the file
    system and the process table answer at that moment.  [Monitor] is the trait; a
    [PollingMonitor] is a monitor whose [run] is the common loop of the memory, thermal,
    compute and energy monitors, which polls once per iteration and stops when the
    shutdown flag is up or the receiver of its signals is gone. *)

From Stdlib Require Import ZArith Lia SpecFloat Ascii String.
From stdpp Require Import base tactics numbers list strings pretty.
From S2P Require Import Prelude Float RustStr Signal.
Local Open Scope string_scope.
Local Open Scope list_scope.
Local Open Scope Z_scope.

(** ** The environment *)

(** The atomics a Jetson provider's reader thread writes (src/monitor/gpu_provider.rs): the
    last utilisation sample and whether there has been one. *)
Record JetsonCell := { util_percent : Z; util_seen : bool }.
Definition JetsonCell_new : JetsonCell := {| util_percent := 0; util_seen := false |}.

Record Env := {
  (** [read_to_string(path).ok()] *)
  fs_read : string -> option string;
  (** [Path::exists] *)
  fs_exists : string -> bool;
  (** [read_dir(path)], flattened: the entries' file names *)
  fs_entries : string -> option (list string);
  (** whether spawning the program with these arguments succeeds *)
  can_spawn : string -> list string -> bool;
  (** what the reader thread has stored so far *)
  jetson_cell : JetsonCell
}.

(** An environment where nothing can be read. *)
Definition empty_env : Env :=
  {| fs_read := fun _ => None; fs_exists := fun _ => false;
     fs_entries := fun _ => None; can_spawn := fun _ _ => false;
     jetson_cell := JetsonCell_new |}.
(** An environment of the given files. *)
Definition env_of_files (files : list (string * string)) : Env :=
  let get p := find_map (fun '(q, c) => if String.eqb p q then Some c else None) files in
  {| fs_read := get; fs_exists := fun p => match get p with Some _ => true | None => false end;
     fs_entries := fun _ => None; can_spawn := fun _ _ => false;
     jetson_cell := JetsonCell_new |}.

(** [Path::join]: an absolute right-hand side replaces the base. *)
Fixpoint ends_with_slash (s : string) : bool :=
  match s with "" => false | String c "" => Ascii.eqb c "/" | String _ r => ends_with_slash r end.
Definition path_join (base rel : string) : string :=
  match rel with
  | String "/" _ => rel
  | _ => if String.eqb base "" || ends_with_slash base then base +:+ rel else base +:+ "/" +:+ rel
  end.

(** ** The trait *)

Class Monitor (M : Type) := {
  initial_signal : M -> option SystemSignal;
  monitor_name : string
}.

(** One iteration of [run]'s loop body: the new state and the signal it sends, if any. *)
Class PollingMonitor (M : Type) `{Monitor M} := {
  poll : Env -> M -> outcome (M * option SystemSignal);
  (** A signal that is sent is the one the new state describes. *)
  poll_sends_state : forall env m m' s,
    poll env m = Return (m', Some s) -> initial_signal m' = Some s
}.

(** What one iteration finds: the shutdown flag, the file system, and whether the receiver
    of the signals still exists. *)
Record Tick := { tick_shutdown : bool; tick_env : Env; tick_rx_open : bool }.

Section Run.
Context `{PollingMonitor M}.

(** [run]: the final state and the signals sent, over the iterations given. *)
Fixpoint run (m : M) (ticks : list Tick) : outcome (M * list SystemSignal) :=
  match ticks with
  | [] => Return (m, [])
  | t :: ticks =>
      if tick_shutdown t then Return (m, [])
      else
        let! (m', sent) := poll (tick_env t) m in
        match sent with
        | None => run m' ticks
        | Some s =>
            if tick_rx_open t
            then let! (m'', ss) := run m' ticks in Return (m'', s :: ss)
            else Return (m', [])
        end
  end.

(** An invariant of polling, and what it says of the signals, hold along a run. *)
Lemma run_invariant (I : M -> Prop) (Q : SystemSignal -> Prop) :
  (forall env m m' o, I m -> poll env m = Return (m', o) ->
     I m' /\ match o with Some s => Q s | None => True end) ->
  forall ticks m m' ss, I m -> run m ticks = Return (m', ss) -> I m' /\ Forall Q ss.
Proof.
  intros Hstep. induction ticks as [|t ticks IH]; cbn; intros m m' ss Hm Hr.
  { by simplify_eq. }
  destruct (tick_shutdown t); [by simplify_eq|].
  destruct (poll (tick_env t) m) as [[m1 o]|] eqn:Hp; [|done].
  destruct (Hstep _ _ _ _ Hm Hp) as [Hm1 Ho].
  destruct o as [s|]; [|by eapply IH].
  destruct (tick_rx_open t); [|by simplify_eq].
  destruct (run m1 ticks) as [[m2 ss2]|] eqn:Hr2; [|done]. simplify_eq.
  destruct (IH _ _ _ Hm1 Hr2). by split; [|constructor].
Qed.

(** A monitor whose polls never panic never panics. *)
Lemma run_returns : (forall env m, exists r, poll env m = Return r) ->
  forall ticks m, exists r, run m ticks = Return r.
Proof.
  intros Hp. induction ticks as [|t ticks IH]; intros m; cbn; [eauto|].
  destruct (tick_shutdown t); [eauto|].
  destruct (Hp (tick_env t) m) as [[m1 [s|]] ->]; [|eauto].
  destruct (tick_rx_open t); [|eauto]. destruct (IH m1) as [[m2 ss] ->]. eauto.
Qed.
End Run.
