(* ===== verification/Pipeline.v ===== *)
(** * Pipeline: the policy interface and directive deduplication (src/pipeline.rs)

    [PolicyStrategy] is the interface the main loop drives a policy through;
    [DirectiveDeduplicator] keeps a policy that repeats itself from flooding the engine. *)

From Stdlib Require Import ZArith Lia SpecFloat String.
From stdpp Require Import base tactics numbers list strings.
From S2P Require Import Prelude Float Signal Wire Monitor.
Local Open Scope Z_scope.

(** ** Inspection *)

(** The calls a [PolicyVisitor] receives. *)
Inductive Recorded :=
| RecF32 (key : string) (value : f32)
| RecU64 (key : string) (value : Z)
| RecString (key : string) (value : string).

(** ** The policy interface *)

(** A policy whose state, together with the world it acts on, is a value of [P].  A reload
    reads the file system as it is at that moment. *)
Class PolicyStrategy (P : Type) := {
  process_signal : P -> SystemSignal -> outcome (P * option EngineDirective);
  update_engine_state : P -> EngineMessage -> outcome P;
  mode : P -> OperatingMode;
  save_model : P -> P;
  inspect_state : P -> list Recorded;
  cancel_last_observation : P -> P;
  script_path : P -> option (option string);
  reload_script : Env -> P -> string -> P * result unit string
}.
(** [script_path] is [as_reloadable] followed by [ReloadablePolicy::script_path]: the outer
    option is [None] for a policy that does not support hot reload. *)

(** The trait's default methods. *)
Definition default_save_model {P} (p : P) : P := p.
Definition default_inspect_state {P} (p : P) : list Recorded := [].
Definition default_cancel_last_observation {P} (p : P) : P := p.
Definition default_script_path {P} (p : P) : option (option string) := None.

(** [OverrunCollector]: the last [observation_overrun_count] the policy records. *)
Definition overrun_visit (count : Z) (r : Recorded) : Z :=
  match r with
  | RecU64 key value => if String.eqb key "observation_overrun_count"%string then value else count
  | RecF32 _ _ | RecString _ _ => count
  end.
Definition get_observation_overrun_count `{PolicyStrategy P} (p : P) : Z :=
  fold_left overrun_visit (inspect_state p) 0.

(** ** Sequence numbers *)

Definition SEQ_COUNTER_init : Z := 1.

(** [fetch_add] on the [AtomicU64]: the previous value is returned, the counter wraps. *)
Definition next_seq_id (counter : Z) : Z * Z := (counter, wrap 0 u64_max (counter + 1)).

(** ** Deduplication *)

(** The equality of [Vec]s from the equality of their elements. *)
Fixpoint vec_eqb {A} (eqb : A -> A -> bool) (xs ys : list A) : bool :=
  match xs, ys with
  | [], [] => true
  | x :: xs, y :: ys => eqb x y && vec_eqb eqb xs ys
  | _, _ => false
  end.

Section Dedup.
(** [EngineCommand]'s [PartialEq], which belongs to [argus_shared]. *)
Context (command_eqb : EngineCommand -> EngineCommand -> bool).

Record DirectiveDeduplicator := {
  last_commands : option (list EngineCommand);
  last_sent_at : option f64;
  cooldown_secs : f64
}.

Definition with_cooldown (cooldown : f64) : DirectiveDeduplicator :=
  {| last_commands := None; last_sent_at := None; cooldown_secs := cooldown |}.
Definition dedup_new : DirectiveDeduplicator := with_cooldown (f64_lit 60 1).

Definition is_dup (d : DirectiveDeduplicator) (cmds : list EngineCommand) : bool :=
  match last_commands d with
  | Some last => vec_eqb command_eqb last cmds
  | None => false
  end.
Definition cooldown_elapsed (d : DirectiveDeduplicator) (now_secs : f64) : bool :=
  match last_sent_at d with
  | Some t => SFleb (cooldown_secs d) (f64_sub now_secs t)
  | None => false
  end.

Definition process (d : DirectiveDeduplicator) (directive : EngineDirective) (now_secs : f64)
    : DirectiveDeduplicator * option EngineDirective :=
  let suppress := is_dup d (commands directive) && negb (cooldown_elapsed d now_secs) in
  if suppress then (d, None)
  else ({| last_commands := Some (commands directive); last_sent_at := Some now_secs;
           cooldown_secs := cooldown_secs d |}, Some directive).

(** A run: the directives that get through, each with the time it was emitted. *)
Fixpoint dedup_run (d : DirectiveDeduplicator) (inputs : list (EngineDirective * f64))
    : DirectiveDeduplicator * list (EngineDirective * f64) :=
  match inputs with
  | [] => (d, [])
  | (dir, now) :: inputs =>
      let '(d', out) := process d dir now in
      let '(d'', outs) := dedup_run d' inputs in
      (d'', match out with Some dir' => (dir', now) :: outs | None => outs end)
  end.

(** What the deduplicator remembers is the last emission, if there was one. *)
Definition last_emission (d : DirectiveDeduplicator) (sent : option (EngineDirective * f64)) : Prop :=
  match sent with
  | Some (dir, t) => last_commands d = Some (commands dir) /\ last_sent_at d = Some t
  | None => last_commands d = None /\ last_sent_at d = None
  end.

Lemma process_cooldown d dir now : cooldown_secs (process d dir now).1 = cooldown_secs d.
Proof. unfold process. by case_match. Qed.

Lemma process_cases d sent dir now : last_emission d sent ->
  (process d dir now = (d, None) /\
     exists dir' t, sent = Some (dir', t) /\
       vec_eqb command_eqb (commands dir') (commands dir) = true /\
       SFleb (cooldown_secs d) (f64_sub now t) = false) \/
  ((process d dir now).2 = Some dir /\ last_emission (process d dir now).1 (Some (dir, now)) /\
     forall dir' t, sent = Some (dir', t) ->
       vec_eqb command_eqb (commands dir') (commands dir) = true ->
       SFleb (cooldown_secs d) (f64_sub now t) = true).
Proof.
  intros Hs. unfold process, is_dup, cooldown_elapsed.
  destruct sent as [[dir' t]|]; destruct Hs as [-> ->]; cbn.
  - destruct (vec_eqb _ _ _) eqn:Hv; cbn.
    + destruct (SFleb _ _) eqn:Hc; cbn; [right|left; eauto 6].
      split_and!; [done..|]. intros; by simplify_eq.
    + right. split_and!; [done..|]. intros; simplify_eq. congruence.
  - right. split_and!; done.
Qed.

(** Adjacent emissions, the given one included, are spaced. *)
Definition spaced (cooldown : f64) (e1 e2 : EngineDirective * f64) : Prop :=
  vec_eqb command_eqb (commands e1.1) (commands e2.1) = true ->
  SFleb cooldown (f64_sub e2.2 e1.2) = true.

Lemma dedup_run_spaced inputs : forall d sent outs,
  last_emission d sent -> (dedup_run d inputs).2 = outs ->
  forall l1 e1 e2 l2, option_list sent ++ outs = l1 ++ e1 :: e2 :: l2 ->
    spaced (cooldown_secs d) e1 e2.
Proof.
  induction inputs as [|[dir now] inputs IH]; intros d sent outs Hs Ho l1 e1 e2 l2 He.
  - cbn in Ho. subst outs. destruct sent as [e0|], l1 as [|? [|? ?]]; discriminate He.
  - cbn in Ho. pose proof (process_cooldown d dir now) as Hcd.
    destruct (process_cases d sent dir now Hs) as [[Hp _]|(Hout & Hlast & Hsp)].
    + rewrite Hp in Ho. destruct (dedup_run d inputs) eqn:E; cbn in Ho; subst.
      eapply IH; eauto. by rewrite E.
    + destruct (process d dir now) as [d' out] eqn:Hp; cbn in *; subst out.
      destruct (dedup_run d' inputs) as [d'' outs'] eqn:E; cbn in Ho; subst outs.
      destruct sent as [e0|]; cbn in He.
      * destruct l1 as [|x l1]; simplify_eq/=.
        { intros Hv. destruct e1 as [dir' t]. by eapply Hsp. }
        rewrite <- Hcd. eapply (IH d' (Some (dir, now))); eauto. by rewrite E.
      * rewrite <- Hcd. eapply (IH d' (Some (dir, now))); eauto. by rewrite E.
Qed.

Lemma vec_eqb_refl xs : Forall (fun c => command_eqb c c = true) xs -> vec_eqb command_eqb xs xs = true.
Proof. induction 1; cbn; [done|]. by rewrite H. Qed.

(** After any input the remembered batch equals the input's. *)
Lemma process_up_to_date d dir now :
  Forall (fun c => command_eqb c c = true) (commands dir) ->
  is_dup (process d dir now).1 (commands dir) = true.
Proof.
  intros Hr. unfold process. destruct (is_dup d (commands dir)) eqn:Hd; cbn.
  - case_match; cbn; [done|]. unfold is_dup; cbn. by apply vec_eqb_refl.
  - unfold is_dup; cbn. by apply vec_eqb_refl.
Qed.
End Dedup.

(** ** Properties *)

(** Consecutive identical emissions are spaced by the cooldown.  In the directives a
    fresh deduplicator lets through, over any sequence of directives and times, two
    neighbours with equal commands are at least [cooldown] seconds apart by the clock
    readings they were processed with. *)
Theorem dedup_spacing command_eqb cooldown inputs l1 e1 e2 l2 :
  (dedup_run command_eqb (with_cooldown cooldown) inputs).2 = l1 ++ e1 :: e2 :: l2 ->
  vec_eqb command_eqb (commands e1.1) (commands e2.1) = true ->
  SFleb cooldown (f64_sub e2.2 e1.2) = true.
Proof.
  intros Ho. apply (dedup_run_spaced command_eqb inputs (with_cooldown cooldown) None _
    (conj eq_refl eq_refl) Ho l1 e1 e2 l2). reflexivity.
Qed.

(** A concrete equality for the examples. *)
Definition demo_eqb (a b : EngineCommand) : bool :=
  match a, b with
  | KvCompress x, KvCompress y => SFeqb x y
  | RestoreDefaults, RestoreDefaults | Suspend, Suspend | Resume, Resume => true
  | GpuYield x, GpuYield y => Z.eqb x y
  | GpuOffload x, GpuOffload y => Bool.eqb x y
  | _, _ => false
  end.
Definition demo_directive (n : Z) : EngineDirective :=
  {| seq_id := n; commands := [KvCompress (f32_lit 1 2)] |}.

Lemma dedup_spacing_witness :
  SFleb (f64_lit 60 1) (f64_sub (f64_lit 65 1) (f64_lit 1 1)) = true.
Proof.
  apply (dedup_spacing demo_eqb (f64_lit 60 1)
    [(demo_directive 1, f64_lit 1 1); (demo_directive 2, f64_lit 9 1);
     (demo_directive 3, f64_lit 65 1)]
    [] (demo_directive 1, f64_lit 1 1) (demo_directive 3, f64_lit 65 1) []);
    vm_compute; reflexivity.
Defined.

(** The engine is never left behind.  After each directive is processed, emitted or
    suppressed, the last batch that went out equals the batch just decided; and a
    suppressed directive changes nothing, while an emitted one is passed on unchanged. *)
Theorem dedup_up_to_date command_eqb d dir now :
  Forall (fun c => command_eqb c c = true) (commands dir) ->
  let '(d', out) := process command_eqb d dir now in
  is_dup command_eqb d' (commands dir) = true /\
  match out with
  | None => d' = d /\ cooldown_elapsed d now = false
  | Some dir' => dir' = dir /\ last_commands d' = Some (commands dir) /\ last_sent_at d' = Some now
  end.
Proof.
  intros Hr. pose proof (process_up_to_date command_eqb d dir now Hr) as Hu.
  destruct (process command_eqb d dir now) as [d' out] eqn:Hp; cbn in Hu. split; [done|].
  unfold process in Hp. case_match eqn:Hs; simplify_eq; [|done].
  split_bools. done.
Qed.

Lemma dedup_up_to_date_witness :
  let '(d', out) := process demo_eqb (with_cooldown (f64_lit 60 1)) (demo_directive 1) (f64_lit 5 1) in
  is_dup demo_eqb d' (commands (demo_directive 1)) = true /\
  match out with
  | None => d' = with_cooldown (f64_lit 60 1) /\
            cooldown_elapsed (with_cooldown (f64_lit 60 1)) (f64_lit 5 1) = false
  | Some dir' => dir' = demo_directive 1 /\
      last_commands d' = Some (commands (demo_directive 1)) /\ last_sent_at d' = Some (f64_lit 5 1)
  end.
Proof. apply (dedup_up_to_date demo_eqb). repeat constructor. Defined.
