(* ===== verification/PolicyState.v ===== *)
(** * PolicyState: pressures, triggers and the token-time tracker
    (src/policy/common/state.rs)

    The platform-independent half of the policy's input: readings normalised to pressures,
    and the three enter/exit latches. *)

From Stdlib Require Import ZArith Lia SpecFloat.
From stdpp Require Import base tactics numbers list.
From S2P Require Import Prelude Float Config.
Local Open Scope Z_scope.

(** ** Pressure *)

Definition RELIEF_DIMS : nat := 6.

Record Pressure6D := {
  pr_gpu : f32; pr_cpu : f32; pr_memory : f32;
  pr_thermal : f32; pr_latency : f32; pr_main_app : f32
}.
Definition pressure_to_array (p : Pressure6D) : list f32 :=
  [pr_gpu p; pr_cpu p; pr_memory p; pr_thermal p; pr_latency p; pr_main_app p].

Record SignalState := {
  cpu_pct : f64;
  gpu_pct : f64;
  mem_available : Z;
  mem_total : Z;
  temp_mc : Z;
  throttling : bool
}.
Definition SignalState_default : SignalState :=
  {| cpu_pct := f_zero; gpu_pct := f_zero; mem_available := 0; mem_total := 0;
     temp_mc := 0; throttling := false |}.

Definition update_compute (s : SignalState) (cpu gpu : f64) : SignalState :=
  {| cpu_pct := cpu; gpu_pct := gpu; mem_available := mem_available s;
     mem_total := mem_total s; temp_mc := temp_mc s; throttling := throttling s |}.
Definition update_memory (s : SignalState) (available total : Z) : SignalState :=
  {| cpu_pct := cpu_pct s; gpu_pct := gpu_pct s; mem_available := available;
     mem_total := total; temp_mc := temp_mc s; throttling := throttling s |}.
Definition update_thermal (s : SignalState) (mc : Z) (thr : bool) : SignalState :=
  {| cpu_pct := cpu_pct s; gpu_pct := gpu_pct s; mem_available := mem_available s;
     mem_total := mem_total s; temp_mc := mc; throttling := thr |}.

Definition f32_one : f32 := f32_lit 1 1.

Definition pressure_with_thermal (s : SignalState) (temp_safe_c temp_critical_c : f32)
    (latency_ratio : option f64) : Pressure6D :=
  let mem_pressure :=
    if 0 <? mem_total s
    then f32_sub f32_one (f32_div (f32_of_Z (mem_available s)) (f32_of_Z (mem_total s)))
    else f_zero in
  let temp_c := f32_div (f32_of_Z (temp_mc s)) (f32_lit 1000 1) in
  let temp_range := f32_sub temp_critical_c temp_safe_c in
  let thermal :=
    if SFltb f_zero temp_range
    then f_clamp (f32_div (f32_sub temp_c temp_safe_c) temp_range) f_zero f32_one
    else f_zero in
  {| pr_gpu := f_clamp (f32_div (f32_of_f64 (gpu_pct s)) (f32_lit 100 1)) f_zero f32_one;
     pr_cpu := f_clamp (f32_div (f32_of_f64 (cpu_pct s)) (f32_lit 100 1)) f_zero f32_one;
     pr_memory := f_clamp mem_pressure f_zero f32_one;
     pr_thermal := thermal;
     pr_latency := f32_of_f64 (default f_zero latency_ratio);
     pr_main_app := f_zero |}.

(** ** Triggers *)

Record TriggerState := { tbt_degraded : bool; mem_low : bool; temp_high : bool }.
Definition TriggerState_default : TriggerState :=
  {| tbt_degraded := false; mem_low := false; temp_high := false |}.

Record TbtTracker := {
  ewma : f64; baseline : option f64; warmup_count : Z; warmup_target : Z
}.
Definition TbtTracker_new (target : Z) : TbtTracker :=
  {| ewma := f_zero; baseline := None; warmup_count := 0; warmup_target := target |}.

Definition ewma_step (old tbt_ms : f64) : f64 :=
  f64_add (f64_mul (f64_lit 875 1000) old) (f64_mul (f64_lit 125 1000) tbt_ms).

Definition observe (oc : bool) (t : TbtTracker) (tbt_ms : f64) : outcome TbtTracker :=
  let e := if warmup_count t =? 0 then tbt_ms else ewma_step (ewma t) tbt_ms in
  let! count := u32_arith oc (warmup_count t + 1) in
  Return {|
    ewma := e;
    baseline :=
      match baseline t with
      | None => if warmup_target t <=? count then Some e else None
      | Some b => Some b
      end;
    warmup_count := count;
    warmup_target := warmup_target t
  |}.

Definition degradation_ratio (t : TbtTracker) : option f64 :=
  match baseline t with
  | Some b => Some (if SFltb f_zero b then f64_div (f64_sub (ewma t) b) b else f_zero)
  | None => None
  end.

Record TriggerEngine := {
  te_config : TriggerConfig; te_tbt : TbtTracker; te_trigger : TriggerState
}.
Definition TriggerEngine_new (c : TriggerConfig) : TriggerEngine :=
  {| te_config := c; te_tbt := TbtTracker_new (tbt_warmup_tokens c);
     te_trigger := TriggerState_default |}.

Definition set_tbt_degraded (t : TriggerState) (b : bool) : TriggerState :=
  {| tbt_degraded := b; mem_low := mem_low t; temp_high := temp_high t |}.
Definition set_mem_low (t : TriggerState) (b : bool) : TriggerState :=
  {| tbt_degraded := tbt_degraded t; mem_low := b; temp_high := temp_high t |}.
Definition set_temp_high (t : TriggerState) (b : bool) : TriggerState :=
  {| tbt_degraded := tbt_degraded t; mem_low := mem_low t; temp_high := b |}.
Definition with_trigger (e : TriggerEngine) (t : TriggerState) : TriggerEngine :=
  {| te_config := te_config e; te_tbt := te_tbt e; te_trigger := t |}.

Definition update_tbt_ms (oc : bool) (e : TriggerEngine) (tbt_ms : f64) : outcome TriggerEngine :=
  if negb (is_finite tbt_ms) || SFleb tbt_ms f_zero then Return e
  else
    let! tbt := observe oc (te_tbt e) tbt_ms in
    let e := {| te_config := te_config e; te_tbt := tbt; te_trigger := te_trigger e |} in
    match degradation_ratio (te_tbt e) with
    | Some ratio =>
        if tbt_degraded (te_trigger e) then
          if SFltb ratio (tbt_exit (te_config e))
          then Return (with_trigger e (set_tbt_degraded (te_trigger e) false))
          else Return e
        else if SFltb (tbt_enter (te_config e)) ratio
          then Return (with_trigger e (set_tbt_degraded (te_trigger e) true))
          else Return e
    | None => Return e
    end.

Definition update_mem (e : TriggerEngine) (pressure : f64) : TriggerEngine :=
  if mem_low (te_trigger e) then
    if SFltb pressure (mem_exit (te_config e))
    then with_trigger e (set_mem_low (te_trigger e) false) else e
  else if SFltb (mem_enter (te_config e)) pressure
    then with_trigger e (set_mem_low (te_trigger e) true) else e.

Definition update_temp (e : TriggerEngine) (normalized : f64) : TriggerEngine :=
  if temp_high (te_trigger e) then
    if SFltb normalized (temp_exit (te_config e))
    then with_trigger e (set_temp_high (te_trigger e) false) else e
  else if SFltb (temp_enter (te_config e)) normalized
    then with_trigger e (set_temp_high (te_trigger e) true) else e.

Definition trigger_state (e : TriggerEngine) : TriggerState := te_trigger e.
Definition tbt_degradation_ratio (e : TriggerEngine) : option f64 := degradation_ratio (te_tbt e).

(** ** Specifications *)

(** An enter/exit latch, and the decision of a run of readings: the most recent reading
    outside the band decides. *)
Definition latch (enter exit_ : f64) (on : bool) (v : f64) : bool :=
  if on then negb (SFltb v exit_) else SFltb enter v.
Definition decisive (enter exit_ v : f64) : option bool :=
  if SFltb enter v then Some true else if SFltb v exit_ then Some false else None.
Fixpoint last_decisive (enter exit_ : f64) (vs : list f64) : option bool :=
  match vs with
  | [] => None
  | v :: vs =>
      match last_decisive enter exit_ vs with
      | Some b => Some b
      | None => decisive enter exit_ v
      end
  end.

(** The observations the tracker accepts, and the average it has after them. *)
Definition tbt_valid (v : f64) : bool := is_finite v && negb (SFleb v f_zero).
Definition ewma_all (vs : list f64) : f64 :=
  match vs with [] => f_zero | v :: vs => fold_left ewma_step vs v end.

(** The tracker state after a run of accepted observations. *)
Definition tracker_spec (target : Z) (vs : list f64) : TbtTracker :=
  let warm := Z.to_nat (Z.max 1 target) in
  {| ewma := ewma_all vs;
     baseline := if (warm <=? length vs)%nat then Some (ewma_all (take warm vs)) else None;
     warmup_count := Z.of_nat (length vs);
     warmup_target := target |}.

(** A run of heartbeat times through the trigger engine. *)
Fixpoint update_tbt_all (oc : bool) (e : TriggerEngine) (vs : list f64) : outcome TriggerEngine :=
  match vs with
  | [] => Return e
  | v :: vs => let! e := update_tbt_ms oc e v in update_tbt_all oc e vs
  end.

(** ** Lemmas *)

Lemma thermal_pressure_unit t safe range :
  is_finite safe = true -> is_nan t = false -> is_finite range = true ->
  in_unit f32_one
    (if SFltb f_zero range then f_clamp (f32_div (f32_sub t safe) range) f_zero f32_one else f_zero)
  = true.
Proof.
  intros Hs Ht Hr. destruct (SFltb f_zero range) eqn:Hpos; [|reflexivity].
  destruct (pos_finite_inv range Hr Hpos) as (m & e & ->).
  apply f_clamp_in_unit; [reflexivity|]. apply SFdiv_not_nan, SFsub_not_nan; auto.
  by apply is_finite_not_nan.
Qed.

Lemma f32_div_100_not_nan x : is_nan x = false -> is_nan (f32_div x (f32_lit 100 1)) = false.
Proof. apply SFdiv_not_nan. Qed.
Lemma temp_c_not_nan mc : is_nan (f32_div (f32_of_Z mc) (f32_lit 1000 1)) = false.
Proof. apply SFdiv_not_nan, f32_of_Z_not_nan. Qed.
Lemma f32_of_f64_nan x : is_nan (f32_of_f64 x) = is_nan x.
Proof. apply f_convert_nan. Qed.

Lemma pct_pressure_unit x : is_nan x = false ->
  in_unit f32_one (f_clamp (f32_div (f32_of_f64 x) (f32_lit 100 1)) f_zero f32_one) = true.
Proof.
  intros Hx. apply f_clamp_in_unit; [reflexivity|].
  apply f32_div_100_not_nan. by rewrite f32_of_f64_nan.
Qed.

(** One minus a ratio of a byte count to a positive byte count is a number. *)
Lemma mem_ratio_not_nan available total : 0 < total <= u64_max ->
  is_nan (f32_sub f32_one (f32_div (f32_of_Z available) (f32_of_Z total))) = false.
Proof.
  intros Ht. destruct (f32_of_Z_pos total Ht) as (m & e & ->).
  apply SFsub_not_nan; [done| |by left]. apply SFdiv_not_nan, f32_of_Z_not_nan.
Qed.

Lemma update_mem_latch e v :
  update_mem e v = with_trigger e (set_mem_low (te_trigger e)
    (latch (mem_enter (te_config e)) (mem_exit (te_config e)) (mem_low (te_trigger e)) v)).
Proof.
  destruct e as [c tbt [a b d]]. unfold update_mem, latch; cbn. destruct b; by case_match.
Qed.
Lemma update_temp_latch e v :
  update_temp e v = with_trigger e (set_temp_high (te_trigger e)
    (latch (temp_enter (te_config e)) (temp_exit (te_config e)) (temp_high (te_trigger e)) v)).
Proof.
  destruct e as [c tbt [a b d]]. unfold update_temp, latch; cbn. destruct d; by case_match.
Qed.

Lemma latch_decisive enter exit_ on v : SFleb exit_ enter = true ->
  latch enter exit_ on v = default on (decisive enter exit_ v).
Proof.
  intros Hb. unfold latch, decisive. destruct on.
  - destruct (SFltb enter v) eqn:H1; [|by destruct (SFltb v exit_)]. cbn.
    apply negb_true_iff. destruct (SFltb v exit_) eqn:H2; [|done]. f_order.
  - by destruct (SFltb enter v), (SFltb v exit_).
Qed.

Lemma last_decisive_app enter exit_ vs ws :
  last_decisive enter exit_ (vs ++ ws) =
  match last_decisive enter exit_ ws with
  | Some b => Some b
  | None => last_decisive enter exit_ vs
  end.
Proof.
  induction vs as [|v vs IH]; cbn; [by case_match|]. rewrite IH. by case_match.
Qed.

Lemma ewma_all_snoc vs v : vs <> [] -> ewma_all (vs ++ [v]) = ewma_step (ewma_all vs) v.
Proof. destruct vs as [|w vs]; [done|]. intros _. cbn. by rewrite fold_left_app. Qed.

Lemma observe_spec oc target vs v :
  Z.of_nat (length vs) < u32_max ->
  observe oc (tracker_spec target vs) v = Return (tracker_spec target (vs ++ [v])).
Proof.
  intros Hlen. unfold observe, tracker_spec. cbn [warmup_count ewma baseline warmup_target].
  set (warm := Z.to_nat (Z.max 1 target)).
  unfold u32_arith. rewrite arith_in_range by lia.
  assert (He : (if Z.of_nat (length vs) =? 0 then v else ewma_step (ewma_all vs) v)
               = ewma_all (vs ++ [v])).
  { destruct vs as [|w vs]; [done|]. by rewrite ewma_all_snoc. }
  rewrite He, length_app; cbn [length].
  replace (Z.of_nat (length vs + 1)) with (Z.of_nat (length vs) + 1) by lia. do 2 f_equal.
  destruct (Nat.leb_spec warm (length vs)) as [H|H].
  - rewrite (proj2 (Nat.leb_le _ _)) by lia. by rewrite take_app_le.
  - destruct (Z.leb_spec target (Z.of_nat (length vs) + 1)).
    + rewrite (proj2 (Nat.leb_le _ _)) by lia.
      rewrite take_ge by (rewrite length_app; cbn; lia). done.
    + by rewrite (proj2 (Nat.leb_gt _ _)) by lia.
Qed.

(** The degradation ratios seen while a run of accepted observations is processed. *)
Fixpoint ratios (target : Z) (done_ vs : list f64) : list f64 :=
  match vs with
  | [] => []
  | v :: vs =>
      option_list (degradation_ratio (tracker_spec target (done_ ++ [v])))
      ++ ratios target (done_ ++ [v]) vs
  end.

Definition engine_at (c : TriggerConfig) (t : TriggerState) (vs : list f64) : TriggerEngine :=
  {| te_config := c; te_tbt := tracker_spec (tbt_warmup_tokens c) vs; te_trigger := t |}.

Lemma update_tbt_invalid oc e v : tbt_valid v = false -> update_tbt_ms oc e v = Return e.
Proof. unfold update_tbt_ms, tbt_valid. by destruct (is_finite v), (SFleb v f_zero). Qed.

Lemma update_tbt_valid oc c t vs v :
  Z.of_nat (length vs) < u32_max -> tbt_valid v = true ->
  update_tbt_ms oc (engine_at c t vs) v =
  Return (engine_at c
    (match degradation_ratio (tracker_spec (tbt_warmup_tokens c) (vs ++ [v])) with
     | Some r => set_tbt_degraded t (latch (tbt_enter c) (tbt_exit c) (tbt_degraded t) r)
     | None => t
     end) (vs ++ [v])).
Proof.
  intros Hlen Hv. unfold update_tbt_ms. unfold tbt_valid in Hv. split_bools.
  rewrite H, H0. cbn [negb orb]. unfold engine_at at 1. cbn [te_tbt].
  rewrite observe_spec by done. cbn [te_tbt te_trigger te_config engine_at].
  destruct (degradation_ratio _) as [r|]; [|done].
  destruct t as [a b d]; unfold latch; cbn. destruct a; by case_match.
Qed.

Lemma update_tbt_all_spec oc c vs : SFleb (tbt_exit c) (tbt_enter c) = true ->
  forall t done_,
  Z.of_nat (length done_) + Z.of_nat (length vs) <= u32_max ->
  update_tbt_all oc (engine_at c t done_) vs =
  Return (engine_at c
    (set_tbt_degraded t (default (tbt_degraded t)
      (last_decisive (tbt_enter c) (tbt_exit c)
        (ratios (tbt_warmup_tokens c) done_ (List.filter tbt_valid vs)))))
    (done_ ++ List.filter tbt_valid vs)).
Proof.
  intros Hc. induction vs as [|v vs IH]; intros t done_ Hlen.
  - cbn. rewrite app_nil_r. by destruct t.
  - cbn [update_tbt_all List.filter]. cbn [length] in Hlen. destruct (tbt_valid v) eqn:Hv.
    + rewrite update_tbt_valid by (done || lia). rewrite IH by (rewrite length_app; cbn; lia).
      rewrite <- app_assoc. cbn [app ratios]. do 2 f_equal.
      rewrite last_decisive_app. destruct (degradation_ratio _) as [r|] eqn:Hr; cbn.
      * rewrite latch_decisive by done. destruct (last_decisive _ _ _); [done|].
        by destruct (decisive _ _ r).
      * by destruct (last_decisive _ _ _).
    + rewrite update_tbt_invalid by done. apply IH. lia.
Qed.

(** ** Properties *)

(** C35. Pressures are fractions.  Whatever the readings, as long as the usage percentages
    are numbers and the safe/critical temperatures and their difference are finite, the
    GPU, CPU, memory and thermal pressures handed to the policy lie in [0, 1]: no reading,
    no zero total and no inverted temperature range makes one a NaN. *)
Theorem pressure_in_unit_interval s safe critical ratio :
  is_nan (gpu_pct s) = false -> is_nan (cpu_pct s) = false -> is_u64 (mem_total s) ->
  is_finite safe = true -> is_finite (f32_sub critical safe) = true ->
  let p := pressure_with_thermal s safe critical ratio in
  Forall (fun x => in_unit f32_one x = true) [pr_gpu p; pr_cpu p; pr_memory p; pr_thermal p; pr_main_app p].
Proof.
  intros Hg Hc Hm Hs Hr p. unfold p, pressure_with_thermal; cbn [pr_gpu pr_cpu pr_memory pr_thermal pr_main_app].
  rewrite !Forall_cons, Forall_nil. split_and!; [by apply pct_pressure_unit..| | |done|done].
  - apply f_clamp_in_unit; [reflexivity|]. destruct (Z.ltb_spec 0 (mem_total s)); [|done].
    apply mem_ratio_not_nan. unfold is_u64 in Hm. lia.
  - apply thermal_pressure_unit; auto using temp_c_not_nan.
Qed.

Definition demo_signals : SignalState :=
  {| cpu_pct := f64_lit 250 1; gpu_pct := f64_lit (-3) 1; mem_available := u64_max;
     mem_total := 1; temp_mc := 95000; throttling := true |}.

Lemma pressure_in_unit_interval_witness :
  let p := pressure_with_thermal demo_signals (f32_lit 35 1) (f32_lit 50 1) None in
  Forall (fun x => in_unit f32_one x = true) [pr_gpu p; pr_cpu p; pr_memory p; pr_thermal p; pr_main_app p].
Proof. apply pressure_in_unit_interval; try (vm_compute; reflexivity). split; discriminate. Defined.

(** The readings that drive the two latches outside the heartbeat. *)
Inductive trigger_input := MemReading (pressure : f64) | TempReading (normalized : f64).
Definition trigger_step (e : TriggerEngine) (i : trigger_input) : TriggerEngine :=
  match i with MemReading v => update_mem e v | TempReading v => update_temp e v end.
Definition mem_readings : list trigger_input -> list f64 :=
  omap (fun i => match i with MemReading v => Some v | TempReading _ => None end).
Definition temp_readings : list trigger_input -> list f64 :=
  omap (fun i => match i with TempReading v => Some v | MemReading _ => None end).

(** The memory and temperature triggers are enter/exit latches, independent of each
    other.  After any interleaving of readings, each trigger says what its own most recent
    reading outside the [exit, enter] band said, or what it said at the start if there was
    none; nothing else in the engine moves. *)
Theorem triggers_are_latches e inputs :
  let c := te_config e in
  SFleb (mem_exit c) (mem_enter c) = true -> SFleb (temp_exit c) (temp_enter c) = true ->
  fold_left trigger_step inputs e =
  {| te_config := c; te_tbt := te_tbt e; te_trigger :=
     {| tbt_degraded := tbt_degraded (te_trigger e);
        mem_low := default (mem_low (te_trigger e))
          (last_decisive (mem_enter c) (mem_exit c) (mem_readings inputs));
        temp_high := default (temp_high (te_trigger e))
          (last_decisive (temp_enter c) (temp_exit c) (temp_readings inputs)) |} |}.
Proof.
  revert e. induction inputs as [|i inputs IH]; intros [c tbt [a b d]] k Hm Ht; subst k; cbn in *; [done|].
  destruct i as [v|v]; cbn [trigger_step].
  - rewrite update_mem_latch, IH by done. cbn. rewrite latch_decisive by done. do 2 f_equal.
    by destruct (last_decisive _ _ (mem_readings inputs)), (decisive _ _ v).
  - rewrite update_temp_latch, IH by done. cbn. rewrite latch_decisive by done. do 2 f_equal.
    by destruct (last_decisive _ _ (temp_readings inputs)), (decisive _ _ v).
Qed.

Lemma triggers_are_latches_witness :
  mem_low (te_trigger (fold_left trigger_step
    [MemReading (f64_lit 9 10); TempReading (f64_lit 1 1); MemReading (f64_lit 7 10)]
    (TriggerEngine_new default_TriggerConfig))) = true.
Proof.
  rewrite triggers_are_latches by (vm_compute; reflexivity). vm_compute. reflexivity.
Defined.

(** C9. The token-time tracker.  Over any run of up to 2^32 - 1 heartbeat times, the
    non-finite and non-positive ones leave no trace; the rest make the moving average, the
    baseline is fixed once and for all at the warm-up-th of them (never earlier), and, where
    the exit threshold is not above the enter threshold, the degradation trigger is the
    latch of the ratios to that baseline. *)
Theorem tbt_tracker_run oc c vs :
  SFleb (tbt_exit c) (tbt_enter c) = true -> Z.of_nat (length vs) <= u32_max ->
  let accepted := List.filter tbt_valid vs in
  update_tbt_all oc (TriggerEngine_new c) vs =
  Return {| te_config := c; te_tbt := tracker_spec (tbt_warmup_tokens c) accepted;
    te_trigger := {| tbt_degraded := default false (last_decisive (tbt_enter c) (tbt_exit c)
                       (ratios (tbt_warmup_tokens c) [] accepted));
                     mem_low := false; temp_high := false |} |}.
Proof.
  intros Hc Hlen accepted.
  assert (TriggerEngine_new c = engine_at c TriggerState_default []) as ->.
  { unfold engine_at, tracker_spec, TriggerEngine_new, TbtTracker_new.
    by destruct (Z.to_nat (Z.max 1 (tbt_warmup_tokens c))) eqn:?; [lia|]. }
  rewrite update_tbt_all_spec by (done || lia). reflexivity.
Qed.

Lemma tbt_tracker_run_witness :
  update_tbt_all true (TriggerEngine_new default_TriggerConfig) [f64_lit 50 1; S754_nan; f64_lit 0 1] =
  Return {| te_config := default_TriggerConfig;
    te_tbt := {| ewma := f64_lit 50 1; baseline := None; warmup_count := 1; warmup_target := 20 |};
    te_trigger := TriggerState_default |}.
Proof. rewrite tbt_tracker_run by (vm_compute; done). vm_compute. reflexivity. Defined.
