(* ===== verification/GpuProvider.v ===== *)
(** * GpuProvider: GPU utilisation and frequency (src/monitor/gpu_provider.rs)

    The three providers, the reader thread of the Jetson one as steps on the atomics it
    shares with the provider, and the selection of a back end from the file system. *)

From Stdlib Require Import ZArith Lia SpecFloat Ascii String.
From stdpp Require Import base tactics numbers list strings pretty.
From S2P Require Import Prelude Float RustStr Config Monitor.
Local Open Scope string_scope.
Local Open Scope list_scope.
Local Open Scope Z_scope.

Definition SYSFS_UTIL_CANDIDATES : list string :=
  ["/sys/class/kgsl/kgsl-3d0/devfreq/gpu_load";
   "/sys/class/kgsl/kgsl-3d0/gpu_busy_percentage";
   "/sys/kernel/gpu/gpu_busy_percentage";
   "/sys/devices/platform/kgsl-3d0.0/kgsl/kgsl-3d0/gpu_busy_percentage";
   "/sys/class/misc/mali0/device/utilization"].

Definition SYSFS_FREQ_CANDIDATES : list string :=
  ["/sys/class/kgsl/kgsl-3d0/gpuclk"; "/sys/class/kgsl/kgsl-3d0/devfreq/cur_freq"].

Definition parse_util_pct (content : string) : option f64 :=
  head ← find_map (fun tok => if non_empty tok then Some tok else None)
    (split_on (fun c => is_whitespace c || Ascii.eqb c "%") (trim content));
  parse_f64 head.

(** ** Providers *)

Inductive GpuProvider :=
| NullGpuProvider
| SysfsGpuProvider (util_paths freq_paths : list string) (desc : string)
| JetsonGpuProvider (freq_path : option string) (has_reader : bool) (desc : string).

Definition sysfs_with_defaults : GpuProvider :=
  SysfsGpuProvider SYSFS_UTIL_CANDIDATES SYSFS_FREQ_CANDIDATES "sysfs(adreno|mali)".
Definition sysfs_with_custom_util (path : string) : GpuProvider :=
  SysfsGpuProvider [path] SYSFS_FREQ_CANDIDATES ("sysfs(custom=" +:+ path +:+ ")").
Definition jetson_freq_only (freq_path : string) : GpuProvider :=
  JetsonGpuProvider (Some freq_path) false "jetson(gv11b,freq-only)".
Definition shared_null : GpuProvider := NullGpuProvider.

(** [TegrastatsChild::spawn]: whether the child runs. *)
Definition tegrastats_spawn (env : Env) (bin : string) : bool := can_spawn env bin ["--interval"; "300"].

(** [JetsonGpuProvider::new]: an error when tegrastats cannot be started. *)
Definition jetson_new (env : Env) (freq_path : option string) (tegrastats_bin : string)
    : option GpuProvider :=
  if tegrastats_spawn env tegrastats_bin
  then Some (JetsonGpuProvider freq_path true "jetson(gv11b+tegrastats)") else None.

Definition sysfs_util (env : Env) (util_paths : list string) : option f64 :=
  find_map (fun path =>
    content ← fs_read env path; v ← parse_util_pct content;
    Some (f_clamp v f_zero (f64_lit 100 1))) util_paths.
Definition sysfs_freq (env : Env) (freq_paths : list string) : option Z :=
  find_map (fun path => content ← fs_read env path; parse_u64 (trim content)) freq_paths.
Definition jetson_util (cell : JetsonCell) (has_reader : bool) : option f64 :=
  if negb has_reader then None
  else if negb (util_seen cell) then None
  else Some (f64_of_Z (util_percent cell)).

Definition util_pct (env : Env) (p : GpuProvider) : option f64 :=
  match p with
  | NullGpuProvider => None
  | SysfsGpuProvider util_paths _ _ => sysfs_util env util_paths
  | JetsonGpuProvider _ has_reader _ => jetson_util (jetson_cell env) has_reader
  end.

Definition freq_hz (env : Env) (p : GpuProvider) : option Z :=
  match p with
  | NullGpuProvider => None
  | SysfsGpuProvider _ freq_paths _ => sysfs_freq env freq_paths
  | JetsonGpuProvider freq_path _ _ =>
      path ← freq_path; content ← fs_read env path; parse_u64 (trim content)
  end.

Definition describe (p : GpuProvider) : string :=
  match p with
  | NullGpuProvider => "null"
  | SysfsGpuProvider _ _ desc | JetsonGpuProvider _ _ desc => desc
  end.

(** ** The tegrastats reader *)

Definition parse_gr3d_freq (line : string) : option Z :=
  tail ← find_after "GR3D_FREQ " line;
  num_str ← find_before "%" tail;
  v ← parse_u32 (trim num_str);
  Some (Z.min v 100).

(** A relaxed store to one of the two atomics. *)
Inductive Store := StorePercent (pct : Z) | StoreSeen.
Definition store (cell : JetsonCell) (s : Store) : JetsonCell :=
  match s with
  | StorePercent pct => {| util_percent := pct; util_seen := util_seen cell |}
  | StoreSeen => {| util_percent := util_percent cell; util_seen := true |}
  end.

(** What the thread stores, in order, after one line of the child's output. *)
Definition reader_line (line : string) : list Store :=
  match parse_gr3d_freq line with
  | Some pct => [StorePercent pct; StoreSeen]
  | None => []
  end.

(** The stores of the reader thread: before each line it looks at the shutdown flag; a
    missing line (end of file or an error) ends it. *)
Fixpoint reader_run (events : list (bool * option string)) : list Store :=
  match events with
  | [] => []
  | (shutdown, line) :: events =>
      if shutdown then []
      else match line with
           | Some line => reader_line line ++ reader_run events
           | None => []
           end
  end.

(** The atomics after some stores, and what loads of them may see: relaxed accesses order
    the stores to each atomic, but not those to one against those to the other. *)
Definition cell_after (stores : list Store) : JetsonCell := fold_left store stores JetsonCell_new.
Definition loaded (stores : list Store) (n m : nat) : JetsonCell :=
  {| util_percent := util_percent (cell_after (take n stores));
     util_seen := util_seen (cell_after (take m stores)) |}.

(** *** The child, the thread that reads it, and the end of the provider *)

(** What [read_line] answers: a line, the end of the child's output, an error. *)
Inductive ReadLine := ReadOk (buf : string) | ReadEof | ReadErr.
(** [LineSource::next_line] of a tegrastats child. *)
Definition next_line (r : ReadLine) : option string :=
  match r with ReadOk buf => Some buf | ReadEof | ReadErr => None end.

(** Where the reader thread is: about to look at the flag, blocked in [next_line], with
    stores to make, gone (it owns the child, so the child is killed with it); and the
    provider: in use, in [drop] waiting for the thread, dropped. *)
Inductive ReaderAt := AtFlag | AtLine | AtStores (stores : list Store) | ReaderGone.
Inductive ProviderAt := InUse | InDrop | Dropped.
Record JetsonRun := {
  jr_cell : JetsonCell;
  jr_shutdown : bool;
  jr_reader : ReaderAt;
  jr_child : bool;
  jr_provider : ProviderAt
}.
Definition jetson_start : JetsonRun :=
  {| jr_cell := JetsonCell_new; jr_shutdown := false; jr_reader := AtFlag; jr_child := true;
     jr_provider := InUse |}.

(** [TegrastatsChild::drop], at the end of the thread that owns it. *)
Definition reader_ends (j : JetsonRun) : JetsonRun :=
  {| jr_cell := jr_cell j; jr_shutdown := jr_shutdown j; jr_reader := ReaderGone; jr_child := false;
     jr_provider := jr_provider j |}.
Definition reader_look (j : JetsonRun) (seen : bool) : JetsonRun :=
  if seen then reader_ends j
  else {| jr_cell := jr_cell j; jr_shutdown := jr_shutdown j; jr_reader := AtLine;
          jr_child := jr_child j; jr_provider := jr_provider j |}.
Definition at_stores (stores : list Store) : ReaderAt :=
  match stores with [] => AtFlag | _ :: _ => AtStores stores end.
Definition reader_turn (j : JetsonRun) (r : ReadLine) : JetsonRun :=
  match next_line r with
  | Some line => {| jr_cell := jr_cell j; jr_shutdown := jr_shutdown j;
                    jr_reader := at_stores (reader_line line); jr_child := jr_child j;
                    jr_provider := jr_provider j |}
  | None => reader_ends j
  end.
Definition reader_store (j : JetsonRun) (s : Store) (stores : list Store) : JetsonRun :=
  {| jr_cell := store (jr_cell j) s; jr_shutdown := jr_shutdown j; jr_reader := at_stores stores;
     jr_child := jr_child j; jr_provider := jr_provider j |}.
(** [JetsonGpuProvider::drop], up to the join, and the join. *)
Definition provider_drop (j : JetsonRun) : JetsonRun :=
  {| jr_cell := jr_cell j; jr_shutdown := true; jr_reader := jr_reader j; jr_child := jr_child j;
     jr_provider := InDrop |}.
Definition provider_joined (j : JetsonRun) : JetsonRun :=
  {| jr_cell := jr_cell j; jr_shutdown := jr_shutdown j; jr_reader := jr_reader j;
     jr_child := jr_child j; jr_provider := Dropped |}.

(** One step of the two threads, labelled with what the child answers, if it does. *)
Inductive jetson_step : JetsonRun -> option ReadLine -> JetsonRun -> Prop :=
| jetson_look j seen : jr_reader j = AtFlag -> (seen = true -> jr_shutdown j = true) ->
    jetson_step j None (reader_look j seen)
| jetson_line j r : jr_reader j = AtLine -> jetson_step j (Some r) (reader_turn j r)
| jetson_store j s stores : jr_reader j = AtStores (s :: stores) ->
    jetson_step j None (reader_store j s stores)
| jetson_drop j : jr_provider j = InUse -> jetson_step j None (provider_drop j)
| jetson_join j : jr_provider j = InDrop -> jr_reader j = ReaderGone ->
    jetson_step j None (provider_joined j).
Definition jetson_steps : JetsonRun -> JetsonRun -> Prop := star (fun a b => exists l, jetson_step a l b).
Definition jetson_quiet : JetsonRun -> JetsonRun -> Prop := star (fun a b => jetson_step a None b).

(** ** Selection *)

Definition is_tegra (name : string) : bool :=
  str_contains "gv11b" name || str_contains "ga10b" name.

Definition detect_backend (env : Env) (sys_root : string) : GpuBackend :=
  let devfreq := path_join sys_root "class/devfreq" in
  let jetson := match fs_entries env devfreq with
                | Some entries => existsb is_tegra entries | None => false end in
  if jetson then GpuJetson
  else if existsb (fun p =>
      fs_exists env (path_join sys_root (default p (strip_prefix "/sys/" p)))) SYSFS_UTIL_CANDIDATES
  then GpuSysfs
  else GpuNull.

Definition discover_jetson_freq_path (env : Env) (sys_root : string) : option string :=
  let devfreq := path_join sys_root "class/devfreq" in
  entries ← fs_entries env devfreq;
  find_map (fun name =>
    if is_tegra name then Some (path_join (path_join devfreq name) "cur_freq") else None) entries.

Definition build_provider (env : Env) (backend : GpuBackend) : GpuProvider :=
  let resolved := match backend with GpuAuto => detect_backend env "/sys" | other => other end in
  match resolved with
  | GpuNull => NullGpuProvider
  | GpuSysfs | GpuAuto => sysfs_with_defaults
  | GpuCustomSysfs path => sysfs_with_custom_util path
  | GpuJetson =>
      let freq_path := discover_jetson_freq_path env "/sys" in
      match jetson_new env freq_path "tegrastats" with
      | Some p => p
      | None => match freq_path with Some fp => jetson_freq_only fp | None => NullGpuProvider end
      end
  | GpuJetsonExplicit freq_path tegrastats_bin =>
      match jetson_new env (Some freq_path) (default "tegrastats" tegrastats_bin) with
      | Some p => p
      | None => jetson_freq_only freq_path
      end
  end.

(** ** Lemmas *)

Definition cell_ok (cell : JetsonCell) : Prop := 0 <= util_percent cell <= 100.

Lemma parse_u32_nonneg s v : parse_u32 s = Some v -> 0 <= v <= u32_max.
Proof.
  assert (Hd : forall t acc n, 0 <= acc -> parse_digits acc t = Some n -> 0 <= n).
  { induction t as [|c t IH]; cbn; intros acc n Hacc H; [by simplify_eq|].
    destruct (digit_value c) as [d|] eqn:Hc; [|done].
    apply digit_value_bounds in Hc. eapply IH; [|exact H]. lia. }
  unfold parse_u32, parse_uint. intros H.
  revert H. generalize (match s with String "+" r => r | _ => s end). intros t H.
  destruct (parse_nat t) as [n|] eqn:Hn; [|done].
  assert (0 <= n).
  { unfold parse_nat in Hn. destruct t; [done|]. eapply Hd; [|exact Hn]. lia. }
  destruct (Z.leb_spec n u32_max); simplify_eq. lia.
Qed.

Lemma parse_gr3d_bounds line v : parse_gr3d_freq line = Some v -> 0 <= v <= 100.
Proof.
  unfold parse_gr3d_freq. intros. simplify_option_eq.
  match goal with H : parse_u32 _ = Some _ |- _ => apply parse_u32_nonneg in H end. lia.
Qed.

Lemma reader_run_in s events : s ∈ reader_run events -> match s with StorePercent v => 0 <= v <= 100 | StoreSeen => True end.
Proof.
  induction events as [|[[] [line|]] events IH]; cbn; try by intros ?%elem_of_nil.
  rewrite elem_of_app. intros [Hs|Hs]; [|by apply IH]. revert Hs. unfold reader_line.
  destruct (parse_gr3d_freq line) eqn:Hp; [|by intros ?%elem_of_nil].
  rewrite !elem_of_cons, elem_of_nil. intros [->|[->|[]]]; [|done]. by eapply parse_gr3d_bounds.
Qed.

Lemma cell_after_ok stores :
  (forall s, s ∈ stores -> match s with StorePercent v => 0 <= v <= 100 | StoreSeen => True end) ->
  cell_ok (cell_after stores).
Proof.
  unfold cell_after. assert (Hnew : cell_ok JetsonCell_new) by (unfold cell_ok; cbn; lia).
  revert Hnew. generalize JetsonCell_new.
  induction stores as [|s stores IH]; intros cell Hc Hs; [done|]. cbn [fold_left]. apply IH.
  - specialize (Hs s (list_elem_of_here _ _)). by destruct s.
  - intros s' Hs'. apply Hs. by right.
Qed.

(** The lines the reader consumes before it ends. *)
Fixpoint consumed (events : list (bool * option string)) : list string :=
  match events with
  | (false, Some line) :: events => line :: consumed events
  | _ => []
  end.

Lemma reader_run_consumed events : reader_run events = concat (map reader_line (consumed events)).
Proof. induction events as [|[[] [line|]] events IH]; cbn; [done..| |done]. by rewrite IH. Qed.

Lemma reader_fold_last ls : forall cell,
  fold_left store (concat (map reader_line ls)) cell =
  match last (omap parse_gr3d_freq ls) with
  | Some v => {| util_percent := v; util_seen := true |}
  | None => cell
  end.
Proof.
  induction ls as [|l ls IH]; intros cell; [done|].
  cbn [map List.concat]. rewrite fold_left_app, IH.
  unfold reader_line. rewrite omap_cons.
  destruct (parse_gr3d_freq l) as [v|]; [|done].
  rewrite last_cons. by destruct (last (omap parse_gr3d_freq ls)).
Qed.

Lemma f64_of_pct_bounds n : 0 <= n <= 100 ->
  SFleb f_zero (f64_of_Z n) && SFleb (f64_of_Z n) (f64_lit 100 1) = true.
Proof.
  intros Hn.
  assert (Hall : forallb (fun n => SFleb f_zero (f64_of_Z n) && SFleb (f64_of_Z n) (f64_lit 100 1))
    (seqZ 0 101) = true) by (vm_compute; reflexivity).
  rewrite forallb_forall in Hall. apply Hall. apply list_elem_of_In, elem_of_seqZ. lia.
Qed.

(** ** Properties *)

(** C38. A reported GPU utilisation is a percentage.  Whatever the files contain, whatever
    tegrastats has printed so far and whichever of the reader's stores to the percentage and
    to the flag the two loads see, a provider reports nothing or a number in
    [0, 100]; the one exception is a sysfs file whose first token spells a NaN, which is
    passed on as a NaN. *)
Theorem gpu_util_is_percentage env p events n m v :
  jetson_cell env = loaded (reader_run events) n m ->
  util_pct env p = Some v ->
  SFleb f_zero v && SFleb v (f64_lit 100 1) = true \/
  (is_nan v = true /\ exists path content x,
     fs_read env path = Some content /\ parse_util_pct content = Some x /\ is_nan x = true).
Proof.
  intros Hcell Hp. destruct p as [|util freq desc|freq [] desc]; cbn in Hp; [done| | |done].
  - apply find_map_Some in Hp as (l1 & path & l2 & -> & Hx & _). simplify_option_eq.
    match goal with H : parse_util_pct _ = Some ?x |- _ => destruct (is_nan x) eqn:Hn end.
    + right. rewrite f_clamp_nan by done. eauto 7.
    + left. destruct (f_clamp_range H0 f_zero (f64_lit 100 1)) as [-> ->]; done.
  - unfold jetson_util in Hp. cbn in Hp. destruct (util_seen _); [|done]. cbn in Hp. simplify_eq.
    left. apply f64_of_pct_bounds. rewrite Hcell. cbn. apply cell_after_ok.
    intros s Hs. eapply (reader_run_in s events), subseteq_take, Hs.
Qed.

Definition demo_gpu_env : Env := env_of_files
  [("/sys/kernel/gpu/gpu_busy_percentage", "90 %
")].

Lemma gpu_util_is_percentage_witness :
  SFleb f_zero (f64_lit 90 1) && SFleb (f64_lit 90 1) (f64_lit 100 1) = true \/
  (is_nan (f64_lit 90 1) = true /\ exists path content x,
     fs_read demo_gpu_env path = Some content /\ parse_util_pct content = Some x /\ is_nan x = true).
Proof.
  apply (gpu_util_is_percentage demo_gpu_env sysfs_with_defaults [] 0 0); vm_compute; reflexivity.
Defined.

(** The Jetson utilisation is the newest sample.  After any events at the reader
    thread, a provider with a reader reports the last [GR3D_FREQ] percentage among the
    lines read before the thread ended (a line without one changes nothing), and nothing
    before the first. *)
Theorem jetson_reports_last_sample env freq_path desc events :
  jetson_cell env = cell_after (reader_run events) ->
  util_pct env (JetsonGpuProvider freq_path true desc) =
  f64_of_Z <$> last (omap parse_gr3d_freq (consumed events)).
Proof.
  intros Hcell. cbn. rewrite Hcell, reader_run_consumed. unfold cell_after. rewrite reader_fold_last.
  by destruct (last _).
Qed.

Definition jetson_inv (j : JetsonRun) : Prop :=
  (jr_child j = true <-> jr_reader j <> ReaderGone) /\
  (jr_provider j = Dropped -> jr_reader j = ReaderGone) /\
  (jr_provider j <> InUse -> jr_shutdown j = true).

Lemma jetson_inv_step j l j' : jetson_step j l j' -> jetson_inv j -> jetson_inv j'.
Proof.
  intros Hst (Hc & Hd & Hs). unfold jetson_inv.
  destruct Hst as [j seen Hr Hseen|j r Hr|j s stores Hr|j Hp|j Hp Hr].
  - rewrite Hr in *. destruct seen; cbn; split_and!; try done; naive_solver.
  - rewrite Hr in *. unfold reader_turn. destruct (next_line r) as [line|]; cbn;
      [destruct (reader_line line); cbn|]; split_and!; try done; naive_solver.
  - rewrite Hr in *. destruct stores; cbn; split_and!; try done; naive_solver.
  - cbn. split_and!; try done; naive_solver.
  - cbn. split_and!; [done|done|]. intros _. apply Hs. by rewrite Hp.
Qed.

(** A told thread makes its stores, sees the flag and ends; [drop] joins it. *)
Lemma stores_end stores : forall j, jr_reader j = at_stores stores ->
  jr_shutdown j = true -> jr_provider j = InDrop ->
  exists j', jetson_quiet j j' /\ jr_provider j' = Dropped /\ jr_child j' = false.
Proof.
  induction stores as [|s stores IH]; intros j Hr Hs Hp; cbn in Hr.
  - exists (provider_joined (reader_look j true)). split_and!; [|done|done].
    eapply star_step; [by apply (jetson_look j true)|].
    eapply star_step; [by apply jetson_join|apply star_refl].
  - destruct (IH (reader_store j s stores)) as (j' & Hq & Hj'); [done..|].
    exists j'. split; [|done]. eapply star_step; [by apply jetson_store|exact Hq].
Qed.

(** C23. Dropping a Jetson provider waits for its child.  In every interleaving of the
    reader thread and of [drop], the child runs until the thread that owns it is gone, and a
    dropped provider leaves neither behind.  But [drop] itself does not end the child: once
    the thread is blocked on a line, nothing but the child's next line, or the end of its
    output, moves it, and [drop] does not return before; one line is enough. *)
Theorem jetson_drop_waits_for_child j : jetson_steps jetson_start j ->
  (jr_child j = true <-> jr_reader j <> ReaderGone) /\
  (jr_provider j = Dropped -> jr_reader j = ReaderGone /\ jr_child j = false) /\
  (jr_reader j = AtLine -> forall j', jetson_quiet j j' ->
     jr_reader j' = AtLine /\ jr_child j' = true /\ jr_provider j' <> Dropped) /\
  (jr_reader j = AtLine -> jr_provider j = InDrop -> forall r, exists j', jetson_step j (Some r) (reader_turn j r) /\
     jetson_quiet (reader_turn j r) j' /\ jr_provider j' = Dropped /\ jr_child j' = false).
Proof.
  intros Hj. assert (Hi : jetson_inv j).
  { eapply (star_invariant _ jetson_inv); [|exact Hj|].
    - intros a b [l Hl]. by eapply jetson_inv_step.
    - unfold jetson_inv. cbn. naive_solver. }
  pose proof Hi as (Hc & Hd & Hs). split_and!.
  - exact Hc.
  - intros Hp. specialize (Hd Hp). split; [done|]. destruct (jr_child j); [|done]. naive_solver.
  - intros Hr j' Hq.
    assert (Hq' : jetson_inv j' /\ jr_reader j' = AtLine).
    { eapply (star_invariant _ (fun j => jetson_inv j /\ jr_reader j = AtLine)); [|exact Hq|by split].
      intros a b Hab [Ha Hra]. split; [exact (jetson_inv_step _ _ _ Hab Ha)|].
      remember None as l eqn:Hl. destruct Hab; try done; cbn; congruence. }
    destruct Hq' as [(Hc' & Hd' & _) Hr']. split_and!; [done|apply Hc'; by rewrite Hr'|].
    intros Hp. specialize (Hd' Hp). congruence.
  - intros Hr Hp r. assert (Hsd : jr_shutdown j = true) by (apply Hs; by rewrite Hp).
    assert (Hst : jetson_step j (Some r) (reader_turn j r)) by by apply jetson_line.
    destruct (next_line r) as [line|] eqn:Hn.
    + destruct (stores_end (reader_line line) (reader_turn j r)) as (j' & Hq & Hj');
        [by unfold reader_turn; rewrite Hn..|]. by exists j'.
    + exists (provider_joined (reader_ends j)). split_and!; [done| |done|done].
      assert (Ht : reader_turn j r = reader_ends j) by (unfold reader_turn; by rewrite Hn). rewrite Ht.
      eapply star_step; [by apply jetson_join|apply star_refl].
Qed.

Lemma jetson_drop_waits_for_child_witness :
  exists j, jetson_steps jetson_start j /\ jr_provider j = InDrop /\
    forall j', jetson_quiet j j' -> jr_provider j' <> Dropped.
Proof.
  set (j := provider_drop (reader_look jetson_start false)).
  assert (Hj : jetson_steps jetson_start j).
  { eapply star_step; [exists None; apply (jetson_look jetson_start false); [reflexivity|discriminate]|].
    eapply star_step; [exists None; apply jetson_drop; reflexivity|]. apply star_refl. }
  exists j. split; [exact Hj|]. split; [reflexivity|]. intros j' Hq.
  destruct (jetson_drop_waits_for_child j Hj) as (_ & _ & H & _).
  apply (H eq_refl j' Hq).
Defined.

Definition demo_jetson_env : Env :=
  {| fs_read := fun _ => None; fs_exists := fun _ => false; fs_entries := fun _ => None;
     can_spawn := fun _ _ => true;
     jetson_cell := {| util_percent := 42; util_seen := true |} |}.

Lemma jetson_reports_last_sample_witness :
  util_pct demo_jetson_env (JetsonGpuProvider None true "jetson") = Some (f64_lit 42 1).
Proof.
  rewrite (jetson_reports_last_sample demo_jetson_env None "jetson"
    [(false, Some "RAM 2/16GB GR3D_FREQ 7% CPU"); (false, Some "GR3D_FREQ 42%@114"); (false, None);
     (false, Some "GR3D_FREQ 3%")]); vm_compute; reflexivity.
Defined.
