(* ===== verification/MemoryMonitor.v ===== *)
(** * MemoryMonitor: available memory (src/monitor/memory.rs) *)

From Stdlib Require Import ZArith Lia SpecFloat Ascii String.
From stdpp Require Import base tactics numbers list strings pretty.
From S2P Require Import Prelude Float RustStr Signal Config Evaluator Monitor.
Local Open Scope string_scope.
Local Open Scope list_scope.
Local Open Scope Z_scope.

Definition memory_level_from_available_pct (available_pct : f64) : Level :=
  let cfg := default_MemoryMonitorConfig in
  if SFleb available_pct (mem_emergency_pct cfg) then Emergency
  else if SFleb available_pct (mem_critical_pct cfg) then Critical
  else if SFleb available_pct (mem_warning_pct cfg) then Warning
  else Normal.

Record MemoryMonitor := {
  mm_poll_interval : Z;
  mm_evaluator : ThresholdEvaluator;
  mm_meminfo_path : string;
  mm_psi_path : string;
  mm_last_total : Z;
  mm_last_available : Z
}.

Definition memory_thresholds (config : MemoryMonitorConfig) : Thresholds :=
  {| th_warning := mem_warning_pct config;
     th_critical := mem_critical_pct config;
     th_emergency := mem_emergency_pct config;
     th_hysteresis := mem_hysteresis_pct config |}.

Definition MemoryMonitor_new (config : MemoryMonitorConfig) (default_poll_ms : Z) : MemoryMonitor :=
  {| mm_poll_interval := default default_poll_ms (mem_poll_interval_ms config);
     mm_evaluator := evaluator_new Descending (memory_thresholds config);
     mm_meminfo_path := "/proc/meminfo";
     mm_psi_path := "/proc/pressure/memory";
     mm_last_total := 0;
     mm_last_available := 0 |}.

Definition memory_build_signal (m : MemoryMonitor) : SystemSignal :=
  let reclaim :=
    match evaluator_level (mm_evaluator m) with
    | Normal => 0
    | Warning => f_to_u64 (f64_mul (f64_of_Z (mm_last_total m)) (f64_lit 5 100))
    | Critical => f_to_u64 (f64_mul (f64_of_Z (mm_last_total m)) (f64_lit 10 100))
    | Emergency => f_to_u64 (f64_mul (f64_of_Z (mm_last_total m)) (f64_lit 20 100))
    end in
  MemoryPressure (evaluator_level (mm_evaluator m)) (mm_last_available m) (mm_last_total m) reclaim.

(** ** /proc/meminfo *)

Inductive MeminfoError :=
| MeminfoRead
| MeminfoParse
| MemTotalNotFound
| MemAvailableNotFound.

Definition parse_kb_value (s : string) : result Z MeminfoError :=
  ok_or (parse_u64 (trim (trim_end_matches "kB" (trim s)))) MeminfoParse.

(** The loop over the lines, from the values found so far; it stops once it has both. *)
Fixpoint meminfo_scan (ls : list string) (total_kb available_kb : option Z)
    : result (option Z * option Z) MeminfoError :=
  match ls with
  | [] => Ok (total_kb, available_kb)
  | line :: ls =>
      let? (total_kb, available_kb) :=
        match strip_prefix "MemTotal:" line with
        | Some val => let? v := parse_kb_value val in Ok (Some v, available_kb)
        | None =>
            match strip_prefix "MemAvailable:" line with
            | Some val => let? v := parse_kb_value val in Ok (total_kb, Some v)
            | None => Ok (total_kb, available_kb)
            end
        end in
      match total_kb, available_kb with
      | Some _, Some _ => Ok (total_kb, available_kb)
      | _, _ => meminfo_scan ls total_kb available_kb
      end
  end.

Definition parse_meminfo (oc : bool) (env : Env) (path : string)
    : outcome (result (Z * Z) MeminfoError) :=
  match
    (let? content := ok_or (fs_read env path) MeminfoRead in
     let? (total_kb, available_kb) := meminfo_scan (lines content) None None in
     let? total := ok_or total_kb MemTotalNotFound in
     let? available := ok_or available_kb MemAvailableNotFound in
     Ok (total, available))
  with
  | Err e => Return (Err e)
  | Ok (total, available) =>
      let! total_b := u64_arith oc (total * 1024) in
      let! available_b := u64_arith oc (available * 1024) in
      Return (Ok (total_b, available_b))
  end.

(** ** Polling *)

Definition available_pct (total available : Z) : f64 :=
  if total =? 0 then f64_lit 100 1
  else f64_mul (f64_div (f64_of_Z available) (f64_of_Z total)) (f64_lit 100 1).

(** The body of the [run] loop. *)
Definition memory_poll (oc : bool) (env : Env) (m : MemoryMonitor)
    : outcome (MemoryMonitor * option SystemSignal) :=
  let! parsed := parse_meminfo oc env (mm_meminfo_path m) in
  match parsed with
  | Ok (total, available) =>
      let m := {|
        mm_poll_interval := mm_poll_interval m;
        mm_evaluator := (evaluate (mm_evaluator m) (available_pct total available)).1;
        mm_meminfo_path := mm_meminfo_path m;
        mm_psi_path := mm_psi_path m;
        mm_last_total := total;
        mm_last_available := available
      |} in
      Return (m, Some (memory_build_signal m))
  | Err _ => Return (m, None)
  end.

Definition memory_initial_signal (m : MemoryMonitor) : option SystemSignal :=
  Some (memory_build_signal m).

#[export] Instance MemoryMonitor_monitor : Monitor MemoryMonitor := {|
  initial_signal := memory_initial_signal;
  monitor_name := "MemoryMonitor"
|}.

Lemma memory_poll_sends_state oc env m m' s :
  memory_poll oc env m = Return (m', Some s) -> memory_initial_signal m' = Some s.
Proof.
  unfold memory_poll. destruct (parse_meminfo _ _ _) as [[[total available]|]|]; intros; by simplify_eq.
Qed.

#[export] Instance MemoryMonitor_polling (oc : bool) : PollingMonitor MemoryMonitor := {|
  poll := memory_poll oc;
  poll_sends_state := memory_poll_sends_state oc
|}.

Definition memory_run (oc : bool) : MemoryMonitor -> list Tick -> outcome (MemoryMonitor * list SystemSignal) :=
  @run MemoryMonitor MemoryMonitor_monitor (MemoryMonitor_polling oc).

(** ** Lemmas *)

Lemma available_pct_not_nan total available : is_u64 total -> is_nan (available_pct total available) = false.
Proof.
  intros Ht. unfold available_pct. destruct (Z.eqb_spec total 0); [done|].
  destruct (f64_of_Z_pos total) as (m & e & ->); [unfold is_u64 in Ht; lia|].
  apply SFmul_not_nan_r, SFdiv_not_nan, f64_of_Z_not_nan.
Qed.

(** A line [key: <blanks><n> kB] as the kernel prints it. *)
Definition kb_line (key blanks : string) (n : Z) : string :=
  key +:+ blanks +:+ pretty n +:+ " kB".

Lemma parse_kb_value_line blanks n :
  all_chars is_whitespace blanks = true -> is_u64 n ->
  parse_kb_value (blanks +:+ pretty n +:+ " kB") = Ok n.
Proof.
  intros Hb Hn. unfold parse_kb_value.
  pose proof (pretty_Z_digits n ltac:(unfold is_u64 in Hn; lia)) as Hd.
  pose proof (pretty_Z_nonempty n ltac:(unfold is_u64 in Hn; lia)) as Hne.
  assert (Hnw : all_chars (fun c => negb (is_whitespace c)) (pretty n) = true).
  { eapply all_chars_impl; [|exact Hd]. intros c Hc. by rewrite digit_not_ws. }
  assert (Hk : all_chars (fun c => negb (Ascii.eqb c "k")) (pretty n) = true).
  { eapply all_chars_impl; [|exact Hd]. intros c Hc. apply negb_true_iff, Bool.not_true_iff_false.
    intros ->%Ascii.eqb_eq. done. }
  assert (Htrim : trim (blanks +:+ pretty n +:+ " kB") = pretty n +:+ " kB").
  { unfold trim. rewrite trim_start_app by done. rewrite trim_start_id.
    - by rewrite (trim_end_app (pretty n) " kB").
    - destruct (pretty n) as [|c r]; [done|]. cbn in *. by split_bools. }
  rewrite Htrim, trim_end_matches_app by done.
  replace (trim_end_matches "kB" " kB") with " " by reflexivity.
  unfold trim. rewrite trim_start_id; [|destruct (pretty n); [done|cbn in *; by split_bools]].
  rewrite trim_end_ws by done. rewrite trim_end_no_ws by done.
  unfold parse_u64. by rewrite parse_uint_pretty.
Qed.

Definition is_meminfo_key (line : string) : bool :=
  match strip_prefix "MemTotal:" line, strip_prefix "MemAvailable:" line with
  | None, None => false
  | _, _ => true
  end.

(** Lines about anything else are skipped. *)
Lemma meminfo_scan_skip pre ls t a :
  Forall (fun l => is_meminfo_key l = false) pre -> (t = None \/ a = None) ->
  meminfo_scan (pre ++ ls) t a = meminfo_scan ls t a.
Proof.
  intros Hpre Hta. induction Hpre as [|l pre Hl _ IH]; cbn [app meminfo_scan]; [done|].
  unfold is_meminfo_key in Hl.
  destruct (strip_prefix "MemTotal:" l), (strip_prefix "MemAvailable:" l); try done.
  destruct Hta as [-> | ->]; [exact IH|]. destruct t; exact IH.
Qed.

Lemma meminfo_scan_total blanks n ls t a :
  all_chars is_whitespace blanks = true -> is_u64 n ->
  meminfo_scan (kb_line "MemTotal:" blanks n :: ls) t a =
  match a with Some _ => Ok (Some n, a) | None => meminfo_scan ls (Some n) None end.
Proof.
  intros Hb Hn. cbn [meminfo_scan]. unfold kb_line at 1. rewrite strip_prefix_app.
  rewrite parse_kb_value_line by done. by destruct a.
Qed.

Lemma meminfo_scan_available blanks n ls t a :
  all_chars is_whitespace blanks = true -> is_u64 n ->
  meminfo_scan (kb_line "MemAvailable:" blanks n :: ls) t a =
  match t with Some _ => Ok (t, Some n) | None => meminfo_scan ls None (Some n) end.
Proof.
  intros Hb Hn. cbn [meminfo_scan].
  replace (strip_prefix "MemTotal:" (kb_line "MemAvailable:" blanks n)) with (@None string) by reflexivity.
  unfold kb_line. rewrite strip_prefix_app, parse_kb_value_line by done. by destruct t.
Qed.

Definition memory_inv (config : MemoryMonitorConfig) (m : MemoryMonitor) : Prop :=
  ev_direction (mm_evaluator m) = Descending /\
  ev_thresholds (mm_evaluator m) = memory_thresholds config.

Lemma memory_poll_inv config oc env m m' o :
  memory_inv config m -> memory_poll oc env m = Return (m', o) -> memory_inv config m'.
Proof.
  intros [Hd Ht]. unfold memory_poll.
  destruct (parse_meminfo _ _ _) as [[[total available]|]|]; intros; simplify_eq; [|done].
  unfold memory_inv; cbn. autorewrite with argus. done.
Qed.

(** What a successful read returns fits in 64 bits. *)
Lemma parse_meminfo_u64 oc env p total available :
  parse_meminfo oc env p = Return (Ok (total, available)) -> is_u64 total /\ is_u64 available.
Proof.
  unfold parse_meminfo. intros H.
  match type of H with match ?x with _ => _ end = _ => destruct x as [[t a]|]; [|done] end.
  destruct (u64_arith oc (t * 1024)) as [tb|] eqn:Ht; [|done].
  destruct (u64_arith oc (a * 1024)) as [ab|] eqn:Ha; [|done]. simplify_eq.
  unfold u64_arith in *. apply arith_range in Ht, Ha; unfold is_u64, u64_max in *; lia.
Qed.

(** ** Properties *)

(** C30. Reading [/proc/meminfo].  For any file whose lines hold a [MemTotal] line and,
    further down, a [MemAvailable] line, with unrelated lines before and between them and
    anything after, the monitor reads exactly the two numbers, in bytes; in a file whose
    numbers do not fit in 64 bits once scaled to bytes it panics with overflow checks on
    and wraps around with them off. *)
Theorem parse_meminfo_reads oc env path content pre b1 t mid b2 a post :
  fs_read env path = Some content ->
  lines content = pre ++ kb_line "MemTotal:" b1 t :: mid ++ kb_line "MemAvailable:" b2 a :: post ->
  Forall (fun l => is_meminfo_key l = false) (pre ++ mid) ->
  all_chars is_whitespace b1 = true -> all_chars is_whitespace b2 = true ->
  is_u64 t -> is_u64 a ->
  (t * 1024 <= u64_max -> a * 1024 <= u64_max ->
     parse_meminfo oc env path = Return (Ok (t * 1024, a * 1024))) /\
  (u64_max < t * 1024 -> parse_meminfo true env path = Panic /\
     (a * 1024 <= u64_max ->
      parse_meminfo false env path = Return (Ok (wrap 0 u64_max (t * 1024), a * 1024)))).
Proof.
  intros Hread Hlines Hother Hb1 Hb2 Ht Ha. apply Forall_app in Hother as [Hpre Hmid].
  assert (Hscan : meminfo_scan (lines content) None None = Ok (Some t, Some a)).
  { rewrite Hlines, meminfo_scan_skip by auto. rewrite meminfo_scan_total by done.
    rewrite meminfo_scan_skip by auto. by rewrite meminfo_scan_available. }
  unfold parse_meminfo, u64_arith. rewrite Hread. cbn [ok_or]. rewrite Hscan. cbn [ok_or].
  unfold is_u64 in *. split.
  - intros. by rewrite !arith_in_range by lia.
  - intros Hov. destruct (arith_overflow 0 u64_max (t * 1024) ltac:(lia)) as [-> ->].
    split; [done|]. intros. by rewrite arith_in_range by lia.
Qed.

Definition demo_meminfo : string :=
  "MemTotal:       16000 kB
MemFree:         1000 kB
MemAvailable:    4000 kB
Buffers:           10 kB
".
Definition demo_env : Env := env_of_files [("/proc/meminfo", demo_meminfo)].

Lemma parse_meminfo_reads_witness :
  parse_meminfo true demo_env "/proc/meminfo" = Return (Ok (16000 * 1024, 4000 * 1024)).
Proof.
  refine (proj1 (parse_meminfo_reads true demo_env "/proc/meminfo" demo_meminfo
    [] "       " 16000 ["MemFree:         1000 kB"] "    " 4000 ["Buffers:           10 kB"]
    eq_refl _ _ eq_refl eq_refl _ _) _ _).
  - vm_compute. reflexivity.
  - apply Forall_singleton. reflexivity.
  - unfold is_u64, u64_max. lia.
  - unfold is_u64, u64_max. lia.
  - unfold u64_max. lia.
  - unfold u64_max. lia.
Defined.

(** C29. One poll of the memory monitor implements the specification.  With well-formed
    thresholds, when the file can be read the available percentage the evaluator gets is a
    number (100 when the total is zero), the level moves as the evaluator's specification
    says, and the signal sent carries that level and the bytes read, with no reclaim target
    at level [Normal]; when the file cannot be read nothing changes and nothing is sent. *)
Theorem memory_poll_spec config oc env m :
  memory_inv config m -> thresholds_wf Descending (memory_thresholds config) = true ->
  match parse_meminfo oc env (mm_meminfo_path m) with
  | Panic => memory_poll oc env m = Panic
  | Return (Err _) => memory_poll oc env m = Return (m, None)
  | Return (Ok (total, available)) =>
      let l := step_spec Descending (memory_thresholds config)
                 (ev_current (mm_evaluator m)) (available_pct total available) in
      is_nan (available_pct total available) = false /\
      exists m' reclaim,
        memory_poll oc env m = Return (m', Some (MemoryPressure l available total reclaim)) /\
        ev_current (mm_evaluator m') = l /\ memory_inv config m' /\
        (l = Normal -> reclaim = 0)
  end.
Proof.
  intros [Hd Ht] Hwf. unfold memory_poll.
  destruct (parse_meminfo oc env (mm_meminfo_path m)) as [[[total available]|]|] eqn:Hp; [|done|done].
  apply parse_meminfo_u64 in Hp as [Htot _]. split; [by apply available_pct_not_nan|].
  assert (He : ev_current (evaluate (mm_evaluator m) (available_pct total available)).1
    = step_spec Descending (memory_thresholds config) (ev_current (mm_evaluator m))
        (available_pct total available)).
  { autorewrite with argus. rewrite next_level_clamp; by rewrite Hd, Ht. }
  rewrite <- He. eexists _, _. split; [reflexivity|]. unfold memory_inv; cbn.
  autorewrite with argus. split_and!; try done.
  unfold evaluator_level. autorewrite with argus. by intros ->.
Qed.

Lemma memory_poll_spec_witness :
  let m := MemoryMonitor_new default_MemoryMonitorConfig 1000 in
  exists m' reclaim,
    memory_poll true demo_env m =
      Return (m', Some (MemoryPressure Warning 4096000 16384000 reclaim)) /\
    ev_current (mm_evaluator m') = Warning.
Proof.
  assert (E : parse_meminfo true demo_env "/proc/meminfo" = Return (Ok (16384000, 4096000)))
    by (vm_compute; reflexivity).
  pose proof (memory_poll_spec default_MemoryMonitorConfig true demo_env
    (MemoryMonitor_new default_MemoryMonitorConfig 1000)
    ltac:(split; reflexivity) ltac:(vm_compute; reflexivity)) as H.
  cbn [mm_meminfo_path MemoryMonitor_new] in H. rewrite E in H.
  destruct H as (_ & m' & r & Hp & Hl & _). exists m', r. split.
  - rewrite Hp. vm_compute. reflexivity.
  - rewrite Hl. vm_compute. reflexivity.
Defined.
