(* ===== verification/ThermalMonitor.v ===== *)
(** * ThermalMonitor: thermal zones and throttling (src/monitor/thermal.rs) *)

From Stdlib Require Import ZArith Lia SpecFloat Ascii String.
From stdpp Require Import base tactics numbers list strings pretty.
From S2P Require Import Prelude Float RustStr Signal Config Evaluator Monitor.
Local Open Scope string_scope.
Local Open Scope list_scope.
Local Open Scope Z_scope.

Definition thermal_level_from_temp_c (temp_c : f64) : Level :=
  let cfg := default_ThermalMonitorConfig in
  let warning_c := f64_div (f64_of_Z (th_warning_mc cfg)) (f64_lit 1000 1) in
  let critical_c := f64_div (f64_of_Z (th_critical_mc cfg)) (f64_lit 1000 1) in
  let emergency_c := f64_div (f64_of_Z (th_emergency_mc cfg)) (f64_lit 1000 1) in
  if SFleb emergency_c temp_c then Emergency
  else if SFleb critical_c temp_c then Critical
  else if SFleb warning_c temp_c then Warning
  else Normal.

Definition throttle_ratio_from_level (level : Level) : f64 :=
  match level with
  | Normal | Warning => f64_lit 1 1
  | Critical => f64_lit 7 10
  | Emergency => f64_lit 3 10
  end.

Record ThermalMonitor := {
  tm_poll_interval : Z;
  tm_evaluator : ThresholdEvaluator;
  tm_thermal_base : string;
  tm_zone_indices : list Z;
  tm_zone_type_filter : list string;
  tm_zones_discovered : bool;
  tm_last_temp_mc : Z;
  tm_last_throttling : bool
}.

Definition thermal_thresholds (config : ThermalMonitorConfig) : Thresholds :=
  {| th_warning := f64_of_Z (th_warning_mc config);
     th_critical := f64_of_Z (th_critical_mc config);
     th_emergency := f64_of_Z (th_emergency_mc config);
     th_hysteresis := f64_of_Z (th_hysteresis_mc config) |}.

Definition ThermalMonitor_new (config : ThermalMonitorConfig) (default_poll_ms : Z) : ThermalMonitor :=
  {| tm_poll_interval := default default_poll_ms (th_poll_interval_ms config);
     tm_evaluator := evaluator_new Ascending (thermal_thresholds config);
     tm_thermal_base := "/sys/class/thermal";
     tm_zone_indices := [];
     tm_zone_type_filter := th_zone_types config;
     tm_zones_discovered := false;
     tm_last_temp_mc := 25000;
     tm_last_throttling := false |}.

Definition zone_path (base : string) (i : Z) (file : string) : string :=
  path_join base ("thermal_zone" +:+ pretty i +:+ "/" +:+ file).
Definition cooling_path (base : string) (i : Z) : string :=
  path_join base ("cooling_device" +:+ pretty i +:+ "/cur_state").

(** ** Zone discovery *)

Definition zone_type (env : Env) (base : string) (i : Z) : string :=
  match fs_read env (zone_path base i "type") with Some s => trim s | None => "" end.

Definition all_zones (env : Env) (base : string) : list (Z * string) :=
  omap (fun i =>
    if fs_exists env (zone_path base i "temp") then Some (i, zone_type env base i) else None)
    (seqZ 0 256).

Definition type_matches (filter : list string) (z : Z * string) : bool :=
  existsb (fun f => String.eqb z.2 f) filter.

Definition discover_zones (env : Env) (m : ThermalMonitor) : ThermalMonitor :=
  let zones := all_zones env (tm_thermal_base m) in
  let indices :=
    match tm_zone_type_filter m with
    | [] => map fst zones
    | filter =>
        let matched := map fst (List.filter (type_matches filter) zones) in
        match matched with [] => map fst zones | _ => matched end
    end in
  {| tm_poll_interval := tm_poll_interval m; tm_evaluator := tm_evaluator m;
     tm_thermal_base := tm_thermal_base m; tm_zone_indices := indices;
     tm_zone_type_filter := tm_zone_type_filter m; tm_zones_discovered := true;
     tm_last_temp_mc := tm_last_temp_mc m; tm_last_throttling := tm_last_throttling m |}.

(** ** Reading *)

Definition zone_temp (env : Env) (base : string) (i : Z) : option Z :=
  content ← fs_read env (zone_path base i "temp"); parse_i32 (trim content).

Definition max_update (max_temp : option Z) (t : option Z) : option Z :=
  match t with
  | Some temp => Some (match max_temp with Some cur => Z.max cur temp | None => temp end)
  | None => max_temp
  end.

(** The loop over the cooling devices: a missing device ends it, an unparsable or idle one
    does not. *)
Fixpoint cooling_scan (env : Env) (base : string) (idx : list Z) : bool :=
  match idx with
  | [] => false
  | i :: idx =>
      match fs_read env (cooling_path base i) with
      | Some content =>
          match parse_u32 (trim content) with
          | Some state => if 0 <? state then true else cooling_scan env base idx
          | None => cooling_scan env base idx
          end
      | None => false
      end
  end.

Inductive ThermalError := NoThermalZones.

Definition read_thermal_state (env : Env) (base : string) (zone_indices : list Z)
    : result (Z * bool) ThermalError :=
  let max_temp := fold_left (fun acc i => max_update acc (zone_temp env base i)) zone_indices None in
  let? max_temp := ok_or max_temp NoThermalZones in
  Ok (max_temp, cooling_scan env base (seqZ 0 64)).

(** [read_once]: the zones found on the first call stay for the monitor's life; the
    readings change only on success. *)
Definition thermal_read_once (env : Env) (m : ThermalMonitor)
    : ThermalMonitor * result unit ThermalError :=
  let m := if tm_zones_discovered m then m else discover_zones env m in
  match read_thermal_state env (tm_thermal_base m) (tm_zone_indices m) with
  | Err e => (m, Err e)
  | Ok (max_temp, throttling) =>
      ({| tm_poll_interval := tm_poll_interval m; tm_evaluator := tm_evaluator m;
          tm_thermal_base := tm_thermal_base m; tm_zone_indices := tm_zone_indices m;
          tm_zone_type_filter := tm_zone_type_filter m;
          tm_zones_discovered := tm_zones_discovered m;
          tm_last_temp_mc := max_temp; tm_last_throttling := throttling |}, Ok tt)
  end.

Definition thermal_build_signal (m : ThermalMonitor) : SystemSignal :=
  ThermalAlert (evaluator_level (tm_evaluator m)) (tm_last_temp_mc m) (tm_last_throttling m)
    (throttle_ratio_from_level (evaluator_level (tm_evaluator m))).

Definition with_evaluator (m : ThermalMonitor) (e : ThresholdEvaluator) : ThermalMonitor :=
  {| tm_poll_interval := tm_poll_interval m; tm_evaluator := e;
     tm_thermal_base := tm_thermal_base m; tm_zone_indices := tm_zone_indices m;
     tm_zone_type_filter := tm_zone_type_filter m;
     tm_zones_discovered := tm_zones_discovered m;
     tm_last_temp_mc := tm_last_temp_mc m; tm_last_throttling := tm_last_throttling m |}.

(** The body of the [run] loop. *)
Definition thermal_poll (env : Env) (m : ThermalMonitor)
    : outcome (ThermalMonitor * option SystemSignal) :=
  match thermal_read_once env m with
  | (m, Ok _) =>
      let m := with_evaluator m
        (evaluate (tm_evaluator m) (f64_of_Z (tm_last_temp_mc m))).1 in
      Return (m, Some (thermal_build_signal m))
  | (m, Err _) => Return (m, None)
  end.

Definition thermal_initial_signal (m : ThermalMonitor) : option SystemSignal :=
  Some (thermal_build_signal m).

#[export] Instance ThermalMonitor_monitor : Monitor ThermalMonitor := {|
  initial_signal := thermal_initial_signal;
  monitor_name := "ThermalMonitor"
|}.

Lemma thermal_poll_sends_state env m m' s :
  thermal_poll env m = Return (m', Some s) -> thermal_initial_signal m' = Some s.
Proof. unfold thermal_poll. destruct (thermal_read_once env m) as [m1 []]; intros; by simplify_eq. Qed.

#[export] Instance ThermalMonitor_polling : PollingMonitor ThermalMonitor := {|
  poll := thermal_poll;
  poll_sends_state := thermal_poll_sends_state
|}.

Definition thermal_run : ThermalMonitor -> list Tick -> outcome (ThermalMonitor * list SystemSignal) :=
  run.

(** ** Lemmas *)

Lemma max_fold_spec (f : Z -> option Z) idx : forall acc m,
  fold_left (fun a i => max_update a (f i)) idx acc = Some m <->
  ((acc = Some m \/ exists i, In i idx /\ f i = Some m) /\
   (forall t, acc = Some t -> t <= m) /\
   (forall i t, In i idx -> f i = Some t -> t <= m)).
Proof.
  induction idx as [|i idx IH]; intros acc m; cbn.
  - split; [|by intros ([?|(i & [] & _)] & _)]. intros ->. split_and!; [auto|intros; simplify_eq; lia|done].
  - rewrite IH. destruct (f i) as [t|] eqn:Hi; cbn; [destruct acc as [c|]; cbn|].
    + split; [intros (H & Hc & Ht)|intros (H & Hc & Ht)]; split_and!.
      * destruct H as [[= <-]|(j & ? & ?)]; [|eauto].
        destruct (Z.max_spec c t) as [[_ ->]|[_ ->]]; eauto.
      * intros ? [= <-]. specialize (Hc _ eq_refl). lia.
      * intros j u [<-|?] Hj; [|eauto]. simplify_eq. specialize (Hc _ eq_refl). lia.
      * destruct H as [[= ->]|(j & [<-|Hin] & Hj)]; [| |eauto].
        -- left. f_equal. specialize (Ht i t (or_introl eq_refl) Hi). lia.
        -- simplify_eq. left. f_equal. specialize (Hc _ eq_refl). lia.
      * intros u [= <-]. specialize (Hc _ eq_refl). specialize (Ht i t (or_introl eq_refl) Hi). lia.
      * eauto.
    + split; [intros (H & Hc & Ht)|intros (H & Hc & Ht)]; split_and!.
      * destruct H as [[= <-]|(j & ? & ?)]; eauto.
      * done.
      * intros j u [<-|?] Hj; [|eauto]. simplify_eq. by apply Hc.
      * destruct H as [|(j & [<-|Hin] & Hj)]; [done| |eauto]. left. congruence.
      * intros u [= <-]. eauto.
      * eauto.
    + split; [intros (H & Hc & Ht)|intros (H & Hc & Ht)]; split_and!; eauto.
      * destruct H as [|(j & ? & ?)]; eauto.
      * intros j u [<-|?] Hj; [congruence|eauto].
      * destruct H as [|(j & [<-|Hin] & Hj)]; [auto|congruence|eauto].
Qed.

Lemma max_fold_none (f : Z -> option Z) idx :
  fold_left (fun a i => max_update a (f i)) idx None = None <-> (forall i, In i idx -> f i = None).
Proof.
  split.
  - intros H i Hin. destruct (f i) as [t|] eqn:Hi; [|done].
    assert (Hge : forall js c, fold_left (fun a i => max_update a (f i)) js (Some c) <> None).
    { induction js as [|j js IHj]; intros c; cbn; [done|]. destruct (f j); cbn; apply IHj. }
    revert H. induction idx as [|j idx IH]; [done|]. cbn. destruct Hin as [->|Hin].
    + rewrite Hi. cbn. intros H. by destruct (Hge _ _ H).
    + destruct (f j); cbn; [intros H; by destruct (Hge _ _ H)|auto].
  - induction idx as [|i idx IH]; intros H; cbn; [done|]. rewrite (H i) by (by left). cbn. auto with *.
Qed.

Lemma cooling_scan_spec env base n : forall lo,
  cooling_scan env base (seqZ lo n) = true <->
  exists k content state, lo <= k < lo + n /\
    fs_read env (cooling_path base k) = Some content /\ parse_u32 (trim content) = Some state /\
    0 < state /\ forall j, lo <= j < k -> fs_read env (cooling_path base j) <> None.
Proof.
  destruct (Z.le_ge_cases 0 n) as [Hn|Hn].
  2:{ intros lo. rewrite seqZ_nil by lia. cbn. split; [done|]. intros (k & ? & ? & ? & _). lia. }
  revert n Hn. apply (natlike_ind (fun n => forall lo, _)); [|intros n Hn IH]; intros lo.
  { rewrite seqZ_nil by lia. cbn. split; [done|]. intros (k & ? & ? & ? & _). lia. }
  rewrite seqZ_cons by lia. replace (Z.pred (Z.succ n)) with n by lia. cbn [cooling_scan].
  destruct (fs_read env (cooling_path base lo)) as [content|] eqn:Hr.
  - assert (Hrec : (match parse_u32 (trim content) with Some st => 0 < st | None => False end) \/
      (match parse_u32 (trim content) with Some st => ~ 0 < st | None => True end)).
    { destruct (parse_u32 (trim content)); [lia|auto]. }
    destruct Hrec as [Hpos|Hneg].
    + destruct (parse_u32 (trim content)) as [st|] eqn:Hp; [|done].
      rewrite (proj2 (Z.ltb_lt _ _)) by done. split; [|done]. intros _.
      exists lo, content, st. split_and!; try done; lia.
    + assert (Heq : match parse_u32 (trim content) with
        | Some state => if 0 <? state then true else cooling_scan env base (seqZ (Z.succ lo) n)
        | None => cooling_scan env base (seqZ (Z.succ lo) n) end
        = cooling_scan env base (seqZ (Z.succ lo) n)).
      { destruct (parse_u32 (trim content)) as [st|]; [|done].
        by rewrite (proj2 (Z.ltb_ge _ _)) by lia. }
      rewrite Heq, IH. split; intros (k & c & st & Hk & Hrk & Hpk & Hst & Hprev).
      * exists k, c, st. split_and!; try done; try lia. intros j Hj.
        destruct (Z.eq_dec j lo) as [->|]; [by rewrite Hr|apply Hprev; lia].
      * exists k, c, st. assert (k <> lo).
        { intros ->. rewrite Hrk in Hr. simplify_eq. rewrite Hpk in Hneg. done. }
        split_and!; try done; try lia. intros j Hj. apply Hprev. lia.
  - split; [done|]. intros (k & c & st & Hk & Hrk & _ & _ & Hprev).
    destruct (Z.eq_dec k lo) as [->|]; [congruence|]. destruct (Hprev lo); [lia|done].
Qed.

Definition zone_present (env : Env) (base : string) (i : Z) : Prop :=
  0 <= i < 256 /\ fs_exists env (zone_path base i "temp") = true.

Lemma in_all_zones env base i t :
  In (i, t) (all_zones env base) <-> zone_present env base i /\ t = zone_type env base i.
Proof.
  unfold all_zones, zone_present. rewrite <- list_elem_of_In, list_elem_of_omap. split.
  - intros (j & Hj & Hs). apply elem_of_seqZ in Hj. case_match; simplify_eq. split; [split|]; [lia|done..].
  - intros [[Hi He] ->]. exists i. rewrite elem_of_seqZ, He. split; [lia|done].
Qed.

Lemma in_all_indices env base i :
  In i (map fst (all_zones env base)) <-> zone_present env base i.
Proof.
  rewrite in_map_iff. split.
  - intros ([j t] & <- & H). by apply in_all_zones in H as [? _].
  - intros H. exists (i, zone_type env base i). split; [done|]. by apply in_all_zones.
Qed.

Lemma in_matched filter env base i :
  In i (map fst (List.filter (type_matches filter) (all_zones env base))) <->
  zone_present env base i /\ In (zone_type env base i) filter.
Proof.
  assert (Hm : forall j t, type_matches filter (j, t) = true <-> In t filter).
  { intros j t. unfold type_matches. rewrite existsb_exists. cbn. split.
    - intros (f & Hf & E%String.eqb_eq). congruence.
    - intros Hf. exists t. by rewrite String.eqb_refl. }
  rewrite in_map_iff. split.
  - intros ([j t] & <- & H). apply filter_In in H as [H Ht]. apply in_all_zones in H as [? ->].
    by apply Hm in Ht.
  - intros [Hi Hf]. exists (i, zone_type env base i). split; [done|].
    apply filter_In. split; [by apply in_all_zones|]. by apply Hm.
Qed.

(** ** Properties *)

(** What the thermal monitor reads.  Over any file system and any set of zones, a
    successful reading is the greatest temperature among the zones whose file can be read
    and parsed, and throttling is reported exactly when one of the first 64 cooling
    devices, with no gap before it, has a positive state; the reading fails exactly when
    no zone gives a temperature. *)
Theorem thermal_reading env base zones :
  match read_thermal_state env base zones with
  | Ok (m, throttling) =>
      (exists i, In i zones /\ zone_temp env base i = Some m) /\
      (forall i t, In i zones -> zone_temp env base i = Some t -> t <= m) /\
      (throttling = true <->
        exists k content st, 0 <= k < 64 /\
          fs_read env (cooling_path base k) = Some content /\
          parse_u32 (trim content) = Some st /\ 0 < st /\
          forall j, 0 <= j < k -> fs_read env (cooling_path base j) <> None)
  | Err _ => forall i, In i zones -> zone_temp env base i = None
  end.
Proof.
  unfold read_thermal_state.
  destruct (fold_left _ zones None) as [m|] eqn:Hf; cbn [ok_or].
  - apply max_fold_spec in Hf as ([|Hex] & _ & Hle); [done|]. split_and!; [done..|].
    exact (cooling_scan_spec env base 64 0).
  - by apply max_fold_none.
Qed.

(** Zone discovery.  The monitored zones are the present zones (numbers below
    256) whose type the filter names; when the filter is empty or names no
    present zone they are all the present zones, so that a zone is monitored whenever one
    is present. *)
Theorem thermal_zone_selection env m :
  let base := tm_thermal_base m in
  let filter := tm_zone_type_filter m in
  let selected i := zone_present env base i /\ In (zone_type env base i) filter in
  let zones := tm_zone_indices (discover_zones env m) in
  (forall i, In i zones <-> zone_present env base i /\ (selected i \/ ~ exists j, selected j)) /\
  ((exists i, zone_present env base i) -> zones <> []).
Proof.
  intros base filter selected zones.
  assert (Hz : forall i, In i zones <-> zone_present env base i /\ (selected i \/ ~ exists j, selected j)).
  { intros i. unfold zones, discover_zones. cbn [tm_zone_indices].
    change (tm_thermal_base m) with base. change (tm_zone_type_filter m) with filter.
    pose proof (in_matched filter env base) as Hm. unfold selected.
    destruct filter as [|f fs] eqn:Ef.
    - rewrite in_all_indices. split; [|by intros [? _]]. intros H. split; [done|]. right.
      by intros (j & _ & []).
    - destruct (map fst (List.filter (type_matches (f :: fs)) (all_zones env base))) as [|z zs].
      + rewrite in_all_indices. split; [|tauto]. intros H. split; [done|]. right.
        intros (j & Hj). by apply Hm in Hj.
      + rewrite Hm. split; [tauto|]. intros [Hi [H|H]]; [done|].
        destruct H. exists z. apply Hm. by left. }
  split; [done|]. intros [i Hi] Hnil.
  assert (Hno : forall j, ~ In j zones) by (intros j; rewrite Hnil; apply in_nil).
  apply (Hno i), Hz. split; [done|]. right. intros [j Hj].
  apply (Hno j), Hz. split; [apply Hj|by left].
Qed.

Definition thermal_inv (config : ThermalMonitorConfig) (m : ThermalMonitor) : Prop :=
  ev_direction (tm_evaluator m) = Ascending /\ ev_thresholds (tm_evaluator m) = thermal_thresholds config.

(** A temperature that one of the zones gives. *)
Definition gives (env : Env) (base : string) (zones : list Z) (mc : Z) : Prop :=
  exists i content, In i zones /\ fs_read env (zone_path base i "temp") = Some content /\
    parse_i32 (trim content) = Some mc.

(** Some cooling device, with no gap in the numbers before it, is active. *)
Definition cooling_active (env : Env) (base : string) : Prop :=
  exists k content st, 0 <= k < 64 /\ fs_read env (cooling_path base k) = Some content /\
    parse_u32 (trim content) = Some st /\ 0 < st /\
    forall j, 0 <= j < k -> fs_read env (cooling_path base j) <> None.

Lemma zone_temp_gives env base zones mc :
  gives env base zones mc <-> exists i, In i zones /\ zone_temp env base i = Some mc.
Proof.
  unfold gives, zone_temp. split.
  - intros (i & content & Hi & Hr & Hp). exists i. by rewrite Hr.
  - intros (i & Hi & Ht). simplify_option_eq. eauto 6.
Qed.

(** C16. One poll of the thermal monitor.  The zones it reads are those found by its first
    poll: the present ones whose type the filter names, or all present ones when the filter
    is empty or names none.  If one of them gives a temperature, the poll sends a signal with
    the greatest such temperature, with throttling exactly when a cooling device is active,
    and with the level the evaluator's specification moves to at that temperature, which is
    kept for the next poll; if none does, nothing is sent and the level and the readings stay. *)
Theorem thermal_poll_spec config env m :
  thermal_inv config m -> thresholds_wf Ascending (thermal_thresholds config) = true ->
  let base := tm_thermal_base m in
  let selected i := zone_present env base i /\ In (zone_type env base i) (tm_zone_type_filter m) in
  exists zones m' o, thermal_poll env m = Return (m', o) /\
    (tm_zones_discovered m = true -> zones = tm_zone_indices m) /\
    (tm_zones_discovered m = false -> forall i,
       In i zones <-> zone_present env base i /\ (selected i \/ ~ exists j, selected j)) /\
    tm_zones_discovered m' = true /\ tm_zone_indices m' = zones /\ thermal_inv config m' /\
    match o with
    | None => (forall mc, ~ gives env base zones mc) /\ tm_evaluator m' = tm_evaluator m /\
        tm_last_temp_mc m' = tm_last_temp_mc m /\ tm_last_throttling m' = tm_last_throttling m
    | Some s => exists mc throttling,
        let l := step_spec Ascending (thermal_thresholds config) (ev_current (tm_evaluator m)) (f64_of_Z mc) in
        s = ThermalAlert l mc throttling (throttle_ratio_from_level l) /\
        ev_current (tm_evaluator m') = l /\
        gives env base zones mc /\ (forall mc', gives env base zones mc' -> mc' <= mc) /\
        (throttling = true <-> cooling_active env base)
    end.
Proof.
  intros [Hd Ht] Hwf base selected.
  set (m1 := if tm_zones_discovered m then m else discover_zones env m).
  assert (Hm1 : tm_zones_discovered m1 = true /\ tm_thermal_base m1 = base /\
    tm_evaluator m1 = tm_evaluator m /\ tm_last_temp_mc m1 = tm_last_temp_mc m /\
    tm_last_throttling m1 = tm_last_throttling m).
  { unfold m1. by destruct (tm_zones_discovered m) eqn:E. }
  destruct Hm1 as (Hdisc & Hbase & Hev & Htemp & Hthr).
  unfold thermal_poll, thermal_read_once. fold m1. rewrite Hbase.
  pose proof (thermal_reading env base (tm_zone_indices m1)) as Hr.
  exists (tm_zone_indices m1).
  assert (Hz : (tm_zones_discovered m = true -> tm_zone_indices m1 = tm_zone_indices m) /\
    (tm_zones_discovered m = false -> forall i, In i (tm_zone_indices m1) <->
       zone_present env base i /\ (selected i \/ ~ exists j, selected j))).
  { unfold m1. split; intros ->; [done|]. apply (thermal_zone_selection env m). }
  destruct Hz as [Hz1 Hz2].
  destruct (read_thermal_state env base (tm_zone_indices m1)) as [[mc throttling]|e].
  - destruct Hr as (Hex & Hle & Hcool). eexists _, _. split; [reflexivity|].
    assert (Hl : ev_current (evaluate (tm_evaluator m) (f64_of_Z mc)).1
      = step_spec Ascending (thermal_thresholds config) (ev_current (tm_evaluator m)) (f64_of_Z mc)).
    { autorewrite with argus. rewrite next_level_clamp; by rewrite Hd, Ht. }
    split_and!; [done|done|done|done| |].
    + unfold thermal_inv. cbn. rewrite Hev. autorewrite with argus. done.
    + exists mc, throttling. cbn -[step_spec]. rewrite <- Hl. unfold thermal_build_signal. cbn.
      rewrite Hev. unfold evaluator_level. split_and!; [done|done| | |exact Hcool].
      * apply zone_temp_gives. destruct Hex as (i & Hi & Hti). eauto.
      * intros mc' (i & Hi & Hti)%zone_temp_gives. eauto.
  - eexists _, _. split; [reflexivity|]. split_and!; try done; [by unfold thermal_inv; rewrite Hev|].
    intros mc (i & Hi & Hti)%zone_temp_gives. rewrite Hr in Hti by done. done.
Qed.

Definition demo_thermal_env : Env := env_of_files
  [("/sys/class/thermal/thermal_zone0/type", "cpu"); ("/sys/class/thermal/thermal_zone0/temp", "98000");
   ("/sys/class/thermal/thermal_zone3/type", "skin"); ("/sys/class/thermal/thermal_zone3/temp", "41000");
   ("/sys/class/thermal/cooling_device0/cur_state", "2")].

Lemma thermal_poll_spec_witness :
  let m := ThermalMonitor_new default_ThermalMonitorConfig 1000 in
  exists m' s, thermal_poll demo_thermal_env m = Return (m', Some s) /\
    (exists r, s = ThermalAlert Emergency 98000 true r) /\ ev_current (tm_evaluator m') = Emergency.
Proof.
  intros m.
  destruct (thermal_poll_spec default_ThermalMonitorConfig demo_thermal_env m
    ltac:(split; reflexivity) ltac:(vm_compute; reflexivity))
    as (zones & m' & o & Hp & _ & _ & _ & _ & _ & Ho).
  pose proof Hp as Hq. vm_compute in Hq. injection Hq as <- <-.
  destruct Ho as (mc & throttling & Hs & Hl & _). eexists _, _. split; [exact Hp|]. split.
  - eexists. reflexivity.
  - reflexivity.
Defined.
