(* ===== verification/EnergyMonitor.v ===== *)
(** * EnergyMonitor: battery level and charging (src/monitor/energy.rs) *)

From Stdlib Require Import ZArith Lia SpecFloat Ascii String.
From stdpp Require Import base tactics numbers list strings pretty.
From S2P Require Import Prelude Float RustStr Signal Config Evaluator Monitor.
Local Open Scope string_scope.
Local Open Scope list_scope.
Local Open Scope Z_scope.

Record PowerBudgets := { pb_warning_mw : Z; pb_critical_mw : Z; pb_emergency_mw : Z }.

Record EnergyMonitor := {
  em_poll_interval : Z;
  em_evaluator : ThresholdEvaluator;
  em_ignore_when_charging : bool;
  em_power_budgets : PowerBudgets;
  em_battery_path : option string;
  em_last_charging : bool
}.

(** ** /sys/class/power_supply *)

Fixpoint find_battery (env : Env) (paths : list string) : option string :=
  match paths with
  | [] => None
  | path :: paths =>
      match fs_read env (path_join path "type") with
      | Some device_type =>
          if eq_ignore_ascii_case (trim device_type) "battery" &&
             fs_exists env (path_join path "capacity")
          then Some path else find_battery env paths
      | None => find_battery env paths
      end
  end.

Definition find_battery_path (env : Env) (base : string) : option string :=
  entries ← fs_entries env base;
  find_battery env (map (path_join base) entries).

(** Percentage, charging, and power in milliwatts ([as u32] keeps the low 32 bits). *)
Definition read_battery_state (env : Env) (path : string) : option f64 * bool * option Z :=
  let capacity := content ← fs_read env (path_join path "capacity"); parse_f64 (trim content) in
  let charging :=
    match fs_read env (path_join path "status") with
    | Some s =>
        let status := to_lowercase (trim s) in
        String.eqb status "charging" || String.eqb status "full"
    | None => false
    end in
  let power_mw :=
    content ← fs_read env (path_join path "power_now");
    uw ← parse_u64 (trim content);
    Some ((uw / 1000) mod (u32_max + 1)) in
  (capacity, charging, power_mw).

(** ** The monitor *)

Definition energy_thresholds (config : EnergyMonitorConfig) : Thresholds :=
  {| th_warning := en_warning_pct config;
     th_critical := en_critical_pct config;
     th_emergency := en_emergency_pct config;
     th_hysteresis := f64_lit 2 1 |}.

Definition EnergyMonitor_new (env : Env) (config : EnergyMonitorConfig) (default_poll_ms : Z)
    : EnergyMonitor :=
  {| em_poll_interval := default default_poll_ms (en_poll_interval_ms config);
     em_evaluator := evaluator_new Descending (energy_thresholds config);
     em_ignore_when_charging := en_ignore_when_charging config;
     em_power_budgets :=
       {| pb_warning_mw := en_warning_power_budget_mw config;
          pb_critical_mw := en_critical_power_budget_mw config;
          pb_emergency_mw := en_emergency_power_budget_mw config |};
     em_battery_path := find_battery_path env "/sys/class/power_supply";
     em_last_charging := false |}.

Definition with_energy (m : EnergyMonitor) (e : ThresholdEvaluator) (charging : bool) : EnergyMonitor :=
  {| em_poll_interval := em_poll_interval m; em_evaluator := e;
     em_ignore_when_charging := em_ignore_when_charging m;
     em_power_budgets := em_power_budgets m; em_battery_path := em_battery_path m;
     em_last_charging := charging |}.

Definition evaluate_energy (m : EnergyMonitor) (battery_pct : option f64) (charging : bool)
    : EnergyMonitor * option Level :=
  let m := with_energy m (em_evaluator m) charging in
  if charging && em_ignore_when_charging m then
    let current := evaluator_level (em_evaluator m) in
    if negb (bool_decide (current = Normal)) then
      (with_energy m (evaluate (em_evaluator m) (f64_lit 100 1)).1 charging, Some Normal)
    else (m, None)
  else
    match battery_pct with
    | Some pct =>
        let '(e, changed) := evaluate (em_evaluator m) pct in (with_energy m e charging, changed)
    | None => (m, None)
    end.

Definition energy_build_signal (m : EnergyMonitor) : SystemSignal :=
  let '(reason, budget) :=
    match evaluator_level (em_evaluator m) with
    | Normal => if em_last_charging m then (Charging, 0) else (NoReason, 0)
    | Warning => (BatteryLow, pb_warning_mw (em_power_budgets m))
    | Critical => (BatteryCritical, pb_critical_mw (em_power_budgets m))
    | Emergency => (BatteryCritical, pb_emergency_mw (em_power_budgets m))
    end in
  EnergyConstraint (evaluator_level (em_evaluator m)) reason budget.

(** The body of the [run] loop: a signal on every iteration. *)
Definition energy_poll (env : Env) (m : EnergyMonitor)
    : outcome (EnergyMonitor * option SystemSignal) :=
  let '(battery_pct, charging, _) :=
    match em_battery_path m with
    | Some path => read_battery_state env path
    | None => (None, false, None)
    end in
  let m := (evaluate_energy m battery_pct charging).1 in
  Return (m, Some (energy_build_signal m)).

Definition energy_initial_signal (m : EnergyMonitor) : option SystemSignal :=
  Some (energy_build_signal m).

#[export] Instance EnergyMonitor_monitor : Monitor EnergyMonitor := {|
  initial_signal := energy_initial_signal;
  monitor_name := "EnergyMonitor"
|}.

Lemma energy_poll_sends_state env m m' s :
  energy_poll env m = Return (m', Some s) -> energy_initial_signal m' = Some s.
Proof. unfold energy_poll. repeat case_match; intros; by simplify_eq. Qed.

#[export] Instance EnergyMonitor_polling : PollingMonitor EnergyMonitor := {|
  poll := energy_poll;
  poll_sends_state := energy_poll_sends_state
|}.

Definition energy_run : EnergyMonitor -> list Tick -> outcome (EnergyMonitor * list SystemSignal) :=
  run.

(** ** Lemmas *)

Definition energy_inv (config : EnergyMonitorConfig) (m : EnergyMonitor) : Prop :=
  ev_direction (em_evaluator m) = Descending /\
  ev_thresholds (em_evaluator m) = energy_thresholds config /\
  em_ignore_when_charging m = en_ignore_when_charging config.

Lemma evaluate_energy_inv config m pct charging :
  energy_inv config m -> energy_inv config (evaluate_energy m pct charging).1.
Proof.
  intros (Hd & Ht & Hi). unfold evaluate_energy, energy_inv.
  destruct (charging && _); [case_match|destruct pct as [p|]]; cbn; try done;
    [|destruct (evaluate (em_evaluator m) p) as [e' o] eqn:He; cbn;
      replace e' with (evaluate (em_evaluator m) p).1 by (by rewrite He)];
    autorewrite with argus; done.
Qed.

Lemma evaluate_energy_last_charging m pct charging :
  em_last_charging (evaluate_energy m pct charging).1 = charging.
Proof.
  unfold evaluate_energy. destruct (charging && _); [by case_match|].
  destruct pct as [p|]; [|done]. by destruct (evaluate _ p).
Qed.

(** The level after one evaluation that charging does not override. *)
Lemma evaluate_energy_level config m pct charging :
  energy_inv config m -> thresholds_wf Descending (energy_thresholds config) = true ->
  charging && en_ignore_when_charging config = false ->
  ev_current (em_evaluator (evaluate_energy m (Some pct) charging).1)
  = step_spec Descending (energy_thresholds config) (ev_current (em_evaluator m)) pct.
Proof.
  intros (Hd & Ht & Hi) Hwf Hc. unfold evaluate_energy. cbn. rewrite Hi, Hc.
  destruct (evaluate (em_evaluator m) pct) as [e o] eqn:He. cbn.
  replace e with (evaluate (em_evaluator m) pct).1 by (by rewrite He).
  autorewrite with argus. rewrite next_level_clamp; by rewrite Hd, Ht.
Qed.

(** The level after an evaluation that charging overrides. *)
Lemma evaluate_energy_charging config m pct :
  energy_inv config m -> thresholds_wf Descending (energy_thresholds config) = true ->
  en_ignore_when_charging config = true ->
  ev_current (em_evaluator (evaluate_energy m pct true).1)
  = if bool_decide (ev_current (em_evaluator m) = Normal) then Normal
    else step_spec Descending (energy_thresholds config) (ev_current (em_evaluator m)) (f64_lit 100 1).
Proof.
  intros (Hd & Ht & Hi) Hwf Hc. unfold evaluate_energy, evaluator_level. cbn. rewrite Hi, Hc. cbn.
  case_bool_decide as E; cbn; [done|]. autorewrite with argus.
  rewrite next_level_clamp; by rewrite Hd, Ht.
Qed.

(** ** Properties *)

(** Charging resets the level, for thresholds below 98%.  When the configuration
    ignores the battery while charging and a full battery is past the warning threshold's
    recovery point, one evaluation while charging leaves the level at [Normal] from
    wherever it was and whatever percentage was read, and the signal then says "charging"
    with no power budget. *)
Theorem charging_resets config m pct :
  energy_inv config m -> thresholds_wf Descending (energy_thresholds config) = true ->
  en_ignore_when_charging config = true ->
  released Descending (energy_thresholds config) (f64_lit 100 1) Warning = true ->
  reached Descending (energy_thresholds config) (f64_lit 100 1) Warning = false ->
  let m' := (evaluate_energy m pct true).1 in
  ev_current (em_evaluator m') = Normal /\
  energy_build_signal m' = EnergyConstraint Normal Charging 0.
Proof.
  intros Hinv Hwf Hc Hrel Hre m'.
  assert (Hn : ev_current (em_evaluator m') = Normal).
  { unfold m'. rewrite (evaluate_energy_charging config) by done. case_bool_decide; [done|].
    by apply step_spec_normal. }
  split; [done|]. unfold energy_build_signal, evaluator_level. rewrite Hn.
  assert (em_last_charging m' = true) as -> by apply evaluate_energy_last_charging. done.
Qed.

Definition demo_battery_env : Env := env_of_files
  [("/bat/type", "Battery
"); ("/bat/capacity", "12
"); ("/bat/status", "Discharging
")].

Lemma charging_resets_witness :
  let m := (evaluate_energy (EnergyMonitor_new empty_env default_EnergyMonitorConfig 1000)
              (Some (f64_lit 4 1)) false).1 in
  ev_current (em_evaluator m) = Emergency /\
  ev_current (em_evaluator (evaluate_energy m None true).1) = Normal.
Proof.
  split; [vm_compute; reflexivity|].
  apply (charging_resets default_EnergyMonitorConfig); vm_compute; try reflexivity.
  split_and!; reflexivity.
Defined.

(** A warning threshold of 98% or more defeats the reset.  With such a configuration
    [evaluate_energy] announces [Normal] while charging, yet the level stays, and the
    signal sent next still restricts the power budget. *)
Theorem charging_reset_fails :
  exists config m,
    energy_inv config m /\ thresholds_wf Descending (energy_thresholds config) = true /\
    en_ignore_when_charging config = true /\
    let '(m', announced) := evaluate_energy m None true in
    announced = Some Normal /\
    energy_build_signal m' = EnergyConstraint Warning BatteryLow (en_warning_power_budget_mw config).
Proof.
  set (config := {|
    en_enabled := true; en_poll_interval_ms := None; en_warning_pct := f64_lit 99 1;
    en_critical_pct := f64_lit 15 1; en_emergency_pct := f64_lit 5 1;
    en_warning_power_budget_mw := 3000; en_critical_power_budget_mw := 1500;
    en_emergency_power_budget_mw := 500; en_ignore_when_charging := true |}).
  exists config, (evaluate_energy (EnergyMonitor_new empty_env config 1000) (Some (f64_lit 50 1)) false).1.
  split_and!; vm_compute; split_and?; reflexivity.
Qed.
