(* ===== verification/ComputeMonitor.v ===== *)
(** * ComputeMonitor: CPU and GPU load (src/monitor/compute.rs) *)

From Stdlib Require Import ZArith Lia SpecFloat Ascii String.
From stdpp Require Import base tactics numbers list strings pretty.
From S2P Require Import Prelude Float RustStr Signal Config Evaluator Monitor GpuProvider.
Local Open Scope string_scope.
Local Open Scope list_scope.
Local Open Scope Z_scope.

Definition compute_level_from_pcts (cpu gpu : f64) : Level :=
  let cfg := default_ComputeMonitorConfig in
  let worst := f_max cpu gpu in
  if SFleb (cpu_critical_pct cfg) worst then Critical
  else if SFleb (cpu_warning_pct cfg) worst then Warning
  else Normal.

Record CpuSnapshot := { snap_total : Z; snap_idle : Z }.

Record ComputeMonitor := {
  cm_poll_interval : Z;
  cm_evaluator : ThresholdEvaluator;
  cm_warning_usage_pct : f64;
  cm_stat_path : string;
  cm_gpu_provider : GpuProvider;
  cm_prev_snapshot : option CpuSnapshot;
  cm_last_cpu : f64;
  cm_last_gpu : f64;
  cm_recommended : RecommendedBackend;
  cm_reason : ComputeReason
}.

Definition compute_thresholds (config : ComputeMonitorConfig) : Thresholds :=
  {| th_warning := cpu_warning_pct config;
     th_critical := cpu_critical_pct config;
     th_emergency := f64_MAX;
     th_hysteresis := cpu_hysteresis_pct config |}.

Definition ComputeMonitor_new (config : ComputeMonitorConfig) (default_poll_ms : Z)
    (gpu_provider : GpuProvider) : ComputeMonitor :=
  {| cm_poll_interval := default default_poll_ms (cpu_poll_interval_ms config);
     cm_evaluator := evaluator_new Ascending (compute_thresholds config);
     cm_warning_usage_pct := cpu_warning_pct config;
     cm_stat_path := "/proc/stat";
     cm_gpu_provider := gpu_provider;
     cm_prev_snapshot := None;
     cm_last_cpu := f_zero;
     cm_last_gpu := f_zero;
     cm_recommended := BackendAny;
     cm_reason := Balanced |}.

Definition resolve_backend (config : ComputeMonitorConfig) : GpuBackend :=
  match gpu_backend config, gpu_sysfs_path config with
  | GpuAuto, Some path => GpuCustomSysfs path
  | backend, _ => backend
  end.

Definition compute_from_config (env : Env) (config : ComputeMonitorConfig) (default_poll_ms : Z)
    : ComputeMonitor :=
  ComputeMonitor_new config default_poll_ms (build_provider env (resolve_backend config)).

Definition compute_recommendation (cpu gpu warning_pct : f64)
    : RecommendedBackend * ComputeReason :=
  let cpu_hot := SFleb warning_pct cpu in
  let gpu_hot := SFleb warning_pct gpu in
  match cpu_hot, gpu_hot with
  | true, true => (BackendAny, BothLoaded)
  | true, false => (BackendGpu, CpuBottleneck)
  | false, true => (BackendCpu, GpuBottleneck)
  | false, false =>
      if SFltb (f_abs (f64_sub cpu gpu)) (f64_lit 10 1) then (BackendAny, Balanced)
      else if SFltb cpu gpu then (BackendCpu, CpuAvailable)
      else (BackendGpu, GpuAvailable)
  end.

(** ** /proc/stat *)

Inductive StatError := StatRead | StatEmpty | StatTooFewFields.

(** [iter().sum()] on [u64]s: each addition is checked or wraps. *)
Fixpoint u64_sum (oc : bool) (acc : Z) (l : list Z) : outcome Z :=
  match l with
  | [] => Return acc
  | x :: l => let! acc := u64_arith oc (acc + x) in u64_sum oc acc l
  end.

Definition stat_fields (line : string) : list Z :=
  omap parse_u64 (drop 1 (split_whitespace line)).

Definition read_cpu_snapshot (oc : bool) (env : Env) (path : string)
    : outcome (result CpuSnapshot StatError) :=
  match fs_read env path with
  | None => Return (Err StatRead)
  | Some content =>
      match head (lines content) with
      | None => Return (Err StatEmpty)
      | Some line =>
          match stat_fields line with
          | f0 :: f1 :: f2 :: idle :: rest =>
              let! total := u64_sum oc 0 (f0 :: f1 :: f2 :: idle :: rest) in
              Return (Ok {| snap_total := total; snap_idle := idle |})
          | _ => Return (Err StatTooFewFields)
          end
      end
  end.

(** ** Polling *)

Definition read_gpu (env : Env) (m : ComputeMonitor) : f64 :=
  default f_zero (util_pct env (cm_gpu_provider m)).

Definition cpu_usage (oc : bool) (prev snap : CpuSnapshot) : outcome f64 :=
  let total_delta := u64_saturating_sub (snap_total snap) (snap_total prev) in
  let idle_delta := u64_saturating_sub (snap_idle snap) (snap_idle prev) in
  if 0 <? total_delta then
    let! busy := u64_arith oc (total_delta - idle_delta) in
    Return (f64_mul (f64_div (f64_of_Z busy) (f64_of_Z total_delta)) (f64_lit 100 1))
  else Return f_zero.

Definition with_readings (m : ComputeMonitor) (snap : CpuSnapshot) (cpu gpu : f64) : ComputeMonitor :=
  {| cm_poll_interval := cm_poll_interval m; cm_evaluator := cm_evaluator m;
     cm_warning_usage_pct := cm_warning_usage_pct m; cm_stat_path := cm_stat_path m;
     cm_gpu_provider := cm_gpu_provider m; cm_prev_snapshot := Some snap;
     cm_last_cpu := cpu; cm_last_gpu := gpu;
     cm_recommended := cm_recommended m; cm_reason := cm_reason m |}.

Definition compute_read_once (oc : bool) (env : Env) (m : ComputeMonitor)
    : outcome (ComputeMonitor * result bool StatError) :=
  let! r := read_cpu_snapshot oc env (cm_stat_path m) in
  match r with
  | Err e => Return (m, Err e)
  | Ok snap =>
      match cm_prev_snapshot m with
      | Some prev =>
          let! cpu := cpu_usage oc prev snap in
          Return (with_readings m snap cpu (read_gpu env m), Ok true)
      | None => Return (with_readings m snap (cm_last_cpu m) (cm_last_gpu m), Ok false)
      end
  end.

Definition compute_build_signal (m : ComputeMonitor) : SystemSignal :=
  ComputeGuidance (evaluator_level (cm_evaluator m)) (cm_recommended m) (cm_reason m)
    (cm_last_cpu m) (cm_last_gpu m).

(** The body of the [run] loop. *)
Definition compute_poll (oc : bool) (env : Env) (m : ComputeMonitor)
    : outcome (ComputeMonitor * option SystemSignal) :=
  let! (m, r) := compute_read_once oc env m in
  match r with
  | Ok true =>
      let worst := f_max (cm_last_cpu m) (cm_last_gpu m) in
      let '(new_rec, new_reason) :=
        compute_recommendation (cm_last_cpu m) (cm_last_gpu m) (cm_warning_usage_pct m) in
      let m := {|
        cm_poll_interval := cm_poll_interval m;
        cm_evaluator := (evaluate (cm_evaluator m) worst).1;
        cm_warning_usage_pct := cm_warning_usage_pct m; cm_stat_path := cm_stat_path m;
        cm_gpu_provider := cm_gpu_provider m; cm_prev_snapshot := cm_prev_snapshot m;
        cm_last_cpu := cm_last_cpu m; cm_last_gpu := cm_last_gpu m;
        cm_recommended := new_rec; cm_reason := new_reason
      |} in
      Return (m, Some (compute_build_signal m))
  | Ok false | Err _ => Return (m, None)
  end.

Definition compute_initial_signal (m : ComputeMonitor) : option SystemSignal :=
  Some (compute_build_signal m).

#[export] Instance ComputeMonitor_monitor : Monitor ComputeMonitor := {|
  initial_signal := compute_initial_signal;
  monitor_name := "ComputeMonitor"
|}.

Lemma compute_poll_sends_state oc env m m' s :
  compute_poll oc env m = Return (m', Some s) -> compute_initial_signal m' = Some s.
Proof.
  unfold compute_poll. destruct (compute_read_once oc env m) as [[m1 [[]|]]|]; try done.
  destruct (compute_recommendation _ _ _). intros; by simplify_eq.
Qed.

#[export] Instance ComputeMonitor_polling (oc : bool) : PollingMonitor ComputeMonitor := {|
  poll := compute_poll oc;
  poll_sends_state := compute_poll_sends_state oc
|}.

Definition compute_run (oc : bool)
    : ComputeMonitor -> list Tick -> outcome (ComputeMonitor * list SystemSignal) :=
  @run ComputeMonitor ComputeMonitor_monitor (ComputeMonitor_polling oc).

(** ** Lemmas *)

(** A line of numbers after a label, as the kernel prints it: each number after blanks. *)
Fixpoint field_string (fields : list (string * Z)) : string :=
  match fields with
  | [] => ""
  | (blanks, n) :: fields => blanks +:+ pretty n +:+ field_string fields
  end.

Definition fields_ok (fields : list (string * Z)) : Prop :=
  Forall (fun f => all_chars is_whitespace f.1 = true /\ f.1 <> "" /\ is_u64 f.2) fields.

Lemma split_fields fields : fields_ok fields ->
  forall t, all_chars (fun c => negb (is_whitespace c)) t = true -> t <> "" ->
  split_whitespace (t +:+ field_string fields) = t :: map (fun f => pretty f.2) fields.
Proof.
  induction 1 as [|[b n] fields (Hb & Hbne & Hn) _ IH]; intros t Ht Hne; cbn [field_string map].
  - rewrite str_app_nil_r. by apply split_whitespace_last.
  - cbn [fst snd] in Hb, Hbne, Hn. unfold is_u64 in Hn. rewrite split_whitespace_token by done. f_equal.
    cbn [snd]. apply IH; [apply pretty_Z_no_ws; lia|apply pretty_Z_nonempty; lia].
Qed.

Lemma stat_fields_line label fields : fields_ok fields ->
  all_chars (fun c => negb (is_whitespace c)) label = true -> label <> "" ->
  stat_fields (label +:+ field_string fields) = map snd fields.
Proof.
  intros Hf Hl Hne. unfold stat_fields. rewrite split_fields by done. cbn [drop].
  induction Hf as [|[b n] fields (_ & _ & Hn) _ IH]; [done|]. cbn.
  unfold parse_u64 at 1. rewrite parse_uint_pretty by done. by rewrite <- IH.
Qed.

Lemma u64_sum_exact oc l : Forall is_u64 l -> forall acc, 0 <= acc ->
  acc + foldr Z.add 0 l <= u64_max -> u64_sum oc acc l = Return (acc + foldr Z.add 0 l).
Proof.
  induction 1 as [|x l Hx Hl IH]; intros acc Hacc Hs; cbn in *; [by rewrite Z.add_0_r|].
  unfold is_u64 in Hx.
  assert (0 <= foldr Z.add 0 l) by (clear -Hl; induction Hl; cbn; unfold is_u64 in *; lia).
  unfold u64_arith at 1. rewrite arith_in_range by lia. rewrite IH by lia. f_equal. lia.
Qed.

Lemma cpu_usage_value prev snap busy :
  0 < u64_saturating_sub (snap_total snap) (snap_total prev) <= u64_max ->
  is_nan (f64_mul (f64_div (f64_of_Z busy)
    (f64_of_Z (u64_saturating_sub (snap_total snap) (snap_total prev)))) (f64_lit 100 1)) = false.
Proof.
  intros Ht. destruct (f64_of_Z_pos _ Ht) as (m & e & ->).
  apply SFmul_not_nan_r, SFdiv_not_nan, f64_of_Z_not_nan.
Qed.

(** ** Properties *)

(** The recommendation never points at a hot back end.  For every load and threshold:
    a named back end is below the warning threshold, and when both loads are numbers it is
    the one with the smaller (for the GPU: no larger) load; no back end is preferred
    exactly when both are hot, or neither is and they differ by less than ten points. *)
Theorem recommendation_is_sound cpu gpu warning :
  let b := (compute_recommendation cpu gpu warning).1 in
  (b = BackendCpu -> SFleb warning cpu = false /\
     (is_nan cpu = false -> is_nan gpu = false -> SFltb cpu gpu = true)) /\
  (b = BackendGpu -> SFleb warning gpu = false /\
     (is_nan cpu = false -> is_nan gpu = false -> SFleb gpu cpu = true)) /\
  (b = BackendAny <->
     (SFleb warning cpu = true /\ SFleb warning gpu = true) \/
     (SFleb warning cpu = false /\ SFleb warning gpu = false /\
      SFltb (f_abs (f64_sub cpu gpu)) (f64_lit 10 1) = true)).
Proof.
  intros b. subst b. unfold compute_recommendation.
  destruct (SFleb warning cpu) eqn:Hc, (SFleb warning gpu) eqn:Hg; cbn.
  - intuition discriminate.
  - split_and!; [done| |intuition discriminate]. intros _. split; [done|]. intros. f_order.
  - split_and!; [|done|intuition discriminate]. intros _. split; [done|]. intros. f_order.
  - destruct (SFltb (f_abs _) _) eqn:Hd; cbn; [intuition discriminate|].
    destruct (SFltb cpu gpu) eqn:Hlt; cbn; split_and!; try done; try (intuition discriminate).
    all: intros _; split; [done|]; intros; f_order.
Qed.

(** The processor counters are read back exactly.  When the first line of the file is
    a label followed by at least four blank-separated numbers, the snapshot's total is
    their sum and its idle count the fourth, whatever the rest of the file holds and
    however the numbers are spaced, as long as the sum fits in 64 bits. *)
Theorem cpu_snapshot_reads oc env path content label b1 n1 b2 n2 b3 n3 b4 idle fields rest :
  let all := (b1, n1) :: (b2, n2) :: (b3, n3) :: (b4, idle) :: fields in
  fs_read env path = Some content ->
  lines content = (label +:+ field_string all) :: rest ->
  fields_ok all -> all_chars (fun c => negb (is_whitespace c)) label = true -> label <> "" ->
  foldr Z.add 0 (map snd all) <= u64_max ->
  read_cpu_snapshot oc env path =
    Return (Ok {| snap_total := foldr Z.add 0 (map snd all); snap_idle := idle |}).
Proof.
  intros all Hread Hlines Hf Hl Hne Hsum. unfold read_cpu_snapshot. rewrite Hread, Hlines.
  cbn [head]. rewrite stat_fields_line by done. cbn [map all snd].
  assert (Hu : Forall is_u64 (map snd all)).
  { apply Forall_map. eapply Forall_impl; [exact Hf|]. by intros ? (_ & _ & ?). }
  change (n1 :: n2 :: n3 :: idle :: map snd fields) with (map snd all).
  by rewrite (u64_sum_exact oc (map snd all) Hu 0) by lia.
Qed.

Definition demo_stat : string :=
  "cpu  10 20 30 40 5 0
cpu0 1 2 3 4
".

Lemma cpu_snapshot_reads_witness :
  read_cpu_snapshot true (env_of_files [("/proc/stat", demo_stat)]) "/proc/stat"
  = Return (Ok {| snap_total := 105; snap_idle := 40 |}).
Proof.
  apply (cpu_snapshot_reads true _ "/proc/stat" demo_stat "cpu" "  " 10 " " 20 " " 30 " " 40
    [(" ", 5); (" ", 0)] ["cpu0 1 2 3 4"]).
  - reflexivity.
  - vm_compute. reflexivity.
  - repeat constructor; (discriminate || (vm_compute; discriminate)).
  - reflexivity.
  - discriminate.
  - vm_compute. discriminate.
Defined.

(** C37. CPU usage and its unchecked subtraction.  Between two snapshots with a positive
    (saturated) total difference, when the idle counter advanced no further than the total
    the usage is a number; when it advanced further - idle counters may step back and
    forth between reads - the subtraction underflows: the monitor's thread panics when
    overflow checks are compiled in, and otherwise the usage is computed from a busy time
    near 2^64. *)
Theorem cpu_usage_underflow oc prev snap :
  let t := u64_saturating_sub (snap_total snap) (snap_total prev) in
  let i := u64_saturating_sub (snap_idle snap) (snap_idle prev) in
  let usage busy := f64_mul (f64_div (f64_of_Z busy) (f64_of_Z t)) (f64_lit 100 1) in
  is_u64 (snap_total snap) -> is_u64 (snap_idle snap) -> is_u64 (snap_total prev) ->
  0 <= snap_idle prev -> 0 < t ->
  (i <= t -> cpu_usage oc prev snap = Return (usage (t - i)) /\ is_nan (usage (t - i)) = false) /\
  (t < i -> cpu_usage true prev snap = Panic /\
            cpu_usage false prev snap = Return (usage (2 ^ 64 + t - i))).
Proof.
  intros t i usage Hst Hsi Hpt Hpi Ht. unfold is_u64 in *.
  assert (Hi0 : 0 <= i <= u64_max) by (unfold i, u64_saturating_sub; lia).
  assert (Htm : 0 < t <= u64_max) by (unfold t, u64_saturating_sub in *; lia).
  unfold cpu_usage. fold t. fold i. rewrite (proj2 (Z.ltb_lt 0 t)) by lia. unfold u64_arith. split.
  - intros Hle. rewrite arith_in_range by lia. split; [done|]. by apply cpu_usage_value.
  - intros Hlt. destruct (arith_overflow 0 u64_max (t - i) ltac:(lia)) as [-> ->]. split; [done|].
    unfold usage. do 4 f_equal. unfold wrap. rewrite Z.sub_0_r.
    replace (u64_max - 0 + 1) with (2 ^ 64) by reflexivity.
    symmetry. rewrite Z.add_0_l.
    rewrite <- (Z.mod_small (2 ^ 64 + t - i) (2 ^ 64)) by (unfold u64_max in *; lia).
    replace (2 ^ 64 + t - i) with (t - i + 1 * 2 ^ 64) by lia. by rewrite Z.mod_add by lia.
Qed.

Lemma cpu_usage_underflow_witness :
  cpu_usage true {| snap_total := 100; snap_idle := 50 |} {| snap_total := 110; snap_idle := 70 |} = Panic.
Proof.
  apply (cpu_usage_underflow true {| snap_total := 100; snap_idle := 50 |}
    {| snap_total := 110; snap_idle := 70 |});
    vm_compute; try (split; discriminate); (reflexivity || discriminate).
Defined.
