(* ===== verification/ExternalMonitor.v ===== *)
(** * ExternalMonitor: injected signals (src/monitor/external.rs)

    Reads one JSON object per line from standard input or from the clients of a socket.
    Deserialization is [serde_json]'s and a parameter; what sockets and readers deliver,
    and the state of the shutdown flag at each look, are given as events. *)

From Stdlib Require Import ZArith Lia Ascii String.
From stdpp Require Import base tactics numbers list strings.
From S2P Require Import Prelude RustStr Signal Config Monitor.
Local Open Scope string_scope.
Local Open Scope list_scope.

Inductive ExternalTransport :=
| ExtUnixSocket (path : string)
| ExtTcp (addr : string)
| ExtStdin.

Record ExternalMonitor := { ext_mon_transport : ExternalTransport }.

Definition ExternalMonitor_new (config : ExternalMonitorConfig) : ExternalMonitor :=
  {| ext_mon_transport :=
       if String.eqb (ext_transport config) "stdin" || String.eqb (ext_transport config) "-"
       then ExtStdin
       else match strip_prefix "unix:" (ext_transport config) with
            | Some path => ExtUnixSocket path
            | None =>
                match strip_prefix "tcp:" (ext_transport config) with
                | Some addr => ExtTcp addr
                | None => ExtStdin
                end
            end |}.

(** One line delivered by a reader: the shutdown flag when it is looked at, the text or a
    read error, and whether the receiver of the signals still exists. *)
Record LineEvent := { le_shutdown : bool; le_line : option string; le_rx_open : bool }.

(** One return of [accept]: a client with its lines (or a stream that cannot be made
    blocking), nothing yet, or an error. *)
Inductive AcceptEvent :=
| AcceptClient (blocking_ok : bool) (lines : list LineEvent)
| AcceptWouldBlock
| AcceptError.

(** What the monitor does to its surroundings. *)
Inductive ExtAction :=
| ExtRemoveFile (path : string)
| ExtBind (addr : string)
| ExtInject (signal : SystemSignal).

Inductive ExtError := ExtBindFailed | ExtSetNonblockingFailed.

Section External.
(** [serde_json::from_str::<SystemSignal>(text).ok()] *)
Context (signal_of_json : string -> option SystemSignal).

Fixpoint run_with_reader (events : list LineEvent) : list SystemSignal :=
  match events with
  | [] => []
  | e :: events =>
      if le_shutdown e then []
      else match le_line e with
      | None => []
      | Some text =>
          let text := trim text in
          if String.eqb text "" then run_with_reader events
          else match signal_of_json text with
          | Some signal =>
              if le_rx_open e then signal :: run_with_reader events else []
          | None => run_with_reader events
          end
      end
  end.

(** The accept loop, the same for both kinds of socket. *)
Fixpoint accept_loop (events : list (bool * AcceptEvent)) : list ExtAction * result unit ExtError :=
  match events with
  | [] => ([], Ok tt)
  | (shutdown, e) :: events =>
      if shutdown then ([], Ok tt)
      else match e with
      | AcceptClient false _ => ([], Err ExtSetNonblockingFailed)
      | AcceptClient true lines =>
          let '(acts, r) := accept_loop events in
          (map ExtInject (run_with_reader lines) ++ acts, r)
      | AcceptWouldBlock => accept_loop events
      | AcceptError => ([], Ok tt)
      end
  end.

Definition run_unix_socket (path : string) (bind_ok nonblocking_ok : bool)
    (events : list (bool * AcceptEvent)) : list ExtAction * result unit ExtError :=
  if negb bind_ok then ([ExtRemoveFile path], Err ExtBindFailed)
  else if negb nonblocking_ok
  then ([ExtRemoveFile path; ExtBind path], Err ExtSetNonblockingFailed)
  else
    let '(acts, r) := accept_loop events in
    ([ExtRemoveFile path; ExtBind path] ++ acts ++
       match r with Ok _ => [ExtRemoveFile path] | Err _ => [] end, r).

Definition run_tcp_socket (addr : string) (bind_ok nonblocking_ok : bool)
    (events : list (bool * AcceptEvent)) : list ExtAction * result unit ExtError :=
  if negb bind_ok then ([], Err ExtBindFailed)
  else if negb nonblocking_ok then ([ExtBind addr], Err ExtSetNonblockingFailed)
  else let '(acts, r) := accept_loop events in (ExtBind addr :: acts, r).

Definition external_run (m : ExternalMonitor) (stdin : list LineEvent)
    (bind_ok nonblocking_ok : bool) (events : list (bool * AcceptEvent))
    : list ExtAction * result unit ExtError :=
  match ext_mon_transport m with
  | ExtStdin => (map ExtInject (run_with_reader stdin), Ok tt)
  | ExtUnixSocket path => run_unix_socket path bind_ok nonblocking_ok events
  | ExtTcp addr => run_tcp_socket addr bind_ok nonblocking_ok events
  end.

(** ** Specification *)

(** The signal a line carries, if it carries one. *)
Definition line_signal (e : LineEvent) : option SystemSignal :=
  text ← le_line e;
  if String.eqb (trim text) "" then None else signal_of_json (trim text).

(** A line at which the reader loop ends. *)
Definition stops (e : LineEvent) : bool :=
  le_shutdown e ||
  match le_line e with
  | None => true
  | Some _ => negb (le_rx_open e) && match line_signal e with Some _ => true | None => false end
  end.

Fixpoint until_stop (events : list LineEvent) : list LineEvent :=
  match events with
  | [] => []
  | e :: events => if stops e then [] else e :: until_stop events
  end.

Lemma run_with_reader_spec events :
  run_with_reader events = omap line_signal (until_stop events).
Proof.
  induction events as [|[sd [text|] rx] events IH]; [done| |by destruct sd].
  assert (Hl : line_signal {| le_shutdown := sd; le_line := Some text; le_rx_open := rx |} =
    if String.eqb (trim text) "" then None else signal_of_json (trim text)) by reflexivity.
  cbn [run_with_reader until_stop]. unfold stops. rewrite Hl. cbn [le_shutdown le_line le_rx_open].
  destruct sd; [done|]. cbn [orb]. destruct (String.eqb (trim text) "").
  - by rewrite andb_false_r, omap_cons, Hl.
  - destruct (signal_of_json (trim text)) as [s|].
    + destruct rx; cbn [negb andb]; [|done]. by rewrite omap_cons, Hl, IH.
    + by rewrite andb_false_r, omap_cons, Hl.
Qed.

Lemma accept_loop_injects events acts r :
  accept_loop events = (acts, r) -> Forall (fun a => exists s, a = ExtInject s) acts.
Proof.
  revert acts r. induction events as [|[[] e] events IH]; intros acts r H; cbn in H; simplify_eq; [done..|].
  destruct e as [[] ls| |]; simplify_eq; [|done|by eapply IH|done].
  destruct (accept_loop events) as [acts' r']. simplify_eq. apply Forall_app. split; [|by eapply IH].
  apply Forall_map, Forall_true. eauto.
Qed.

(** The signals injected by a client loop. *)
Definition injected (acts : list ExtAction) : list SystemSignal :=
  omap (fun a => match a with ExtInject s => Some s | _ => None end) acts.

(** The connections served before the loop ends. *)
Fixpoint served (events : list (bool * AcceptEvent)) : list (list LineEvent) :=
  match events with
  | (false, AcceptClient true ls) :: events => ls :: served events
  | (false, AcceptWouldBlock) :: events => served events
  | _ => []
  end.

Lemma injected_app a b : injected (a ++ b) = injected a ++ injected b.
Proof. unfold injected. by rewrite omap_app. Qed.
Lemma injected_map ss : injected (map ExtInject ss) = ss.
Proof. induction ss as [|s ss IH]; [done|]. unfold injected in *. cbn. f_equal. exact IH. Qed.

Lemma accept_loop_served events :
  injected (accept_loop events).1 = concat (map run_with_reader (served events)).
Proof.
  induction events as [|[[] [[] ls| |]] events IH]; try done.
  cbn [accept_loop served map concat]. destruct (accept_loop events) as [acts r].
  cbn [fst] in *. by rewrite injected_app, injected_map, IH.
Qed.
End External.

#[export] Instance ExternalMonitor_monitor : Monitor ExternalMonitor := {|
  initial_signal := fun _ => None;
  monitor_name := "ExternalMonitor"
|}.

(** ** Properties *)

(** The external monitor injects exactly what it is given.  On any transport and
    whatever happens on it, the signals injected are, in order, those of the lines that
    parse, over all the connections served before the accept loop ends and, in each, over
    the lines before the first that stops the reader (shutdown, a read error, or a signal
    nobody receives any more); blank and malformed lines are skipped, never a reason to
    stop. *)
Theorem external_injects json m stdin nonblocking_ok events :
  injected (external_run json m stdin true nonblocking_ok events).1 =
  match ext_mon_transport m with
  | ExtStdin => omap (line_signal json) (until_stop json stdin)
  | ExtUnixSocket _ | ExtTcp _ =>
      if nonblocking_ok
      then concat (map (fun ls => omap (line_signal json) (until_stop json ls)) (served events))
      else []
  end.
Proof.
  assert (Hc : injected (accept_loop json events).1 =
    concat (map (fun ls => omap (line_signal json) (until_stop json ls)) (served events))).
  { rewrite accept_loop_served. f_equal. apply map_ext. apply run_with_reader_spec. }
  unfold external_run. destruct (ext_mon_transport m) as [path|addr|].
  - unfold run_unix_socket. destruct nonblocking_ok; [|done]. cbn -[injected].
    destruct (accept_loop json events) as [acts r]. cbn -[injected] in *. rewrite <- Hc.
    change (ExtRemoveFile path :: ExtBind path :: ?l) with ([ExtRemoveFile path; ExtBind path] ++ l).
    rewrite !injected_app. destruct r; cbn; by rewrite app_nil_r.
  - unfold run_tcp_socket. destruct nonblocking_ok; [|done]. cbn -[injected].
    destruct (accept_loop json events) as [acts r]. cbn -[injected] in *. by rewrite <- Hc.
  - cbn -[injected]. by rewrite injected_map, run_with_reader_spec.
Qed.
