(* ===== verification/LuaContext.v ===== *)
(** * LuaContext: what a policy script sees (src/lua/context.rs, and the [sys] helpers of
    src/lua_policy.rs)

    The tables the program builds for the script are values of [CtxValue]; handing them
    to the Lua virtual machine is the machine's business.  The [sys] functions are
    functions of the environment. *)

From Stdlib Require Import ZArith Lia SpecFloat Ascii String.
From stdpp Require Import base tactics numbers list strings pretty.
From S2P Require Import Prelude Float RustStr PolicyState Wire Monitor GpuProvider.
Local Open Scope string_scope.
Local Open Scope list_scope.
Local Open Scope Z_scope.

(** ** The context table (src/lua/context.rs) *)

#[warnings="-register-all"]
Inductive CtxValue :=
| CBool (b : bool)
| CF32 (x : f32)
| CF64 (x : f64)
| CU64 (n : Z)
| CStr (s : string)
| CTable (fields : list (string * CtxValue)).

Definition ctx_get (v : CtxValue) (key : string) : option CtxValue :=
  match v with
  | CTable fields => find_map (fun '(k, v) => if String.eqb k key then Some v else None) fields
  | _ => None
  end.

Definition phase_str (p : Phase) : string :=
  match p with PhaseIdle => "idle" | PhasePrefill => "prefill" | PhaseDecode => "decode" end.
Definition engine_state_str (s : EngineState) : string :=
  match s with
  | EngineIdle => "idle" | EngineRunning => "running" | EngineSuspended => "suspended"
  end.

Definition engine_table (engine : option EngineStatus) : CtxValue :=
  match engine with
  | Some st =>
      CTable ([("seen", CBool true);
               ("kv_cache_bytes", CU64 (kv_cache_bytes st));
               ("kv_cache_budget_bytes", CU64 (kv_cache_budget_bytes st));
               ("kv_cache_tokens", CU64 (kv_cache_tokens st));
               ("tbt_ms", CF32 (tbt_ms st));
               ("phase", CStr (phase_str (phase st)));
               ("state", CStr (engine_state_str (state st)))] ++
              (if 0 <? kv_cache_budget_bytes st
               then [("kv_fill", CF64 (f64_div (f64_of_Z (kv_cache_bytes st))
                                               (f64_of_Z (kv_cache_budget_bytes st))))]
               else []))
  | None => CTable [("seen", CBool false)]
  end.

Definition build_ctx (pressure : Pressure6D) (trigger : TriggerState) (signals : SignalState)
    (engine : option EngineStatus) : CtxValue :=
  let p := CTable [("gpu", CF32 (pr_gpu pressure)); ("cpu", CF32 (pr_cpu pressure));
                   ("memory", CF32 (pr_memory pressure)); ("thermal", CF32 (pr_thermal pressure));
                   ("latency", CF32 (pr_latency pressure)); ("main_app", CF32 (pr_main_app pressure))] in
  let t := CTable [("tbt_degraded", CBool (tbt_degraded trigger));
                   ("mem_low", CBool (mem_low trigger)); ("temp_high", CBool (temp_high trigger))] in
  let mem := CTable [("available", CU64 (mem_available signals)); ("total", CU64 (mem_total signals))] in
  let compute := CTable [("cpu_pct", CF64 (cpu_pct signals)); ("gpu_pct", CF64 (gpu_pct signals))] in
  let thermal := CTable [("temp_c", CF64 (f64_div (f64_of_Z (temp_mc signals)) (f64_lit 1000 1)));
                         ("throttling", CBool (throttling signals))] in
  CTable [("pressure", p); ("trigger", t); ("engine", engine_table engine);
          ("signal", CTable [("memory", mem); ("compute", compute); ("thermal", thermal)])].

(** ** The [sys] helpers (src/lua_policy.rs) *)

(** [sys.read] *)
Definition sys_read (env : Env) (path : string) : string :=
  match fs_read env path with Some s => trim s | None => "" end.

Definition parse_meminfo_value (s : string) : Z :=
  default 0 (tok ← head (split_whitespace s); parse_u64 tok).

Fixpoint meminfo_fields (ls : list string) (total available free : Z) : Z * Z * Z :=
  match ls with
  | [] => (total, available, free)
  | line :: ls =>
      match strip_prefix "MemTotal:" line with
      | Some rest => meminfo_fields ls (parse_meminfo_value rest) available free
      | None =>
          match strip_prefix "MemAvailable:" line with
          | Some rest => meminfo_fields ls total (parse_meminfo_value rest) free
          | None =>
              match strip_prefix "MemFree:" line with
              | Some rest => meminfo_fields ls total available (parse_meminfo_value rest)
              | None => meminfo_fields ls total available free
              end
          end
      end
  end.

(** [sys.meminfo]: total, available and free, in kB. *)
Definition read_meminfo (env : Env) : Z * Z * Z :=
  match fs_read env "/proc/meminfo" with
  | None => (0, 0, 0)
  | Some content => meminfo_fields (lines content) 0 0 0
  end.

(** [sys.thermal(zone)] *)
Definition sys_thermal (env : Env) (zone : Z) : f64 :=
  default (f64_lit (-1) 1)
    (s ← fs_read env ("/sys/class/thermal/thermal_zone" +:+ pretty zone +:+ "/temp");
     mc ← parse_f64 (trim s);
     Some (f64_div mc (f64_lit 1000 1))).

(** [f64::round] (half away from zero) followed by [as i64]. *)
Definition f_round_to_i64 (x : spec_float) : Z :=
  match x with
  | S754_finite s m e =>
      let r := if 0 <=? e then Z.shiftl (Z.pos m) e
               else (Z.pos m + 2 ^ (- e - 1)) / 2 ^ (- e) in
      Z.max i64_min (Z.min i64_max (if s then - r else r))
  | S754_infinity s => if s then i64_min else i64_max
  | S754_zero _ | S754_nan => 0
  end.

(** [sys.gpu_busy]: rounded percentage, or -1. *)
Definition sys_gpu_busy (env : Env) (provider : GpuProvider) : Z :=
  default (-1) (f_round_to_i64 <$> util_pct env provider).

(** [sys.gpu_freq]: [u64 as i64] keeps the bits. *)
Definition sys_gpu_freq (env : Env) (provider : GpuProvider) : Z :=
  default (-1) (wrap i64_min i64_max <$> freq_hz env provider).

(** [sys.cpu_freq(cpu)] *)
Definition sys_cpu_freq (env : Env) (cpu : Z) : Z :=
  default (-1)
    (s ← fs_read env ("/sys/devices/system/cpu/cpu" +:+ pretty cpu +:+ "/cpufreq/scaling_cur_freq");
     parse_i64 (trim s)).

(** *** [sys.foreground_fps] *)

Record FpsState := { prev_frame : Z; prev_time : Z; initialized : bool }.

(** The frame counter on one of the first five lines from a marker on. *)
Definition frame_number (line : string) : option Z :=
  rest ← find_after "frame=" line; parse_u64 (take_while is_digit rest).

(** The search over the occurrences of the marker.  Each turn resumes after a marker, so
    the text left is strictly shorter and its length is fuel enough. *)
Fixpoint find_frame (fuel : nat) (marker text : string) : option Z :=
  match fuel with
  | O => None
  | S fuel =>
      match find_after marker text with
      | None => None
      | Some rest =>
          match find_map frame_number (take 5 (lines (marker +:+ rest))) with
          | Some f => Some f
          | None => find_frame fuel marker rest
          end
      end
  end.

Definition fps_marker (pkg : string) : string := "SurfaceView[" +:+ pkg.

(** One call: [output] is what [dumpsys SurfaceFlinger] printed ([None] when it cannot be
    run) and [now] the clock in nanoseconds. *)
Definition foreground_fps (st : FpsState) (output : option string) (now : Z) (pkg : string)
    : FpsState * option f32 :=
  match output with
  | None => (st, None)
  | Some text =>
      match find_frame (S (String.length text)) (fps_marker pkg) text with
      | None => (st, None)
      | Some cur_frame =>
          if negb (initialized st) then
            ({| prev_frame := cur_frame; prev_time := now; initialized := true |}, None)
          else
            let dt := duration_as_secs_f32 (Z.max 0 (now - prev_time st)) in
            if SFltb dt (f32_lit 1 10) then (st, None)
            else
              let delta_frames := u64_saturating_sub cur_frame (prev_frame st) in
              let fps := f32_div (f32_of_Z delta_frames) dt in
              ({| prev_frame := cur_frame; prev_time := now; initialized := initialized st |},
               Some fps)
      end
  end.

(** ** Lemmas *)

Lemma str_length_app s t : String.length (s +:+ t) = (String.length s + String.length t)%nat.
Proof. induction s as [|c s IH]; [done|]. exact (f_equal S IH). Qed.

Lemma find_after_shorter p s r : find_after p s = Some r ->
  (String.length r + String.length p <= String.length s)%nat.
Proof.
  intros H. apply find_after_Some in H as (t & ->). rewrite !str_length_app. lia.
Qed.

(** The fuel given is enough: more changes nothing. *)
Lemma find_frame_fuel marker fuel1 : forall fuel2 text, marker <> "" ->
  (String.length text < fuel1)%nat -> (String.length text < fuel2)%nat ->
  find_frame fuel1 marker text = find_frame fuel2 marker text.
Proof.
  induction fuel1 as [|fuel1 IH]; intros [|fuel2] text Hm H1 H2; try lia.
  cbn [find_frame]. destruct (find_after marker text) as [rest|] eqn:Hf; [|done].
  destruct (find_map _ _); [done|]. apply find_after_shorter in Hf.
  assert (0 < String.length marker)%nat by (destruct marker; [done|cbn; lia]).
  apply IH; [done|lia|lia].
Qed.

Lemma kv_fill_not_nan st : is_u64 (kv_cache_budget_bytes st) -> 0 < kv_cache_budget_bytes st ->
  is_nan (f64_div (f64_of_Z (kv_cache_bytes st)) (f64_of_Z (kv_cache_budget_bytes st))) = false.
Proof.
  intros Hu Hpos. destruct (f64_of_Z_pos (kv_cache_budget_bytes st)) as (m & e & ->).
  { unfold is_u64 in Hu. lia. }
  apply SFdiv_not_nan, f64_of_Z_not_nan.
Qed.

(** ** Properties *)

(** The engine table never makes a script compute on nothing.  The context's engine
    table always says whether a heartbeat was seen; the fill fraction is there exactly
    when a heartbeat with a positive budget was, and it is a number; every other field is
    the heartbeat's. *)
Theorem engine_table_honest pressure trigger signals engine :
  match engine with Some st => is_u64 (kv_cache_budget_bytes st) | None => True end ->
  exists e, ctx_get (build_ctx pressure trigger signals engine) "engine" = Some e /\
  ctx_get e "seen" = Some (CBool (match engine with Some _ => true | None => false end)) /\
  match engine with
  | Some st =>
      ctx_get e "kv_cache_bytes" = Some (CU64 (kv_cache_bytes st)) /\
      ctx_get e "kv_cache_budget_bytes" = Some (CU64 (kv_cache_budget_bytes st)) /\
      ctx_get e "kv_cache_tokens" = Some (CU64 (kv_cache_tokens st)) /\
      ctx_get e "tbt_ms" = Some (CF32 (tbt_ms st)) /\
      (0 < kv_cache_budget_bytes st ->
         exists x, ctx_get e "kv_fill" = Some (CF64 x) /\ is_nan x = false) /\
      (kv_cache_budget_bytes st <= 0 -> ctx_get e "kv_fill" = None)
  | None => ctx_get e "kv_fill" = None /\ ctx_get e "kv_cache_budget_bytes" = None
  end.
Proof.
  intros Hu. exists (engine_table engine). split; [reflexivity|].
  destruct engine as [st|]; [|by split_and!]. unfold engine_table.
  destruct (Z.ltb_spec 0 (kv_cache_budget_bytes st)); split_and!; try reflexivity; try lia.
  intros _. eexists. split; [reflexivity|]. by apply kv_fill_not_nan.
Qed.

Definition demo_status : EngineStatus :=
  {| kv_cache_bytes := 512; kv_cache_budget_bytes := 1024; kv_cache_tokens := 10;
     tbt_ms := f32_lit 40 1; phase := PhaseDecode; state := EngineRunning |}.

Lemma engine_table_honest_witness :
  exists e, ctx_get (build_ctx (pressure_with_thermal SignalState_default (f32_lit 35 1) (f32_lit 50 1) None)
              TriggerState_default SignalState_default (Some demo_status)) "engine" = Some e /\
    ctx_get e "seen" = Some (CBool true).
Proof.
  destruct (engine_table_honest
    (pressure_with_thermal SignalState_default (f32_lit 35 1) (f32_lit 50 1) None)
    TriggerState_default SignalState_default (Some demo_status)) as (e & H1 & H2 & _).
  - unfold is_u64, u64_max. cbn. lia.
  - exists e. split; assumption.
Defined.
