(* ===== verification/LuaPolicy.v ===== *)
(** * LuaPolicy: the scripted policy (src/lua_policy.rs)

    The Lua virtual machine is [mlua]'s: a type of machines, the conversions of the values
    a script returns, and the one call the policy makes are parameters ([LuaVM]).  What
    the program does with them - parsing actions, counting what it drops, falling back
    after failures, reloading - is modelled in full. *)

From Stdlib Require Import ZArith Lia SpecFloat Ascii String.
From stdpp Require Import base tactics numbers list strings.
From S2P Require Import Prelude Float RustStr Signal Config PolicyState Wire Pipeline Monitor GpuProvider LuaContext.
Local Open Scope string_scope.
Local Open Scope list_scope.
Local Open Scope Z_scope.

Definition FALLBACK_ERROR_THRESHOLD : Z := 3.

(** [mlua::Value], with tables and everything the program does not look into opaque. *)
Inductive Value (table other : Type) : Type :=
| VNil
| VBoolean (b : bool)
| VInteger (i : Z)
| VNumber (n : f64)
| VTable (t : table)
| VFunction
| VOther (o : other).
Arguments VNil {table other}.
Arguments VBoolean {table other} b.
Arguments VInteger {table other} i.
Arguments VNumber {table other} n.
Arguments VTable {table other} t.
Arguments VFunction {table other}.
Arguments VOther {table other} o.

(** The virtual machine. [None] is an error of the machine or of a conversion. *)
Class LuaVM := {
  vm : Type;
  table : Type;
  other : Type;
  (** a sandboxed machine with the [sys] helpers registered *)
  vm_new : GpuProvider -> option vm;
  (** evaluate a script *)
  vm_exec : vm -> string -> vm * bool;
  get_global : vm -> string -> option (Value table other);
  (** build the context table, look [decide] up and call it *)
  call : vm -> CtxValue -> vm * option (Value table other);
  (** [contains_key], and [get] at the types the program asks for *)
  contains_key : table -> string -> option bool;
  get_value : table -> string -> option (Value table other);
  get_string : table -> string -> option string;
  get_f32 : table -> string -> option f32;
  (** the entries of [sequence_values::<Table>()] *)
  sequence_tables : table -> list (option table)
}.

(** [GPU_YIELD_EVERY_MAX] of [argus_shared]. *)
Class YieldBound := GPU_YIELD_EVERY_MAX : Z.

Section Lua.
Context `{LuaVM} `{YieldBound}.
(** Whether integer overflow is checked, as it is in debug builds. *)
Context (oc : bool).

(** ** Actions *)

(** [n.fract() == 0.0] *)
Definition is_integral (n : f64) : bool :=
  is_finite n && SFeqb (f64_sub n (f64_of_Z (f_trunc n))) f_zero.

Definition yield_every (v : Value table other) : option Z :=
  every ← match v with
    | VInteger i => if (0 <=? i) && (i <=? u32_max) then Some i else None
    | VNumber n =>
        if is_integral n && (SFleb f_zero n && SFleb n (f64_of_Z u32_max))
        then Some (f_to_u32 n) else None
    | _ => None
    end;
  if every <=? GPU_YIELD_EVERY_MAX then Some every else None.

Definition parse_single_action (entry : table) : option EngineCommand :=
  action_type ← get_string entry "type";
  if String.eqb action_type "kv.compress" then
    budget ← get_f32 entry "budget";
    if negb (is_finite budget && SFltb f_zero budget && SFleb budget (f32_lit 1 1))
    then None else Some (KvCompress budget)
  else if String.eqb action_type "restore_defaults" then Some RestoreDefaults
  else if String.eqb action_type "suspend" then Some Suspend
  else if String.eqb action_type "resume" then Some Resume
  else if String.eqb action_type "gpu.yield" then
    v ← get_value entry "every"; every ← yield_every v; Some (GpuYield every)
  else if String.eqb action_type "gpu.offload" then
    v ← get_value entry "on";
    match v with VBoolean on => Some (GpuOffload on) | _ => None end
  else None.

Definition count_dropped (dropped : Z) : outcome Z := u64_arith oc (dropped + 1).

Fixpoint parse_entries (entries : list (option table)) (cmds : list EngineCommand) (dropped : Z)
    : outcome (list EngineCommand * Z) :=
  match entries with
  | [] => Return (cmds, dropped)
  | entry :: entries =>
      match t ← entry; parse_single_action t with
      | Some cmd => parse_entries entries (cmds ++ [cmd]) dropped
      | None => let! dropped := count_dropped dropped in parse_entries entries cmds dropped
      end
  end.

Definition parse_actions (value : Value table other) (dropped : Z)
    : outcome (list EngineCommand * Z) :=
  match value with
  | VNil => Return ([], dropped)
  | VTable t =>
      if default false (contains_key t "type") then
        match parse_single_action t with
        | Some cmd => Return ([cmd], dropped)
        | None => let! dropped := count_dropped dropped in Return ([], dropped)
        end
      else parse_entries (sequence_tables t) [] dropped
  | _ => let! dropped := count_dropped dropped in Return ([], dropped)
  end.

(** ** The policy *)

Record PolicyMeta := { meta_name : string; meta_version : string }.

Record LuaPolicy := {
  lua : vm;
  lua_script_path : string;
  policy_meta : option PolicyMeta;
  signal_state : SignalState;
  trigger_engine : TriggerEngine;
  engine_state : option EngineStatus;
  adaptation_config : AdaptationConfig;
  gpu_provider : GpuProvider;
  consecutive_errors : Z;
  permanent_fallback : bool;
  dropped_actions : Z
}.

Definition log_policy_meta (m : vm) : option PolicyMeta :=
  v ← get_global m "POLICY_META";
  match v with
  | VTable t =>
      name ← get_string t "name";
      version ← get_string t "version";
      Some {| meta_name := name; meta_version := version |}
  | _ => None
  end.

Inductive LoadError := SysHelpers | ScriptRead | ScriptEval | GlobalDecide | DecideNotAFunction.

Definition load_script (env : Env) (m : vm) (path : string) : result vm LoadError :=
  match fs_read env path with
  | None => Err ScriptRead
  | Some script =>
      let '(m, executed) := vm_exec m script in
      if negb executed then Err ScriptEval
      else match get_global m "decide" with
      | None => Err GlobalDecide
      | Some VFunction => Ok m
      | Some _ => Err DecideNotAFunction
      end
  end.

(** A fresh machine with the script loaded, as both [new_with_gpu] and [reload_script]
    make it. *)
Definition fresh_vm (env : Env) (provider : GpuProvider) (path : string) : result vm LoadError :=
  let? m := ok_or (vm_new provider) SysHelpers in load_script env m path.

Definition new_with_gpu (env : Env) (path : string) (config : AdaptationConfig)
    (provider : GpuProvider) : result LuaPolicy LoadError :=
  let? m := fresh_vm env provider path in
  Ok {|
    lua := m;
    lua_script_path := path;
    policy_meta := log_policy_meta m;
    signal_state := SignalState_default;
    trigger_engine := TriggerEngine_new (trigger_cfg config);
    engine_state := None;
    adaptation_config := config;
    gpu_provider := provider;
    consecutive_errors := 0;
    permanent_fallback := false;
    dropped_actions := 0
  |}.
Definition lua_new (env : Env) (path : string) (config : AdaptationConfig)
    : result LuaPolicy LoadError := new_with_gpu env path config shared_null.
(** With the system's clock, which the policy keeps but never reads. *)
Definition with_system_clock (env : Env) (path : string) (config : AdaptationConfig)
    : result LuaPolicy LoadError := lua_new env path config.
Definition with_system_clock_and_gpu (env : Env) (path : string) (config : AdaptationConfig)
    (provider : GpuProvider) : result LuaPolicy LoadError := new_with_gpu env path config provider.

Definition pressure (p : LuaPolicy) : Pressure6D :=
  pressure_with_thermal (signal_state p) (temp_safe_c (adaptation_config p))
    (temp_critical_c (adaptation_config p)) (tbt_degradation_ratio (trigger_engine p)).

(** The policy with new readings and triggers, and with a new machine and counters. *)
Definition with_inputs (p : LuaPolicy) (s : SignalState) (t : TriggerEngine) : LuaPolicy :=
  {| lua := lua p; lua_script_path := lua_script_path p; policy_meta := policy_meta p;
     signal_state := s; trigger_engine := t; engine_state := engine_state p;
     adaptation_config := adaptation_config p; gpu_provider := gpu_provider p;
     consecutive_errors := consecutive_errors p; permanent_fallback := permanent_fallback p;
     dropped_actions := dropped_actions p |}.
Definition with_vm (p : LuaPolicy) (m : vm) (errors : Z) (fallback : bool) (dropped : Z)
    : LuaPolicy :=
  {| lua := m; lua_script_path := lua_script_path p; policy_meta := policy_meta p;
     signal_state := signal_state p; trigger_engine := trigger_engine p;
     engine_state := engine_state p; adaptation_config := adaptation_config p;
     gpu_provider := gpu_provider p; consecutive_errors := errors;
     permanent_fallback := fallback; dropped_actions := dropped |}.

Definition decide_ctx (p : LuaPolicy) : CtxValue :=
  build_ctx (pressure p) (trigger_state (trigger_engine p)) (signal_state p) (engine_state p).

Definition call_decide (p : LuaPolicy) (signal : SystemSignal)
    : outcome (LuaPolicy * list EngineCommand) :=
  if permanent_fallback p then Return (p, fallback_decide signal)
  else
    let '(m, value) := call (lua p) (decide_ctx p) in
    match value with
    | Some value =>
        let! (cmds, dropped) := parse_actions value (dropped_actions p) in
        Return (with_vm p m 0 (permanent_fallback p) dropped, cmds)
    | None =>
        let! errors := u32_arith oc (consecutive_errors p + 1) in
        let fallback := if FALLBACK_ERROR_THRESHOLD <=? errors then true else permanent_fallback p in
        Return (with_vm p m errors fallback (dropped_actions p), fallback_decide signal)
    end.

(** The readings a signal updates before the decision. *)
Definition absorb (p : LuaPolicy) (signal : SystemSignal) : LuaPolicy :=
  match signal with
  | MemoryPressure _ available total _ =>
      let s := update_memory (signal_state p) available total in
      let x := if 0 <? total
               then f64_sub (f64_lit 1 1) (f64_div (f64_of_Z available) (f64_of_Z total))
               else f_zero in
      with_inputs p s (update_mem (trigger_engine p) x)
  | ComputeGuidance _ _ _ cpu gpu =>
      with_inputs p (update_compute (signal_state p) cpu gpu) (trigger_engine p)
  | ThermalAlert _ mc throttling _ =>
      let p := with_inputs p (update_thermal (signal_state p) mc throttling) (trigger_engine p) in
      let normalized := f64_of_f32 (pr_thermal (pressure p)) in
      with_inputs p (signal_state p) (update_temp (trigger_engine p) normalized)
  | EnergyConstraint _ _ _ => p
  end.

(** The policy and the process-wide sequence counter. *)
Record LuaWorld := { lw_policy : LuaPolicy; lw_seq : Z }.

Definition lua_process_signal (w : LuaWorld) (signal : SystemSignal)
    : outcome (LuaWorld * option EngineDirective) :=
  let! (p, cmds) := call_decide (absorb (lw_policy w) signal) signal in
  match cmds with
  | [] => Return ({| lw_policy := p; lw_seq := lw_seq w |}, None)
  | _ =>
      let '(id, next) := next_seq_id (lw_seq w) in
      Return ({| lw_policy := p; lw_seq := next |},
              Some {| seq_id := id; commands := cmds |})
  end.

Definition lua_update_engine_state (w : LuaWorld) (msg : EngineMessage) : outcome LuaWorld :=
  match msg with
  | Heartbeat status =>
      let p := lw_policy w in
      let! t := update_tbt_ms oc (trigger_engine p) (f64_of_f32 (tbt_ms status)) in
      Return {| lw_policy :=
        {| lua := lua p; lua_script_path := lua_script_path p; policy_meta := policy_meta p;
           signal_state := signal_state p; trigger_engine := t; engine_state := Some status;
           adaptation_config := adaptation_config p; gpu_provider := gpu_provider p;
           consecutive_errors := consecutive_errors p;
           permanent_fallback := permanent_fallback p; dropped_actions := dropped_actions p |};
        lw_seq := lw_seq w |}
  | Response _ => Return w
  end.

Definition lua_mode (w : LuaWorld) : OperatingMode :=
  let t := trigger_state (trigger_engine (lw_policy w)) in
  if mem_low t then ModeCritical
  else if temp_high t || tbt_degraded t then ModeWarning
  else ModeNormal.

Definition lua_inspect_state (w : LuaWorld) : list Recorded :=
  let p := pressure (lw_policy w) in
  [RecF32 "pressure_gpu" (pr_gpu p); RecF32 "pressure_cpu" (pr_cpu p);
   RecF32 "pressure_memory" (pr_memory p); RecF32 "pressure_thermal" (pr_thermal p);
   RecF32 "pressure_latency" (pr_latency p);
   RecU64 "dropped_actions" (dropped_actions (lw_policy w))] ++
  match policy_meta (lw_policy w) with
  | Some m => [RecString "policy_name" (meta_name m); RecString "policy_version" (meta_version m)]
  | None => []
  end.

(** The script as the file system has it now, whatever it was at start-up. *)
Definition lua_reload_script (env : Env) (w : LuaWorld) (path : string) : LuaWorld * result unit string :=
  let p := lw_policy w in
  match fresh_vm env (gpu_provider p) path with
  | Err _ => (w, Err "load failed")
  | Ok m =>
      ({| lw_policy :=
            {| lua := m; lua_script_path := path; policy_meta := log_policy_meta m;
               signal_state := signal_state p; trigger_engine := trigger_engine p;
               engine_state := engine_state p; adaptation_config := adaptation_config p;
               gpu_provider := gpu_provider p; consecutive_errors := 0;
               permanent_fallback := false; dropped_actions := dropped_actions p |};
          lw_seq := lw_seq w |}, Ok tt)
  end.

(** A run over successive signals, and the directives it produces. *)
Fixpoint lua_run (w : LuaWorld) (signals : list SystemSignal)
    : outcome (LuaWorld * list EngineDirective) :=
  match signals with
  | [] => Return (w, [])
  | s :: signals =>
      let! (w, d) := lua_process_signal w s in
      let! (w, ds) := lua_run w signals in
      Return (w, option_list d ++ ds)
  end.

(** ** Specifications *)

(** How many actions a value asks for. *)
Definition entries (value : Value table other) : Z :=
  match value with
  | VNil => 0
  | VTable t =>
      if default false (contains_key t "type") then 1 else Z.of_nat (length (sequence_tables t))
  | _ => 1
  end.

(** A policy under signals, engine messages and reloads, together with the results of the
    machine calls since the script was loaded, newest first ([true] for a failure). *)
Inductive lua_step : LuaWorld * list bool -> LuaWorld * list bool -> Prop :=
| step_called w h w' o s :
    permanent_fallback (lw_policy w) = false ->
    lua_process_signal w s = Return (w', o) ->
    let p := absorb (lw_policy w) s in
    lua_step (w, h)
      (w', match (call (lua p) (decide_ctx p)).2 with Some _ => false | None => true end :: h)
| step_latched w h w' o s :
    permanent_fallback (lw_policy w) = true ->
    lua_process_signal w s = Return (w', o) ->
    lua_step (w, h) (w', h)
| step_message w h w' m :
    lua_update_engine_state w m = Return w' -> lua_step (w, h) (w', h)
| step_reloaded w h w' env path :
    lua_reload_script env w path = (w', Ok tt) -> lua_step (w, h) (w', [])
| step_reload_failed w h w' env path e :
    lua_reload_script env w path = (w', Err e) -> lua_step (w, h) (w', h).

Fixpoint leading (h : list bool) : nat :=
  match h with true :: h => S (leading h) | _ => O end.

Definition latch_inv (st : LuaWorld * list bool) : Prop :=
  let '(w, h) := st in
  consecutive_errors (lw_policy w) = Z.of_nat (leading h) /\
  permanent_fallback (lw_policy w) = (FALLBACK_ERROR_THRESHOLD <=? consecutive_errors (lw_policy w)) /\
  consecutive_errors (lw_policy w) <= FALLBACK_ERROR_THRESHOLD.

#[export] Instance LuaPolicy_strategy : PolicyStrategy LuaWorld := {|
  process_signal := lua_process_signal;
  update_engine_state := lua_update_engine_state;
  mode := lua_mode;
  save_model := default_save_model;
  inspect_state := lua_inspect_state;
  cancel_last_observation := default_cancel_last_observation;
  script_path := fun w => Some (Some (lua_script_path (lw_policy w)));
  reload_script := lua_reload_script
|}.

(** ** Lemmas *)

Lemma yield_every_bounds v n : yield_every v = Some n -> 0 <= n <= GPU_YIELD_EVERY_MAX /\ n <= u32_max.
Proof.
  unfold yield_every. intros Hy.
  assert (Hb : exists e, n = e /\ 0 <= e <= u32_max /\ (e <=? GPU_YIELD_EVERY_MAX) = true).
  { destruct v as [|b|i|x|t| |o]; cbn in Hy; try done.
    - destruct ((0 <=? i) && (i <=? u32_max)) eqn:Hi; cbn in Hy; [|done].
      split_bools. apply Z.leb_le in H1, H2. case_match eqn:Hm; simplify_eq. eauto.
    - destruct (is_integral x && _); cbn in Hy; [|done].
      case_match eqn:Hm; simplify_eq. eexists. split_and!; [done| | |done];
      apply f_to_int_range; unfold u32_max; lia. }
  destruct Hb as (e & -> & ? & He). apply Z.leb_le in He. lia.
Qed.

Lemma parse_single_action_valid t c :
  parse_single_action t = Some c -> wire_valid GPU_YIELD_EVERY_MAX c = true.
Proof.
  unfold parse_single_action. intros Hp.
  destruct (get_string t "type") as [ty|]; cbn in Hp; [|done].
  destruct (String.eqb ty "kv.compress").
  { destruct (get_f32 t "budget") as [b|]; cbn in Hp; [|done].
    destruct (is_finite b && _ && _) eqn:Hb; cbn in Hp; simplify_eq. exact Hb. }
  do 3 (case_match; [by simplify_eq|]).
  destruct (String.eqb ty "gpu.yield").
  { destruct (get_value t "every") as [v|]; cbn in Hp; [|done].
    destruct (yield_every v) as [n|] eqn:Hy; cbn in Hp; [|done]. simplify_eq.
    apply yield_every_bounds in Hy. cbn. apply andb_true_iff. split; apply Z.leb_le; lia. }
  destruct (String.eqb ty "gpu.offload"); [|done].
  destruct (get_value t "on") as [v|]; cbn in Hp; [|done].
  destruct v; simplify_eq; done.
Qed.

(** What holds of each accepted action holds of all that a value asks for. *)
Section Parsed.
Context (Q : EngineCommand -> Prop) (Hparse : forall t c, parse_single_action t = Some c -> Q c).

Lemma parse_entries_all es : forall cmds d cmds' d',
  Forall Q cmds -> parse_entries es cmds d = Return (cmds', d') -> Forall Q cmds'.
Proof using Hparse.
  induction es as [|e es IH]; intros cmds d cmds' d' Hc Hp; cbn [parse_entries] in Hp;
    [by simplify_eq|].
  destruct (t ← e; parse_single_action t) as [c|] eqn:He.
  - eapply IH; [|exact Hp]. apply Forall_app. split; [done|]. apply Forall_singleton.
    destruct e as [t|]; [|done]. by eapply Hparse.
  - destruct (count_dropped d) as [d1|]; [|done]. by eapply IH.
Qed.

Lemma parse_actions_all v d cmds d' : parse_actions v d = Return (cmds, d') -> Forall Q cmds.
Proof using Hparse.
  unfold parse_actions. intros Hp.
  destruct v as [|b|i|x|t| |o]; try (destruct (count_dropped d); simplify_eq; constructor; fail).
  destruct (default false _); [|by eapply parse_entries_all; [constructor|]].
  destruct (parse_single_action t) as [c|] eqn:Hs.
  - simplify_eq. apply Forall_singleton. by eapply Hparse.
  - destruct (count_dropped d); simplify_eq. constructor.
Qed.

(** And, with the fallback, of a decision. *)
Context (Hfallback : forall s, Forall Q (fallback_decide s)).
Lemma call_decide_all p signal p' cmds : call_decide p signal = Return (p', cmds) -> Forall Q cmds.
Proof using Hparse Hfallback.
  unfold call_decide. intros Hd.
  destruct (permanent_fallback p); [injection Hd as _ <-; apply Hfallback|].
  destruct (call _ _) as [m [v|]].
  - destruct (parse_actions v _) as [[cs dr]|] eqn:Hpa; [|done]. injection Hd as _ <-.
    by eapply parse_actions_all.
  - destruct (u32_arith _ _); [|done]. injection Hd as _ <-. apply Hfallback.
Qed.
End Parsed.

Lemma count_dropped_exact d : 0 <= d < u64_max -> count_dropped d = Return (d + 1).
Proof. intros Hd. unfold count_dropped, u64_arith. apply arith_in_range. lia. Qed.

Lemma parse_entries_accounts es : forall cmds d,
  0 <= d -> d + Z.of_nat (length es) <= u64_max ->
  exists cmds' d', parse_entries es cmds d = Return (cmds', d') /\
    d <= d' <= d + Z.of_nat (length es) /\
    d' + Z.of_nat (length cmds') = d + Z.of_nat (length cmds) + Z.of_nat (length es).
Proof.
  induction es as [|e es IH]; intros cmds d Hd Hle; cbn [parse_entries length] in *.
  { exists cmds, d. split; [done|]. lia. }
  destruct (t ← e; parse_single_action t) as [c|].
  - destruct (IH (cmds ++ [c]) d) as (cs & d' & -> & ? & ?); [lia..|].
    rewrite length_app in *. cbn in *. exists cs, d'. split; [done|]. lia.
  - rewrite count_dropped_exact by lia.
    destruct (IH cmds (d + 1)) as (cs & d' & -> & ? & ?); [lia..|].
    exists cs, d'. split; [done|]. lia.
Qed.

(** What a machine that loads has been through. *)
Lemma fresh_vm_loaded env provider path m : fresh_vm env provider path = Ok m ->
  exists source m0, fs_read env path = Some source /\ vm_new provider = Some m0 /\
    vm_exec m0 source = (m, true) /\ get_global m "decide" = Some VFunction.
Proof.
  unfold fresh_vm, load_script. destruct (vm_new provider) as [m0|] eqn:Hn; [|done]. cbn.
  destruct (fs_read env path) as [source|] eqn:Hf; [|done].
  destruct (vm_exec m0 source) as [m1 []] eqn:He; [|done]. cbn.
  destruct (get_global m1 "decide") as [v|] eqn:Hg; [|done].
  destruct v; try done. intros [= <-]. by exists source, m0.
Qed.

Lemma absorb_counters p s :
  lua (absorb p s) = lua p /\ consecutive_errors (absorb p s) = consecutive_errors p /\
  permanent_fallback (absorb p s) = permanent_fallback p /\
  dropped_actions (absorb p s) = dropped_actions p.
Proof. by destruct s. Qed.

(** What a processed signal does to the machine and the counters. *)
Lemma lua_process_policy w s w' o :
  lua_process_signal w s = Return (w', o) ->
  exists cmds, call_decide (absorb (lw_policy w) s) s = Return (lw_policy w', cmds) /\
    match cmds with
    | [] => o = None /\ lw_seq w' = lw_seq w
    | _ => o = Some {| seq_id := lw_seq w; commands := cmds |} /\
           lw_seq w' = wrap 0 u64_max (lw_seq w + 1)
    end.
Proof.
  unfold lua_process_signal. destruct (call_decide _ s) as [[p cmds]|]; [|done].
  unfold next_seq_id. intros Hp. exists cmds.
  destruct cmds; injection Hp as <- <-; split_and!; reflexivity.
Qed.

(** What a decision asks for is valid, from the script or from the fallback. *)
Lemma call_decide_valid p signal p' cmds :
  call_decide p signal = Return (p', cmds) ->
  Forall (fun c => wire_valid GPU_YIELD_EVERY_MAX c = true) cmds.
Proof.
  apply (call_decide_all (fun c => wire_valid GPU_YIELD_EVERY_MAX c = true)).
  - apply parse_single_action_valid.
  - intros s0. apply fallback_wire_valid.
Qed.

Lemma latch_inv_step st st' : lua_step st st' -> latch_inv st -> latch_inv st'.
Proof.
  unfold latch_inv, FALLBACK_ERROR_THRESHOLD.
  intros [w h w' o s Hf Hp|w h w' o s Hf Hp|w h w' m Hm|w h w' env path Hr|w h w' env path e Hr] (He & Hl & Hle).
  - destruct (absorb_counters (lw_policy w) s) as (Hv & Hc & Hpf & _).
    subst p. apply lua_process_policy in Hp as (cmds & Hd & _). unfold call_decide in Hd.
    set (p := absorb (lw_policy w) s) in *. rewrite Hpf, Hf in Hd. rewrite Hf in Hl. symmetry in Hl. apply Z.leb_gt in Hl.
    destruct (call (lua p) (decide_ctx p)) as [m [v|]].
    + destruct (parse_actions _ _) as [[cs d]|]; [|done]. injection Hd as <- <-. cbn.
      split_and!; [done|done|lia].
    + unfold u32_arith in Hd. rewrite arith_in_range in Hd by (unfold u32_max; lia).
      injection Hd as <- <-. cbn. unfold FALLBACK_ERROR_THRESHOLD. split_and!; [lia| |lia].
      by destruct (Z.leb_spec 3 (consecutive_errors p + 1)).
  - destruct (absorb_counters (lw_policy w) s) as (Hv & Hc & Hpf & _).
    apply lua_process_policy in Hp as (cmds & Hd & _). unfold call_decide in Hd.
    rewrite Hpf, Hf in Hd. injection Hd as <- <-. by rewrite Hpf, Hc.
  - destruct m as [status|r]; cbn in Hm; [|by simplify_eq].
    destruct (update_tbt_ms _ _ _); simplify_eq. done.
  - unfold lua_reload_script in Hr. destruct (fresh_vm _ _ _); simplify_eq. done.
  - unfold lua_reload_script in Hr. destruct (fresh_vm _ _ _); simplify_eq. done.
Qed.
End Lua.

(** ** A scripted machine for the examples

    It answers successive calls from a list: an action table or a failure. *)
Inductive demo_field := FStr (s : string) | FNum (x : f32) | FInt (n : Z) | FBool (b : bool).
Definition demo_table : Type := list (string * demo_field).
Definition demo_field_of (t : demo_table) (k : string) : option demo_field :=
  find_map (fun '(k', v) => if String.eqb k' k then Some v else None) t.

#[export] Instance demo_vm : LuaVM := {|
  vm := list (option demo_table);
  table := demo_table;
  other := unit;
  vm_new := fun _ => Some [];
  vm_exec := fun m script =>
    (if String.eqb script "halve" then [Some [("type", FStr "kv.compress"); ("budget", FNum (f32_lit 1 2))]]
     else [None; None; None], true);
  get_global := fun _ k => if String.eqb k "decide" then Some VFunction else None;
  call := fun m _ => match m with
    | [] => ([], Some VNil)
    | None :: m => (m, None)
    | Some t :: m => (m, Some (VTable t))
    end;
  contains_key := fun t k => Some (match demo_field_of t k with Some _ => true | None => false end);
  get_value := fun t k => match demo_field_of t k with
    | Some (FInt n) => Some (VInteger n) | Some (FBool b) => Some (VBoolean b) | _ => Some VNil end;
  get_string := fun t k => match demo_field_of t k with Some (FStr s) => Some s | _ => None end;
  get_f32 := fun t k => match demo_field_of t k with
    | Some (FNum x) => if valid_binary 24 128 x then Some x else None | _ => None end;
  sequence_tables := fun _ => []
|}.
#[export] Instance demo_bound : YieldBound := 64.

Definition demo_policy (m : list (option demo_table)) : LuaPolicy := {|
  lua := m; lua_script_path := "policy.lua"; policy_meta := None;
  signal_state := SignalState_default;
  trigger_engine := TriggerEngine_new default_TriggerConfig; engine_state := None;
  adaptation_config := default_AdaptationConfig; gpu_provider := NullGpuProvider;
  consecutive_errors := 0; permanent_fallback := false; dropped_actions := 0 |}.
Definition demo_world (m : list (option demo_table)) : LuaWorld :=
  {| lw_policy := demo_policy m; lw_seq := 1 |}.
Definition demo_signal : SystemSignal := MemoryPressure Critical 1000 16000 0.
Definition demo_yield (n : Z) : demo_table := [("type", FStr "gpu.yield"); ("every", FInt n)].
Definition demo_value : Value (@table demo_vm) (@other demo_vm) := VTable (demo_yield 65).

(** ** Properties *)

(** C1. Only commands the engine can receive are emitted.  Whatever the script returns and
    however the machine fails, a directive carries at least one command, and every command
    in it is valid on the wire: a KV budget is a finite fraction in (0, 1] and a yield
    interval is between 0 and the protocol's bound; and its sequence number is the
    counter's, which moves on by one. *)
Theorem directives_are_wire_valid `{LuaVM} `{YieldBound} oc w s w' d :
  lua_process_signal oc w s = Return (w', Some d) ->
  commands d <> [] /\
  Forall (fun c => wire_valid GPU_YIELD_EVERY_MAX c = true) (commands d) /\
  seq_id d = lw_seq w /\ lw_seq w' = wrap 0 u64_max (lw_seq w + 1).
Proof.
  intros Hp. apply lua_process_policy in Hp as (cmds & Hd & Ho).
  apply call_decide_valid in Hd as Hv.
  destruct cmds as [|c cmds]; [by destruct Ho|]. destruct Ho as [[= ->] Hs]. by split_and!.
Qed.

Lemma directives_are_wire_valid_witness :
  Forall (fun c => wire_valid 64 c = true) [GpuYield 64].
Proof.
  destruct (lua_process_signal true (demo_world [Some (demo_yield 64)]) demo_signal)
    as [[w' [d|]]|] eqn:E; [|vm_compute in E; discriminate..].
  assert (Hd : d = {| seq_id := 1; commands := [GpuYield 64] |})
    by (vm_compute in E; injection E; congruence).
  pose proof (directives_are_wire_valid true _ _ _ _ E) as (_ & Hv & _). rewrite Hd in Hv. exact Hv.
Defined.

(** Every action a script asks for is either sent or counted.  For any value returned
    by the script, as long as the counter has room, parsing succeeds and the commands
    produced and the growth of the dropped-actions counter add up to the number of actions
    the value asks for. *)
Theorem actions_are_accounted `{LuaVM} `{YieldBound} oc v d :
  0 <= d -> d + entries v <= u64_max ->
  exists cmds d', parse_actions oc v d = Return (cmds, d') /\
    d <= d' /\ d' + Z.of_nat (length cmds) = d + entries v.
Proof.
  intros Hd Hle. unfold parse_actions, entries in *.
  destruct v as [|b|i|x|t| |o].
  5: destruct (default false (contains_key t "type")).
  5: destruct (parse_single_action t).
  7: { destruct (parse_entries_accounts oc (sequence_tables t) [] d) as (cs & d' & -> & Hb & Heq); [lia..|].
       exists cs, d'. cbn [length] in Heq. split_and!; [done|lia|lia]. }
  all: rewrite ?count_dropped_exact by lia; eexists _, _; split_and!; [reflexivity|cbn; lia..].
Qed.

Lemma actions_are_accounted_witness :
  exists cmds d', parse_actions true demo_value 7 = Return (cmds, d') /\
    7 <= d' /\ d' + Z.of_nat (length cmds) = 8.
Proof. apply (actions_are_accounted true demo_value 7); vm_compute; discriminate. Defined.

(** C2. The fallback latches after exactly three failures in a row.  In every state
    reachable from a freshly loaded policy by signals, engine messages and reloads, the
    permanent fallback is on if and only if the last three calls into the script since it
    was loaded failed; the error counter is the number of failures since the last success
    and never exceeds three. *)
Theorem fallback_latches_exactly `{LuaVM} `{YieldBound} oc w0 w h :
  consecutive_errors (lw_policy w0) = 0 -> permanent_fallback (lw_policy w0) = false ->
  star (lua_step oc) (w0, []) (w, h) ->
  consecutive_errors (lw_policy w) = Z.of_nat (leading h) /\
  consecutive_errors (lw_policy w) <= 3 /\
  (permanent_fallback (lw_policy w) = true <-> exists h', h = true :: true :: true :: h').
Proof.
  intros He Hf Hs.
  apply (star_invariant _ latch_inv) in Hs as (Hc & Hp & Hle).
  - unfold FALLBACK_ERROR_THRESHOLD in *. split_and!; [done|done|].
    rewrite Hp, Z.leb_le, Hc. split.
    + intros H3. destruct h as [|[] [|[] [|[] h]]]; cbn in H3; try lia. eauto.
    + intros [h' ->]. cbn [leading]. lia.
  - apply latch_inv_step.
  - unfold latch_inv. rewrite He, Hf. split_and!; done.
Qed.

Lemma fallback_latches_exactly_witness :
  exists w, star (lua_step true) (demo_world [None; None; None], []) (w, [true; true; true]) /\
    permanent_fallback (lw_policy w) = true.
Proof.
  set (w0 := demo_world [None; None; None]).
  assert (Hrun : forall w m, lua (lw_policy w) = None :: m -> permanent_fallback (lw_policy w) = false ->
    forall h w' o, lua_process_signal true w demo_signal = Return (w', o) ->
    lua_step true (w, h) (w', true :: h)).
  { intros w m Hm Hf h w' o Hp. pose proof (step_called true w h w' o demo_signal Hf Hp) as Hst.
    cbn zeta in Hst. change (lua (absorb (lw_policy w) demo_signal)) with (lua (lw_policy w)) in Hst.
    rewrite Hm in Hst. exact Hst. }
  destruct (lua_process_signal true w0 demo_signal) as [[w1 o1]|] eqn:E1; [|vm_compute in E1; discriminate].
  destruct (lua_process_signal true w1 demo_signal) as [[w2 o2]|] eqn:E2;
    [|vm_compute in E1; injection E1 as <- <-; vm_compute in E2; discriminate].
  destruct (lua_process_signal true w2 demo_signal) as [[w3 o3]|] eqn:E3;
    [|vm_compute in E1; injection E1 as <- <-; vm_compute in E2; injection E2 as <- <-;
      vm_compute in E3; discriminate].
  assert (Hstar : star (lua_step true) (w0, []) (w3, [true; true; true])).
  { pose proof E1 as F1. vm_compute in F1. injection F1 as F1 _.
    pose proof E2 as F2. rewrite <- F1 in F2. vm_compute in F2. injection F2 as F2 _.
    eapply star_step; [eapply (Hrun w0); [reflexivity|reflexivity|exact E1]|].
    eapply star_step; [eapply (Hrun w1); [rewrite <- F1; reflexivity|rewrite <- F1; reflexivity|exact E2]|].
    eapply star_step; [eapply (Hrun w2); [rewrite <- F2; reflexivity|rewrite <- F2; reflexivity|exact E3]|].
    apply star_refl. }
  exists w3. split; [exact Hstar|].
  apply (fallback_latches_exactly true w0 w3 _ eq_refl eq_refl Hstar). eauto.
Defined.

(** Reloading is atomic.  A reload that fails changes nothing at all; one that
    succeeds installs the new machine, clears the error counter and the permanent
    fallback, and keeps the readings, the triggers, the last heartbeat, the counter of
    dropped actions and the sequence counter. *)
Theorem reload_is_atomic `{LuaVM} env w path :
  let '(w', r) := lua_reload_script env w path in
  let p := lw_policy w in
  let p' := lw_policy w' in
  match r with
  | Err _ => w' = w
  | Ok _ =>
      fresh_vm env (gpu_provider p) path = Ok (lua p') /\ lua_script_path p' = path /\
      consecutive_errors p' = 0 /\ permanent_fallback p' = false /\
      signal_state p' = signal_state p /\ trigger_engine p' = trigger_engine p /\
      engine_state p' = engine_state p /\ dropped_actions p' = dropped_actions p /\
      lw_seq w' = lw_seq w
  end.
Proof. unfold lua_reload_script. destruct (fresh_vm _ _ _) as [m|e]; [by split_and!|done]. Qed.

(** C7. A latched policy is the built-in fallback.  Once the permanent fallback is on, a
    run over any signals never calls the machine again: it returns, the script's state is
    untouched, and the directives are the fallback decisions of the signals, in order, the
    empty ones left out, with consecutive sequence numbers. *)
Theorem latched_policy_is_fallback `{LuaVM} `{YieldBound} oc w signals :
  permanent_fallback (lw_policy w) = true ->
  0 <= lw_seq w -> lw_seq w + Z.of_nat (length signals) <= u64_max ->
  exists w' ds, lua_run oc w signals = Return (w', ds) /\
    lua (lw_policy w') = lua (lw_policy w) /\
    map commands ds = List.filter (fun c => match c with [] => false | _ => true end)
                        (map fallback_decide signals) /\
    map seq_id ds = seqZ (lw_seq w) (Z.of_nat (length ds)).
Proof.
  revert w. induction signals as [|s signals IH]; intros w Hf H0' Hle; cbn [lua_run length map List.filter] in *.
  { exists w, []. by split_and!. }
  destruct (absorb_counters (lw_policy w) s) as (Hv & _ & Hpf & _).
  unfold lua_process_signal, call_decide. rewrite Hpf, Hf.
  destruct (fallback_decide s) as [|c cs] eqn:Hd; cbn [next_seq_id].
  - destruct (IH {| lw_policy := absorb (lw_policy w) s; lw_seq := lw_seq w |})
      as (w' & ds & -> & Hl & Hc & Hs); cbn in *; [congruence|lia|lia|].
    exists w', ds. split_and!; [done|congruence|done|done].
  - unfold next_seq_id.
    rewrite wrap_id by lia.
    destruct (IH {| lw_policy := absorb (lw_policy w) s; lw_seq := lw_seq w + 1 |})
      as (w' & ds & -> & Hl & Hc & Hs); cbn in *; [congruence|lia|lia|].
    exists w', ({| seq_id := lw_seq w; commands := c :: cs |} :: ds). split_and!; [done|congruence| |].
    + cbn. by rewrite Hc.
    + cbn [map length seq_id]. rewrite Hs, (seqZ_cons (lw_seq w)) by lia. f_equal. f_equal; lia.
Qed.

Lemma latched_policy_is_fallback_witness :
  exists w' ds, lua_run true
    {| lw_policy := with_vm (demo_policy [Some (demo_yield 3)]) [Some (demo_yield 3)] 3 true 0;
       lw_seq := 5 |} [demo_signal; demo_signal] = Return (w', ds) /\
    map seq_id ds = [5; 6].
Proof.
  destruct (latched_policy_is_fallback true
    {| lw_policy := with_vm (demo_policy [Some (demo_yield 3)]) [Some (demo_yield 3)] 3 true 0;
       lw_seq := 5 |} [demo_signal; demo_signal])
    as (w' & ds & Hr & _ & Hc & Hs); [reflexivity|vm_compute; discriminate..|].
  exists w', ds. split; [exact Hr|]. rewrite Hs.
  replace (length ds) with (length (map commands ds)) by apply length_map. rewrite Hc. reflexivity.
Defined.
