(* ===== verification/DefaultPolicy.v ===== *)
(** * DefaultPolicy: the policy scripts the repository ships (src/scripts)

    [policy_default.lua] and [policy_example.lua], translated function by function: the
    scripts' tables are records of the same fields, their [local] variables the state
    [Script], a Lua error [None].  A [LuaVM] that knows one script turns each of them into
    a machine for [LuaPolicy], so that the policy of src/lua_policy.rs and the script it
    runs are composed.

    The abstract specification is the relief machine ([relief]): outside a window or in
    one at a level, and inside a window the levels only go down. *)

From Stdlib Require Import ZArith Lia SpecFloat Ascii String Sorted.
From stdpp Require Import base tactics numbers list gmap strings.
From S2P Require Import Prelude Float FloatRound RustStr Fmt Signal Config PolicyState Wire Pipeline Monitor GpuProvider LuaContext LuaPolicy.
Local Open Scope string_scope.
Local Open Scope list_scope.
Local Open Scope Z_scope.

(** ** Lua's numbers *)

(** [math.max] and [math.min] of two numbers. *)
Definition lua_max (x y : f64) : f64 := if SFltb x y then y else x.
Definition lua_min (x y : f64) : f64 := if SFltb y x then y else x.

(** The integer below a finite float. *)
Definition f_floor (x : spec_float) : Z :=
  match x with
  | S754_finite s m e =>
      let n := if s then Z.neg m else Z.pos m in
      if 0 <=? e then n * 2 ^ e else n / 2 ^ (- e)
  | _ => 0
  end.

(** [math.floor], as an operand of arithmetic: an integer when it fits one, converted
    back, and otherwise the float, which is then integral already. *)
Definition lua_floor (x : f64) : f64 :=
  if is_finite x && ((i64_min <=? f_floor x) && (f_floor x <=? i64_max))
  then f64_of_Z (f_floor x) else x.

Definition lua_number (v : option CtxValue) : option f64 :=
  match v with
  | Some (CF32 x) => Some (f64_of_f32 x)
  | Some (CF64 x) => Some x
  | Some (CU64 n) => Some (f64_of_Z n)
  | _ => None
  end.

(** What is neither [nil] nor [false] counts as true. *)
Definition lua_truthy (v : option CtxValue) : bool :=
  match v with None | Some (CBool false) => false | _ => true end.

(** ** policy_default.lua *)

Inductive Axis := Memory | Gpu | Thermal | Latency.
#[export] Instance axis_eq_dec : EqDecision Axis.
Proof. solve_decision. Defined.
Definition axis_index (a : Axis) : Z :=
  match a with Memory => 1 | Gpu => 2 | Thermal => 3 | Latency => 4 end.
Definition axis_of_index (n : Z) : Axis :=
  match n with 1 => Memory | 2 => Gpu | 3 => Thermal | _ => Latency end.
#[export] Instance axis_countable : Countable Axis.
Proof. refine (inj_countable' axis_index axis_of_index _). by intros []. Defined.

Definition AXES : list Axis := [Memory; Gpu; Thermal; Latency].
Definition axis_name (a : Axis) : string :=
  match a with Memory => "memory" | Gpu => "gpu" | Thermal => "thermal" | Latency => "latency" end.

Definition ENTER (a : Axis) : f64 :=
  match a with
  | Memory => f64_lit 80 100 | Gpu => f64_lit 85 100
  | Thermal => f64_lit 75 100 | Latency => f64_lit 30 100
  end.
Definition EXIT (a : Axis) : f64 :=
  match a with
  | Memory => f64_lit 80 100 | Gpu => f64_lit 60 100
  | Thermal => f64_lit 55 100 | Latency => f64_lit 10 100
  end.
Definition B_MAX : f64 := f64_lit 90 100.
Definition B_MIN : f64 := f64_lit 25 100.
Definition B_STEP : f64 := f64_lit 5 100.

(** The script's [local] state: the axes being relieved, and the budget in force. *)
Record Script := { relieving : gset Axis; applied : option f64 }.
Definition Script_init : Script := {| relieving := ∅; applied := None |}.

(** What [decide] returns: a table with a [type], or nothing. *)
Inductive Action := Compress (budget : f64) | Restore.

(** The pressures of the context, by axis. *)
Definition normalize (ctx : CtxValue) : option (Axis -> option f64) :=
  p ← ctx_get ctx "pressure"; Some (fun a => lua_number (ctx_get p (axis_name a))).

Fixpoint most_stressed_from (p : Axis -> option f64) (axes : list Axis)
    (worst : option Axis) (worst_excess : f64) : option (option Axis) :=
  match axes with
  | [] => Some worst
  | a :: axes =>
      x ← p a;
      let excess := f64_sub x (ENTER a) in
      if SFltb worst_excess excess then most_stressed_from p axes (Some a) excess
      else most_stressed_from p axes worst worst_excess
  end.
Definition most_stressed (p : Axis -> option f64) : option (option Axis) :=
  most_stressed_from p AXES None (S754_infinity true).

Definition B_kv (pressure : f64) (axis : Axis) : f64 :=
  let span := f64_sub (f64_lit 1 1) (ENTER axis) in
  let over :=
    if SFltb f_zero span
    then lua_min (lua_max (f64_div (f64_sub pressure (ENTER axis)) span) f_zero) (f64_lit 1 1)
    else f_zero in
  let budget := f64_sub B_MAX (f64_mul over (f64_sub B_MAX B_MIN)) in
  let budget := f64_mul (lua_floor (f64_add (f64_div budget B_STEP) (f64_lit 1 2))) B_STEP in
  lua_min (lua_max budget B_MIN) B_MAX.

(** The loop that closes windows: the axes left relieving, and [still_relieving]. *)
Fixpoint sweep (p : Axis -> option f64) (axes : list Axis) (r : gset Axis) (still : bool)
    : gset Axis * option bool :=
  match axes with
  | [] => (r, Some still)
  | a :: axes =>
      if decide (a ∈ r) then
        match p a with
        | None => (r, None)
        | Some x =>
            if SFltb x (EXIT a) then sweep p axes (r ∖ {[a]}) still else sweep p axes r true
        end
      else sweep p axes r still
  end.

(** The part of [decide] after the windows are closed: the axis furthest past its own
    threshold, and the ratchet. *)
Definition tighten (p : Axis -> option f64) (st : Script) : Script * option (option Action) :=
  match most_stressed p with
  | None | Some None => (st, None)
  | Some (Some a) =>
      match p a with
      | None => (st, None)
      | Some x =>
          if negb (bool_decide (a ∈ relieving st)) && SFltb x (ENTER a) then (st, Some None)
          else
            let st := {| relieving := {[a]} ∪ relieving st; applied := applied st |} in
            let budget := B_kv x a in
            if match applied st with Some b => SFleb b budget | None => false end
            then (st, Some None)
            else ({| relieving := relieving st; applied := Some budget |}, Some (Some (Compress budget)))
      end
  end.

Definition decide_default (st : Script) (ctx : CtxValue) : Script * option (option Action) :=
  match ctx_get ctx "engine" with
  | None => (st, None)
  | Some engine =>
      if negb (lua_truthy (ctx_get engine "seen")) then (st, Some None)
      else match normalize ctx with
      | None => (st, None)
      | Some p =>
          let '(r, still) := sweep p AXES (relieving st) false in
          let st := {| relieving := r; applied := applied st |} in
          match still with
          | None => (st, None)
          | Some still_relieving =>
              match applied st with
              | Some _ =>
                  if still_relieving then tighten p st
                  else ({| relieving := r; applied := None |}, Some (Some Restore))
              | None => tighten p st
              end
          end
      end
  end.

(** ** policy_example.lua *)

Definition decide_example (ctx : CtxValue) : option (option Action) :=
  engine ← ctx_get ctx "engine";
  if negb (lua_truthy (ctx_get engine "seen")) then Some None
  else
    p ← ctx_get ctx "pressure";
    m ← lua_number (ctx_get p "memory");
    Some (Some (if SFltb m (f64_lit 70 100) then Restore
                else if SFltb m (f64_lit 85 100) then Compress (f64_lit 70 100)
                else Compress (f64_lit 30 100))).

(** ** A machine that runs one script *)

Record LuaScript := {
  sc_source : string;
  sc_name : string;
  sc_version : string;
  sc_state : Type;
  sc_init : sc_state;
  sc_decide : sc_state -> CtxValue -> sc_state * option (option Action)
}.

Inductive LuaField := LStr (s : string) | LNum (x : f64).
Definition LuaTable : Type := list (string * LuaField).
Definition lua_field (t : LuaTable) (k : string) : option LuaField :=
  find_map (fun '(k', v) => if String.eqb k' k then Some v else None) t.

Definition action_table (a : Action) : LuaTable :=
  match a with
  | Compress b => [("type", LStr "kv.compress"); ("budget", LNum b)]
  | Restore => [("type", LStr "restore_defaults")]
  end.

(** Before the script is evaluated the machine has none of its globals. *)
Definition script_vm (sc : LuaScript) : LuaVM := {|
  vm := option (sc_state sc);
  table := LuaTable;
  other := Empty_set;
  vm_new := fun _ => Some None;
  vm_exec := fun m text =>
    if String.eqb text (sc_source sc) then (Some (sc_init sc), true) else (m, false);
  get_global := fun m k => Some
    match m with
    | None => VNil
    | Some _ =>
        if String.eqb k "decide" then VFunction
        else if String.eqb k "POLICY_META"
        then VTable [("name", LStr (sc_name sc)); ("version", LStr (sc_version sc))]
        else VNil
    end;
  call := fun m ctx =>
    match m with
    | None => (None, None)
    | Some st =>
        let '(st, r) := sc_decide sc st ctx in
        (Some st, (fun a => match a with Some a => VTable (action_table a) | None => VNil end) <$> r)
    end;
  contains_key := fun t k => Some (match lua_field t k with Some _ => true | None => false end);
  get_value := fun t k => Some (match lua_field t k with Some (LNum x) => VNumber x | _ => VNil end);
  get_string := fun t k => match lua_field t k with Some (LStr s) => Some s | _ => None end;
  get_f32 := fun t k => match lua_field t k with Some (LNum x) => Some (f32_of_f64 x) | _ => None end;
  sequence_tables := fun _ => []
|}.

Definition policy_default (source : string) : LuaScript := {|
  sc_source := source; sc_name := "argus_default"; sc_version := "3.0.0";
  sc_state := Script; sc_init := Script_init; sc_decide := decide_default |}.
Definition policy_example (source : string) : LuaScript := {|
  sc_source := source; sc_name := "example"; sc_version := "3.0.0";
  sc_state := unit; sc_init := tt; sc_decide := fun st ctx => (st, decide_example ctx) |}.

(** ** The budget ramp *)

(** The fourteen budgets, from [B_MIN] to [B_MAX]. *)
Definition level (k : Z) : f64 := f64_mul (f64_of_Z k) B_STEP.
Definition LEVELS : list Z := seqZ 5 14.

Lemma f_floor_val m e : emin64 <= e ->
  f_floor (S754_finite false m e) = val64 (S754_finite false m e) / 2 ^ 1074.
Proof.
  intros He. unfold f_floor, val64. cbn [f_val cond_Zopp].
  destruct (Z.leb_spec 0 e).
  - replace (e - emin64) with (e + 1074) by lia. rewrite Z.pow_add_r by lia.
    by rewrite Z.mul_assoc, Z.div_mul by lia.
  - replace 1074 with ((e - emin64) + - e) at 1 by lia.
    rewrite Z.pow_add_r by lia.
    rewrite (Z.mul_comm (Z.pos m)), Z.div_mul_cancel_l; [done|..].
    + pose proof (pow2_pos (- e)). lia.
    + pose proof (pow2_pos (e - emin64)). lia.
Qed.

Lemma good64_nonneg_sign s m e : good64 (S754_finite s m e) -> 0 <= val64 (S754_finite s m e) ->
  s = false /\ emin64 <= e.
Proof.
  intros Hg H0. split; [by apply (finite_nonneg_sign 53 1024) in H0|].
  by apply (good_finite 53 1024) in Hg as (? & _).
Qed.

(** The floor of a float between two integers. *)
Lemma f_floor_bounds x lo hi : 0 < lo -> good64 x ->
  lo * 2 ^ 1074 <= val64 x -> val64 x < hi * 2 ^ 1074 -> lo <= f_floor x < hi.
Proof.
  intros H0 Hg Hlo Hhi. destruct x as [s|s| |s m e]; try by destruct Hg.
  - unfold val64 in Hlo. cbn [f_val] in Hlo. lia.
  - destruct (good64_nonneg_sign s m e) as [-> He]; [done|lia|]. rewrite f_floor_val by done.
    split; [apply Z.div_le_lower_bound; lia|apply Z.div_lt_upper_bound; lia].
Qed.

(** [rounding] at a concrete pair of floats. *)
Lemma rounding_between z (le ge : Z -> Prop) lo hi :
  rounding 53 1024 z le ge -> good64 lo -> good64 hi -> le (val64 lo) -> ge (val64 hi) ->
  good64 z /\ 0 <= val64 z /\ val64 lo <= val64 z <= val64 hi.
Proof.
  intros [_ Hr] Hl Hh Hle Hge. destruct (Hr hi Hh) as [Hu _]. destruct (Hu Hge) as (Hg & H0 & Hz).
  destruct (Hr lo Hl) as [_ Hlo]. specialize (Hlo Hle Hg). by split_and!.
Qed.

Ltac f_closed := vm_compute; first [reflexivity | discriminate | by split].

Definition ramp_lo : f64 := f64_lit 46 10.
Definition ramp_hi : f64 := f64_lit 184 10.

(** What the ramp computes before [math.floor]: between 5.1 and 18.9. *)
Lemma ramp_bounds over : good64 over -> 0 <= val64 over <= val64 (f64_lit 1 1) ->
  let budget := f64_sub B_MAX (f64_mul over (f64_sub B_MAX B_MIN)) in
  let x := f64_add (f64_div budget B_STEP) (f64_lit 1 2) in
  good64 x /\ val64 (f64_lit 51 10) <= val64 x <= val64 (f64_lit 189 10).
Proof.
  intros Hg [H0 H1] budget x.
  set (c := f64_sub B_MAX B_MIN).
  assert (Hc : good64 c) by (by split).
  assert (Ht : good64 (f64_mul over c) /\ 0 <= val64 (f64_mul over c) /\
    val64 f_zero <= val64 (f64_mul over c) <= val64 c).
  { assert (0 <= val64 c) by f_closed. assert (val64 (f64_lit 1 1) = 2 ^ 1074) by f_closed.
    eapply rounding_between; [apply (SFmul_rounding 53 1024); done|by split|done|..].
    - change (0 <= val64 over * val64 c). nia.
    - change (val64 over * val64 c <= val64 c * 2 ^ 1074). nia. }
  destruct Ht as (Htg & Ht0 & _ & Hth).
  assert (Hb : good64 budget /\ 0 <= val64 budget /\ val64 B_MIN <= val64 budget <= val64 B_MAX).
  { assert (val64 c + val64 B_MIN <= val64 B_MAX) by f_closed.
    assert (0 <= val64 B_MIN) by f_closed.
    eapply rounding_between; [apply (SFsub_rounding 53 1024); try done; try (by split)|by split|by split|..].
    - change (0 <= val64 B_MAX - val64 (f64_mul over c)). lia.
    - change (val64 B_MIN <= val64 B_MAX - val64 (f64_mul over c)). lia.
    - change (val64 B_MAX - val64 (f64_mul over c) <= val64 B_MAX). lia. }
  destruct Hb as (Hbg & Hb0 & Hbl & Hbh).
  assert (Hd : good64 (f64_div budget B_STEP) /\ 0 <= val64 (f64_div budget B_STEP) /\
    val64 ramp_lo <= val64 (f64_div budget B_STEP) <= val64 ramp_hi).
  { assert (val64 ramp_lo * val64 B_STEP <= val64 B_MIN * 2 ^ 1074) by f_closed.
    assert (val64 B_MAX * 2 ^ 1074 <= val64 ramp_hi * val64 B_STEP) by f_closed.
    eapply rounding_between; [apply (SFdiv_rounding 53 1024); try done; by split|by split|by split|..].
    - change (val64 ramp_lo * val64 B_STEP <= val64 budget * 2 ^ 1074). nia.
    - change (val64 budget * 2 ^ 1074 <= val64 ramp_hi * val64 B_STEP). nia. }
  destruct Hd as (Hdg & Hd0 & Hdl & Hdh).
  enough (good64 x /\ 0 <= val64 x /\ val64 (f64_lit 51 10) <= val64 x <= val64 (f64_lit 189 10))
    by tauto.
  assert (val64 (f64_lit 51 10) <= val64 ramp_lo + val64 (f64_lit 1 2)) by f_closed.
  assert (val64 ramp_hi + val64 (f64_lit 1 2) <= val64 (f64_lit 189 10)) by f_closed.
  assert (0 <= val64 (f64_lit 1 2)) by f_closed.
  eapply rounding_between; [apply (SFadd_rounding 53 1024); try done; try (by split)|by split|by split|..].
  - change (0 <= val64 (f64_div budget B_STEP) + val64 (f64_lit 1 2)). lia.
  - change (val64 (f64_lit 51 10) <= val64 (f64_div budget B_STEP) + val64 (f64_lit 1 2)). lia.
  - change (val64 (f64_div budget B_STEP) + val64 (f64_lit 1 2) <= val64 (f64_lit 189 10)). lia.
Qed.

Lemma SFltb_false_val x y : good64 x -> good64 y -> SFltb x y = false -> val64 y <= val64 x.
Proof.
  intros [Hfx Hvx] [Hfy Hvy] Hlt.
  apply (SFleb_val 53 1024); [done..|].
  rewrite SFleb_negb_ltb by by apply is_finite_not_nan. by rewrite Hlt.
Qed.

Lemma lua_clamp_unit q : is_nan q = false -> valid_binary 53 1024 q = true ->
  let over := lua_min (lua_max q f_zero) (f64_lit 1 1) in
  good64 over /\ 0 <= val64 over <= val64 (f64_lit 1 1).
Proof.
  intros Hn Hv. unfold lua_min, lua_max. cbn zeta.
  destruct (SFltb q f_zero) eqn:E0.
  { rewrite (eq_refl : SFltb (f64_lit 1 1) f_zero = false). split; [by split|]. split; f_closed. }
  destruct (SFltb (f64_lit 1 1) q) eqn:E1; [split; [by split|split; f_closed]|].
  assert (Hg : good64 q) by (split; [by destruct q as [|[]| |]|done]).
  apply SFltb_false_val in E0; [|done|by split]. apply SFltb_false_val in E1; [|by split|done].
  split; [done|]. split; [exact E0|exact E1].
Qed.

Lemma span_finite a : exists m e, f64_sub (f64_lit 1 1) (ENTER a) = S754_finite false m e.
Proof. destruct a; vm_compute; eauto. Qed.

Lemma level_clamped k : In k LEVELS -> lua_min (lua_max (level k) B_MIN) B_MAX = level k.
Proof.
  intros Hk. assert (Ha : forallb (fun k => same_float (lua_min (lua_max (level k) B_MIN) B_MAX) (level k)) LEVELS = true)
    by f_closed.
  rewrite forallb_forall in Ha. by apply same_float_true, Ha.
Qed.

(** Every budget is one of the fourteen levels. *)
Lemma B_kv_level x a : is_nan x = false -> exists k, In k LEVELS /\ B_kv x a = level k.
Proof.
  intros Hx. unfold B_kv. destruct (span_finite a) as (m & e & Hsp).
  assert (Hpos : SFltb f_zero (f64_sub (f64_lit 1 1) (ENTER a)) = true) by (destruct a; reflexivity).
  rewrite Hpos, Hsp. set (q := f64_div (f64_sub x (ENTER a)) (S754_finite false m e)).
  assert (Hen : is_finite (ENTER a) = true) by (by destruct a).
  destruct (lua_clamp_unit q) as [Hg Hr].
  { apply SFdiv_not_nan, SFsub_not_nan; [done|by apply is_finite_not_nan|by right]. }
  { by apply SFdiv_valid. }
  destruct (ramp_bounds _ Hg Hr) as (Hxg & Hlo & Hhi). cbn zeta in *.
  set (y := f64_add _ (f64_lit 1 2)) in *.
  assert (Hf : 5 <= f_floor y < 19).
  { apply f_floor_bounds; [lia|done|..].
    - eapply Z.le_trans; [|exact Hlo]. f_closed.
    - eapply Z.le_lt_trans; [exact Hhi|]. f_closed. }
  exists (f_floor y).
  assert (Hin : In (f_floor y) LEVELS) by (apply list_elem_of_In, elem_of_seqZ; lia).
  split; [done|]. unfold lua_floor. rewrite (proj1 Hxg).
  rewrite (proj2 (Z.leb_le _ _)), (proj2 (Z.leb_le _ _)) by (unfold i64_min, i64_max; lia).
  by apply (level_clamped (f_floor y)).
Qed.

(** The levels are distinct and in order. *)
Lemma level_order k1 k2 : In k1 LEVELS -> In k2 LEVELS -> SFleb (level k1) (level k2) = (k1 <=? k2).
Proof.
  intros H1 H2.
  assert (Ha : forallb (fun k1 => forallb (fun k2 => Bool.eqb (SFleb (level k1) (level k2)) (k1 <=? k2)) LEVELS)
    LEVELS = true) by f_closed.
  rewrite forallb_forall in Ha. specialize (Ha k1 H1). cbn beta in Ha.
  rewrite forallb_forall in Ha. by apply eqb_prop, Ha.
Qed.

#[local] Opaque level B_kv.

(** ** Which axis is worst, and which windows close *)

Definition excess (p : Axis -> f64) (a : Axis) : f64 := f64_sub (p a) (ENTER a).

(** The pressures of a context: floats, any of which can be NaN, one of them at least a
    number that is not negative. *)
Definition fair (p : Axis -> f64) : Prop :=
  (forall a, valid_binary 53 1024 (p a) = true) /\ exists a, SFleb f_zero (p a) = true.

Lemma ENTER_good a : good64 (ENTER a).
Proof. by destruct a. Qed.
Lemma ENTER_nonneg a : 0 <= val64 (ENTER a).
Proof. destruct a; f_closed. Qed.

Lemma excess_not_nan p a : is_nan (p a) = false -> is_nan (excess p a) = false.
Proof.
  intros Hn. destruct (ENTER_good a) as [Hf _].
  apply SFsub_not_nan; [done|by apply is_finite_not_nan|by right].
Qed.

Lemma excess_nan p a : is_nan (excess p a) = false -> is_nan (p a) = false.
Proof. unfold excess. by destruct (p a). Qed.

Lemma excess_negative p a : is_nan (p a) = false -> valid_binary 53 1024 (p a) = true ->
  SFltb (excess p a) f_zero = SFltb (p a) (ENTER a).
Proof. intros Hn Hv. by apply (SFsub_lt_zero 53 1024); try apply ENTER_good. Qed.

(** An excess over a pressure that is not negative is above [-math.huge]. *)
Lemma excess_above p a : valid_binary 53 1024 (p a) = true -> SFleb f_zero (p a) = true ->
  SFltb (S754_infinity true) (excess p a) = true.
Proof.
  intros Hv Hp. assert (Hn : is_nan (p a) = false) by f_order.
  pose proof (excess_not_nan p a Hn) as Hen.
  destruct (SFltb (p a) (ENTER a)) eqn:Hlt.
  - assert (Hg : good64 (p a)).
    { split; [|done]. destruct (p a) as [|[]| |]; try done; by destruct a. }
    assert (H0 : 0 <= val64 (p a)).
    { destruct Hg. by apply (SFleb_val 53 1024 ltac:(done) f_zero (p a)). }
    assert (Hv' : val64 (p a) < val64 (ENTER a)).
    { destruct (Z_lt_le_dec (val64 (p a)) (val64 (ENTER a))) as [|Hle]; [done|].
      destruct Hg as [Hf _], (ENTER_good a) as [Hfe Hve].
      apply (SFleb_val 53 1024 ltac:(done) (ENTER a) (p a)) in Hle; [f_order|done..]. }
    assert (Hswap : excess p a = SFopp (f64_sub (ENTER a) (p a))).
    { apply (SFsub_swap 53 1024); [done|apply ENTER_good|done|]. unfold val64 in Hv'.
      change (emin 53 1024) with (-1074). lia. }
    destruct (SFsub_rounding 53 1024 ltac:(done) ltac:(done) (ENTER a) (p a) (ENTER_good a) Hg) as [_ Hr].
    { change (0 <= val64 (ENTER a) - val64 (p a)). lia. }
    destruct (Hr (ENTER a) (ENTER_good a)) as [Hfin _].
    destruct Hfin as [[Hfin _] _]; [change (val64 (ENTER a) - val64 (p a) <= val64 (ENTER a)); lia|].
    rewrite Hswap. change (SFsub 53 1024 (ENTER a) (p a)) with (f64_sub (ENTER a) (p a)) in Hfin.
    by destruct (f64_sub (ENTER a) (p a)) as [|[]| |[]].
  - rewrite <- excess_negative in Hlt by done. destruct (excess p a) as [|[]| |[]]; done.
Qed.

(** An axis whose pressure is NaN is passed over. *)
Definition at_most (p : Axis -> f64) (x : f64) (a : Axis) : Prop :=
  is_nan (p a) = false -> SFleb (excess p a) x = true.

Lemma most_stressed_from_spec f p axes : (forall a, f a = Some (p a)) ->
  forall worst we, is_nan we = false ->
  exists worst', most_stressed_from f axes worst we = Some worst' /\
    (worst' = worst /\ Forall (at_most p we) axes \/
     exists a, worst' = Some a /\ SFltb we (excess p a) = true /\
       Forall (at_most p (excess p a)) axes).
Proof.
  intros Hf. induction axes as [|a axes IH]; intros worst we Hwe; cbn [most_stressed_from].
  { exists worst. split; [done|]. left. by split. }
  rewrite Hf. cbn [mbind option_bind]. change (f64_sub (p a) (ENTER a)) with (excess p a). cbn zeta.
  destruct (SFltb we (excess p a)) eqn:Hlt.
  - assert (Hea : is_nan (excess p a) = false) by f_order.
    destruct (IH (Some a) (excess p a) Hea) as (w' & -> & [[-> Hall]|(b & -> & Hb & Hall)]).
    + exists (Some a). split; [done|]. right. exists a. split_and!; [done|done|].
      constructor; [intros _; by apply SFleb_refl|done].
    + exists (Some b). split; [done|]. right. exists b. split_and!; [done|f_order|].
      constructor; [intros _; by apply SFltb_leb|done].
  - assert (Hle : at_most p we a) by (intros Hn%excess_not_nan; f_order).
    destruct (IH worst we Hwe) as (w' & -> & [[-> Hall]|(b & -> & Hb & Hall)]).
    + exists worst. split; [done|]. left. split; [done|]. by constructor.
    + exists (Some b). split; [done|]. right. exists b. split_and!; [done|done|].
      constructor; [|done]. intros Hn. specialize (Hle Hn). f_order.
Qed.

Lemma most_stressed_spec f p : (forall a, f a = Some (p a)) -> fair p ->
  exists a, most_stressed f = Some (Some a) /\ is_nan (p a) = false /\
    forall a', is_nan (p a') = false -> SFleb (excess p a') (excess p a) = true.
Proof.
  intros Hf [Hv [a0 H0]]. unfold most_stressed.
  destruct (most_stressed_from_spec f p AXES Hf None (S754_infinity true))
    as (w & -> & [[-> Hall]|(a & -> & Ha & Hall)]); [done| |]; rewrite Forall_forall in Hall.
  - exfalso. pose proof (excess_above p a0 (Hv a0) H0).
    assert (SFleb (excess p a0) (S754_infinity true) = true)
      by (apply (Hall a0); [destruct a0; set_solver|f_order]).
    f_order.
  - exists a. split_and!; [done|apply excess_nan; f_order|]. intros a'. apply Hall. destruct a'; set_solver.
Qed.

(** The axes whose windows stay open. *)
Definition cooled (p : Axis -> f64) (a : Axis) : bool := SFltb (p a) (EXIT a).
Definition still_open (p : Axis -> f64) (r : gset Axis) : gset Axis := filter (fun a => cooled p a = false) r.

Lemma sweep_spec f p axes : (forall a, f a = Some (p a)) -> NoDup axes -> forall r still,
  exists r' s', sweep f axes r still = (r', Some s') /\
    (forall a, a ∈ r' <-> a ∈ r /\ (a ∈ axes -> cooled p a = false)) /\
    (s' = true <-> still = true \/ exists a, a ∈ axes /\ a ∈ r /\ cooled p a = false).
Proof.
  intros Hf. induction 1 as [|a axes Ha _ IH]; intros r still; cbn [sweep].
  { exists r, still. split_and!; [done| |].
    - intros b. rewrite elem_of_nil. tauto.
    - split; [by left|intros [?|(b & Hb & _)]; [done|]]. by apply elem_of_nil in Hb. }
  destruct (decide (a ∈ r)) as [Hr|Hr]; [rewrite Hf; change (SFltb (p a) (EXIT a)) with (cooled p a);
    destruct (cooled p a) eqn:Hc|].
  - destruct (IH (r ∖ {[a]}) still) as (r' & s' & -> & Hr' & Hs'). exists r', s'. split_and!; [done| |].
    + intros b. rewrite Hr', elem_of_difference, elem_of_singleton, elem_of_cons.
      split; [intros [[? ?] ?]; split; [done|intros [->|?]; tauto]|].
      intros [? Hi]. split_and!; [done|intros ->; rewrite Hi in Hc by auto; done|auto].
    + rewrite Hs'. apply or_iff_compat_l. setoid_rewrite elem_of_difference. setoid_rewrite elem_of_singleton.
      setoid_rewrite elem_of_cons. split; intros (b & Hb & Hrb & Hcb); exists b; [tauto|].
      assert (b <> a) by congruence. tauto.
  - destruct (IH r true) as (r' & s' & -> & Hr' & Hs'). exists r', s'. split_and!; [done| |].
    + intros b. rewrite Hr', elem_of_cons.
      split; intros [? Hi]; (split; [done|]); [intros [->|?]; auto|auto].
    + rewrite Hs'. split; [|by left]. intros _. right. exists a. rewrite elem_of_cons. auto.
  - destruct (IH r still) as (r' & s' & -> & Hr' & Hs'). exists r', s'. split_and!; [done| |].
    + intros b. rewrite Hr', elem_of_cons.
      split; intros [? Hi]; (split; [done|]); [intros [->|?]; [done|auto]|auto].
    + rewrite Hs'. apply or_iff_compat_l. setoid_rewrite elem_of_cons.
      split; intros (b & Hb & Hrb & Hcb); exists b; [tauto|].
      assert (b <> a) by congruence. tauto.
Qed.

Lemma sweep_axes f p r : (forall a, f a = Some (p a)) ->
  sweep f AXES r false = (still_open p r, Some (negb (bool_decide (still_open p r = ∅)))).
Proof.
  intros Hf. assert (Hall : forall a : Axis, a ∈ AXES) by (intros []; unfold AXES; set_solver).
  destruct (sweep_spec f p AXES Hf) with (r := r) (still := false) as (r' & s' & -> & Hr' & Hs').
  { apply (bool_decide_unpack _). by vm_compute. }
  assert (r' = still_open p r) as ->.
  { apply set_eq. intros a. unfold still_open. rewrite elem_of_filter, Hr'. naive_solver. }
  do 2 f_equal. destruct (bool_decide_reflect (still_open p r = ∅)) as [He|He]; cbn.
  - destruct s'; [|done]. destruct (proj1 Hs' eq_refl) as [|(a & _ & Ha & Hc)]; [done|].
    assert (a ∈ still_open p r) by (unfold still_open; by rewrite elem_of_filter). set_solver.
  - apply Hs'. right. destruct (set_choose_L _ He) as [a Ha].
    unfold still_open in Ha. rewrite elem_of_filter in Ha. exists a. naive_solver.
Qed.

(** ** The relief machine *)

(** Outside a window, or in one at a level. *)
Inductive relief : option Z -> option Action -> option Z -> Prop :=
| relief_stay w : relief w None w
| relief_open k : In k LEVELS -> relief None (Some (Compress (level k))) (Some k)
| relief_tighten k k' : In k' LEVELS -> k' < k -> relief (Some k) (Some (Compress (level k'))) (Some k')
| relief_close k : relief (Some k) (Some Restore) None.

Inductive relief_trace : option Z -> list (option Action) -> option Z -> Prop :=
| relief_nil w : relief_trace w [] w
| relief_cons w o w' os w'' : relief w o w' -> relief_trace w' os w'' -> relief_trace w (o :: os) w''.

(** The script's state, seen as the machine's. *)
Definition represents (st : Script) (w : option Z) : Prop :=
  match w with
  | None => applied st = None /\ relieving st = ∅
  | Some k => applied st = Some (level k) /\ In k LEVELS /\ relieving st <> ∅
  end.

(** A context with a heartbeat behind it, and its pressures. *)
Definition reads (ctx : CtxValue) (p : Axis -> f64) : Prop :=
  exists engine f, ctx_get ctx "engine" = Some engine /\ lua_truthy (ctx_get engine "seen") = true /\
    normalize ctx = Some f /\ forall a, f a = Some (p a).

Lemma level_lt k1 k2 : In k1 LEVELS -> In k2 LEVELS ->
  SFleb (level k1) (level k2) = false -> k2 < k1.
Proof. intros H1 H2. rewrite level_order by done. apply Z.leb_gt. Qed.

(** What a decision does after the windows are closed. *)
Lemma tighten_spec f p st w : (forall a, f a = Some (p a)) -> fair p -> represents st w ->
  exists a st' r w', tighten f st = (st', Some r) /\ relief w r w' /\ represents st' w' /\
    r <> Some Restore /\ is_nan (p a) = false /\
    (forall a', is_nan (p a') = false -> SFleb (excess p a') (excess p a) = true) /\
    if negb (bool_decide (a ∈ relieving st)) && SFltb (p a) (ENTER a)
    then st' = st /\ r = None
    else a ∈ relieving st' /\ exists k, w' = Some k /\ SFleb (level k) (B_kv (p a) a) = true.
Proof.
  intros Hf Hfair Hw. destruct (most_stressed_spec f p Hf Hfair) as (a & Ha & Hnan & Hmax).
  exists a. unfold tighten. rewrite Ha, Hf.
  destruct (negb _ && SFltb _ _) eqn:Hcalm; [exists st, None, w; split_and!; try done; constructor|].
  destruct (B_kv_level (p a) a Hnan) as (k & Hk & Hb). rewrite Hb. cbn [applied relieving].
  set (r' := {[a]} ∪ relieving st).
  assert (Hin : a ∈ r') by by apply elem_of_union_l, elem_of_singleton.
  assert (Hne : r' <> ∅) by (intros E; rewrite E in Hin; by apply elem_of_empty in Hin).
  clearbody r'.
  destruct w as [k0|].
  - destruct Hw as (-> & Hk0 & _). destruct (SFleb (level k0) (level k)) eqn:Hle.
    + eexists _, None, (Some k0). split_and!; [done|constructor|by split_and!|done|done|done|done|].
      exists k0. by rewrite Hle.
    + eexists _, _, (Some k). split_and!; [done| |by split_and!|done|done|done|done|].
      * constructor; [done|by apply level_lt].
      * exists k. split; [done|]. rewrite level_order by done. by apply Z.leb_le.
  - destruct Hw as (-> & _). eexists _, _, (Some k). split_and!; [done|by constructor|by split_and!|done|done|done|done|].
    exists k. split; [done|]. rewrite level_order by done. by apply Z.leb_le.
Qed.

Lemma decide_unseen st ctx engine : ctx_get ctx "engine" = Some engine ->
  lua_truthy (ctx_get engine "seen") = false -> decide_default st ctx = (st, Some None).
Proof. intros He Hs. unfold decide_default. by rewrite He, Hs. Qed.

(** A decision, from a state that represents [w]: it closes the window, or it goes on with
    the axes still open. *)
Lemma decide_default_spec st w ctx p : reads ctx p -> fair p -> represents st w ->
  let open_ := still_open p (relieving st) in
  if bool_decide (w <> None /\ open_ = ∅)
  then decide_default st ctx = (Script_init, Some (Some Restore))
  else exists f, (forall a, f a = Some (p a)) /\
    represents {| relieving := open_; applied := applied st |} w /\
    decide_default st ctx = tighten f {| relieving := open_; applied := applied st |}.
Proof.
  intros (engine & f & He & Hs & Hnorm & Hf) Hfair Hw open_. unfold decide_default.
  rewrite He, Hs, Hnorm. cbn [negb]. rewrite (sweep_axes f p (relieving st) Hf). fold open_.
  cbn [applied]. destruct w as [k|].
  - destruct Hw as (Happ & Hk & Hr). rewrite Happ.
    destruct (bool_decide_reflect (open_ = ∅)) as [E|E]; cbn [negb].
    + rewrite bool_decide_true by done. unfold Script_init. by rewrite E.
    + rewrite bool_decide_false by tauto. exists f. by split_and!.
  - destruct Hw as [Happ Hr]. rewrite Happ. rewrite bool_decide_false by naive_solver.
    exists f. split_and!; [done| |done]. split; [done|]. cbn. unfold open_, still_open. rewrite Hr.
    apply filter_empty_L. apply _.
Qed.

Lemma decide_default_relief st w ctx p : reads ctx p -> fair p -> represents st w ->
  exists st' r w', decide_default st ctx = (st', Some r) /\ relief w r w' /\ represents st' w'.
Proof.
  intros Hr Hf Hw. pose proof (decide_default_spec st w ctx p Hr Hf Hw) as Hd. cbn zeta in Hd.
  destruct (bool_decide_reflect (w <> None /\ still_open p (relieving st) = ∅)) as [[Hn _]|_].
  - destruct w as [k|]; [|done]. exists Script_init, (Some Restore), None.
    split_and!; [done|constructor|done].
  - destruct Hd as (f & Hfp & Hw' & ->).
    destruct (tighten_spec f p _ w Hfp Hf Hw') as (a & st' & r & w' & ? & ? & ? & _). exists st', r, w'. by split_and!.
Qed.

(** Inside a window the levels go down. *)
Definition budgets (os : list (option Action)) : list f64 :=
  omap (fun o => match o with Some (Compress b) => Some b | _ => None end) os.

Lemma relief_levels w os w' : relief_trace w os w' -> ~ In (Some Restore) os ->
  exists ks, budgets os = map level ks /\ Forall (fun k => In k LEVELS) ks /\
    StronglySorted Z.gt ks /\ match w with Some k => Forall (fun k' => k > k') ks | None => True end.
Proof.
  induction 1 as [w|w o w1 os w2 Hst _ IH]; intros Hno.
  { exists []. split_and!; [done|constructor|constructor|]. by destruct w. }
  destruct IH as (ks & Hb & Hall & Hs & Hw); [intros ?; apply Hno; by right|].
  unfold budgets in *. destruct Hst as [w|k Hk|k k' Hk' Hlt|k]; rewrite omap_cons.
  - exists ks. by split_and!.
  - exists (k :: ks). rewrite Hb. split_and!; [done|by constructor|by constructor|done].
  - exists (k' :: ks). rewrite Hb. split_and!; [done|by constructor|by constructor|].
    constructor; [lia|]. eapply Forall_impl; [exact Hw|]. cbn. lia.
  - destruct Hno. by left.
Qed.

Lemma descending_length ks : Forall (fun k => In k LEVELS) ks -> StronglySorted Z.gt ks ->
  (length ks <= 14)%nat.
Proof.
  intros Hall Hs. change 14%nat with (length LEVELS).
  apply List.NoDup_incl_length.
  - clear Hall. induction Hs as [|k ks _ IH Hk]; constructor; [|done].
    rewrite List.Forall_forall in Hk. intros Hin%Hk. lia.
  - rewrite List.Forall_forall in Hall. exact Hall.
Qed.

Lemma relief_trace_app w os1 os2 w' : relief_trace w (os1 ++ os2) w' ->
  exists w1, relief_trace w os1 w1 /\ relief_trace w1 os2 w'.
Proof.
  revert w. induction os1 as [|o os1 IH]; intros w Ht; [exists w; split; [constructor|done]|].
  inversion Ht as [|? ? w2 ? ? Hst Hrest]; subst. destruct (IH _ Hrest) as (w1 & ? & ?).
  exists w1. split; [by econstructor|done].
Qed.

(** ** Runs *)

(** Successive calls of [decide]. *)
Fixpoint default_run (st : Script) (ctxs : list CtxValue) : Script * list (option (option Action)) :=
  match ctxs with
  | [] => (st, [])
  | ctx :: ctxs =>
      let '(st, r) := decide_default st ctx in
      let '(st, rs) := default_run st ctxs in (st, r :: rs)
  end.

(** What the program hands to the script: no heartbeat yet, or fair pressures.  Those it
    computes are ([healthy_fair]): the memory pressure is always a number in [0, 1], and a GPU
    usage of NaN makes a NaN pressure. *)
Definition unseen (ctx : CtxValue) : Prop :=
  exists engine, ctx_get ctx "engine" = Some engine /\ lua_truthy (ctx_get engine "seen") = false.
Definition ctx_ok (ctx : CtxValue) : Prop := unseen ctx \/ exists p, reads ctx p /\ fair p.

Lemma decide_default_ok st w ctx : ctx_ok ctx -> represents st w ->
  exists st' r w', decide_default st ctx = (st', Some r) /\ relief w r w' /\ represents st' w'.
Proof.
  intros [(engine & He & Hs)|(p & Hr & Hf)] Hw; [|by eapply decide_default_relief].
  exists st, None, w. rewrite (decide_unseen st ctx engine He Hs). split_and!; [done|constructor|done].
Qed.

Lemma default_run_relief ctxs : Forall ctx_ok ctxs -> forall st w, represents st w ->
  exists st' os w', default_run st ctxs = (st', map Some os) /\
    represents st' w' /\ relief_trace w os w'.
Proof.
  induction 1 as [|ctx ctxs Hc _ IH]; intros st w Hw; cbn [default_run].
  { exists st, [], w. split_and!; [done|done|constructor]. }
  destruct (decide_default_ok st w ctx Hc Hw) as (st1 & r & w1 & -> & Hst & Hw1).
  destruct (IH st1 w1 Hw1) as (st' & os & w' & -> & Hw' & Ht).
  exists st', (r :: os), w'. split_and!; [done|done|by econstructor].
Qed.

Lemma levels_descend ks : Forall (fun k => In k LEVELS) ks -> StronglySorted Z.gt ks ->
  StronglySorted (fun b1 b2 => SFltb b2 b1 = true) (map level ks).
Proof.
  intros Hall Hs. induction Hs as [|k ks Hs IH Hk]; cbn [map]; [constructor|].
  apply Forall_cons in Hall as [Hin Hall]. constructor; [by apply IH|].
  rewrite List.Forall_map. rewrite List.Forall_forall in *. intros k' Hk'.
  assert (Hl : SFleb (level k) (level k') = false).
  { rewrite level_order by auto. apply Z.leb_gt. specialize (Hk k' Hk'). lia. }
  assert (Hnan : forall k, In k LEVELS -> is_nan (level k) = false).
  { intros j Hj. pose proof (level_order j j Hj Hj) as Hjj. rewrite Z.leb_refl in Hjj. f_collect. done. }
  pose proof (Hnan k Hin). pose proof (Hnan k' (Hall k' Hk')). f_order.
Qed.

(** ** Properties *)

(** C17. The shipped policy implements relief windows.  Over any sequence of contexts the
    program can build - no heartbeat yet, or pressures of which one at least is a number that
    is not negative, as the memory pressure is, whatever the others are, NaN included - no
    call of [decide] fails, and what the calls return is a run of the relief machine: a budget
    opens a window, inside a window each budget is one of the fourteen levels and below the
    last one, and only [restore_defaults] closes it; the script's two variables are the
    machine's state, an axis being relieved exactly while a window is open. *)
Theorem default_policy_refines_relief ctxs : Forall ctx_ok ctxs ->
  exists st os w, default_run Script_init ctxs = (st, map Some os) /\
    relief_trace None os w /\ represents st w.
Proof.
  intros Hc. destruct (default_run_relief ctxs Hc Script_init None) as (st & os & w & Hd & Hw & Ht); [done|].
  exists st, os, w. by split_and!.
Qed.

(** C20. A relief window is cheap.  However long it lasts and however the pressures
    dither, between two [restore_defaults] the script asks for budgets that strictly
    decrease, and at most fourteen times. *)
Theorem window_emits_at_most_14 ctxs st os before window after : Forall ctx_ok ctxs ->
  default_run Script_init ctxs = (st, map Some os) ->
  os = before ++ window ++ after -> ~ In (Some Restore) window ->
  StronglySorted (fun b1 b2 => SFltb b2 b1 = true) (budgets window) /\
  (length (budgets window) <= 14)%nat.
Proof.
  intros Hc Hrun -> Hno.
  destruct (default_run_relief ctxs Hc Script_init None) as (st' & os' & w' & Hd & _ & Ht); [done|].
  rewrite Hrun in Hd. injection Hd as _ He.
  assert (os' = before ++ window ++ after) as ->.
  { revert He. generalize (before ++ window ++ after). clear. induction os' as [|o os' IH]; intros [|o' l]; try done.
    cbn [map]. intros [= -> H]. f_equal. by apply IH. }
  apply relief_trace_app in Ht as (w1 & _ & (w2 & Ht & _)%relief_trace_app).
  destruct (relief_levels _ _ _ Ht Hno) as (ks & -> & Hall & Hs & _).
  split; [by apply levels_descend|]. rewrite length_map. by apply descending_length.
Qed.

(** C19. When a window closes, and how tight it is.  A decision gives the cache back
    exactly when a window is open and every axis it relieves has fallen under its own EXIT
    threshold, and the script is then as at the start.  Any other decision, if some axis
    is at or over its ENTER threshold, leaves a budget in force at most the ramp's value for
    the axis furthest past its own; and if none is and no window is open, it asks for
    nothing.  An axis whose pressure is NaN opens no window and closes none. *)
Theorem window_closes_exactly st w ctx p : reads ctx p -> fair p -> represents st w ->
  exists st' r, decide_default st ctx = (st', Some r) /\
    (r = Some Restore <-> w <> None /\ forall a, a ∈ relieving st -> SFltb (p a) (EXIT a) = true) /\
    (r = Some Restore -> st' = Script_init) /\
    (r <> Some Restore -> forall a0, is_nan (p a0) = false -> SFltb (p a0) (ENTER a0) = false ->
       exists a b, a ∈ relieving st' /\ applied st' = Some b /\
         is_nan (p a) = false /\ SFltb (p a) (ENTER a) = false /\
         (forall a', is_nan (p a') = false -> SFleb (excess p a') (excess p a) = true) /\
         SFleb b (B_kv (p a) a) = true) /\
    (w = None -> (forall a, is_nan (p a) = true \/ SFltb (p a) (ENTER a) = true) -> r = None /\ st' = st).
Proof.
  intros Hr Hf Hw. pose proof (decide_default_spec st w ctx p Hr Hf Hw) as Hd. cbn zeta in Hd.
  assert (Hopen : still_open p (relieving st) = ∅ <->
    forall a, a ∈ relieving st -> SFltb (p a) (EXIT a) = true).
  { unfold still_open, cooled. split.
    - intros E a Ha. destruct (SFltb (p a) (EXIT a)) eqn:Hc; [done|].
      assert (Hin : a ∈ filter (fun a => SFltb (p a) (EXIT a) = false) (relieving st))
        by (by apply elem_of_filter). rewrite E in Hin. by apply elem_of_empty in Hin.
    - intros Hall. apply set_eq. intros a. rewrite elem_of_filter, elem_of_empty.
      split; [intros [Hc Ha]; by rewrite Hall in Hc|done]. }
  destruct (bool_decide_reflect (w <> None /\ still_open p (relieving st) = ∅)) as [[Hn E]|Hno].
  - exists Script_init, (Some Restore). split_and!; [done| |done|done|by intros ->].
    split; [intros _; split; [done|by apply Hopen]|done].
  - destruct Hd as (f & Hfp & Hw' & Hd). rewrite Hd.
    destruct (tighten_spec f p _ w Hfp Hf Hw') as (a & st' & r & w' & Ht & _ & Hrep & Hnr & Hnan & Hmax & Hcase).
    exists st', r. assert (Hneg : forall a, is_nan (p a) = false -> SFltb (excess p a) f_zero = SFltb (p a) (ENTER a))
      by (intros; apply excess_negative; [done|apply Hf]).
    split_and!; [done| |done| |].
    + split; [done|]. intros [Hn Hall]. destruct Hno. split; [done|]. by apply Hopen.
    + intros _ a0 Hn0 H0.
      assert (Hover : SFltb (p a) (ENTER a) = false).
      { rewrite <- Hneg in * by done. specialize (Hmax a0 Hn0).
        pose proof (excess_not_nan p a0 Hn0). pose proof (excess_not_nan p a Hnan).
        assert (is_nan f_zero = false) by done. f_order. }
      rewrite Hover, andb_false_r in Hcase. destruct Hcase as (Hin & k & -> & Hle).
      destruct Hrep as (Happ & _). exists a, (level k). by split_and!.
    + intros -> Hall. destruct (Hall a) as [Hx|Hcalm]; [congruence|]. rewrite Hcalm, andb_true_r in Hcase.
      destruct Hw' as [Happ Hrel]. cbn [relieving applied] in *. rewrite Hrel in *.
      destruct (bool_decide_reflect (a ∈ (∅ : gset Axis))) as [Hin|_]; [by apply elem_of_empty in Hin|].
      cbn in Hcase. destruct Hcase as [-> ->]. split; [done|]. destruct Hw as [Ha0 Hr0].
      destruct st as [r0 a0]; cbn in *. by subst.
Qed.

(** ** Widened pressures *)

Lemma f64_of_f32_valid x : valid_binary 53 1024 (f64_of_f32 x) = true.
Proof.
  destruct x as [s|s| |s m e]; try done. cbn [f64_of_f32 f_convert].
  destruct (binary_round_between 53 1024 ltac:(done) ltac:(done) s m e (Z.min e (-1074))) as (v & Hv & _).
  - lia.
  - change (emin 53 1024) with (-1074). lia.
  - by eapply is_value_valid.
Qed.

Lemma f64_of_f32_nonneg x : SFleb f_zero x = true -> SFleb f_zero (f64_of_f32 x) = true.
Proof.
  destruct x as [s|[]| |[] m e]; try done. intros _. cbn [f64_of_f32 f_convert].
  destruct (binary_round_between 53 1024 ltac:(done) ltac:(done) false m e (Z.min e (-1074))) as (v & Hv & _);
    [lia|change (emin 53 1024) with (-1074); lia|].
  unfold is_value in Hv. destruct (_ <? _) in Hv; [|by rewrite Hv].
  destruct Hv as (Hf & _ & _ & Hs). by destruct (binary_round _ _ _ _ _) as [| | |[]].
Qed.

(** ** The policy of src/lua_policy.rs running the shipped script *)

(** Signals and engine messages, in the order they reach the policy. *)
Section Run.
Context `{LuaVM} `{YieldBound} (oc : bool).
Definition policy_input : Type := SystemSignal + EngineMessage.
Fixpoint policy_run (w : LuaWorld) (inputs : list policy_input) : outcome (LuaWorld * list EngineDirective) :=
  match inputs with
  | [] => Return (w, [])
  | inl s :: inputs =>
      let! (w, d) := lua_process_signal oc w s in
      let! (w, ds) := policy_run w inputs in
      Return (w, option_list d ++ ds)
  | inr m :: inputs => let! w := lua_update_engine_state oc w m in policy_run w inputs
  end.
End Run.

(** What the monitors and the engine can send: anything of the types, of which only the
    range of the total memory is needed; the percentages and token times can be any float. *)
Definition input_ok (i : policy_input) : Prop :=
  match i with
  | inl (MemoryPressure _ _ total _) => is_u64 total
  | _ => True
  end.
Definition heartbeats (inputs : list policy_input) : Z :=
  Z.of_nat (length (List.filter (fun i => match i with inr (Heartbeat _) => true | _ => false end) inputs)).

Definition command_of (a : Action) : EngineCommand :=
  match a with Compress b => KvCompress (f32_of_f64 b) | Restore => RestoreDefaults end.
Definition command_lists (os : list (option Action)) : list (list EngineCommand) :=
  omap (fun o => (fun a => [command_of a]) <$> o) os.

(** The pressures the script reads. *)
Definition axis_pressure (pr : Pressure6D) (a : Axis) : f64 :=
  f64_of_f32 (match a with
    | Memory => pr_memory pr | Gpu => pr_gpu pr | Thermal => pr_thermal pr | Latency => pr_latency pr
    end).

Lemma built_reads pr t s st : reads (build_ctx pr t s (Some st)) (axis_pressure pr).
Proof.
  eexists _, _. split_and!; [reflexivity|reflexivity|reflexivity|]. by intros [].
Qed.
Lemma built_unseen pr t s : unseen (build_ctx pr t s None).
Proof. by eexists. Qed.

Section Shipped.
Context (source : string) `{YB : YieldBound} (oc : bool).
#[local] Instance shipped_vm : LuaVM := script_vm (policy_default source).

(** A policy with the script loaded, never failed, and readings that make pressures. *)
Record healthy (p : LuaPolicy) (lvl : option Z) : Prop := {
  h_script : exists st : Script, lua p = Some st /\ represents st lvl;
  h_errors : consecutive_errors p = 0 /\ permanent_fallback p = false;
  h_total : is_u64 (mem_total (signal_state p))
}.

Lemma in_unit_not_nan x : in_unit f32_one x = true -> is_nan x = false /\ SFleb f_zero x = true.
Proof. unfold in_unit. intros. split_bools. split; [f_order|done]. Qed.

Lemma healthy_fair p lvl : healthy p lvl -> fair (axis_pressure (pressure p)).
Proof.
  intros [_ _ Htot]. split; [intros a; apply f64_of_f32_valid|].
  exists Memory. apply f64_of_f32_nonneg, in_unit_not_nan. unfold pressure, pressure_with_thermal. cbn [pr_memory].
  apply f_clamp_in_unit; [reflexivity|]. destruct (Z.ltb_spec 0 (mem_total (signal_state p))); [|done].
  apply mem_ratio_not_nan. unfold is_u64 in Htot. lia.
Qed.

(** The script's answers are commands the program accepts. *)
Lemma levels_accepted k : In k LEVELS ->
  is_finite (f32_of_f64 (level k)) && SFltb f_zero (f32_of_f64 (level k)) &&
  SFleb (f32_of_f64 (level k)) (f32_lit 1 1) = true.
Proof.
  intros Hk. assert (Ha : forallb (fun k => let b := f32_of_f64 (level k) in
    is_finite b && SFltb f_zero b && SFleb b (f32_lit 1 1)) LEVELS = true) by f_closed.
  rewrite forallb_forall in Ha. exact (Ha k Hk).
Qed.

Lemma relief_parsed lvl a lvl' d : relief lvl (Some a) lvl' ->
  parse_actions oc (VTable (action_table a) : Value table other) d = Return ([command_of a], d).
Proof.
  intros Hst. assert (Ha : a = Restore \/ exists k, In k LEVELS /\ a = Compress (level k))
    by (inversion Hst; subst; eauto).
  destruct Ha as [->|(k & Hk & ->)]; [reflexivity|].
  assert (Hp : parse_single_action (action_table (Compress (level k)) : @table shipped_vm) =
    let b := f32_of_f64 (level k) in
    if negb (is_finite b && SFltb f_zero b && SFleb b (f32_lit 1 1)) then None else Some (KvCompress b))
    by reflexivity.
  unfold parse_actions. change (default false _) with true. cbn iota beta. rewrite Hp.
  cbv zeta. by rewrite levels_accepted.
Qed.

Lemma absorb_healthy p lvl s : healthy p lvl -> input_ok (inl s) ->
  healthy (absorb p s) lvl /\ te_tbt (trigger_engine (absorb p s)) = te_tbt (trigger_engine p).
Proof.
  intros [Hst He Ht] Hi. destruct s as [l a t r|l b r c g|l mc th ra|l r b]; cbn [absorb input_ok] in *.
  - rewrite update_mem_latch. split; [by split|done].
  - split; [by split|done].
  - rewrite update_temp_latch. split; [by split|done].
  - split; [by split|done].
Qed.

Lemma with_vm_healthy p lvl lvl' (st : Script) d : healthy p lvl -> represents st lvl' ->
  healthy (with_vm p (Some st) 0 (permanent_fallback p) d) lvl'.
Proof.
  intros [_ He Ht] Hst. split; try done; [by exists st|]. cbn. by destruct He.
Qed.

(** One signal: the script is called, does not fail, and what it asks for is sent. *)
Lemma signal_step w lvl s : healthy (lw_policy w) lvl -> input_ok (inl s) ->
  exists w' o act lvl', lua_process_signal oc w s = Return (w', o) /\ relief lvl act lvl' /\
    healthy (lw_policy w') lvl' /\ commands <$> o = (fun a => [command_of a]) <$> act /\
    dropped_actions (lw_policy w') = dropped_actions (lw_policy w) /\
    te_tbt (trigger_engine (lw_policy w')) = te_tbt (trigger_engine (lw_policy w)).
Proof.
  intros Hh Hi. destruct (absorb_healthy _ _ _ Hh Hi) as [Hp Htbt].
  destruct (absorb_counters (lw_policy w) s) as (_ & _ & _ & Hdrop).
  unfold lua_process_signal. set (p := absorb (lw_policy w) s) in *.
  destruct (h_script p lvl Hp) as (st & Hlua & Hst).
  assert (Hok : ctx_ok (decide_ctx p)).
  { unfold decide_ctx. destruct (engine_state p); [right|left; apply built_unseen].
    exists (axis_pressure (pressure p)). split; [apply built_reads|]. by eapply healthy_fair. }
  destruct (decide_default_ok st lvl (decide_ctx p) Hok Hst) as (st' & r & lvl' & Hd & Hrel & Hst').
  assert (Hcall : call (lua p) (decide_ctx p) =
    (Some st', Some match r with Some a => VTable (action_table a) | None => VNil end)).
  { rewrite Hlua. cbn [call shipped_vm script_vm policy_default sc_decide sc_state]. by rewrite Hd. }
  unfold call_decide. destruct (h_errors p lvl Hp) as [_ Hf]. rewrite Hf, Hcall.
  destruct r as [a|].
  - rewrite (relief_parsed lvl a lvl' _ Hrel). unfold next_seq_id. cbn [outcome_bind mbind].
    eexists _, _, (Some a), lvl'. split_and!; [reflexivity|done| |done|done|done].
    cbn [lw_policy]. rewrite <- Hf. by eapply with_vm_healthy.
  - cbn [parse_actions outcome_bind mbind]. eexists _, _, None, lvl'. split_and!; [reflexivity|done| |done|done|done].
    cbn [lw_policy]. rewrite <- Hf. by eapply with_vm_healthy.
Qed.

(** One engine message: the tracker follows, or nothing happens. *)
Lemma message_step w lvl m : healthy (lw_policy w) lvl -> input_ok (inr m) ->
  let n := match m with Heartbeat _ => 1 | Response _ => 0 end in
  0 <= warmup_count (te_tbt (trigger_engine (lw_policy w))) ->
  warmup_count (te_tbt (trigger_engine (lw_policy w))) + n <= u32_max ->
  exists w', lua_update_engine_state oc w m = Return w' /\ healthy (lw_policy w') lvl /\
    dropped_actions (lw_policy w') = dropped_actions (lw_policy w) /\
    let count := warmup_count (te_tbt (trigger_engine (lw_policy w'))) in
    0 <= count <= warmup_count (te_tbt (trigger_engine (lw_policy w))) + n.
Proof.
  intros Hh Hi n H0 Hn. destruct m as [status|r]; cbn [input_ok lua_update_engine_state] in *.
  2: { exists w. split_and!; [done|done|done|lia|subst n; lia]. }
  set (te := trigger_engine (lw_policy w)) in *. set (x := f64_of_f32 (tbt_ms status)).
  assert (Hstep : exists te', update_tbt_ms oc te x = Return te' /\
    0 <= warmup_count (te_tbt te') <= warmup_count (te_tbt te) + n).
  { unfold update_tbt_ms.
    destruct (negb (is_finite x) || SFleb x f_zero); [exists te; split; [done|subst n; lia]|].
    destruct (observe oc (te_tbt te) x) as [t|] eqn:Ho.
    2: { unfold observe, u32_arith in Ho. by rewrite arith_in_range in Ho by (subst n; lia). }
    assert (Hc : warmup_count t = warmup_count (te_tbt te) + 1).
    { unfold observe, u32_arith in Ho. rewrite arith_in_range in Ho by (subst n; lia). by injection Ho as <-. }
    cbn [mbind outcome_bind te_tbt].
    enough (Hc' : forall e, te_tbt e = t -> exists te', Return e = Return te' /\
      0 <= warmup_count (te_tbt te') <= warmup_count (te_tbt te) + n)
      by (repeat case_match; by apply Hc').
    intros e <-. exists e. split; [done|subst n; lia]. }
  destruct Hstep as (te' & -> & Hcount). eexists. split_and!; [reflexivity| |done|cbn; lia|cbn; lia].
  destruct Hh as [Hst He Ht]. by split.
Qed.

Lemma policy_run_healthy inputs : Forall input_ok inputs -> forall w lvl,
  healthy (lw_policy w) lvl -> 0 <= warmup_count (te_tbt (trigger_engine (lw_policy w))) ->
  warmup_count (te_tbt (trigger_engine (lw_policy w))) + heartbeats inputs <= u32_max ->
  exists w' ds os lvl', policy_run oc w inputs = Return (w', ds) /\ relief_trace lvl os lvl' /\
    healthy (lw_policy w') lvl' /\ map commands ds = command_lists os /\
    dropped_actions (lw_policy w') = dropped_actions (lw_policy w).
Proof.
  induction 1 as [|i inputs Hi _ IH]; intros w lvl Hh H0 Hn; cbn [policy_run].
  { exists w, [], [], lvl. split_and!; [done|constructor|done|done|done]. }
  destruct i as [s|m].
  - destruct (signal_step w lvl s Hh Hi) as (w1 & o & act & lvl1 & -> & Hrel & Hh1 & Ho & Hd & Ht).
    cbn [mbind outcome_bind].
    destruct (IH w1 lvl1 Hh1) as (w' & ds & os & lvl' & -> & Htr & Hh' & Hds & Hd');
      [by rewrite Ht|by rewrite Ht|].
    exists w', (option_list o ++ ds), (act :: os), lvl'. split_and!; [done|by econstructor|done| |congruence].
    rewrite map_app, Hds. unfold command_lists. rewrite omap_cons.
    destruct o as [d|], act as [a|]; cbn in Ho; try done. injection Ho as Ho. cbn. by rewrite Ho.
  - destruct (message_step w lvl m Hh Hi) as (w1 & -> & Hh1 & Hd & Hc0 & Hc1); [done| |].
    { unfold heartbeats in Hn. destruct m; cbn [List.filter length] in Hn; lia. }
    cbn [mbind outcome_bind].
    destruct (IH w1 lvl Hh1) as (w' & ds & os & lvl' & -> & Htr & Hh' & Hds & Hd'); [done| |].
    { unfold heartbeats in *. destruct m; cbn [List.filter length] in Hn; lia. }
    exists w', ds, os, lvl'. split_and!; [done|done|done|done|congruence].
Qed.

Lemma loaded_healthy env path config provider : fs_read env path = Some source ->
  exists p, new_with_gpu env path config provider = Ok p /\ healthy p None /\
    warmup_count (te_tbt (trigger_engine p)) = 0 /\ dropped_actions p = 0 /\
    policy_meta p = Some {| meta_name := "argus_default"; meta_version := "3.0.0" |}.
Proof.
  intros Hfs. unfold new_with_gpu, fresh_vm, load_script. rewrite Hfs.
  cbn [vm_new shipped_vm script_vm ok_or vm_exec policy_default sc_source sc_init].
  cbn [result_bind mbind]. rewrite String.eqb_refl.
  eexists. split_and!; [reflexivity| |done|done|done]. split; cbn; try done.
  by exists Script_init.
Qed.
End Shipped.

(** C18. The shipped policy never falls back.  Load [policy_default.lua] into the policy
    of the manager, with any configuration, and feed it any sequence of signals and engine
    messages of the program's types, NaN usages and token times included, with fewer than
    2^32 heartbeats: no call into the script fails, so the error counter stays at zero and the
    built-in fallback is never used; every action it returns is accepted and none is
    counted as dropped; and the directives are, in order, the commands of a run of the
    relief machine. *)
Theorem shipped_policy_never_falls_back `{YieldBound} oc source env path config provider seq inputs :
  fs_read env path = Some source ->
  Forall input_ok inputs -> heartbeats inputs <= u32_max ->
  let script := script_vm (policy_default source) in
  exists p w ds os lvl, new_with_gpu (H := script) env path config provider = Ok p /\
    policy_run (H := script) oc {| lw_policy := p; lw_seq := seq |} inputs = Return (w, ds) /\
    consecutive_errors (lw_policy w) = 0 /\ permanent_fallback (lw_policy w) = false /\
    dropped_actions (lw_policy w) = 0 /\
    relief_trace None os lvl /\ map commands ds = command_lists os.
Proof.
  intros Hfs Hin Hn script.
  destruct (loaded_healthy source env path config provider Hfs) as (p & Hp & Hh & Hc & Hd & _).
  destruct (policy_run_healthy source oc inputs Hin
    {| lw_policy := p; lw_seq := seq |} None) as (w & ds & os & lvl & Hrun & Ht & Hh' & Hds & Hd');
    [done|cbn; lia|cbn; lia|].
  exists p, w, ds, os, lvl. destruct (h_errors _ _ _ Hh').
  split_and!; [done|done|done|done| |done|done]. exact (eq_trans Hd' Hd).
Qed.

(** ** Examples and witnesses *)

Definition demo_reading (available : Z) : SignalState := update_memory SignalState_default available 16000.
Definition demo_pressures (available : Z) : Pressure6D :=
  pressure_with_thermal (demo_reading available) (f32_lit 35 1) (f32_lit 50 1) None.
Definition demo_ctx (available : Z) : CtxValue :=
  build_ctx (demo_pressures available) TriggerState_default (demo_reading available) (Some demo_status).
Definition demo_unseen : CtxValue :=
  build_ctx (demo_pressures 1000) TriggerState_default (demo_reading 1000) None.
Definition demo_nan_pressures : Pressure6D :=
  pressure_with_thermal (update_compute (demo_reading 2000) f_zero S754_nan) (f32_lit 35 1) (f32_lit 50 1) None.
Definition demo_nan : CtxValue :=
  build_ctx demo_nan_pressures TriggerState_default (demo_reading 2000) (Some demo_status).
(** Memory pressure, in 16000ths: over the threshold (with a GPU pressure of NaN, which is
    passed over), worse, better, and back under it. *)
Definition demo_ctxs : list CtxValue := demo_unseen :: demo_nan :: map demo_ctx [1000; 3000; 8000; 8000].

Definition fair_b (p : Axis -> f64) : bool :=
  forallb (fun a => valid_binary 53 1024 (p a)) AXES && SFleb f_zero (p Memory).
Lemma fair_b_fair p : fair_b p = true -> fair p.
Proof.
  unfold fair_b. intros [Hall H0]%andb_true_iff. rewrite forallb_forall in Hall. split; [|by exists Memory].
  intros a. assert (Hin : In a AXES) by (destruct a; cbn; auto). exact (Hall a Hin).
Qed.

Lemma demo_ctx_ok available : fair_b (axis_pressure (demo_pressures available)) = true -> ctx_ok (demo_ctx available).
Proof.
  intros Hf. right. exists (axis_pressure (demo_pressures available)).
  split; [apply built_reads|by apply fair_b_fair].
Qed.
Lemma demo_ctxs_ok : Forall ctx_ok demo_ctxs.
Proof.
  unfold demo_ctxs. constructor; [left; apply built_unseen|].
  constructor; [right; exists (axis_pressure demo_nan_pressures); split; [apply built_reads|apply fair_b_fair; vm_compute; reflexivity]|].
  apply List.Forall_map.
  apply List.Forall_forall. intros a Ha. apply demo_ctx_ok.
  repeat (destruct Ha as [<-|Ha]; [vm_compute; reflexivity|]). done.
Qed.

(** The run: nothing, a window at 0.65, tightened to 0.45, held, closed, nothing. *)
Example demo_run :
  map (fun r => (fun a => match a with Some (Compress b) => Some (Some b) | Some Restore => Some None | None => None end) <$> r)
    (default_run Script_init demo_ctxs).2
  = [Some None; Some (Some (Some (level 13))); Some (Some (Some (level 9))); Some None;
     Some (Some None); Some None].
Proof. vm_compute. reflexivity. Qed.

(** A window can close under pressure: memory, the relieved axis, has cooled, and the
    script gives the cache back although the GPU is over its own threshold; the next call
    opens a window for it. *)
Definition demo_busy : SignalState := update_compute (demo_reading 8000) f_zero (f64_lit 97 1).
Example restores_under_pressure :
  let pr := pressure_with_thermal demo_busy (f32_lit 35 1) (f32_lit 50 1) None in
  let ctx := build_ctx pr TriggerState_default demo_busy (Some demo_status) in
  SFltb (ENTER Gpu) (axis_pressure pr Gpu) = true /\
  map (fun r => match r with Some (Some Restore) => true | _ => false end)
    (default_run Script_init [demo_ctx 1000; ctx; ctx]).2 = [false; true; false].
Proof. vm_compute. split; reflexivity. Qed.

(** The example policy: three answers by memory pressure, every call. *)
Example example_policy_answers :
  map decide_example [demo_unseen; demo_ctx 8000; demo_ctx 4000; demo_ctx 1000]
  = [Some None; Some (Some Restore); Some (Some (Compress (f64_lit 70 100)));
     Some (Some (Compress (f64_lit 30 100)))].
Proof. vm_compute. reflexivity. Qed.

Lemma default_policy_refines_relief_witness :
  exists st os w, default_run Script_init demo_ctxs = (st, map Some os) /\ relief_trace None os w.
Proof.
  destruct (default_policy_refines_relief demo_ctxs demo_ctxs_ok) as (st & os & w & H1 & H2 & _).
  exists st, os, w. split; assumption.
Defined.

Definition demo_outs : list (option Action) := map (default None) (default_run Script_init demo_ctxs).2.
Lemma demo_default_run : default_run Script_init demo_ctxs =
  ((default_run Script_init demo_ctxs).1, map Some demo_outs).
Proof. vm_compute. reflexivity. Qed.

Lemma window_emits_at_most_14_witness :
  (length (budgets (take 4 demo_outs)) <= 14)%nat /\ length (budgets (take 4 demo_outs)) = 2%nat.
Proof.
  assert (Hno : forallb (fun o => match o with Some Restore => false | _ => true end) (take 4 demo_outs) = true)
    by (vm_compute; reflexivity).
  split; [|vm_compute; reflexivity].
  apply (window_emits_at_most_14 demo_ctxs (default_run Script_init demo_ctxs).1 demo_outs [] (take 4 demo_outs)
    (drop 4 demo_outs) demo_ctxs_ok demo_default_run).
  - symmetry. apply (take_drop 4 demo_outs).
  - intros Hin. rewrite forallb_forall in Hno. specialize (Hno _ Hin). discriminate Hno.
Defined.

Lemma window_closes_exactly_witness :
  exists st', decide_default {| relieving := {[Memory]}; applied := Some (level 9) |} (demo_ctx 8000)
    = (st', Some (Some Restore)) /\ st' = Script_init.
Proof.
  destruct (window_closes_exactly {| relieving := {[Memory]}; applied := Some (level 9) |} (Some 9)
    (demo_ctx 8000) (axis_pressure (demo_pressures 8000))) as (st' & r & H1 & H2 & H3 & _).
  - apply built_reads.
  - apply fair_b_fair. vm_compute. reflexivity.
  - split; [reflexivity|]. split; [apply list_elem_of_In, elem_of_seqZ; lia|]. intros E.
    assert (Hin : Memory ∈ ({[Memory]} : gset Axis)) by (by apply elem_of_singleton).
    cbn [relieving] in E. rewrite E in Hin. by apply elem_of_empty in Hin.
  - assert (Hr : r = Some Restore).
    { apply H2. split; [discriminate|]. intros a Ha. cbn [relieving] in Ha.
      apply elem_of_singleton in Ha as ->. vm_compute. reflexivity. }
    exists st'. split; [rewrite H1, Hr; reflexivity|by apply H3].
Defined.

Definition demo_heartbeat : EngineMessage := Heartbeat demo_status.
Definition demo_pressure_signal (available : Z) : SystemSignal := MemoryPressure Critical available 16000 0.
(** What a GPU file that reads NaN makes the compute monitor send. *)
Definition demo_nan_usage : SystemSignal := ComputeGuidance Critical BackendCpu GpuBottleneck f_zero S754_nan.
Lemma shipped_policy_never_falls_back_witness :
  exists p w ds os lvl,
    new_with_gpu (H := script_vm (policy_default "script")) (env_of_files [("policy.lua", "script")]) "policy.lua"
      default_AdaptationConfig NullGpuProvider = Ok p /\
    policy_run (H := script_vm (policy_default "script")) true
      {| lw_policy := p; lw_seq := 1 |}
      [inl (demo_pressure_signal 1000); inr demo_heartbeat; inl demo_nan_usage;
       inl (demo_pressure_signal 1000); inl (demo_pressure_signal 9000)] = Return (w, ds) /\
    relief_trace None os lvl /\ map commands ds = command_lists os.
Proof.
  destruct (shipped_policy_never_falls_back true "script" (env_of_files [("policy.lua", "script")]) "policy.lua"
    default_AdaptationConfig NullGpuProvider 1
    [inl (demo_pressure_signal 1000); inr demo_heartbeat; inl demo_nan_usage;
     inl (demo_pressure_signal 1000); inl (demo_pressure_signal 9000)]) as (p & w & ds & os & lvl & H1 & H2 & _ & _ & _ & H3 & H4).
  - reflexivity.
  - repeat (constructor; [first [exact I|split; vm_compute; discriminate]|]). constructor.
  - vm_compute. discriminate.
  - exists p, w, ds, os, lvl. repeat split; assumption.
Defined.
