(* ===== verification/Channel.v ===== *)
(** * Channel: transports to the engine
    (src/channel.rs, src/emitter.rs, src/channel/unix_socket.rs, src/emitter/unix_socket.rs)

    The framing of messages, the connection state machine of the Unix channel, its reader
    thread, and the write-only emitter.  What the sockets answer
    is given to each operation as an [Io]; what is written to a connection, a whole frame
    or what a failing write has left of one, is its output.  JSON is [serde_json]'s and a
    parameter. *)

From Stdlib Require Import ZArith Lia String.
From stdpp Require Import base tactics numbers list strings.
From S2P Require Import Prelude Float Signal Wire.
Local Open Scope list_scope.
Local Open Scope Z_scope.

(** A byte is an integer in [0, 255]. *)
Definition bytes := list Z.

(** [u32::to_be_bytes] and [u32::from_be_bytes]. *)
Definition to_be_bytes (n : Z) : bytes :=
  [Z.land (Z.shiftr n 24) 255; Z.land (Z.shiftr n 16) 255; Z.land (Z.shiftr n 8) 255; Z.land n 255].
Definition from_be_bytes (b : bytes) : Z :=
  match b with
  | [b3; b2; b1; b0] =>
      Z.lor (Z.shiftl b3 24) (Z.lor (Z.shiftl b2 16) (Z.lor (Z.shiftl b1 8) b0))
  | _ => 0
  end.

(** [usize as u32]. *)
Definition as_u32 (n : Z) : Z := Z.land n u32_max.

Definition MAX_PAYLOAD_SIZE : Z := 64 * 1024.

(** What the manager sends, the one variant of [ManagerMessage] it builds. *)
Inductive ManagerMessage := Directive (d : EngineDirective).

(** JSON of the messages: [None] is a serialization or parse error. *)
Class Json := {
  json_of_message : ManagerMessage -> option bytes;
  json_of_signal : SystemSignal -> option bytes;
  message_of_json : bytes -> option EngineMessage
}.

(** A frame: big-endian length, then the payload. *)
Definition frame (json : bytes) : bytes := to_be_bytes (as_u32 (Z.of_nat (length json))) ++ json.

(** ** Reading *)

Inductive ReadError := ReadEof | PayloadTooLarge (n : Z) | BadJson.

(** [read_exact] of [n] bytes from the bytes that arrive before the end of the stream. *)
Definition read_exact (n : nat) (stream : bytes) : result (bytes * bytes) ReadError :=
  if (length stream <? n)%nat then Err ReadEof else Ok (take n stream, drop n stream).

Section Read.
Context `{Json}.

Definition read_engine_message (stream : bytes) : result (EngineMessage * bytes) ReadError :=
  let? (len_buf, stream) := read_exact 4 stream in
  let payload_len := from_be_bytes len_buf in
  if MAX_PAYLOAD_SIZE <? payload_len then Err (PayloadTooLarge payload_len)
  else
    let? (json_buf, stream) := read_exact (Z.to_nat payload_len) stream in
    let? msg := ok_or (message_of_json json_buf) BadJson in
    Ok (msg, stream).

(** The reader thread on a whole stream: the messages it parses and why it stops.  A
    message takes at least four bytes, so the length of the stream is fuel enough. *)
Fixpoint reader_thread (fuel : nat) (stream : bytes) : list EngineMessage * ReadError :=
  match fuel with
  | O => ([], ReadEof)
  | S fuel =>
      match read_engine_message stream with
      | Err e => ([], e)
      | Ok (msg, stream) =>
          let '(msgs, e) := reader_thread fuel stream in (msg :: msgs, e)
      end
  end.
End Read.

(** ** The environment of one operation *)

Inductive AcceptResult :=
| Accepted (conn : Z) (clone_ok : bool)
| WouldBlock
| AcceptFailed.

(** What [write_all] does: all bytes are written, or an error comes after the first [n]. *)
Inductive WriteResult := WriteOk | WriteFails (n : nat).

(** The answers of the sockets during one operation: to [accept], to the writes and the
    flush. *)
Record Io := { io_accept : AcceptResult; io_write : bytes -> WriteResult; io_flush : bool }.

(** What reaches a connection: a frame whose write succeeds, or the bytes that a failing
    one has written before its error. *)
Inductive Written := Whole (conn : Z) (b : bytes) | Cut (conn : Z) (b : bytes).
Definition Sent := list Written.

Definition written (w : Written) : bytes := match w with Whole _ b | Cut _ b => b end.
Definition is_whole (w : Written) : Prop := match w with Whole _ _ => True | Cut _ _ => False end.

(** The bytes of a frame that a failing write leaves. *)
Definition cut (conn : Z) (b : bytes) : Sent := match b with [] => [] | _ => [Cut conn b] end.

(** [Write::write_all]: the bytes written, and whether that is all of them. *)
Definition write_all (io : Io) (b : bytes) : bytes * bool :=
  match io_write io b with WriteOk => (b, true) | WriteFails n => (take n b, false) end.

(** ** Traits (src/emitter.rs, src/channel.rs) *)

Class Emitter (E : Type) := {
  emit : Io -> E -> SystemSignal -> E * Sent;
  emit_initial : E -> list (Io * SystemSignal) -> E * Sent;
  emit_directive : Io -> E -> EngineDirective -> E * Sent;
  emitter_name : string
}.
Class EngineReceiver (E : Type) := {
  try_recv : E -> E * option EngineMessage;
  is_connected : E -> bool
}.

(** [emit_initial] of every transport: [emit] for each signal. *)
Section EmitAll.
Context {E : Type} (emit_one : Io -> E -> SystemSignal -> E * Sent).
Fixpoint emit_all (e : E) (signals : list (Io * SystemSignal)) : E * Sent :=
  match signals with
  | [] => (e, [])
  | (io, s) :: signals =>
      let '(e, sent) := emit_one io e s in
      let '(e, sents) := emit_all e signals in
      (e, sent ++ sents)
  end.
End EmitAll.

(** The blanket implementation: both traits make an [EngineChannel]. *)
Class EngineChannel (E : Type) := {
  channel_emitter :: Emitter E;
  channel_receiver :: EngineReceiver E
}.
#[export] Instance engine_channel {E} `{Emitter E, EngineReceiver E} : EngineChannel E :=
  {| channel_emitter := _; channel_receiver := _ |}.

(** ** The connection state machine *)

(** A connection: the messages its reader has queued, and whether the reader still runs. *)
Record Conn := { conn_writer : Z; conn_inbox : list EngineMessage; conn_reader : bool }.

Inductive ConnectionState :=
| Listening
| Connected (c : Conn)
| Disconnected.

(** The bound of the [sync_channel]. *)
Definition INBOX_CAPACITY : nat := 64.

Section Channel.
Context `{Json}.

Definition transition_to_connected (conn : Z) (clone_ok : bool) : ConnectionState :=
  if negb clone_ok then Disconnected
  else Connected {| conn_writer := conn; conn_inbox := []; conn_reader := true |}.

Definition ensure_connected (io : Io) (st : ConnectionState) : ConnectionState :=
  match st with
  | Disconnected =>
      match io_accept io with
      | Accepted conn clone_ok => transition_to_connected conn clone_ok
      | WouldBlock | AcceptFailed => st
      end
  | _ => st
  end.

(** One look of the waiting loop: the shutdown flag, the answer of [accept], and whether
    the timeout has elapsed. *)
Record WaitTick := { wait_shutdown : bool; wait_accept : AcceptResult; wait_elapsed : bool }.

Fixpoint wait_for_client (st : ConnectionState) (ticks : list WaitTick)
    : ConnectionState * bool :=
  match ticks with
  | [] => (st, false)
  | t :: ticks =>
      if wait_shutdown t then (st, false)
      else match wait_accept t with
      | Accepted conn clone_ok => (transition_to_connected conn clone_ok, true)
      | WouldBlock => if wait_elapsed t then (st, false) else wait_for_client st ticks
      | AcceptFailed => (st, false)
      end
  end.

(** The length, the payload and the flush, each with its [?]: what has been written, and
    whether all succeeded. *)
Definition write_frame (io : Io) (conn : Z) (json : option bytes) : Sent * bool :=
  match json with
  | None => ([], false)
  | Some json =>
      let len := to_be_bytes (as_u32 (Z.of_nat (length json))) in
      let '(prefix, ok) := write_all io len in
      if negb ok then (cut conn prefix, false)
      else
        let '(payload, ok) := write_all io json in
        if negb ok then (cut conn (prefix ++ payload), false)
        else if io_flush io then ([Whole conn (prefix ++ payload)], true)
        else (cut conn (prefix ++ payload), false)
  end.

Definition write_manager_message (io : Io) (st : ConnectionState) (msg : ManagerMessage)
    : Sent * bool :=
  match st with
  | Connected c => write_frame io (conn_writer c) (json_of_message msg)
  | _ => ([], false)
  end.
Definition write_signal (io : Io) (st : ConnectionState) (s : SystemSignal) : Sent * bool :=
  match st with
  | Connected c => write_frame io (conn_writer c) (json_of_signal s)
  | _ => ([], false)
  end.

(** [emit] and [emit_directive]: an unconnected channel drops the message and a failed
    write disconnects; neither is an error to the caller. *)
Definition channel_emit (io : Io) (st : ConnectionState) (signal : SystemSignal)
    : ConnectionState * Sent :=
  let st := ensure_connected io st in
  match st with
  | Connected _ =>
      let '(sent, ok) := write_signal io st signal in
      (if ok then st else Disconnected, sent)
  | _ => (st, [])
  end.

Definition channel_emit_directive (io : Io) (st : ConnectionState) (directive : EngineDirective)
    : ConnectionState * Sent :=
  let st := ensure_connected io st in
  match st with
  | Connected _ =>
      let '(sent, ok) := write_manager_message io st (Directive directive) in
      (if ok then st else Disconnected, sent)
  | _ => (st, [])
  end.

(** A queued message is delivered even when the reader is gone; only an empty queue
    without a reader disconnects. *)
Definition channel_try_recv (st : ConnectionState) : ConnectionState * option EngineMessage :=
  match st with
  | Connected c =>
      match conn_inbox c with
      | msg :: inbox =>
          (Connected {| conn_writer := conn_writer c; conn_inbox := inbox;
                        conn_reader := conn_reader c |}, Some msg)
      | [] => if conn_reader c then (st, None) else (Disconnected, None)
      end
  | _ => (st, None)
  end.

Definition channel_is_connected (st : ConnectionState) : bool :=
  match st with Connected _ => true | _ => false end.

(** The reader thread delivers one message; with the queue full it has to wait. *)
Definition reader_push (c : Conn) (msg : EngineMessage) : option Conn :=
  if conn_reader c && (length (conn_inbox c) <? INBOX_CAPACITY)%nat
  then Some {| conn_writer := conn_writer c; conn_inbox := conn_inbox c ++ [msg];
               conn_reader := true |}
  else None.
(** The reader thread ends. *)
Definition reader_exit (c : Conn) : Conn :=
  {| conn_writer := conn_writer c; conn_inbox := conn_inbox c; conn_reader := false |}.
End Channel.

(** *** The Unix socket channel (src/channel/unix_socket.rs) *)
Module Unix.
Record UnixSocketChannel := { socket_path : string; state : ConnectionState }.
Definition with_state (ch : UnixSocketChannel) (st : ConnectionState) : UnixSocketChannel :=
  {| socket_path := socket_path ch; state := st |}.

(** [unix_new] when binding and making the listener non-blocking succeed. *)
Definition unix_new (path : string) (bind_ok nonblocking_ok : bool) : option UnixSocketChannel :=
  if bind_ok && nonblocking_ok then Some {| socket_path := path; state := Listening |} else None.
Definition unix_wait (ch : UnixSocketChannel) (ticks : list WaitTick) : UnixSocketChannel * bool :=
  let '(st, ok) := wait_for_client (state ch) ticks in (with_state ch st, ok).

Section Io.
Context `{Json}.
Definition unix_emit (io : Io) (ch : UnixSocketChannel) (s : SystemSignal) : UnixSocketChannel * Sent :=
  let '(st, sent) := channel_emit io (state ch) s in (with_state ch st, sent).
Definition unix_emit_initial : UnixSocketChannel -> list (Io * SystemSignal) -> UnixSocketChannel * Sent :=
  emit_all unix_emit.
Definition unix_emit_directive (io : Io) (ch : UnixSocketChannel) (d : EngineDirective)
    : UnixSocketChannel * Sent :=
  let '(st, sent) := channel_emit_directive io (state ch) d in (with_state ch st, sent).
Definition unix_try_recv (ch : UnixSocketChannel) : UnixSocketChannel * option EngineMessage :=
  let '(st, m) := channel_try_recv (state ch) in (with_state ch st, m).

#[export] Instance emitter : Emitter UnixSocketChannel := {|
  Channel.emit := unix_emit; Channel.emit_initial := unix_emit_initial;
  Channel.emit_directive := unix_emit_directive; emitter_name := "UnixSocketChannel" |}.
#[export] Instance receiver : EngineReceiver UnixSocketChannel := {|
  Channel.try_recv := unix_try_recv; is_connected := fun ch => channel_is_connected (state ch) |}.
End Io.
End Unix.

(** *** The write-only emitter (src/emitter/unix_socket.rs) *)
Module UnixEmitter.
Record UnixSocketEmitter := { socket_path : string; client : option Z }.
Definition with_client (em : UnixSocketEmitter) (c : option Z) : UnixSocketEmitter :=
  {| socket_path := socket_path em; client := c |}.

Definition emitter_new (path : string) (bind_ok nonblocking_ok : bool) : option UnixSocketEmitter :=
  if bind_ok && nonblocking_ok then Some {| socket_path := path; client := None |} else None.

Fixpoint emitter_wait_for_client (em : UnixSocketEmitter) (ticks : list WaitTick)
    : UnixSocketEmitter * bool :=
  match ticks with
  | [] => (em, false)
  | t :: ticks =>
      if wait_shutdown t then (em, false)
      else match wait_accept t with
      | Accepted conn _ => (with_client em (Some conn), true)
      | WouldBlock => if wait_elapsed t then (em, false) else emitter_wait_for_client em ticks
      | AcceptFailed => (em, false)
      end
  end.

Definition try_accept_client (io : Io) (em : UnixSocketEmitter) : UnixSocketEmitter * bool :=
  match client em with
  | Some _ => (em, true)
  | None =>
      match io_accept io with
      | Accepted conn _ => (with_client em (Some conn), true)
      | _ => (em, false)
      end
  end.

Section Io.
Context `{Json}.
Definition emitter_write (io : Io) (em : UnixSocketEmitter) (json : option bytes) : Sent * bool :=
  match client em with Some conn => write_frame io conn json | None => ([], false) end.
Definition emitter_send (io : Io) (em : UnixSocketEmitter) (json : option bytes)
    : UnixSocketEmitter * Sent :=
  let '(em, connected) := try_accept_client io em in
  if negb connected then (em, [])
  else
    let '(sent, ok) := emitter_write io em json in
    (if ok then em else with_client em None, sent).
Definition emitter_emit (io : Io) (em : UnixSocketEmitter) (s : SystemSignal) : UnixSocketEmitter * Sent :=
  emitter_send io em (json_of_signal s).
Definition emitter_emit_initial : UnixSocketEmitter -> list (Io * SystemSignal) -> UnixSocketEmitter * Sent :=
  emit_all emitter_emit.
Definition emitter_emit_directive (io : Io) (em : UnixSocketEmitter) (d : EngineDirective)
    : UnixSocketEmitter * Sent :=
  emitter_send io em (json_of_message (Directive d)).

#[export] Instance emitter : Emitter UnixSocketEmitter := {|
  Channel.emit := emitter_emit; Channel.emit_initial := emitter_emit_initial;
  Channel.emit_directive := emitter_emit_directive; emitter_name := "UnixSocketEmitter" |}.
End Io.
End UnixEmitter.

(** ** Specification: an execution of a channel *)

(** Steps of the main thread's calls and of the reader thread, with the messages each
    connection's reader has parsed and the main thread has received so far.  A message of a
    connection that is given up is lost, so both lists start anew with a connection. *)
Record Exec := {
  ex_state : ConnectionState;
  ex_parsed : list EngineMessage;
  ex_received : list EngineMessage;
  ex_sent : Sent
}.
Definition exec_start (st : ConnectionState) : Exec :=
  {| ex_state := st; ex_parsed := []; ex_received := []; ex_sent := [] |}.

Section Steps.
Context `{Json}.

(** After a call that keeps an open connection. *)
Definition same_conn (st st' : ConnectionState) : bool :=
  match st, st' with Connected _, Connected _ => true | _, _ => false end.
Definition after_call (ex : Exec) (st : ConnectionState) (sent : Sent) : Exec :=
  {| ex_state := st;
     ex_parsed := if same_conn (ex_state ex) st then ex_parsed ex else [];
     ex_received := if same_conn (ex_state ex) st then ex_received ex else [];
     ex_sent := ex_sent ex ++ sent |}.

(** The calls of the main loop, and the reader thread. *)
Inductive loop_step : Exec -> Exec -> Prop :=
| step_emit ex io s st sent :
    channel_emit io (ex_state ex) s = (st, sent) -> loop_step ex (after_call ex st sent)
| step_emit_directive ex io d st sent :
    channel_emit_directive io (ex_state ex) d = (st, sent) -> loop_step ex (after_call ex st sent)
| step_try_recv ex st m :
    channel_try_recv (ex_state ex) = (st, m) ->
    loop_step ex
      {| ex_state := st;
         ex_parsed := if same_conn (ex_state ex) st then ex_parsed ex else [];
         ex_received := if same_conn (ex_state ex) st then ex_received ex ++ option_list m else [];
         ex_sent := ex_sent ex |}
| step_reader_push ex c msg c' :
    ex_state ex = Connected c -> reader_push c msg = Some c' ->
    loop_step ex {| ex_state := Connected c'; ex_parsed := ex_parsed ex ++ [msg];
                    ex_received := ex_received ex; ex_sent := ex_sent ex |}
| step_reader_exit ex c :
    ex_state ex = Connected c ->
    loop_step ex {| ex_state := Connected (reader_exit c); ex_parsed := ex_parsed ex;
                    ex_received := ex_received ex; ex_sent := ex_sent ex |}.

(** [wait_for_client], whatever the state: a client that is accepted replaces an open
    connection, with a new reader and a new queue. *)
Definition after_wait (ex : Exec) (r : ConnectionState * bool) : Exec :=
  {| ex_state := r.1;
     ex_parsed := if r.2 then [] else ex_parsed ex;
     ex_received := if r.2 then [] else ex_received ex;
     ex_sent := ex_sent ex |}.

(** All that can happen to a channel. *)
Inductive chan_step : Exec -> Exec -> Prop :=
| step_wait ex ticks : chan_step ex (after_wait ex (wait_for_client (ex_state ex) ticks))
| step_loop ex ex' : loop_step ex ex' -> chan_step ex ex'.

Definition chan_inv (ex : Exec) : Prop :=
  match ex_state ex with
  | Connected c =>
      (length (conn_inbox c) <= INBOX_CAPACITY)%nat /\
      ex_parsed ex = ex_received ex ++ conn_inbox c
  | _ => ex_parsed ex = [] /\ ex_received ex = []
  end.

(** A call of the main loop keeps an open connection's queue, or gives it up, or opens a
    connection with an empty queue. *)
Definition call_effect (st st' : ConnectionState) : Prop :=
  match st' with
  | Connected c => st = st' \/ (st = Disconnected /\ conn_inbox c = [])
  | Listening => st = Listening
  | Disconnected => True
  end.

Lemma ensure_connected_effect io st : call_effect st (ensure_connected io st).
Proof.
  unfold ensure_connected, transition_to_connected, call_effect.
  destruct st as [|c|]; [done|by left|]. destruct (io_accept io) as [conn []| |]; cbn; auto.
Qed.

Lemma channel_emit_effect io st s st' sent :
  channel_emit io st s = (st', sent) -> call_effect st st'.
Proof.
  unfold channel_emit. pose proof (ensure_connected_effect io st) as He.
  destruct (ensure_connected io st) as [|c|]; [by intros; simplify_eq| |by intros; simplify_eq].
  destruct (write_signal _ _ _) as [o []]; intros; by simplify_eq.
Qed.

Lemma channel_emit_directive_effect io st d st' sent :
  channel_emit_directive io st d = (st', sent) -> call_effect st st'.
Proof.
  unfold channel_emit_directive. pose proof (ensure_connected_effect io st) as He.
  destruct (ensure_connected io st) as [|c|]; [by intros; simplify_eq| |by intros; simplify_eq].
  destruct (write_manager_message _ _ _) as [o []]; intros; by simplify_eq.
Qed.

Lemma after_call_inv ex st sent :
  chan_inv ex -> call_effect (ex_state ex) st -> chan_inv (after_call ex st sent).
Proof.
  unfold chan_inv, call_effect, after_call; cbn. intros Hi He.
  destruct st as [|c|].
  - rewrite He. done.
  - destruct He as [He|[He Hc]]; rewrite He in *; cbn; [done|]. by rewrite Hc; split; [unfold INBOX_CAPACITY; cbn; lia|].
  - by destruct (ex_state ex).
Qed.

(** A wait that ends without a client changes nothing; otherwise the queue is new. *)
Lemma wait_for_client_cases ticks : forall st,
  wait_for_client st ticks = (st, false) \/
  exists conn clone_ok, wait_for_client st ticks = (transition_to_connected conn clone_ok, true).
Proof.
  induction ticks as [|t ticks IH]; intros st; cbn [wait_for_client]; [by left|].
  destruct (wait_shutdown t); [by left|].
  destruct (wait_accept t) as [conn clone_ok| |]; [right; eauto| |by left].
  destruct (wait_elapsed t); [by left|apply IH].
Qed.

Lemma after_wait_inv ex ticks : chan_inv ex -> chan_inv (after_wait ex (wait_for_client (ex_state ex) ticks)).
Proof.
  intros Hi. destruct (wait_for_client_cases ticks (ex_state ex)) as [->|(conn & clone_ok & ->)].
  - by destruct ex.
  - destruct clone_ok; unfold chan_inv; cbn; [|done]. unfold INBOX_CAPACITY. split; [lia|done].
Qed.

Lemma loop_inv_step ex ex' : loop_step ex ex' -> chan_inv ex -> chan_inv ex'.
Proof.
  intros [ex0 io s st sent He|ex0 io d st sent He|ex0 st m Ht|ex0 c msg c' Hc Hp|ex0 c Hc] Hi.
  - apply after_call_inv; [done|]. by eapply channel_emit_effect.
  - apply after_call_inv; [done|]. by eapply channel_emit_directive_effect.
  - unfold chan_inv in *; cbn. unfold channel_try_recv in Ht.
    destruct (ex_state ex0) as [|c|]; simplify_eq; try done.
    destruct (conn_inbox c) as [|x inbox] eqn:Hin.
    + destruct (conn_reader c); simplify_eq; cbn; [|done]. by rewrite Hin, !app_nil_r in *.
    + simplify_eq. cbn in *. destruct Hi as [Hlen ->]. split; [lia|]. by rewrite <- app_assoc.
  - unfold chan_inv in *. rewrite Hc in Hi. cbn. unfold reader_push in Hp.
    destruct (conn_reader c && _) eqn:Hb; simplify_eq. split_bools. cbn.
    apply Nat.ltb_lt in H1. destruct Hi as [Hlen ->].
    rewrite length_app. cbn. split; [lia|]. by rewrite app_assoc.
  - unfold chan_inv in *. rewrite Hc in Hi. done.
Qed.

Lemma chan_inv_step ex ex' : chan_step ex ex' -> chan_inv ex -> chan_inv ex'.
Proof. intros [ex0 ticks|ex0 ex1 Hs]; [apply after_wait_inv|by apply loop_inv_step]. Qed.

(** What [write_frame] has written of the frame, and whether it is all of it. *)
Definition frame_written (json : bytes) (w : Written) : Prop :=
  match w with Whole _ b => b = frame json | Cut _ b => b <> [] /\ b `prefix_of` frame json end.

Lemma cut_prefix conn json b : b `prefix_of` frame json -> Forall (frame_written json) (cut conn b).
Proof. destruct b; [constructor|]. intros Hb. by constructor. Qed.

Lemma write_frame_written io conn json :
  Forall (frame_written json) (write_frame io conn (Some json)).1 /\
  (length (write_frame io conn (Some json)).1 <= 1)%nat.
Proof.
  assert (Hl : forall b, (length (cut conn b) <= 1)%nat) by (intros []; cbn; lia).
  assert (Hp : forall n (b : bytes), take n b `prefix_of` b) by (intros n b; exists (drop n b); by rewrite take_drop).
  unfold write_frame, write_all. set (len := to_be_bytes _).
  destruct (io_write io len) as [|n]; cbn [negb].
  2: { split; [|apply Hl]. apply cut_prefix. unfold frame. fold len.
       etrans; [apply Hp|]. by exists json. }
  destruct (io_write io json) as [|n]; cbn [negb].
  2: { split; [|apply Hl]. apply cut_prefix. unfold frame. fold len. apply prefix_app, Hp. }
  destruct (io_flush io); split; try apply Hl; [by repeat constructor|cbn; lia|by apply cut_prefix].
Qed.

(** No write fails. *)
Definition io_ok (io : Io) : Prop := (forall b, io_write io b = WriteOk) /\ io_flush io = true.

Lemma write_frame_ok io conn json : io_ok io ->
  write_frame io conn (Some json) = ([Whole conn (frame json)], true).
Proof. intros [Hw Hf]. unfold write_frame, write_all. by rewrite !Hw, Hf. Qed.
End Steps.

(** ** Lemmas: framing *)

Lemma byte_testbit x i : Z.testbit (Z.land x 255) i = (i <? 8) && Z.testbit x i.
Proof.
  change 255 with (Z.ones 8). rewrite Z.land_spec. destruct (Z.ltb_spec i 0).
  { by rewrite !Z.testbit_neg_r, !andb_false_r by lia. }
  rewrite Z.testbit_ones by lia. rewrite (proj2 (Z.leb_le 0 i)) by lia. cbn. apply andb_comm.
Qed.

(** Byte [k] of a word, shifted back to its place. *)
Lemma shifted_byte_testbit n k i : 0 <= i -> 0 <= k ->
  Z.testbit (Z.shiftl (Z.land (Z.shiftr n k) 255) k) i = (k <=? i) && (i <? k + 8) && Z.testbit n i.
Proof.
  intros Hi Hk. rewrite Z.shiftl_spec, byte_testbit by lia.
  destruct (Z.leb_spec k i); cbn; [|by rewrite Z.testbit_neg_r, !andb_false_r by lia].
  rewrite Z.shiftr_spec by lia. replace (i - k + k) with i by lia.
  f_equal. apply eq_true_iff_eq. rewrite !Z.ltb_lt. lia.
Qed.

Lemma be_bytes_roundtrip n : is_u32 n -> from_be_bytes (to_be_bytes n) = n.
Proof.
  intros Hn. unfold from_be_bytes, to_be_bytes. apply Z.bits_inj'. intros i Hi.
  rewrite !Z.lor_spec, !shifted_byte_testbit by lia.
  pose proof (byte_testbit n i) as Hb. rewrite Hb.
  destruct (Z.ltb_spec i 32) as [Hlt|Hge].
  - assert (Hr : i < 8 \/ 8 <= i < 16 \/ 16 <= i < 24 \/ 24 <= i < 32) by lia.
    destruct (Z.leb_spec 24 i), (Z.leb_spec 16 i), (Z.leb_spec 8 i), (Z.ltb_spec i (24 + 8)),
      (Z.ltb_spec i (16 + 8)), (Z.ltb_spec i (8 + 8)), (Z.ltb_spec i 8); try lia; cbn;
      rewrite ?orb_false_r; done.
  - assert (Z.testbit n i = false) as ->.
    { unfold is_u32, u32_max in Hn. rewrite <- (Z.mod_small n (2 ^ 32)) by lia.
      apply Z.mod_pow2_bits_high. lia. }
    by rewrite !andb_false_r.
Qed.

Lemma as_u32_id n : is_u32 n -> as_u32 n = n.
Proof.
  intros Hn. unfold as_u32, is_u32, u32_max in *. change 4294967295 with (Z.ones 32).
  rewrite Z.land_ones by lia. apply Z.mod_small. lia.
Qed.

Lemma read_exact_app n l r : length l = n -> read_exact n (l ++ r) = Ok (l, r).
Proof.
  intros Hl. unfold read_exact. rewrite length_app.
  rewrite (proj2 (Nat.ltb_ge _ _)) by lia. by rewrite take_app_length', drop_app_length' by done.
Qed.

Section ReadLemmas.
Context `{Json}.

Lemma read_frame json rest :
  Z.of_nat (length json) <= u32_max ->
  read_engine_message (frame json ++ rest) =
  if MAX_PAYLOAD_SIZE <? Z.of_nat (length json)
  then Err (PayloadTooLarge (Z.of_nat (length json)))
  else match message_of_json json with Some m => Ok (m, rest) | None => Err BadJson end.
Proof.
  intros Hlen. unfold read_engine_message, frame. rewrite <- app_assoc.
  rewrite read_exact_app by done. rewrite as_u32_id by (unfold is_u32; lia).
  rewrite be_bytes_roundtrip by (unfold is_u32; lia).
  destruct (_ <? _); [done|]. rewrite read_exact_app by (by rewrite Nat2Z.id).
  by destruct (message_of_json json).
Qed.

Lemma frame_length json : length (frame json) = (4 + length json)%nat.
Proof. done. Qed.

Lemma reader_thread_frames jsons : forall fuel rest,
  Forall (fun json => Z.of_nat (length json) <= MAX_PAYLOAD_SIZE /\
                      message_of_json json <> None) jsons ->
  (length jsons + length rest < fuel)%nat ->
  reader_thread fuel (concat (map frame jsons) ++ rest) =
  let '(msgs, e) := reader_thread (fuel - length jsons) rest in
  (omap message_of_json jsons ++ msgs, e).
Proof.
  induction jsons as [|json jsons IH]; intros fuel rest Hf Hfuel; cbn [map concat length app] in *.
  { rewrite Nat.sub_0_r. by destruct (reader_thread fuel rest). }
  apply Forall_cons in Hf as [[Hlen Hm] Hf]. destruct fuel as [|fuel]; [lia|].
  cbn [reader_thread]. rewrite <- app_assoc, read_frame
    by (unfold MAX_PAYLOAD_SIZE, u32_max in *; lia).
  rewrite (proj2 (Z.ltb_ge _ _)) by done. rewrite omap_cons.
  destruct (message_of_json json) as [m|]; [|done].
  rewrite IH by (done || lia). cbn [Nat.sub].
  by destruct (reader_thread (fuel - length jsons) rest).
Qed.
End ReadLemmas.

(** ** Properties *)

(** C6. Framing round trip.  Whatever messages are framed one after the other with
    payloads of at most 64 KiB that parse, the reader thread delivers all of them, in
    order, and then goes on exactly as it would on the bytes that follow; at the end of
    the stream it stops. *)
Theorem frames_roundtrip `{Json} jsons fuel rest :
  Forall (fun json => Z.of_nat (length json) <= MAX_PAYLOAD_SIZE /\
                      message_of_json json <> None) jsons ->
  (length jsons + length rest < fuel)%nat ->
  reader_thread fuel (concat (map frame jsons) ++ rest) =
  (omap message_of_json jsons ++ (reader_thread (fuel - length jsons) rest).1,
   (reader_thread (fuel - length jsons) rest).2).
Proof.
  intros Hf Hfuel. rewrite reader_thread_frames by done.
  by destruct (reader_thread (fuel - length jsons) rest).
Qed.

(** A toy encoding for the examples: a one-byte payload is an empty response. *)
#[export] Instance demo_json : Json := {|
  json_of_message := fun m => match m with Directive d => Some [seq_id d mod 256] end;
  json_of_signal := fun s => Some [7];
  message_of_json := fun b => match b with
    | [n] => Some (Response {| resp_seq_id := n; results := [] |}) | _ => None end
|}.

Lemma frames_roundtrip_witness :
  (reader_thread 10 (concat (map frame [[5]; [6]]) ++ [0; 0])).1 =
  [Response {| resp_seq_id := 5; results := [] |}; Response {| resp_seq_id := 6; results := [] |}].
Proof.
  rewrite (frames_roundtrip [[5]; [6]] 10 [0; 0]).
  - reflexivity.
  - repeat constructor; discriminate.
  - cbn. lia.
Defined.

(** Oversize frames end the connection.  A payload of more than 64 KiB (and less than
    4 GiB) is refused by its length alone, before any of it is read, whatever follows; and
    the sender does not guard against it: a frame the channel has written completely can
    be one that such a reader refuses. *)
Theorem oversize_is_refused `{Json} json rest :
  MAX_PAYLOAD_SIZE < Z.of_nat (length json) <= u32_max ->
  read_engine_message (frame json ++ rest) = Err (PayloadTooLarge (Z.of_nat (length json))) /\
  (forall io c s, json_of_signal s = Some json -> (forall b, io_write io b = WriteOk) ->
     io_flush io = true ->
     channel_emit io (Connected c) s = (Connected c, [Whole (conn_writer c) (frame json)])).
Proof.
  intros Hlen. split.
  - rewrite read_frame by lia. by rewrite (proj2 (Z.ltb_lt _ _)) by lia.
  - intros io c s Hj Hw Hfl. unfold channel_emit, write_signal. cbn [ensure_connected].
    by rewrite Hj, write_frame_ok.
Qed.

Definition demo_oversize : bytes := repeat 32 (Z.to_nat 65537).

Lemma oversize_is_refused_witness :
  read_engine_message (frame demo_oversize ++ []) = Err (PayloadTooLarge 65537).
Proof.
  assert (Hl : Z.of_nat (length demo_oversize) = 65537).
  { unfold demo_oversize. rewrite repeat_length, Z2Nat.id; [reflexivity|discriminate]. }
  destruct (oversize_is_refused demo_oversize []) as [H _].
  - rewrite Hl. unfold MAX_PAYLOAD_SIZE, u32_max. lia.
  - rewrite H, Hl. reflexivity.
Defined.

(** C5. Messages arrive in order, none twice.  In every execution of a channel from the
    moment it is created, listening - any interleaving of waits for a client, emissions,
    receptions, reader deliveries and reader exits, over any number of connections - the
    queue of an open connection never exceeds its capacity, and the messages its reader has
    parsed are those already received followed by those queued. *)
Theorem channel_fifo `{Json} path ch ex :
  Unix.unix_new path true true = Some ch -> star chan_step (exec_start (Unix.state ch)) ex ->
  match ex_state ex with
  | Connected c =>
      (length (conn_inbox c) <= INBOX_CAPACITY)%nat /\
      ex_parsed ex = ex_received ex ++ conn_inbox c
  | _ => ex_parsed ex = [] /\ ex_received ex = []
  end.
Proof.
  intros [= <-] Hs. by apply (star_invariant _ chan_inv) in Hs; [|apply chan_inv_step|].
Qed.

Definition demo_io : Io :=
  {| io_accept := Accepted 4 true; io_write := fun _ => WriteOk; io_flush := true |}.

(** A client is waited for, its reader delivers two messages, and one is received. *)
Lemma channel_fifo_witness :
  exists ex c, star chan_step (exec_start Listening) ex /\ ex_state ex = Connected c /\
    ex_parsed ex = ex_received ex ++ conn_inbox c /\ length (ex_received ex) = 1%nat /\
    length (conn_inbox c) = 1%nat.
Proof.
  set (msg n := Response {| resp_seq_id := n; results := [] |}).
  set (conn inbox := {| conn_writer := 4; conn_inbox := inbox; conn_reader := true |}).
  set (ex := {| ex_state := Connected (conn [msg 2]); ex_parsed := [msg 1; msg 2];
                ex_received := [msg 1]; ex_sent := [] |}).
  exists ex, (conn [msg 2]).
  assert (Hs : star chan_step (exec_start Listening) ex).
  { eapply star_step.
    { apply (step_wait _ [{| wait_shutdown := false; wait_accept := Accepted 4 true; wait_elapsed := false |}]). }
    eapply star_step; [apply step_loop, (step_reader_push _ (conn []) (msg 1) (conn [msg 1])); reflexivity|].
    eapply star_step; [apply step_loop, (step_reader_push _ (conn [msg 1]) (msg 2) (conn [msg 1; msg 2])); reflexivity|].
    eapply star_step; [apply step_loop, (step_try_recv _ (Connected (conn [msg 2])) (Some (msg 1))); reflexivity|].
    apply star_refl. }
  split; [exact Hs|]. split; [reflexivity|].
  split; [apply (channel_fifo "x" _ ex eq_refl Hs)|]. split; reflexivity.
Defined.

(** A channel that starts without a client stays deaf and mute.  After a wait that
    ends without a connection, the channel is still listening, and from then on no call of
    the main loop ever connects it, whatever clients arrive: nothing is sent, nothing is
    received, and it never counts as connected. *)
Theorem listening_channel_never_connects `{Json} ticks ex :
  (wait_for_client Listening ticks).2 = false ->
  star loop_step (exec_start (wait_for_client Listening ticks).1) ex ->
  ex_state ex = Listening /\ ex_sent ex = [] /\ ex_received ex = [].
Proof.
  intros Hw.
  assert ((wait_for_client Listening ticks).1 = Listening) as ->.
  { induction ticks as [|t ticks IH]; [done|]. cbn in *.
    destruct (wait_shutdown t); [done|]. destruct (wait_accept t); [done| |done].
    destruct (wait_elapsed t); auto. }
  intros Hs. pattern ex. eapply (star_invariant loop_step); [|exact Hs|by split_and!].
  intros e1 e2 Hstep (Hl & Hse & Hr). destruct Hstep as [e io s st sent He|e io d st sent He|e st m Ht|e c msg c' Hc Hp|e c Hc];
    unfold after_call in *; rewrite Hl in *; cbn in *; simplify_eq; cbn; rewrite ?Hse; done.
Qed.

Lemma listening_channel_never_connects_witness :
  exists ex, star loop_step (exec_start
      (wait_for_client Listening [{| wait_shutdown := false; wait_accept := WouldBlock; wait_elapsed := true |}]).1) ex /\
    ex_state ex = Listening /\ ex_sent ex = [].
Proof.
  set (ticks := [{| wait_shutdown := false; wait_accept := WouldBlock; wait_elapsed := true |}]).
  set (ex := after_call (exec_start Listening) Listening []).
  exists ex.
  assert (Hs : star loop_step (exec_start (wait_for_client Listening ticks).1) ex).
  { eapply star_step; [|apply star_refl].
    apply (step_emit (exec_start Listening) demo_io (ThermalAlert Normal 0 false f_zero)).
    reflexivity. }
  split; [exact Hs|].
  destruct (listening_channel_never_connects ticks ex eq_refl Hs) as (Hl & He & _).
  split; assumption.
Defined.
