(* ===== verification/TcpChannel.v ===== *)
(** * TcpChannel: the TCP channel (src/channel/tcp.rs)

    The file repeats unix_socket.rs on another socket, with a state type, a frame reader and
    a reader thread of its own; so does this one.  That the two copies have not drifted
    apart is a theorem: run on the same calls and socket answers they give the same results
    ([tcp_is_unix]). *)

From Stdlib Require Import ZArith Lia String.
From stdpp Require Import base tactics numbers list strings.
From S2P Require Import Prelude Float Signal Wire Channel.
Local Open Scope string_scope.
Local Open Scope list_scope.
Local Open Scope Z_scope.

Module Tcp.
(** [TcpConnectionState]: the writer, what the reader thread has pushed, and whether it
    still runs. *)
Inductive TcpConnectionState :=
| TcpListening
| TcpConnected (writer : Z) (inbox : list EngineMessage) (reader : bool)
| TcpDisconnected.

Record TcpChannel := { addr : string; state : TcpConnectionState }.
Definition with_state (ch : TcpChannel) (st : TcpConnectionState) : TcpChannel :=
  {| addr := addr ch; state := st |}.

(** [TcpChannel::new] when binding and making the listener non-blocking succeed. *)
Definition tcp_new (address : string) (bind_ok nonblocking_ok : bool) : option TcpChannel :=
  if bind_ok then if nonblocking_ok then Some {| addr := address; state := TcpListening |} else None
  else None.

Definition tcp_transition_to_connected (ch : TcpChannel) (stream : Z) (clone_ok : bool) : TcpChannel :=
  if clone_ok then with_state ch (TcpConnected stream [] true) else with_state ch TcpDisconnected.

Fixpoint tcp_wait (ch : TcpChannel) (ticks : list WaitTick) : TcpChannel * bool :=
  match ticks with
  | [] => (ch, false)
  | t :: ticks =>
      if wait_shutdown t then (ch, false)
      else match wait_accept t with
      | Accepted stream clone_ok => (tcp_transition_to_connected ch stream clone_ok, true)
      | WouldBlock => if wait_elapsed t then (ch, false) else tcp_wait ch ticks
      | AcceptFailed => (ch, false)
      end
  end.

Definition tcp_ensure_connected (io : Io) (ch : TcpChannel) : TcpChannel :=
  match state ch with
  | TcpDisconnected =>
      match io_accept io with
      | Accepted stream clone_ok => tcp_transition_to_connected ch stream clone_ok
      | WouldBlock => ch
      | AcceptFailed => ch
      end
  | TcpListening | TcpConnected _ _ _ => ch
  end.

Definition tcp_is_connected (ch : TcpChannel) : bool :=
  match state ch with TcpConnected _ _ _ => true | _ => false end.

(** The bound of the [sync_channel]. *)
Definition TCP_INBOX : nat := 64.
Definition TCP_MAX_PAYLOAD_SIZE : Z := 64 * 1024.

Section Io.
Context `{Json}.

Definition tcp_write_manager_message (io : Io) (ch : TcpChannel) (msg : ManagerMessage)
    : Sent * bool :=
  match state ch with
  | TcpConnected writer _ _ =>
      match json_of_message msg with
      | None => ([], false)
      | Some json =>
          let len := to_be_bytes (as_u32 (Z.of_nat (length json))) in
          match io_write io len with
          | WriteFails n => (cut writer (take n len), false)
          | WriteOk =>
              match io_write io json with
              | WriteFails n => (cut writer (len ++ take n json), false)
              | WriteOk =>
                  if io_flush io then ([Whole writer (len ++ json)], true)
                  else (cut writer (len ++ json), false)
              end
          end
      end
  | _ => ([], false)
  end.
Definition tcp_write_signal (io : Io) (ch : TcpChannel) (signal : SystemSignal)
    : Sent * bool :=
  match state ch with
  | TcpConnected writer _ _ =>
      match json_of_signal signal with
      | None => ([], false)
      | Some json =>
          let len := to_be_bytes (as_u32 (Z.of_nat (length json))) in
          match io_write io len with
          | WriteFails n => (cut writer (take n len), false)
          | WriteOk =>
              match io_write io json with
              | WriteFails n => (cut writer (len ++ take n json), false)
              | WriteOk =>
                  if io_flush io then ([Whole writer (len ++ json)], true)
                  else (cut writer (len ++ json), false)
              end
          end
      end
  | _ => ([], false)
  end.

Definition tcp_emit (io : Io) (ch : TcpChannel) (signal : SystemSignal) : TcpChannel * Sent :=
  let ch := tcp_ensure_connected io ch in
  if negb (tcp_is_connected ch) then (ch, [])
  else match tcp_write_signal io ch signal with
       | (sent, false) => (with_state ch TcpDisconnected, sent)
       | (sent, true) => (ch, sent)
       end.
Fixpoint tcp_emit_initial (ch : TcpChannel) (signals : list (Io * SystemSignal)) : TcpChannel * Sent :=
  match signals with
  | [] => (ch, [])
  | (io, signal) :: signals =>
      let '(ch, sent) := tcp_emit io ch signal in
      let '(ch, rest) := tcp_emit_initial ch signals in
      (ch, sent ++ rest)
  end.
Definition tcp_emit_directive (io : Io) (ch : TcpChannel) (directive : EngineDirective)
    : TcpChannel * Sent :=
  let ch := tcp_ensure_connected io ch in
  if negb (tcp_is_connected ch) then (ch, [])
  else match tcp_write_manager_message io ch (Directive directive) with
       | (sent, false) => (with_state ch TcpDisconnected, sent)
       | (sent, true) => (ch, sent)
       end.

(** A queued message is delivered even when the reader thread has ended. *)
Definition tcp_try_recv (ch : TcpChannel) : TcpChannel * option EngineMessage :=
  match state ch with
  | TcpConnected writer (msg :: inbox) reader =>
      (with_state ch (TcpConnected writer inbox reader), Some msg)
  | TcpConnected writer [] true => (ch, None)
  | TcpConnected writer [] false => (with_state ch TcpDisconnected, None)
  | _ => (ch, None)
  end.

(** [read_engine_message] on the bytes that arrive before the end of the stream. *)
Definition tcp_read_engine_message (stream : bytes) : result (EngineMessage * bytes) ReadError :=
  if (length stream <? 4)%nat then Err ReadEof
  else
    let payload_len := from_be_bytes (take 4 stream) in
    let stream := drop 4 stream in
    if TCP_MAX_PAYLOAD_SIZE <? payload_len then Err (PayloadTooLarge payload_len)
    else if (length stream <? Z.to_nat payload_len)%nat then Err ReadEof
    else match message_of_json (take (Z.to_nat payload_len) stream) with
         | None => Err BadJson
         | Some msg => Ok (msg, drop (Z.to_nat payload_len) stream)
         end.

(** The loop of [spawn_reader] on a whole stream, while the channel keeps receiving. *)
Fixpoint tcp_spawn_reader (fuel : nat) (stream : bytes) : list EngineMessage * ReadError :=
  match fuel with
  | O => ([], ReadEof)
  | S fuel =>
      match tcp_read_engine_message stream with
      | Ok (msg, stream) =>
          let '(msgs, e) := tcp_spawn_reader fuel stream in (msg :: msgs, e)
      | Err e => ([], e)
      end
  end.

(** The reader thread pushes a message, or ends and drops its side of the queue.  With the
    queue full a push waits: it is not a step. *)
Definition tcp_reader_send (st : TcpConnectionState) (msg : EngineMessage) : option TcpConnectionState :=
  match st with
  | TcpConnected writer inbox true =>
      if (length inbox <? TCP_INBOX)%nat then Some (TcpConnected writer (inbox ++ [msg]) true) else None
  | _ => None
  end.
Definition tcp_reader_end (st : TcpConnectionState) : TcpConnectionState :=
  match st with TcpConnected writer inbox _ => TcpConnected writer inbox false | st => st end.

#[export] Instance emitter : Emitter TcpChannel := {|
  Channel.emit := tcp_emit; Channel.emit_initial := tcp_emit_initial;
  Channel.emit_directive := tcp_emit_directive; emitter_name := "TcpChannel" |}.
#[export] Instance receiver : EngineReceiver TcpChannel := {|
  Channel.try_recv := tcp_try_recv; is_connected := tcp_is_connected |}.
End Io.
End Tcp.

(** ** Both channels on the same calls *)

(** A call of the main loop or a step of the reader thread, and what comes of it. *)
Inductive ChanOp :=
| OpWait (ticks : list WaitTick)
| OpEmit (io : Io) (s : SystemSignal)
| OpEmitInitial (signals : list (Io * SystemSignal))
| OpEmitDirective (io : Io) (d : EngineDirective)
| OpTryRecv
| OpIsConnected
| OpReaderSends (msg : EngineMessage)
| OpReaderEnds.
Inductive ChanOut :=
| OutBool (b : bool) | OutSent (sent : Sent) | OutMessage (m : option EngineMessage) | OutUnit.

Section Both.
Context `{Json}.

Definition unix_op (ch : Unix.UnixSocketChannel) (op : ChanOp) : Unix.UnixSocketChannel * ChanOut :=
  match op with
  | OpWait ticks => let '(ch, b) := Unix.unix_wait ch ticks in (ch, OutBool b)
  | OpEmit io s => let '(ch, sent) := Unix.unix_emit io ch s in (ch, OutSent sent)
  | OpEmitInitial l => let '(ch, sent) := Unix.unix_emit_initial ch l in (ch, OutSent sent)
  | OpEmitDirective io d => let '(ch, sent) := Unix.unix_emit_directive io ch d in (ch, OutSent sent)
  | OpTryRecv => let '(ch, m) := Unix.unix_try_recv ch in (ch, OutMessage m)
  | OpIsConnected => (ch, OutBool (channel_is_connected (Unix.state ch)))
  | OpReaderSends msg =>
      match Unix.state ch with
      | Connected c =>
          match reader_push c msg with
          | Some c => (Unix.with_state ch (Connected c), OutBool true)
          | None => (ch, OutBool false)
          end
      | _ => (ch, OutBool false)
      end
  | OpReaderEnds =>
      match Unix.state ch with
      | Connected c => (Unix.with_state ch (Connected (reader_exit c)), OutUnit)
      | _ => (ch, OutUnit)
      end
  end.
Definition tcp_op (ch : Tcp.TcpChannel) (op : ChanOp) : Tcp.TcpChannel * ChanOut :=
  match op with
  | OpWait ticks => let '(ch, b) := Tcp.tcp_wait ch ticks in (ch, OutBool b)
  | OpEmit io s => let '(ch, sent) := Tcp.tcp_emit io ch s in (ch, OutSent sent)
  | OpEmitInitial l => let '(ch, sent) := Tcp.tcp_emit_initial ch l in (ch, OutSent sent)
  | OpEmitDirective io d => let '(ch, sent) := Tcp.tcp_emit_directive io ch d in (ch, OutSent sent)
  | OpTryRecv => let '(ch, m) := Tcp.tcp_try_recv ch in (ch, OutMessage m)
  | OpIsConnected => (ch, OutBool (Tcp.tcp_is_connected ch))
  | OpReaderSends msg =>
      match Tcp.tcp_reader_send (Tcp.state ch) msg with
      | Some st => (Tcp.with_state ch st, OutBool true)
      | None => (ch, OutBool false)
      end
  | OpReaderEnds => (Tcp.with_state ch (Tcp.tcp_reader_end (Tcp.state ch)), OutUnit)
  end.

(** A channel on a list of calls: what comes of each. *)
Fixpoint run_ops {C} (op : C -> ChanOp -> C * ChanOut) (ch : C) (ops : list ChanOp) : C * list ChanOut :=
  match ops with
  | [] => (ch, [])
  | o :: ops =>
      let '(ch, out) := op ch o in
      let '(ch, outs) := run_ops op ch ops in
      (ch, out :: outs)
  end.

(** The TCP channel's state as one of the Unix channel. *)
Definition as_connection (st : Tcp.TcpConnectionState) : ConnectionState :=
  match st with
  | Tcp.TcpListening => Listening
  | Tcp.TcpConnected writer inbox reader =>
      Connected {| conn_writer := writer; conn_inbox := inbox; conn_reader := reader |}
  | Tcp.TcpDisconnected => Disconnected
  end.
Definition same_state (u : Unix.UnixSocketChannel) (t : Tcp.TcpChannel) : Prop :=
  Unix.state u = as_connection (Tcp.state t).

Lemma tcp_transition_same t stream ok :
  as_connection (Tcp.state (Tcp.tcp_transition_to_connected t stream ok)) = transition_to_connected stream ok.
Proof. by destruct ok. Qed.

Lemma tcp_ensure_same io t :
  as_connection (Tcp.state (Tcp.tcp_ensure_connected io t)) = ensure_connected io (as_connection (Tcp.state t)).
Proof.
  unfold Tcp.tcp_ensure_connected, ensure_connected.
  destruct (Tcp.state t) eqn:Ht; cbn; try by rewrite Ht.
  destruct (io_accept io); [apply tcp_transition_same|by rewrite Ht..].
Qed.

Lemma tcp_wait_same ticks : forall t,
  let '(t', b) := Tcp.tcp_wait t ticks in
  wait_for_client (as_connection (Tcp.state t)) ticks = (as_connection (Tcp.state t'), b).
Proof.
  induction ticks as [|k ticks IH]; intros t; cbn [Tcp.tcp_wait wait_for_client]; [done|].
  destruct (wait_shutdown k); [done|]. destruct (wait_accept k); [by rewrite tcp_transition_same| |done].
  destruct (wait_elapsed k); [done|apply IH].
Qed.

(** The two writes, on a connection. *)
Lemma tcp_write_signal_same io t w inbox r s : Tcp.state t = Tcp.TcpConnected w inbox r ->
  Tcp.tcp_write_signal io t s = write_frame io w (json_of_signal s).
Proof.
  intros Ht. unfold Tcp.tcp_write_signal, write_frame, write_all. rewrite Ht.
  destruct (json_of_signal s) as [json|]; [|done]. destruct (io_write io _); [|done].
  by destruct (io_write io json).
Qed.
Lemma tcp_write_manager_message_same io t w inbox r msg : Tcp.state t = Tcp.TcpConnected w inbox r ->
  Tcp.tcp_write_manager_message io t msg = write_frame io w (json_of_message msg).
Proof.
  intros Ht. unfold Tcp.tcp_write_manager_message, write_frame, write_all. rewrite Ht.
  destruct (json_of_message msg) as [json|]; [|done]. destruct (io_write io _); [|done].
  by destruct (io_write io json).
Qed.

Lemma tcp_emit_same io t s :
  let '(t', sent) := Tcp.tcp_emit io t s in
  channel_emit io (as_connection (Tcp.state t)) s = (as_connection (Tcp.state t'), sent).
Proof.
  unfold Tcp.tcp_emit, channel_emit. rewrite <- tcp_ensure_same.
  set (t1 := Tcp.tcp_ensure_connected io t). unfold Tcp.tcp_is_connected.
  destruct (Tcp.state t1) eqn:Ht; cbn -[write_signal]; try by rewrite Ht.
  rewrite (tcp_write_signal_same io t1 _ _ _ s Ht). cbn [write_signal conn_writer].
  destruct (write_frame io writer (json_of_signal s)) as [sent []]; cbn; by rewrite ?Ht.
Qed.

Lemma tcp_emit_directive_same io t d :
  let '(t', sent) := Tcp.tcp_emit_directive io t d in
  channel_emit_directive io (as_connection (Tcp.state t)) d = (as_connection (Tcp.state t'), sent).
Proof.
  unfold Tcp.tcp_emit_directive, channel_emit_directive. rewrite <- tcp_ensure_same.
  set (t1 := Tcp.tcp_ensure_connected io t). unfold Tcp.tcp_is_connected.
  destruct (Tcp.state t1) eqn:Ht; cbn -[write_manager_message]; try by rewrite Ht.
  rewrite (tcp_write_manager_message_same io t1 _ _ _ _ Ht). cbn [write_manager_message conn_writer].
  destruct (write_frame io writer (json_of_message (Directive d))) as [sent []]; cbn; by rewrite ?Ht.
Qed.

Lemma tcp_try_recv_same t :
  let '(t', m) := Tcp.tcp_try_recv t in
  channel_try_recv (as_connection (Tcp.state t)) = (as_connection (Tcp.state t'), m).
Proof.
  unfold Tcp.tcp_try_recv. destruct (Tcp.state t) as [|w [|m inbox] []|] eqn:Ht; cbn; by rewrite ?Ht.
Qed.

Lemma unix_emit_same io u t s : same_state u t ->
  same_state (Unix.unix_emit io u s).1 (Tcp.tcp_emit io t s).1 /\
  (Unix.unix_emit io u s).2 = (Tcp.tcp_emit io t s).2.
Proof.
  unfold same_state, Unix.unix_emit. intros ->. pose proof (tcp_emit_same io t s) as He.
  destruct (Tcp.tcp_emit io t s). by rewrite He.
Qed.

Lemma tcp_emit_initial_same l : forall u t, same_state u t ->
  same_state (Unix.unix_emit_initial u l).1 (Tcp.tcp_emit_initial t l).1 /\
  (Unix.unix_emit_initial u l).2 = (Tcp.tcp_emit_initial t l).2.
Proof.
  unfold Unix.unix_emit_initial.
  induction l as [|[io s] l IH]; intros u t Hs; cbn [emit_all Tcp.tcp_emit_initial]; [done|].
  destruct (unix_emit_same io u t s Hs) as [Hs1 Ho].
  destruct (Unix.unix_emit io u s) as [u1 o1], (Tcp.tcp_emit io t s) as [t1 o1']. cbn in *. subst o1'.
  destruct (IH u1 t1 Hs1) as [Hs2 Ho2].
  destruct (emit_all Unix.unix_emit u1 l), (Tcp.tcp_emit_initial t1 l). cbn in *. by subst.
Qed.

Lemma tcp_op_same op u t : same_state u t ->
  same_state (unix_op u op).1 (tcp_op t op).1 /\ (unix_op u op).2 = (tcp_op t op).2.
Proof.
  intros Hs. destruct op as [ticks|io s|l|io d| | |msg|]; cbn [unix_op tcp_op].
  - pose proof (tcp_wait_same ticks t). unfold Unix.unix_wait. rewrite Hs.
    destruct (Tcp.tcp_wait t ticks) as [t' b]. by rewrite H0.
  - destruct (unix_emit_same io u t s Hs). destruct (Unix.unix_emit io u s), (Tcp.tcp_emit io t s).
    cbn in *. by subst.
  - destruct (tcp_emit_initial_same l u t Hs).
    destruct (Unix.unix_emit_initial u l), (Tcp.tcp_emit_initial t l). cbn in *. by subst.
  - pose proof (tcp_emit_directive_same io t d). unfold Unix.unix_emit_directive. rewrite Hs.
    destruct (Tcp.tcp_emit_directive io t d) as [t' sent]. by rewrite H0.
  - pose proof (tcp_try_recv_same t). unfold Unix.unix_try_recv. rewrite Hs.
    destruct (Tcp.tcp_try_recv t) as [t' m]. by rewrite H0.
  - unfold Tcp.tcp_is_connected. rewrite Hs. by destruct (Tcp.state t).
  - rewrite Hs. destruct (Tcp.state t) as [|w inbox []|]; try done.
    cbn [as_connection Tcp.tcp_reader_send]. unfold reader_push. cbn [conn_reader conn_inbox andb].
    change Tcp.TCP_INBOX with INBOX_CAPACITY. by destruct (length inbox <? INBOX_CAPACITY)%nat.
  - unfold same_state in *. rewrite Hs. by destruct (Tcp.state t).
Qed.

Lemma run_ops_same ops : forall u t, same_state u t ->
  (run_ops unix_op u ops).2 = (run_ops tcp_op t ops).2 /\
  same_state (run_ops unix_op u ops).1 (run_ops tcp_op t ops).1.
Proof.
  induction ops as [|op ops IH]; intros u t Hs; cbn [run_ops]; [done|].
  destruct (tcp_op_same op u t Hs) as [Hs1 Ho].
  destruct (unix_op u op) as [u1 o], (tcp_op t op) as [t1 o']. cbn in *. subst o'.
  destruct (IH u1 t1 Hs1) as [Hos Hs2].
  destruct (run_ops unix_op u1 ops), (run_ops tcp_op t1 ops). cbn in *. by subst.
Qed.

Lemma tcp_read_same stream : Tcp.tcp_read_engine_message stream = read_engine_message stream.
Proof.
  unfold Tcp.tcp_read_engine_message, read_engine_message, read_exact.
  destruct (_ <? 4)%nat; [done|]. cbn. change Tcp.TCP_MAX_PAYLOAD_SIZE with MAX_PAYLOAD_SIZE.
  destruct (_ <? _); [done|]. case_match; [done|]. cbn. by destruct (message_of_json _).
Qed.

Lemma tcp_spawn_reader_same fuel : forall stream, Tcp.tcp_spawn_reader fuel stream = reader_thread fuel stream.
Proof.
  induction fuel as [|fuel IH]; intros stream; cbn [Tcp.tcp_spawn_reader reader_thread]; [done|].
  rewrite tcp_read_same. destruct (read_engine_message stream) as [[msg rest]|e]; [|done]. by rewrite IH.
Qed.
End Both.

(** ** Properties *)

(** C21. The two channels are one.  From new channels, over any sequence of waits,
    emissions, receptions and steps of the reader thread with the same socket answers, the
    TCP channel returns, sends and receives exactly what the Unix channel does, and is
    after it in the corresponding state; and on any stream of bytes its reader thread
    parses the same messages and stops for the same reason. *)
Theorem tcp_is_unix `{Json} path address bind_ok nonblocking_ok ops :
  match Unix.unix_new path bind_ok nonblocking_ok, Tcp.tcp_new address bind_ok nonblocking_ok with
  | Some u, Some t =>
      (run_ops unix_op u ops).2 = (run_ops tcp_op t ops).2 /\
      same_state (run_ops unix_op u ops).1 (run_ops tcp_op t ops).1
  | None, None => True
  | _, _ => False
  end /\
  (forall fuel stream, Tcp.tcp_spawn_reader fuel stream = reader_thread fuel stream).
Proof.
  split; [|exact tcp_spawn_reader_same].
  destruct bind_ok, nonblocking_ok; try done. by apply run_ops_same.
Qed.

(** A client, and an emission that fails in the middle of its payload: what was written of
    it stays on the connection, which is given up. *)
Example demo_channels :
  let io := {| io_accept := Accepted 5 true; io_flush := true;
               io_write := fun b => if (length b =? 4)%nat then WriteOk else WriteFails 1 |} in
  let ops := [OpWait [{| wait_shutdown := false; wait_accept := Accepted 4 true; wait_elapsed := false |}];
              OpReaderSends (Response {| resp_seq_id := 1; results := [] |}); OpReaderEnds;
              OpTryRecv; OpEmit io (ThermalAlert Normal 0 false f_zero); OpIsConnected; OpTryRecv] in
  (run_ops tcp_op {| Tcp.addr := ":9"; Tcp.state := Tcp.TcpListening |} ops).2 =
  [OutBool true; OutBool true; OutUnit;
   OutMessage (Some (Response {| resp_seq_id := 1; results := [] |}));
   OutSent [Cut 4 [0; 0; 0; 1; 7]]; OutBool false; OutMessage None].
Proof. reflexivity. Qed.
