(* ===== verification/Manager.v ===== *)
(** * Manager: start-up and the main loop (src/main.rs)

    How the transport, the policy and the monitors are created, and the loop that drains
    the engine's messages, takes one signal from the monitors, and sends what the policy
    decides through the deduplicator.  The loop is generic in the policy: it only uses the
    [PolicyStrategy] interface. *)

From Stdlib Require Import ZArith Lia SpecFloat Ascii String.
From stdpp Require Import base tactics numbers list strings.
From S2P Require Import Prelude Float RustStr Signal Config PolicyState Wire Pipeline Monitor GpuProvider MemoryMonitor ThermalMonitor EnergyMonitor ComputeMonitor ExternalMonitor Channel TcpChannel LuaContext LuaPolicy.
Local Open Scope string_scope.
Local Open Scope list_scope.
Local Open Scope Z_scope.

(** ** Transport *)

Inductive TransportHandle :=
| TUnix (ch : Unix.UnixSocketChannel)
| TTcp (ch : Tcp.TcpChannel)
| TEmitterOnly (name : string).

Definition transport_name (t : TransportHandle) : string :=
  match t with
  | TUnix _ => "UnixSocketChannel"
  | TTcp _ => "TcpChannel"
  | TEmitterOnly name => name
  end.

Definition try_recv_engine_message (t : TransportHandle) : TransportHandle * option EngineMessage :=
  match t with
  | TUnix ch => let '(ch, m) := Unix.unix_try_recv ch in (TUnix ch, m)
  | TTcp ch => let '(ch, m) := Tcp.tcp_try_recv ch in (TTcp ch, m)
  | TEmitterOnly _ => (t, None)
  end.

Definition is_bidirectional (t : TransportHandle) : bool :=
  match t with TEmitterOnly _ => false | _ => true end.

(** [emitter().emit_directive(..)]; an emitter-only transport has the trait's default,
    which only logs. *)
Definition transport_emit_directive `{Json} (io : Io) (t : TransportHandle) (d : EngineDirective)
    : TransportHandle * Sent :=
  match t with
  | TUnix ch => let '(ch, sent) := Unix.unix_emit_directive io ch d in (TUnix ch, sent)
  | TTcp ch => let '(ch, sent) := Tcp.tcp_emit_directive io ch d in (TTcp ch, sent)
  | TEmitterOnly _ => (t, [])
  end.

(** ** Start-up *)

Record Args := {
  arg_config : string;
  arg_transport : string;
  arg_client_timeout : Z;
  arg_policy_config : option string;
  arg_policy_script : option string
}.
Definition default_transport : string := "unix:/tmp/argus_manager.sock".

Inductive StartError :=
| BindFailed
| ShutdownDuringWait
| NoTcpClient
| UnknownTransport
| DbusUnavailable
| NotBidirectional
| PolicyScriptRequired
| PolicyLoad (e : LoadError)
| ConfigUnreadable
| ConfigUnparsable.

(** What the sockets answer while the transport is created: binding, making the listener
    non-blocking, the waiting loop, the shutdown flag after it, and the system bus. *)
Record StartIo := {
  st_bind : bool;
  st_nonblocking : bool;
  st_wait : list WaitTick;
  st_shutdown : bool;
  st_dbus : bool
}.

Definition create_transport (args : Args) (io : StartIo) : result TransportHandle StartError :=
  match strip_prefix "unix:" (arg_transport args) with
  | Some path =>
      let? channel := ok_or (Unix.unix_new path (st_bind io) (st_nonblocking io)) BindFailed in
      let '(channel, connected) := Unix.unix_wait channel (st_wait io) in
      if negb connected && st_shutdown io then Err ShutdownDuringWait else Ok (TUnix channel)
  | None =>
      match strip_prefix "tcp:" (arg_transport args) with
      | Some address =>
          let? channel := ok_or (Tcp.tcp_new address (st_bind io) (st_nonblocking io)) BindFailed in
          let '(channel, connected) := Tcp.tcp_wait channel (st_wait io) in
          if negb connected then Err (if st_shutdown io then ShutdownDuringWait else NoTcpClient)
          else Ok (TTcp channel)
      | None =>
          if String.eqb (arg_transport args) "dbus"
          then if st_dbus io then Ok (TEmitterOnly "DbusEmitter") else Err DbusUnavailable
          else Err UnknownTransport
      end
  end.

Definition create_policy `{LuaVM} (env : Env) (args : Args) (config : Config)
    (gpu_provider : GpuProvider) : result LuaPolicy StartError :=
  match arg_policy_script args with
  | Some path =>
      match with_system_clock_and_gpu env path (cfg_adaptation config) gpu_provider with
      | Ok p => Ok p
      | Err e => Err (PolicyLoad e)
      end
  | None => Err PolicyScriptRequired
  end.

(** *** Monitors *)

Inductive AnyMonitor :=
| MMemory (m : MemoryMonitor)
| MThermal (m : ThermalMonitor)
| MCompute (m : ComputeMonitor)
| MEnergy (m : EnergyMonitor)
| MExternal (m : ExternalMonitor).

Definition any_initial_signal (m : AnyMonitor) : option SystemSignal :=
  match m with
  | MMemory m => initial_signal m
  | MThermal m => initial_signal m
  | MCompute m => initial_signal m
  | MEnergy m => initial_signal m
  | MExternal m => initial_signal m
  end.

(** [Option::is_none_or] and [Option::is_some_and] on the section's [enabled] flag. *)
Definition none_or {A} (enabled : A -> bool) (o : option A) : bool :=
  match o with Some c => enabled c | None => true end.
Definition some_and {A} (enabled : A -> bool) (o : option A) : bool :=
  match o with Some c => enabled c | None => false end.

Definition build_monitors (env : Env) (config : Config) (gpu_provider : GpuProvider)
    : list AnyMonitor :=
  let default_poll := mgr_poll_interval_ms (cfg_manager config) in
  (if none_or mem_enabled (cfg_memory config)
   then [MMemory (MemoryMonitor_new (default default_MemoryMonitorConfig (cfg_memory config)) default_poll)]
   else []) ++
  (if none_or th_enabled (cfg_thermal config)
   then [MThermal (ThermalMonitor_new (default default_ThermalMonitorConfig (cfg_thermal config)) default_poll)]
   else []) ++
  (if none_or cpu_enabled (cfg_compute config)
   then [MCompute (ComputeMonitor_new (default default_ComputeMonitorConfig (cfg_compute config))
                     default_poll gpu_provider)]
   else []) ++
  (if none_or en_enabled (cfg_energy config)
   then [MEnergy (EnergyMonitor_new env (default default_EnergyMonitorConfig (cfg_energy config)) default_poll)]
   else []) ++
  match cfg_external config with
  | Some c => if ext_enabled c then [MExternal (ExternalMonitor_new c)] else []
  | None => []
  end.

(** ** The main loop *)

(** What the reader thread of the connection does between two looks of the main loop. *)
Inductive ReaderEvent := ReaderPush (msg : EngineMessage) | ReaderExit.

Definition state_reader_event (st : ConnectionState) (e : ReaderEvent) : ConnectionState :=
  match st with
  | Connected c =>
      match e with
      | ReaderPush msg => match reader_push c msg with Some c => Connected c | None => st end
      | ReaderExit => Connected (reader_exit c)
      end
  | _ => st
  end.
Definition tcp_reader_event (st : Tcp.TcpConnectionState) (e : ReaderEvent) : Tcp.TcpConnectionState :=
  match e with
  | ReaderPush msg => default st (Tcp.tcp_reader_send st msg)
  | ReaderExit => Tcp.tcp_reader_end st
  end.
Definition reader_event (t : TransportHandle) (e : ReaderEvent) : TransportHandle :=
  match t with
  | TUnix ch => TUnix (Unix.with_state ch (state_reader_event (Unix.state ch) e))
  | TTcp ch => TTcp (Tcp.with_state ch (tcp_reader_event (Tcp.state ch) e))
  | TEmitterOnly _ => t
  end.

Inductive RxResult := RxSignal (s : SystemSignal) | RxTimeout | RxDisconnected.

(** What one iteration finds: a reload that is asked for comes with the file system as it
    is by then. *)
Record LoopTick := {
  lt_shutdown : bool;
  lt_sighup : option Env;
  lt_reader : list ReaderEvent;
  lt_rx : RxResult;
  lt_now : f64;
  lt_io : Io
}.

Definition conn_state (t : TransportHandle) : ConnectionState :=
  match t with
  | TUnix ch => Unix.state ch
  | TTcp ch => as_connection (Tcp.state ch)
  | TEmitterOnly _ => Listening
  end.
Definition queued (t : TransportHandle) : list EngineMessage :=
  match conn_state t with Connected c => conn_inbox c | _ => [] end.

Section Loop.
Context `{Json} {P : Type} `{PolicyStrategy P}.
Context (command_eqb : EngineCommand -> EngineCommand -> bool).

Record Main := {
  mn_policy : P;
  mn_transport : TransportHandle;
  mn_dedup : DirectiveDeduplicator;
  (** the directives handed to the transport by the loop, with the time, newest last *)
  mn_emitted : list (EngineDirective * f64);
  mn_sent : Sent
}.

(** The signals collected before the loop are decided and sent without deduplication. *)
Fixpoint emit_initial_directives (p : P) (t : TransportHandle)
    (signals : list (Io * SystemSignal)) : outcome (P * TransportHandle * Sent) :=
  match signals with
  | [] => Return (p, t, [])
  | (io, s) :: signals =>
      let! (p, d) := process_signal p s in
      let '(t, sent) := match d with Some d => transport_emit_directive io t d | None => (t, []) end in
      let! (p, t, sents) := emit_initial_directives p t signals in
      Return (p, t, sent ++ sents)
  end.

Definition loop_start (config : Config) (p : P) (t : TransportHandle) (sent : Sent) : Main :=
  {| mn_policy := p; mn_transport := t;
     mn_dedup := with_cooldown (dedup_cooldown_secs (cfg_adaptation config));
     mn_emitted := []; mn_sent := sent |}.

Definition on_sighup (env : Env) (p : P) : P :=
  match script_path p with
  | Some (Some path) => (reload_script env p path).1
  | Some None | None => p
  end.

(** [while let Some(msg) = transport.try_recv_engine_message()]: every turn takes one
    queued message, so the queue's length is fuel enough. *)
Fixpoint drain (fuel : nat) (p : P) (t : TransportHandle) : outcome (P * TransportHandle) :=
  let '(t, msg) := try_recv_engine_message t in
  match msg with
  | None => Return (p, t)
  | Some msg =>
      let! p := update_engine_state p msg in
      match fuel with O => Return (p, t) | S fuel => drain fuel p t end
  end.

Definition on_signal (m : Main) (s : SystemSignal) (now : f64) (io : Io) : outcome Main :=
  let! (p, d) := process_signal (mn_policy m) s in
  match d with
  | None =>
      Return {| mn_policy := p; mn_transport := mn_transport m; mn_dedup := mn_dedup m;
                mn_emitted := mn_emitted m; mn_sent := mn_sent m |}
  | Some d =>
      let '(dedup, out) := process command_eqb (mn_dedup m) d now in
      match out with
      | Some d =>
          let '(t, sent) := transport_emit_directive io (mn_transport m) d in
          Return {| mn_policy := p; mn_transport := t; mn_dedup := dedup;
                    mn_emitted := mn_emitted m ++ [(d, now)]; mn_sent := mn_sent m ++ sent |}
      | None =>
          Return {| mn_policy := cancel_last_observation p; mn_transport := mn_transport m;
                    mn_dedup := dedup; mn_emitted := mn_emitted m; mn_sent := mn_sent m |}
      end
  end.

(** One iteration: the new state and whether the loop goes on. *)
Definition iteration (m : Main) (tick : LoopTick) : outcome (Main * bool) :=
  if lt_shutdown tick then Return (m, false)
  else
    let p := match lt_sighup tick with Some env => on_sighup env (mn_policy m) | None => mn_policy m end in
    let t := fold_left reader_event (lt_reader tick) (mn_transport m) in
    let! (p, t) := drain (length (queued t)) p t in
    let m := {| mn_policy := p; mn_transport := t; mn_dedup := mn_dedup m;
                mn_emitted := mn_emitted m; mn_sent := mn_sent m |} in
    match lt_rx tick with
    | RxSignal s => let! m := on_signal m s (lt_now tick) (lt_io tick) in Return (m, true)
    | RxTimeout => Return (m, true)
    | RxDisconnected => Return (m, false)
    end.

(** The loop, and what follows it: the policy saves its model. *)
Fixpoint main_loop (m : Main) (ticks : list LoopTick) : outcome Main :=
  match ticks with
  | [] => Return m
  | tick :: ticks =>
      let! (m, continue) := iteration m tick in
      if continue then main_loop m ticks
      else Return {| mn_policy := save_model (mn_policy m); mn_transport := mn_transport m;
                     mn_dedup := mn_dedup m; mn_emitted := mn_emitted m; mn_sent := mn_sent m |}
  end.
End Loop.
Arguments Main : clear implicits.

(** The start-up sequence up to the loop: transport, the refusal of one-way transports,
    the GPU provider, the policy, and the initial signals of the monitors. *)
Definition start `{LuaVM} (env : Env) (args : Args) (config : Config) (io : StartIo)
    : result (TransportHandle * LuaPolicy * list AnyMonitor * list SystemSignal) StartError :=
  let? transport := create_transport args io in
  if negb (is_bidirectional transport) then Err NotBidirectional
  else
    let provider := build_provider env
      (resolve_backend (default default_ComputeMonitorConfig (cfg_compute config))) in
    let monitors := build_monitors env config provider in
    let initial_signals := omap any_initial_signal monitors in
    let? policy := create_policy env args config provider in
    Ok (transport, policy, monitors, initial_signals).

(** ** Lemmas *)

Section LoopLemmas.
Context `{Json} {P : Type} `{PolicyStrategy P}.
Context (command_eqb : EngineCommand -> EngineCommand -> bool).

Definition dedup_inv (cooldown : f64) (m : Main P) : Prop :=
  cooldown_secs (mn_dedup m) = cooldown /\
  last_emission (mn_dedup m) (last (mn_emitted m)) /\
  adjacent (spaced command_eqb cooldown) (mn_emitted m).

Lemma on_signal_inv cooldown m s now io m' :
  dedup_inv cooldown m -> on_signal command_eqb m s now io = Return m' -> dedup_inv cooldown m'.
Proof.
  intros (Hc & Hl & Ha). unfold on_signal.
  destruct (process_signal _ s) as [[p d]|]; [|done].
  destruct d as [d|]; [|intros; by simplify_eq].
  pose proof (process_cooldown command_eqb (mn_dedup m) d now) as Hcd.
  pose proof (process_cases command_eqb (mn_dedup m) _ d now Hl) as Hp.
  destruct (process command_eqb (mn_dedup m) d now) as [dd out]; cbn in *.
  destruct Hp as [[Hp _]|(Hout & Hl' & Hsp)].
  - simplify_eq. intros. by simplify_eq.
  - subst out. destruct (transport_emit_directive _ _ _). intros. simplify_eq.
    unfold dedup_inv; cbn. rewrite last_snoc. split_and!; [congruence|done|].
    apply adjacent_snoc; [done|]. intros [d0 t0] Hlast Hv. cbn in *. by eapply Hsp.
Qed.

Lemma iteration_inv cooldown m tick m' b :
  dedup_inv cooldown m -> iteration command_eqb m tick = Return (m', b) -> dedup_inv cooldown m'.
Proof.
  unfold iteration. intros Hi. destruct (lt_shutdown tick); [intros; by simplify_eq|].
  destruct (drain _ _ _) as [[p t]|]; [|done].
  destruct (lt_rx tick) as [s| |]; [|intros; by simplify_eq..].
  destruct (on_signal _ _ s _ _) as [m1|] eqn:Hs; [|done]. intros. simplify_eq.
  eapply on_signal_inv; [|exact Hs]. exact Hi.
Qed.

Lemma main_loop_inv cooldown ticks : forall m m',
  dedup_inv cooldown m -> main_loop command_eqb m ticks = Return m' -> dedup_inv cooldown m'.
Proof.
  induction ticks as [|tick ticks IH]; intros m m' Hi Hr; cbn in Hr; [by simplify_eq|].
  destruct (iteration command_eqb m tick) as [[m1 []]|] eqn:Hit; [| |done].
  - eapply IH; [|exact Hr]. by eapply iteration_inv.
  - simplify_eq. by eapply (iteration_inv cooldown) in Hit.
Qed.

(** What draining a queue does to the policy. *)
Fixpoint update_all (p : P) (msgs : list EngineMessage) : outcome P :=
  match msgs with
  | [] => Return p
  | msg :: msgs => let! p := update_engine_state p msg in update_all p msgs
  end.

Lemma try_recv_queued t :
  match queued t with
  | msg :: rest =>
      (try_recv_engine_message t).2 = Some msg /\ queued (try_recv_engine_message t).1 = rest
  | [] => (try_recv_engine_message t).2 = None /\ queued (try_recv_engine_message t).1 = []
  end.
Proof.
  destruct t as [ch|ch|n]; cbn; [| |done];
    unfold Unix.unix_try_recv, Tcp.tcp_try_recv, channel_try_recv, queued; cbn.
  - destruct ch as [path []]; cbn; try done. destruct c as [w [|msg inbox] []]; done.
  - destruct ch as [a []]; cbn; try done. destruct inbox as [|msg inbox], reader; done.
Qed.

Lemma drain_spec msgs : forall p t, queued t = msgs ->
  match update_all p msgs with
  | Return p' => exists t', drain (length msgs) p t = Return (p', t') /\ queued t' = []
  | Panic => drain (length msgs) p t = Panic
  end.
Proof.
  induction msgs as [|msg msgs IH]; intros p t Hq; pose proof (try_recv_queued t) as Ht;
    rewrite Hq in Ht; destruct Ht as [H2 H3]; cbn [update_all length drain];
    destruct (try_recv_engine_message t) as [t1 o]; cbn in H2, H3; subst o.
  - by exists t1.
  - destruct (update_engine_state p msg) as [p1|]; [|done]. by apply IH.
Qed.

Lemma as_connection_listening st : as_connection st = Listening -> st = Tcp.TcpListening.
Proof. by destruct st. Qed.

(** A transport that is listening stays so, silently. *)
Lemma reader_events_listening es : forall t,
  conn_state t = Listening -> conn_state (fold_left reader_event es t) = Listening.
Proof.
  induction es as [|e es IH]; intros t Ht; cbn; [done|]. apply IH.
  destruct t as [ch|ch|n]; cbn in *; [by rewrite Ht| |done].
  apply as_connection_listening in Ht. rewrite Ht. by destruct e.
Qed.

Lemma drain_listening t p : conn_state t = Listening ->
  exists t', drain (length (queued t)) p t = Return (p, t') /\ conn_state t' = Listening.
Proof.
  intros Ht. unfold queued. rewrite Ht. cbn. destruct t as [ch|ch|n]; cbn in *.
  - unfold Unix.unix_try_recv. rewrite Ht. cbn. by eexists.
  - apply as_connection_listening in Ht as Hl. unfold Tcp.tcp_try_recv. rewrite Hl. cbn. by eexists.
  - by eexists.
Qed.

Lemma emit_directive_listening io t d : conn_state t = Listening ->
  conn_state (transport_emit_directive io t d).1 = Listening /\
  (transport_emit_directive io t d).2 = [].
Proof.
  intros Ht. destruct t as [ch|ch|n]; cbn in *; [| |done].
  - unfold Unix.unix_emit_directive, channel_emit_directive. rewrite Ht. done.
  - apply as_connection_listening in Ht as Hl.
    unfold Tcp.tcp_emit_directive, Tcp.tcp_ensure_connected, Tcp.tcp_is_connected. by rewrite !Hl.
Qed.

Definition deaf (sent : Sent) (m : Main P) : Prop :=
  conn_state (mn_transport m) = Listening /\ mn_sent m = sent.

Lemma iteration_deaf sent m tick m' b :
  deaf sent m -> iteration command_eqb m tick = Return (m', b) -> deaf sent m'.
Proof.
  intros [Hc Hs]. unfold iteration. destruct (lt_shutdown tick); [intros; by simplify_eq|].
  pose proof (reader_events_listening (lt_reader tick) _ Hc) as Hr.
  destruct (drain_listening _ (match lt_sighup tick with Some env => on_sighup env (mn_policy m) | None => mn_policy m end) Hr)
    as (t' & -> & Ht').
  destruct (lt_rx tick) as [s| |]; [|intros; by simplify_eq..].
  unfold on_signal; cbn. destruct (process_signal _ s) as [[p [d|]]|]; [|intros; by simplify_eq|done].
  destruct (process command_eqb _ d _) as [dd [d'|]]; [|intros; by simplify_eq].
  destruct (emit_directive_listening (lt_io tick) t' d' Ht') as [Hc' Hs'].
  destruct (transport_emit_directive _ t' d') as [t'' sent']. cbn in *. intros. simplify_eq.
  unfold deaf; cbn. by rewrite app_nil_r.
Qed.

Lemma main_loop_deaf sent ticks : forall m m',
  deaf sent m -> main_loop command_eqb m ticks = Return m' -> deaf sent m'.
Proof.
  induction ticks as [|tick ticks IH]; intros m m' Hd Hr; cbn in Hr; [by simplify_eq|].
  destruct (iteration command_eqb m tick) as [[m1 []]|] eqn:Hit; [| |done].
  - eapply IH; [|exact Hr]. by eapply iteration_deaf.
  - simplify_eq. by eapply (iteration_deaf sent) in Hit.
Qed.
End LoopLemmas.

(** ** Properties *)

(** C4. The main loop never repeats itself within the cooldown.  With any policy and over
    any run of iterations - signals, engine messages, reloads and reader events in any
    interleaving - two successive directives the loop hands to the transport with equal
    commands are at least the configured cooldown apart. *)
Theorem loop_emissions_spaced `{Json} {P} `{PolicyStrategy P} eqb config (p : P) t sent ticks m
    l1 e1 e2 l2 :
  main_loop eqb (loop_start config p t sent) ticks = Return m ->
  mn_emitted m = l1 ++ e1 :: e2 :: l2 ->
  vec_eqb eqb (commands e1.1) (commands e2.1) = true ->
  SFleb (dedup_cooldown_secs (cfg_adaptation config)) (f64_sub e2.2 e1.2) = true.
Proof.
  intros Hm He. eapply main_loop_inv in Hm as (_ & _ & Ha).
  - exact (Ha _ _ _ _ He).
  - split_and!; [done|done|]. intros [|? ?] ? ? ? Hn; discriminate Hn.
Qed.

(** A policy that always wants the same thing, for the examples. *)
#[export] Instance stubborn_policy : PolicyStrategy Z := {|
  process_signal := fun n _ => Return (n + 1, Some (demo_directive n));
  update_engine_state := fun n _ => Return (n + 100);
  mode := fun _ => ModeNormal;
  save_model := default_save_model;
  inspect_state := default_inspect_state;
  cancel_last_observation := default_cancel_last_observation;
  script_path := default_script_path;
  reload_script := fun _ n _ => (n, Ok tt)
|}.
Definition demo_tick (now : Z) : LoopTick :=
  {| lt_shutdown := false; lt_sighup := None; lt_reader := [];
     lt_rx := RxSignal (ThermalAlert Normal 0 false f_zero); lt_now := f64_lit now 1;
     lt_io := demo_io |}.
Definition demo_transport : TransportHandle :=
  TUnix {| Unix.socket_path := "s"; Unix.state := Connected
    {| conn_writer := 3; conn_inbox := [Response {| resp_seq_id := 1; results := [] |}];
       conn_reader := true |} |}.

Lemma loop_emissions_spaced_witness :
  SFleb (f64_lit 60 1) (f64_sub (f64_lit 61 1) (f64_lit 1 1)) = true.
Proof.
  set (m0 := loop_start default_Config 7 demo_transport []).
  destruct (main_loop demo_eqb m0 [demo_tick 1; demo_tick 30; demo_tick 61]) as [m|] eqn:E;
    [|vm_compute in E; discriminate].
  apply (loop_emissions_spaced demo_eqb default_Config 7 demo_transport []
    [demo_tick 1; demo_tick 30; demo_tick 61] m []
    (demo_directive 107, f64_lit 1 1) (demo_directive 109, f64_lit 61 1) [] E).
  - vm_compute in E. injection E as <-. vm_compute. reflexivity.
  - vm_compute. reflexivity.
Defined.

(** Every queued engine message reaches the policy before the next decision.  Draining
    terminates: with the queue's length as fuel the policy has seen exactly the queued
    messages, in order, and the queue is empty; it panics only if the policy does. *)
Theorem drain_delivers_all `{Json} {P} `{PolicyStrategy P} (p : P) t :
  match update_all p (queued t) with
  | Return p' => exists t', drain (length (queued t)) p t = Return (p', t') /\ queued t' = []
  | Panic => drain (length (queued t)) p t = Panic
  end.
Proof. by apply drain_spec. Qed.

(** C36. What start-up guarantees.  A start that succeeds has a transport that can receive
    engine messages, and a TCP transport has accepted a client; the policy's machine is a new
    one in which the file named on the command line has been read and executed and has left
    a function [decide], no readings and no engine state are in it yet, and neither errors
    nor the fallback.  A D-Bus transport, a missing script or one that cannot be read never
    starts. *)
Theorem start_is_guarded `{LuaVM} env args config io :
  match start env args config io with
  | Ok (t, p, _, _) =>
      is_bidirectional t = true /\
      (strip_prefix "unix:" (arg_transport args) = None -> conn_state t <> Listening) /\
      (exists path source m, arg_policy_script args = Some path /\ lua_script_path p = path /\
         fs_read env path = Some source /\ vm_new (gpu_provider p) = Some m /\
         vm_exec m source = (lua p, true) /\ get_global (lua p) "decide" = Some VFunction) /\
      signal_state p = SignalState_default /\ engine_state p = None /\
      consecutive_errors p = 0 /\ permanent_fallback p = false
  | Err _ => True
  end /\
  (arg_transport args = "dbus" \/ (forall path, arg_policy_script args = Some path -> fs_read env path = None) ->
     exists e, start env args config io = Err e).
Proof.
  unfold start. destruct (create_transport args io) as [t|e] eqn:Ht; [|split; eauto].
  destruct (is_bidirectional t) eqn:Hb; cbn [negb]; [|split; eauto].
  unfold create_policy. destruct (arg_policy_script args) as [path|]; [|split; eauto].
  assert (Hdbus : arg_transport args <> "dbus").
  { intros Hd. unfold create_transport in Ht. rewrite Hd in Ht. cbn in Ht.
    destruct (st_dbus io); simplify_eq. }
  unfold with_system_clock_and_gpu, new_with_gpu.
  destruct (fresh_vm env _ path) as [m|e] eqn:Hvm; [|split; eauto].
  apply fresh_vm_loaded in Hvm as (source & m0 & Hread & Hnew & Hexec & Hdecide).
  split; [|intros [|Hn]; [done|by rewrite (Hn path eq_refl) in Hread]].
  split_and!; try done; [|by exists path, source, m0].
  intros Hu. unfold create_transport in Ht. rewrite Hu in Ht.
  destruct (strip_prefix "tcp:" (arg_transport args)) as [a|].
  - unfold Tcp.tcp_new in Ht. destruct (st_bind io), (st_nonblocking io); cbn in Ht; try done.
    pose proof (tcp_wait_same (st_wait io) {| Tcp.addr := a; Tcp.state := Tcp.TcpListening |}) as Hw.
    destruct (Tcp.tcp_wait _ (st_wait io)) as [ch ok]. destruct ok; cbn in Ht; simplify_eq.
    cbn in *. assert (Hc : forall ticks, (wait_for_client Listening ticks).2 = true ->
      (wait_for_client Listening ticks).1 <> Listening).
    { induction ticks as [|tk ticks IH]; cbn; [done|]. destruct (wait_shutdown tk); [done|].
      destruct (wait_accept tk) as [conn []| |]; [done..| |done].
      destruct (wait_elapsed tk); [done|auto]. }
    specialize (Hc (st_wait io)). rewrite Hw in Hc. by apply Hc.
  - destruct (String.eqb _ "dbus"); [destruct (st_dbus io)|]; by simplify_eq.
Qed.

Definition demo_args : Args := {|
  arg_config := "config.toml"; arg_transport := "dbus"; arg_client_timeout := 60;
  arg_policy_config := None; arg_policy_script := Some "halve.lua" |}.
Definition demo_start_io : StartIo := {|
  st_bind := true; st_nonblocking := true; st_wait := []; st_shutdown := false; st_dbus := true |}.

Definition demo_files : Env := env_of_files [("halve.lua", "halve")].
Definition demo_unix_args : Args := {|
  arg_config := "config.toml"; arg_transport := "unix:x"; arg_client_timeout := 60;
  arg_policy_config := None; arg_policy_script := Some "halve.lua" |}.

(** A start that loads the script, and one over D-Bus. *)
Lemma start_is_guarded_witness :
  (exists t p ms ss, start demo_files demo_unix_args default_Config demo_start_io = Ok (t, p, ms, ss) /\
     exists source, fs_read demo_files "halve.lua" = Some source /\
       vm_exec [] source = (lua p, true) /\ lua p <> []) /\
  exists e, start demo_files demo_args default_Config demo_start_io = Err e.
Proof.
  split.
  - pose proof (start_is_guarded demo_files demo_unix_args default_Config demo_start_io) as [Hok _].
    destruct (start demo_files demo_unix_args default_Config demo_start_io) as [[[[t p] ms] ss]|e] eqn:E;
      [|vm_compute in E; discriminate].
    exists t, p, ms, ss. split; [reflexivity|].
    destruct Hok as (_ & _ & (path & source & m & Hpath & _ & Hread & Hnew & Hexec & _) & _).
    injection Hpath as <-. injection Hnew as <-. exists source. split; [exact Hread|]. split; [exact Hexec|].
    change (Some "halve" = Some source) in Hread. injection Hread as <-.
    apply (f_equal fst) in Hexec. change (lua p) with ((lua p, true).1). rewrite <- Hexec. discriminate.
  - apply (start_is_guarded demo_files demo_args default_Config demo_start_io). left. reflexivity.
Defined.

(** C10. A manager whose Unix wait times out is deaf for good.  When [create_transport] has
    returned a Unix transport although its wait ended without a connection, then with any
    policy and over any run of the main loop, however many clients try to connect, not one
    byte is sent and the channel is still listening. *)
Theorem unix_timeout_is_final `{Json} {P} `{PolicyStrategy P} eqb args io config (p : P) t ticks m :
  create_transport args io = Ok t ->
  (forall ch, t = TUnix ch -> (wait_for_client Listening (st_wait io)).2 = false) ->
  (exists path, strip_prefix "unix:" (arg_transport args) = Some path) ->
  main_loop eqb (loop_start config p t []) ticks = Return m ->
  mn_sent m = [] /\ conn_state (mn_transport m) = Listening.
Proof.
  intros Ht Hw [path Hp] Hm. unfold create_transport in Ht. rewrite Hp in Ht.
  unfold Unix.unix_new in Ht. destruct (st_bind io && st_nonblocking io); cbn in Ht; [|done].
  unfold Unix.unix_wait in Ht. cbn in Ht.
  destruct (wait_for_client Listening (st_wait io)) as [st ok] eqn:Hwait.
  assert (Hst : ok = false -> st = Listening).
  { intros ->. clear -Hwait. revert Hwait. generalize (st_wait io).
    induction l as [|tk l IH]; cbn; intros; simplify_eq; [done|].
    destruct (wait_shutdown tk); [by simplify_eq|].
    destruct (wait_accept tk); [by simplify_eq| |by simplify_eq].
    destruct (wait_elapsed tk); [by simplify_eq|auto]. }
  destruct (negb ok && st_shutdown io); simplify_eq.
  specialize (Hw _ eq_refl). cbn in Hw. subst ok. rewrite Hst in Hm by done.
  eapply (main_loop_deaf eqb []) in Hm as [Hc Hs]; [done|]. by split.
Qed.

Lemma unix_timeout_is_final_witness :
  exists m, main_loop demo_eqb (loop_start default_Config 7
      (TUnix {| Unix.socket_path := "x"; Unix.state := Listening |}) []) [demo_tick 1; demo_tick 2]
      = Return m /\ mn_sent m = [].
Proof.
  set (io := {| st_bind := true; st_nonblocking := true; st_shutdown := false; st_dbus := true;
    st_wait := [{| wait_shutdown := false; wait_accept := WouldBlock; wait_elapsed := true |}] |}).
  set (args := {| arg_config := ""; arg_transport := "unix:x"; arg_client_timeout := 60;
                  arg_policy_config := None; arg_policy_script := None |}).
  set (t := TUnix {| Unix.socket_path := "x"; Unix.state := Listening |}).
  destruct (main_loop demo_eqb (loop_start default_Config 7 t []) [demo_tick 1; demo_tick 2])
    as [m|] eqn:E; [|vm_compute in E; discriminate].
  exists m. split; [reflexivity|].
  apply (unix_timeout_is_final demo_eqb args io default_Config 7 t [demo_tick 1; demo_tick 2] m
    eq_refl (fun _ _ => eq_refl) (ex_intro _ "x" eq_refl) E).
Defined.
