(* ===== verification/ManagerMain.v ===== *)
(** * ManagerMain: the manager from its command line to its last frame (src/main.rs [main])

    The configuration file, start-up, the initial directives and the loop composed, with
    the Lua policy; and what the composition guarantees of every frame the engine gets.
    TOML is the [toml] crate's and a parameter, as are the Lua machine and JSON. *)

From Stdlib Require Import ZArith Lia SpecFloat Ascii String Sorting.Sorted.
From stdpp Require Import base tactics numbers list strings.
From S2P Require Import Prelude Float RustStr Signal Config PolicyState Wire Pipeline Monitor GpuProvider MemoryMonitor ThermalMonitor EnergyMonitor ComputeMonitor ExternalMonitor Channel TcpChannel LuaContext LuaPolicy Manager.
Local Open Scope string_scope.
Local Open Scope list_scope.
Local Open Scope Z_scope.

(** ** The configuration file *)

Section Main.
Context (toml_config : string -> option Config).

(** [Config::from_file] *)
Definition from_file (env : Env) (path : string) : result Config StartError :=
  let? content := ok_or (fs_read env path) ConfigUnreadable in
  ok_or (toml_config content) ConfigUnparsable.

Definition load_config (env : Env) (args : Args) : result Config StartError :=
  if fs_exists env (arg_config args) then from_file env (arg_config args) else Ok default_Config.

(** ** The whole program *)

(** What the world does: at start-up, while the initial directives are sent, and in each
    iteration of the loop. *)
Record MainIo := { mi_start : StartIo; mi_initial : nat -> Io; mi_ticks : list LoopTick }.

Context `{LuaVM} `{YieldBound} `{Json} (oc : bool).
Context (command_eqb : EngineCommand -> EngineCommand -> bool).
#[local] Instance policy : PolicyStrategy LuaWorld := LuaPolicy_strategy oc.

(** The process-wide sequence counter starts at 1. *)
Definition fresh_world (p : LuaPolicy) : LuaWorld := {| lw_policy := p; lw_seq := 1 |}.

Definition manager_main (env : Env) (args : Args) (io : MainIo)
    : outcome (result (Main LuaWorld) StartError) :=
  match (let? config := load_config env args in
         let? s := start env args config (mi_start io) in Ok (config, s)) with
  | Err e => Return (Err e)
  | Ok (config, (transport, p, monitors, initial_signals)) =>
      let! (p, transport, sent) := emit_initial_directives (fresh_world p) transport
        (imap (fun i s => (mi_initial io i, s)) initial_signals) in
      let! m := main_loop command_eqb (loop_start config p transport sent) (mi_ticks io) in
      Return (Ok m)
  end.

(** ** What reaches the engine *)

(** What a connection gets of a directive: its frame, or the beginning of it that a failing
    write has left. *)
Definition carries (d : EngineDirective) (out : Written) : Prop :=
  exists json, json_of_message (Directive d) = Some json /\
    match out with
    | Whole _ b => b = frame json
    | Cut _ b => b <> [] /\ b `prefix_of` frame json
    end.
Definition sendable (d : EngineDirective) : Prop :=
  commands d <> [] /\ Forall (fun c => wire_valid GPU_YIELD_EVERY_MAX c = true) (commands d).

(** The commands of every decision have the property [Q]. *)
Context (Q : EngineCommand -> Prop)
  (HQ : forall p s p' cmds, call_decide oc p s = Return (p', cmds) -> Forall Q cmds).
Definition carried_ok (d : EngineDirective) : Prop := commands d <> [] /\ Forall Q (commands d).

(** What has been sent so far are frames of directives of such commands, or beginnings of them,
    numbered upwards below the counter, which has moved at most [n] times. *)
Definition sent_ok (n : Z) (p : LuaWorld) (sent : Sent) : Prop :=
  1 <= lw_seq p <= 1 + n /\
  exists ds, Forall2 carries ds sent /\ Forall carried_ok ds /\
    StronglySorted Z.lt (map seq_id ds) /\ Forall (fun d => 1 <= seq_id d < lw_seq p) ds.

Lemma transport_emit_carries io t d :
  (transport_emit_directive io t d).2 = [] \/
  exists out, (transport_emit_directive io t d).2 = [out] /\ carries d out.
Proof.
  assert (Hu : forall st, (channel_emit_directive io st d).2 = [] \/
    exists out, (channel_emit_directive io st d).2 = [out] /\ carries d out).
  { intros st. unfold channel_emit_directive. destruct (ensure_connected io st) as [|c|]; [by left| |by left].
    cbn [write_manager_message].
    destruct (json_of_message (Directive d)) as [json|] eqn:Hj; [|by left].
    destruct (write_frame_written io (conn_writer c) json) as [Hw Hl].
    destruct (write_frame io (conn_writer c) (Some json)) as [[|out [|? ?]] ok]; cbn in Hw, Hl |- *;
      [by left| |lia].
    apply Forall_cons in Hw as [Hw _]. right. exists out. split; [done|]. by exists json. }
  destruct t as [ch|ch|name]; cbn [transport_emit_directive]; [| |by left].
  - unfold Unix.unix_emit_directive. specialize (Hu (Unix.state ch)).
    by destruct (channel_emit_directive io (Unix.state ch) d).
  - pose proof (tcp_emit_directive_same io ch d) as Ht. specialize (Hu (as_connection (Tcp.state ch))).
    destruct (Tcp.tcp_emit_directive io ch d) as [ch' out]. by rewrite Ht in Hu.
Qed.

Lemma StronglySorted_lt_snoc l x :
  StronglySorted Z.lt l -> Forall (fun y => y < x) l -> StronglySorted Z.lt (l ++ [x]).
Proof.
  induction 1 as [|y l Hs IH Hy]; intros Hx; cbn; [by repeat constructor|].
  apply Forall_cons in Hx as [Hyx Hx]. constructor; [auto|]. apply Forall_app; split; [done|by repeat constructor].
Qed.

(** One decision, and the sending of it. *)
Lemma decided_ok n p sent s p' d : n + 1 < u64_max ->
  sent_ok n p sent -> lua_process_signal oc p s = Return (p', d) ->
  sent_ok (n + 1) p' sent /\
  (forall x, d = Some x -> forall io t,
     sent_ok (n + 1) p' (sent ++ (transport_emit_directive io t x).2)).
Proof.
  intros Hn (Hseq & ds & Hc & Hv & Hso & Hlt) Hp.
  apply lua_process_policy in Hp as (cmds & Hd & Ho). apply HQ in Hd.
  destruct cmds as [|c cmds].
  { destruct Ho as [-> Hs]. split; [|done]. split; [lia|]. exists ds. by rewrite Hs. }
  destruct Ho as [-> Hs]. rewrite wrap_id in Hs by (unfold u64_max in *; lia).
  assert (Hlt' : Forall (fun d => 1 <= seq_id d < lw_seq p') ds)
    by (eapply Forall_impl; [exact Hlt|]; cbn; intros; lia).
  split; [split; [lia|by exists ds]|]. intros x [= <-] io t.
  set (d := {| seq_id := lw_seq p; commands := c :: cmds |}).
  split; [lia|]. destruct (transport_emit_carries io t d) as [->|(out & -> & Ho)].
  { rewrite app_nil_r. by exists ds. }
  exists (ds ++ [d]). split_and!.
  - apply Forall2_app; [done|]. constructor; [exact Ho|constructor].
  - apply Forall_app. split; [done|]. constructor; [|constructor]. by split.
  - rewrite map_app. apply StronglySorted_lt_snoc; [done|]. apply Forall_map.
    eapply Forall_impl; [exact Hlt|]. cbn. lia.
  - apply Forall_app. split; [done|]. constructor; [cbn; lia|constructor].
Qed.

Lemma initial_ok signals : forall n p t sent p' t' sent',
  n + Z.of_nat (length signals) + 1 < u64_max -> sent_ok n p sent ->
  emit_initial_directives p t signals = Return (p', t', sent') ->
  sent_ok (n + Z.of_nat (length signals)) p' (sent ++ sent').
Proof.
  induction signals as [|[io s] signals IH]; intros n p t sent p' t' sent' Hn Hok He.
  { cbn in He. simplify_eq. by rewrite app_nil_r, Z.add_0_r. }
  cbn [emit_initial_directives length] in *.
  destruct (process_signal p s) as [[p1 d]|] eqn:Hp; [|done]. cbn in He.
  destruct (decided_ok n p sent s p1 d) as [Hnone Hsome]; [lia|done..|].
  assert (Hstep : exists t1 sent1, (match d with Some d => transport_emit_directive io t d | None => (t, []) end)
    = (t1, sent1) /\ sent_ok (n + 1) p1 (sent ++ sent1)).
  { destruct d as [d|]; [|eexists _, _; by rewrite app_nil_r].
    specialize (Hsome d eq_refl io t). destruct (transport_emit_directive io t d) as [t1 s1].
    by eexists _, _. }
  destruct Hstep as (t1 & sent1 & Heq & Hok1). rewrite Heq in He.
  destruct (emit_initial_directives p1 t1 signals) as [[[p2 t2] s2]|] eqn:Hr; [|done]. simplify_eq.
  rewrite app_assoc. replace (n + Z.of_nat (S (length signals))) with (n + 1 + Z.of_nat (length signals)) by lia.
  eapply IH; [lia|exact Hok1|exact Hr].
Qed.

Lemma sent_ok_seq n p p' sent : lw_seq p' = lw_seq p -> sent_ok n p sent -> sent_ok n p' sent.
Proof. intros Hs. unfold sent_ok. by rewrite Hs. Qed.

Lemma on_sighup_seq env (p : LuaWorld) : lw_seq (on_sighup env p) = lw_seq p.
Proof. unfold on_sighup. cbn. unfold lua_reload_script. by destruct (fresh_vm _ _ _). Qed.

Lemma drain_seq fuel : forall (p : LuaWorld) t p' t', drain fuel p t = Return (p', t') -> lw_seq p' = lw_seq p.
Proof.
  induction fuel as [|fuel IH]; intros p t p' t'; cbn [drain];
    destruct (try_recv_engine_message t) as [t1 [msg|]]; intros Hd; try by simplify_eq.
  all: destruct (update_engine_state p msg) as [p1|] eqn:Hu; [|done].
  all: assert (lw_seq p1 = lw_seq p) as <- by
    (cbn in Hu; unfold lua_update_engine_state in Hu; destruct msg; [|by simplify_eq];
     destruct (update_tbt_ms _ _ _); [|done]; by simplify_eq).
  - cbn in Hd. by simplify_eq.
  - cbn [mbind] in Hd. by apply IH in Hd.
Qed.

Lemma on_signal_ok n m s now io m' : n + 1 < u64_max ->
  sent_ok n (mn_policy m) (mn_sent m) -> on_signal command_eqb m s now io = Return m' ->
  sent_ok (n + 1) (mn_policy m') (mn_sent m').
Proof.
  intros Hn Hok. unfold on_signal. destruct (process_signal (mn_policy m) s) as [[p d]|] eqn:Hp; [|done].
  destruct (decided_ok n (mn_policy m) (mn_sent m) s p d) as [Hnone Hsome]; [done..|]. cbn.
  destruct d as [d|]; [|by intros [= <-]].
  destruct (process command_eqb (mn_dedup m) d now) as [dd [d'|]] eqn:Ho; [|by intros [= <-]].
  assert (d' = d) as -> by (unfold process in Ho; case_match; by simplify_eq).
  specialize (Hsome d eq_refl io (mn_transport m)).
  destruct (transport_emit_directive io (mn_transport m) d). by intros [= <-].
Qed.

Lemma iteration_ok n m tick m' b : n + 1 < u64_max ->
  sent_ok n (mn_policy m) (mn_sent m) -> iteration command_eqb m tick = Return (m', b) ->
  sent_ok (n + 1) (mn_policy m') (mn_sent m').
Proof.
  intros Hn Hok. assert (Hw : forall p sent, sent_ok n p sent -> sent_ok (n + 1) p sent)
    by (intros p sent (Hs & Hr); split; [lia|done]).
  unfold iteration. destruct (lt_shutdown tick); [intros [= <- _]; auto|].
  set (p := match lt_sighup tick with Some _ => _ | None => _ end). set (t := fold_left _ _ _).
  destruct (drain _ p t) as [[p1 t1]|] eqn:Hd; [|done]. apply drain_seq in Hd.
  assert (Hp : lw_seq p = lw_seq (mn_policy m)) by (unfold p; destruct (lt_sighup tick); [apply on_sighup_seq|done]).
  assert (Hok1 : sent_ok n p1 (mn_sent m)) by (eapply sent_ok_seq; [|exact Hok]; congruence).
  cbn. destruct (lt_rx tick) as [s| |]; [|intros [= <- _]; cbn; auto..].
  destruct (on_signal command_eqb _ s _ _) as [m1|] eqn:Hs; [|done]. intros [= <- _].
  by eapply on_signal_ok; [..|exact Hs].
Qed.

Lemma main_loop_ok ticks : forall n m m', n + Z.of_nat (length ticks) + 1 < u64_max ->
  sent_ok n (mn_policy m) (mn_sent m) -> main_loop command_eqb m ticks = Return m' ->
  exists n', n' <= n + Z.of_nat (length ticks) /\ sent_ok n' (mn_policy m') (mn_sent m').
Proof.
  induction ticks as [|tick ticks IH]; intros n m m' Hn Hok Hr; cbn [main_loop length] in *.
  { simplify_eq. exists n. split; [lia|done]. }
  destruct (iteration command_eqb m tick) as [[m1 b]|] eqn:Hit; [|done]. cbn in Hr.
  apply iteration_ok with (n := n) in Hit; [|lia|done]. destruct b.
  - destruct (IH (n + 1) m1 m') as (n' & Hle & Hok'); [lia|done..|]. exists n'. split; [lia|done].
  - simplify_eq. exists (n + 1). split; [lia|done].
Qed.
End Main.

Lemma initial_signals_few `{LuaVM} env args config io t p monitors signals :
  start env args config io = Ok (t, p, monitors, signals) -> (length signals <= 5)%nat.
Proof.
  unfold start. destruct (create_transport args io) as [t0|]; [|done]. destruct (negb _); [done|].
  set (ms := build_monitors _ _ _).
  destruct (create_policy _ _ _ _) as [p0|]; [|done]. intros [= <- <- <- <-].
  assert (Hms : (length ms <= 5)%nat).
  { unfold ms, build_monitors. destruct (cfg_external config) as [c|]; [destruct (ext_enabled c)|];
      repeat case_match; cbn; lia. }
  clearbody ms. etrans; [|exact Hms]. clear. induction ms as [|m ms IH]; cbn; [lia|].
  destruct (any_initial_signal m); cbn; lia.
Qed.

(** What the whole program has sent. *)
Lemma manager_main_sends `{LuaVM} `{YieldBound} `{Json} toml oc Q eqb env args io m :
  (forall p s p' cmds, call_decide oc p s = Return (p', cmds) -> Forall Q cmds) ->
  manager_main toml oc eqb env args io = Return (Ok m) ->
  Z.of_nat (length (mi_ticks io)) + 6 < u64_max ->
  exists n, n + 1 < u64_max /\ sent_ok Q n (mn_policy m) (mn_sent m).
Proof.
  intros HQ. unfold manager_main. destruct (load_config toml env args) as [config|]; [|done].
  destruct (start env args config (mi_start io)) as [[[[t p] monitors] signals]|] eqn:Hst; [|done].
  apply initial_signals_few in Hst. intros Hm Hn.
  destruct (emit_initial_directives _ t _) as [[[p1 t1] sent]|] eqn:Hi; [|done]. cbn in Hm.
  eapply (initial_ok oc Q HQ) with (n := 0) (sent := []) in Hi.
  - destruct (main_loop _ _ _) as [m'|] eqn:Hl; [|done]. cbn in Hm. simplify_eq.
    eapply (main_loop_ok oc eqb Q HQ) in Hl as (n' & Hle & Hok); [| |exact Hi]; rewrite length_imap in *; [|lia].
    exists n'. split; [lia|done].
  - rewrite length_imap. lia.
  - split; [cbn; lia|]. exists []. by repeat constructor.
Qed.

(** ** Property *)

(** C11. Every frame that leaves the manager is a directive the engine can receive.  For any
    configuration file, arguments, files, sockets, Lua script and machine, when the program
    has started and the loop has ended, what it has sent are, one by one, the frames of
    directives that carry at least one command and only commands valid on the wire, in the
    order of their sequence numbers, none of which is used twice: the initial directives,
    those decided by the script or by the fallback, and those around a reload, of whatever
    file is there by then, alike.  Where a write failed in the middle, what it left is a
    beginning of such a frame, its directive counted among them. *)
Theorem manager_sends_only_valid `{LuaVM} `{YieldBound} `{Json} toml oc eqb env args io m :
  manager_main toml oc eqb env args io = Return (Ok m) ->
  Z.of_nat (length (mi_ticks io)) + 6 < u64_max ->
  exists ds, Forall2 carries ds (mn_sent m) /\ Forall sendable ds /\
    StronglySorted Z.lt (map seq_id ds).
Proof.
  intros Hm Hn.
  destruct (manager_main_sends toml oc (fun c => wire_valid GPU_YIELD_EVERY_MAX c = true) eqb env args io m)
    as (n & _ & _ & ds & ? & ? & ? & _); [apply call_decide_valid|done..|by exists ds].
Qed.

Definition demo_main_args : Args := {|
  arg_config := "config.toml"; arg_transport := "unix:x"; arg_client_timeout := 60;
  arg_policy_config := None; arg_policy_script := Some "halve.lua" |}.
Definition demo_main_tick (now : Z) (s : SystemSignal) : LoopTick :=
  {| lt_shutdown := false; lt_sighup := None; lt_reader := []; lt_rx := RxSignal s;
     lt_now := f64_lit now 1; lt_io := demo_io |}.
Definition demo_main_io : MainIo := {|
  mi_start := {| st_bind := true; st_nonblocking := true; st_shutdown := false; st_dbus := false;
    st_wait := [{| wait_shutdown := false; wait_accept := WouldBlock; wait_elapsed := false |};
                {| wait_shutdown := false; wait_accept := Accepted 3 true; wait_elapsed := false |}] |};
  mi_initial := fun _ => demo_io;
  mi_ticks := [demo_main_tick 1 demo_signal; demo_main_tick 2 demo_signal] |}.
(** The same, but the loop's first write fails after two bytes. *)
Definition demo_failing_io : MainIo := {|
  mi_start := mi_start demo_main_io; mi_initial := mi_initial demo_main_io;
  mi_ticks := [{| lt_shutdown := false; lt_sighup := None; lt_reader := []; lt_rx := RxSignal demo_signal;
    lt_now := f64_lit 1 1;
    lt_io := {| io_accept := WouldBlock; io_write := fun _ => WriteFails 2; io_flush := true |} |}] |}.
Definition demo_main_env : Env := env_of_files [("halve.lua", "fail")].

Lemma manager_sends_only_valid_witness :
  exists m ds, manager_main (fun _ => None) true demo_eqb demo_main_env demo_main_args demo_failing_io
      = Return (Ok m) /\ mn_sent m = [Whole 3 (frame [1]); Cut 3 (take 2 (frame [2]))] /\ Forall2 carries ds (mn_sent m) /\
    Forall sendable ds.
Proof.
  destruct (manager_main (fun _ => None) true demo_eqb demo_main_env demo_main_args demo_failing_io)
    as [[m|e]|] eqn:E; [|vm_compute in E; discriminate..].
  destruct (manager_sends_only_valid (fun _ => None) true demo_eqb demo_main_env demo_main_args demo_failing_io m E
    ltac:(reflexivity)) as (ds & Hc & Hv & _).
  exists m, ds. split; [reflexivity|]. split; [|split; assumption].
  vm_compute in E. injection E as <-. vm_compute. reflexivity.
Defined.
