(* ===== verification/System.v ===== *)
(** * System: the threads of the manager together (src/main.rs)

    One thread per monitor, an unbounded queue of signals, the reader thread of the engine
    connection, the operating system's signals, and the main loop, interleaved step by step:
    [sys_step] is the step relation, an execution is [star sys_step].  A look at a relaxed
    atomic may see an older value, so a thread that looks at the flag sees [seen], which is
    only true when the flag is.

    The main loop's decisions are those of Manager.v; here its iteration is cut into the
    operations between which other threads can run. *)

From Stdlib Require Import ZArith Lia SpecFloat Ascii String.
From stdpp Require Import base tactics numbers list strings.
From S2P Require Import Prelude Float RustStr Signal Config PolicyState Wire Pipeline Monitor GpuProvider MemoryMonitor ThermalMonitor EnergyMonitor ComputeMonitor ExternalMonitor Channel TcpChannel LuaContext LuaPolicy Manager.
Local Open Scope string_scope.
Local Open Scope list_scope.

(** ** Monitor threads *)

(** A monitor thread: polling; or the external monitor, before its listener is bound, at
    [accept], or reading lines, from a client or (with [false]) from standard input. *)
Inductive Worker :=
| Polls (m : AnyMonitor)
| Binds
| Accepts
| Reads (client : bool)
| Exited.

(** The closure each thread runs: [monitor.run(tx, shutdown)]. *)
Definition spawn (m : AnyMonitor) : Worker :=
  match m with
  | MExternal e => match ext_mon_transport e with ExtStdin => Reads false | _ => Binds end
  | m => Polls m
  end.
Definition spawn_monitors (monitors : list AnyMonitor) : list Worker := map spawn monitors.

(** What a thread waits for, or finds. *)
Inductive LineResult := LineText (text : string) | LineError | LineEnd.
Inductive ListenResult := ClientIn (blocking_ok : bool) | NoClient | ListenFailed.
Inductive WorkerInput :=
| InEnv (env : Env)
| InBind (ok : bool)
| InAccept (r : ListenResult)
| InLine (l : LineResult).

Section System.
Context (oc : bool) (signal_of_json : string -> option SystemSignal).

Definition any_poll (env : Env) (m : AnyMonitor) : outcome (AnyMonitor * option SystemSignal) :=
  match m with
  | MMemory m => let! (m, s) := poll (PollingMonitor := MemoryMonitor_polling oc) env m in Return (MMemory m, s)
  | MThermal m => let! (m, s) := poll env m in Return (MThermal m, s)
  | MCompute m => let! (m, s) := poll (PollingMonitor := ComputeMonitor_polling oc) env m in Return (MCompute m, s)
  | MEnergy m => let! (m, s) := poll env m in Return (MEnergy m, s)
  | MExternal m => Return (MExternal m, None)
  end.

(** One turn of a thread that is waiting for this input: the thread after it and the
    signal it sends.  A panic ends the thread, as an error does. *)
Definition worker_turn (seen : bool) (w : Worker) (i : WorkerInput) : option (Worker * option SystemSignal) :=
  match w, i with
  | Polls m, InEnv env =>
      if seen then Some (Exited, None)
      else match any_poll env m with
      | Return (m, s) => Some (Polls m, s)
      | Panic => Some (Exited, None)
      end
  | Binds, InBind ok => Some (if ok then Accepts else Exited, None)
  | Accepts, InAccept r =>
      if seen then Some (Exited, None)
      else Some (match r with
                 | ClientIn true => Reads true
                 | ClientIn false => Exited
                 | NoClient => Accepts
                 | ListenFailed => Exited
                 end, None)
  | Reads client, InLine l =>
      let ended := if client then Accepts else Exited in
      match l with
      | LineEnd => Some (ended, None)
      | LineText text =>
          if seen then Some (ended, None)
          else if String.eqb (trim text) "" then Some (Reads client, None)
          else Some (Reads client, signal_of_json (trim text))
      | LineError => Some (ended, None)
      end
  | _, _ => None
  end.

(** ** The whole program *)

(** Where the main thread is: the looks at the two static flags, taking the engine's
    messages, waiting for a signal, after the loop, joining the threads. *)
Inductive Pc := PcTop | PcSighup | PcDrain | PcRecv | PcSave | PcJoin | PcDone | PcPanicked.

Context `{Json} {P : Type} `{PolicyStrategy P}.
Context (command_eqb : EngineCommand -> EngineCommand -> bool).

(** What the main loop does with the policy; a reload comes with the file system it finds. *)
Inductive LoopOp :=
| OpReload (env : Env)
| OpEngine (msg : EngineMessage)
| OpSignal (from : nat) (s : SystemSignal) (now : f64) (io : Io).

Record System := {
  sys_workers : list Worker;
  sys_queue : list (nat * SystemSignal);
  sys_flag : bool;
  sys_SHUTDOWN : bool;
  sys_SIGHUP : bool;
  sys_pc : Pc;
  sys_main : Main P;
  (** history: the signals sent, with the number of the thread, what the loop did with the
      policy, and the turns of the threads, with what each saw of the flag and met *)
  sys_sent : list (nat * SystemSignal);
  sys_ops : list LoopOp;
  sys_turns : list (nat * (bool * WorkerInput))
}.

Definition with_main (s : System) (pc : Pc) (m : Main P) (ops : list LoopOp) : System :=
  {| sys_workers := sys_workers s; sys_queue := sys_queue s; sys_flag := sys_flag s;
     sys_SHUTDOWN := sys_SHUTDOWN s; sys_SIGHUP := sys_SIGHUP s; sys_pc := pc; sys_main := m;
     sys_sent := sys_sent s; sys_ops := sys_ops s ++ ops; sys_turns := sys_turns s |}.
Definition with_pc (s : System) (pc : Pc) : System := with_main s pc (sys_main s) [].
Definition with_policy (m : Main P) (p : P) : Main P :=
  {| mn_policy := p; mn_transport := mn_transport m; mn_dedup := mn_dedup m;
     mn_emitted := mn_emitted m; mn_sent := mn_sent m |}.
Definition with_transport (m : Main P) (t : TransportHandle) : Main P :=
  {| mn_policy := mn_policy m; mn_transport := t; mn_dedup := mn_dedup m;
     mn_emitted := mn_emitted m; mn_sent := mn_sent m |}.

(** A thread's turn. *)
Definition after_turn (s : System) (i : nat) (seen : bool) (input : WorkerInput) (w : Worker)
    (o : option SystemSignal) : System :=
  let sent := match o with Some x => [(i, x)] | None => [] end in
  {| sys_workers := <[i := w]> (sys_workers s); sys_queue := sys_queue s ++ sent;
     sys_flag := sys_flag s; sys_SHUTDOWN := sys_SHUTDOWN s; sys_SIGHUP := sys_SIGHUP s;
     sys_pc := sys_pc s; sys_main := sys_main s; sys_sent := sys_sent s ++ sent;
     sys_ops := sys_ops s; sys_turns := sys_turns s ++ [(i, (seen, input))] |}.
(** The handlers of SIGINT and SIGTERM, and of SIGHUP. *)
Definition handle_signal (s : System) : System :=
  {| sys_workers := sys_workers s; sys_queue := sys_queue s; sys_flag := sys_flag s;
     sys_SHUTDOWN := true; sys_SIGHUP := sys_SIGHUP s; sys_pc := sys_pc s; sys_main := sys_main s;
     sys_sent := sys_sent s; sys_ops := sys_ops s; sys_turns := sys_turns s |}.
Definition handle_sighup (s : System) : System :=
  {| sys_workers := sys_workers s; sys_queue := sys_queue s; sys_flag := sys_flag s;
     sys_SHUTDOWN := sys_SHUTDOWN s; sys_SIGHUP := true; sys_pc := sys_pc s; sys_main := sys_main s;
     sys_sent := sys_sent s; sys_ops := sys_ops s; sys_turns := sys_turns s |}.
(** [shutdown.store(true)] *)
Definition raise_flag (s : System) : System :=
  {| sys_workers := sys_workers s; sys_queue := sys_queue s; sys_flag := true;
     sys_SHUTDOWN := sys_SHUTDOWN s; sys_SIGHUP := sys_SIGHUP s; sys_pc := sys_pc s; sys_main := sys_main s;
     sys_sent := sys_sent s; sys_ops := sys_ops s; sys_turns := sys_turns s |}.
(** [SIGHUP_RELOAD.swap(false)] and the reload, of the files as they are at that moment. *)
Definition take_sighup (env : Env) (s : System) : System :=
  {| sys_workers := sys_workers s; sys_queue := sys_queue s; sys_flag := sys_flag s;
     sys_SHUTDOWN := sys_SHUTDOWN s; sys_SIGHUP := false; sys_pc := PcDrain;
     sys_main := if sys_SIGHUP s then with_policy (sys_main s) (on_sighup env (mn_policy (sys_main s)))
                 else sys_main s;
     sys_sent := sys_sent s; sys_ops := sys_ops s ++ (if sys_SIGHUP s then [OpReload env] else []);
     sys_turns := sys_turns s |}.
(** A signal taken from the queue. *)
Definition after_recv (s : System) (q : list (nat * SystemSignal)) (pc : Pc) (m : Main P) (op : LoopOp) : System :=
  {| sys_workers := sys_workers s; sys_queue := q; sys_flag := sys_flag s;
     sys_SHUTDOWN := sys_SHUTDOWN s; sys_SIGHUP := sys_SIGHUP s; sys_pc := pc; sys_main := m;
     sys_sent := sys_sent s; sys_ops := sys_ops s ++ [op]; sys_turns := sys_turns s |}.

Definition all_exited (s : System) : Prop := Forall (fun w => w = Exited) (sys_workers s).

Inductive sys_step : System -> System -> Prop :=
| step_worker s i w input seen w' o :
    sys_workers s !! i = Some w -> (seen = true -> sys_flag s = true) ->
    worker_turn seen w input = Some (w', o) -> sys_step s (after_turn s i seen input w' o)
| step_sigterm s : sys_step s (handle_signal s)
| step_sighup s : sys_step s (handle_sighup s)
| step_reader s e :
    sys_step s (with_main s (sys_pc s) (with_transport (sys_main s) (reader_event (mn_transport (sys_main s)) e)) [])
| step_top s seen : sys_pc s = PcTop -> (seen = true -> sys_SHUTDOWN s = true) ->
    sys_step s (if seen then with_pc (raise_flag s) PcSave else with_pc s PcSighup)
| step_reload s env : sys_pc s = PcSighup -> sys_step s (take_sighup env s)
| step_message s t msg p : sys_pc s = PcDrain ->
    try_recv_engine_message (mn_transport (sys_main s)) = (t, Some msg) ->
    update_engine_state (mn_policy (sys_main s)) msg = Return p ->
    sys_step s (with_main s PcDrain (with_policy (with_transport (sys_main s) t) p) [OpEngine msg])
| step_drained s t : sys_pc s = PcDrain ->
    try_recv_engine_message (mn_transport (sys_main s)) = (t, None) ->
    sys_step s (with_main s PcRecv (with_transport (sys_main s) t) [])
| step_signal s i x q now io m : sys_pc s = PcRecv -> sys_queue s = (i, x) :: q ->
    on_signal command_eqb (sys_main s) x now io = Return m ->
    sys_step s (after_recv s q PcTop m (OpSignal i x now io))
| step_timeout s : sys_pc s = PcRecv -> sys_queue s = [] -> ~ all_exited s -> sys_step s (with_pc s PcTop)
| step_disconnected s : sys_pc s = PcRecv -> sys_queue s = [] -> all_exited s ->
    sys_step s (with_pc s PcSave)
| step_save s : sys_pc s = PcSave ->
    sys_step s (with_main (raise_flag s) PcJoin
      (with_policy (sys_main s) (save_model (mn_policy (sys_main s)))) [])
| step_joined s : sys_pc s = PcJoin -> all_exited s -> sys_step s (with_pc s PcDone)
| step_panic_message s t msg : sys_pc s = PcDrain ->
    try_recv_engine_message (mn_transport (sys_main s)) = (t, Some msg) ->
    update_engine_state (mn_policy (sys_main s)) msg = Panic -> sys_step s (with_pc s PcPanicked)
| step_panic_signal s i x q now io : sys_pc s = PcRecv -> sys_queue s = (i, x) :: q ->
    on_signal command_eqb (sys_main s) x now io = Panic -> sys_step s (with_pc s PcPanicked).

(** The loop about to start: threads running, nothing sent yet. *)
Definition sys_start (monitors : list AnyMonitor) (m : Main P) : System :=
  {| sys_workers := spawn_monitors monitors; sys_queue := []; sys_flag := false;
     sys_SHUTDOWN := false; sys_SIGHUP := false; sys_pc := PcTop; sys_main := m;
     sys_sent := []; sys_ops := []; sys_turns := [] |}.

Definition reachable (monitors : list AnyMonitor) (m : Main P) (s : System) : Prop :=
  star sys_step (sys_start monitors m) s.

(** ** What the main loop did, sequentially *)

(** The part of the loop's state that decides: the policy, the deduplicator, and what has
    been emitted. *)
Definition Brain : Type := P * DirectiveDeduplicator * list (EngineDirective * f64).
Definition brain (m : Main P) : Brain := (mn_policy m, mn_dedup m, mn_emitted m).

Definition brain_op (b : Brain) (op : LoopOp) : outcome Brain :=
  let '(p, dedup, emitted) := b in
  match op with
  | OpReload env => Return (on_sighup env p, dedup, emitted)
  | OpEngine msg => let! p := update_engine_state p msg in Return (p, dedup, emitted)
  | OpSignal _ x now _ =>
      let! (p, d) := process_signal p x in
      match d with
      | None => Return (p, dedup, emitted)
      | Some d =>
          let '(dedup, out) := process command_eqb dedup d now in
          match out with
          | Some d => Return (p, dedup, emitted ++ [(d, now)])
          | None => Return (cancel_last_observation p, dedup, emitted)
          end
      end
  end.
Fixpoint brain_run (b : Brain) (ops : list LoopOp) : outcome Brain :=
  match ops with
  | [] => Return b
  | op :: ops => let! b := brain_op b op in brain_run b ops
  end.

(** The signals the loop took, with the thread they came from. *)
Definition op_signals (ops : list LoopOp) : list (nat * SystemSignal) :=
  omap (fun op => match op with OpSignal i x _ _ => Some (i, x) | _ => None end) ops.
Definition sent_by (i : nat) (l : list (nat * SystemSignal)) : list SystemSignal :=
  omap (fun '(j, x) => if decide (j = i) then Some x else None) l.

(** The main thread is in the loop. *)
Definition in_loop (s : System) : bool :=
  match sys_pc s with PcTop | PcSighup | PcDrain | PcRecv => true | _ => false end.

(** ** Lemmas *)

Lemma brain_run_app ops1 : forall b ops2,
  brain_run b (ops1 ++ ops2) = let! b := brain_run b ops1 in brain_run b ops2.
Proof.
  induction ops1 as [|op ops1 IH]; intros b ops2; cbn [app brain_run]; [done|].
  destruct (brain_op b op) as [b1|]; [|done]. apply IH.
Qed.

Lemma on_signal_brain m i x now io m' : on_signal command_eqb m x now io = Return m' ->
  brain_op (brain m) (OpSignal i x now io) = Return (brain m').
Proof.
  unfold on_signal, brain_op, brain. cbn [mbind outcome_bind].
  destruct (process_signal (mn_policy m) x) as [[p d]|]; [|done]. cbn.
  destruct d as [d|]; [|by intros [= <-]].
  destruct (process command_eqb (mn_dedup m) d now) as [dedup [out|]].
  - destruct (transport_emit_directive io (mn_transport m) out) as [t sent]. by intros [= <-].
  - by intros [= <-].
Qed.

(** The invariant of the whole program: nothing sent is lost or reordered, the decisions
    are those of the sequential run, directives keep their distance, the monitors' flag is
    only raised after the loop, and the main thread only ends after the others. *)
Record sys_inv (m0 : Main P) (s : System) : Prop := {
  inv_sent : sys_sent s = op_signals (sys_ops s) ++ sys_queue s;
  inv_flag : in_loop s = true -> sys_flag s = false;
  inv_flag_up : sys_pc s = PcJoin \/ sys_pc s = PcDone -> sys_flag s = true;
  inv_brain : sys_pc s <> PcJoin -> sys_pc s <> PcDone ->
    brain_run (brain m0) (sys_ops s) = Return (brain (sys_main s));
  inv_dedup : dedup_inv command_eqb (cooldown_secs (mn_dedup m0)) (sys_main s);
  inv_done : sys_pc s = PcDone -> all_exited s
}.

Lemma worker_turn_exited seen i : worker_turn seen Exited i = None.
Proof. done. Qed.

Lemma all_exited_turn s i w : all_exited s -> sys_workers s !! i = Some w -> w = Exited.
Proof. intros Ha Hi. unfold all_exited in Ha. rewrite Forall_lookup in Ha. by eapply Ha. Qed.

Lemma op_signals_app a b : op_signals (a ++ b) = op_signals a ++ op_signals b.
Proof. unfold op_signals. by rewrite omap_app. Qed.

Lemma dedup_inv_main cooldown (m m' : Main P) :
  mn_dedup m' = mn_dedup m -> mn_emitted m' = mn_emitted m ->
  dedup_inv command_eqb cooldown m -> dedup_inv command_eqb cooldown m'.
Proof. unfold dedup_inv. by intros -> ->. Qed.

(** The steps of the main thread inside the loop or into it. *)
Lemma inv_main_step m0 s s' : in_loop s = true -> sys_inv m0 s ->
  sys_sent s' = op_signals (sys_ops s') ++ sys_queue s' ->
  sys_flag s' = sys_flag s \/ in_loop s' = false ->
  sys_pc s' <> PcJoin -> sys_pc s' <> PcDone ->
  brain_run (brain m0) (sys_ops s') = Return (brain (sys_main s')) ->
  dedup_inv command_eqb (cooldown_secs (mn_dedup m0)) (sys_main s') -> sys_inv m0 s'.
Proof.
  intros Hin [Hs Hf Hfu Hb Hd Hdone] Hs' Hf' Hj Hdn Hb' Hd'. split; try done.
  - intros Hin'. destruct Hf' as [->|]; [by apply Hf|congruence].
  - intros [?|?]; done.
Qed.

Lemma inv_brain_in_loop m0 s : in_loop s = true -> sys_inv m0 s ->
  brain_run (brain m0) (sys_ops s) = Return (brain (sys_main s)).
Proof. intros Hin Hi. apply (inv_brain m0 s Hi); intros E; unfold in_loop in Hin; by rewrite E in Hin. Qed.

Lemma brain_run_snoc b ops op b' : brain_run b ops = Return b' ->
  brain_run b (ops ++ [op]) = brain_op b' op.
Proof. intros Hb. rewrite brain_run_app, Hb. cbn. by destruct (brain_op b' op). Qed.

Lemma sys_inv_worker m0 s i seen input w w' o : sys_inv m0 s -> sys_workers s !! i = Some w ->
  w <> Exited -> sys_inv m0 (after_turn s i seen input w' o).
Proof.
  intros [Hs Hf Hfu Hb Hd Hdone] Hi Hw. split; cbn; try done.
  - by rewrite Hs, <- app_assoc.
  - intros Hp. destruct Hw. by eapply all_exited_turn; [apply Hdone|].
Qed.

Lemma sys_inv_step m0 s s' : sys_step s s' -> sys_inv m0 s -> sys_inv m0 s'.
Proof.
  intros Hst Hi. pose proof Hi as [Hs Hf Hfu Hb Hd Hdone].
  assert (Hin : forall pc, sys_pc s = pc -> match pc with PcTop | PcSighup | PcDrain | PcRecv => true | _ => false end
    = in_loop s) by (by intros pc <-).
  destruct Hst as [s i w input seen w' o Hw Hseen Ht|s|s|s e|s seen Hpc Hseen|s env Hpc
    |s t msg p Hpc Hr Hu|s t Hpc Hr|s i x q now io m Hpc Hq Hsig|s Hpc Hq Ha|s Hpc Hq Ha|s Hpc
    |s Hpc Ha|s t msg Hpc Hr Hu|s i x q now io Hpc Hq Hsig];
    try (specialize (Hin _ Hpc); cbn in Hin; symmetry in Hin;
         pose proof (fun H => inv_brain_in_loop m0 s H Hi) as Hbl).
  - eapply sys_inv_worker; [done|done|]. by intros ->.
  - by split.
  - by split.
  - split; cbn; rewrite ?app_nil_r; done.
  - apply (inv_main_step m0 s); destruct seen; cbn; rewrite ?app_nil_r; auto.
  - apply (inv_main_step m0 s); cbn; try done.
    + rewrite op_signals_app, Hs. by destruct (sys_SIGHUP s); cbn; rewrite app_nil_r.
    + by left.
    + destruct (sys_SIGHUP s); [by rewrite (brain_run_snoc _ _ _ _ (Hbl Hin))|].
      rewrite app_nil_r. by apply Hbl.
    + destruct (sys_SIGHUP s); [by eapply dedup_inv_main|done].
  - apply (inv_main_step m0 s); cbn; try done.
    + rewrite op_signals_app, Hs. cbn. by rewrite app_nil_r.
    + by left.
    + rewrite (brain_run_snoc _ _ _ _ (Hbl Hin)). cbn. by rewrite Hu.
  - apply (inv_main_step m0 s); cbn; rewrite ?app_nil_r; auto.
  - apply (inv_main_step m0 s); cbn; try done.
    + rewrite op_signals_app, Hs, Hq. cbn. by rewrite <- app_assoc.
    + by left.
    + rewrite (brain_run_snoc _ _ _ _ (Hbl Hin)). by eapply on_signal_brain.
    + by eapply on_signal_inv.
  - apply (inv_main_step m0 s); cbn; rewrite ?app_nil_r; auto.
  - apply (inv_main_step m0 s); cbn; rewrite ?app_nil_r; auto.
  - split; cbn; rewrite ?app_nil_r; try done.
  - split; cbn; rewrite ?app_nil_r; try done. intros _. apply Hfu. by left.
  - apply (inv_main_step m0 s); cbn; rewrite ?app_nil_r; auto.
  - apply (inv_main_step m0 s); cbn; rewrite ?app_nil_r; auto.
Qed.

Lemma reachable_inv monitors config p t sent s :
  reachable monitors (loop_start config p t sent) s -> sys_inv (loop_start config p t sent) s.
Proof.
  intros Hr. eapply (star_invariant sys_step); [apply sys_inv_step|exact Hr|].
  split; cbn; try done.
  - by intros [].
  - split_and!; [done|done|]. by intros [].
Qed.

(** *** The history of the threads *)

(** The turns of one thread. *)
Definition turns_of (i : nat) (l : list (nat * (bool * WorkerInput))) : list (bool * WorkerInput) :=
  omap (fun '(j, t) => if decide (j = i) then Some t else None) l.

(** A thread over its turns: where it is, and what it has sent. *)
Fixpoint worker_exec (w : Worker) (turns : list (bool * WorkerInput)) : option (Worker * list SystemSignal) :=
  match turns with
  | [] => Some (w, [])
  | (seen, i) :: turns =>
      '(w, o) ← worker_turn seen w i;
      '(w, ss) ← worker_exec w turns;
      Some (w, option_list o ++ ss)
  end.

Lemma worker_exec_snoc turns : forall w w1 ss seen i w2 o,
  worker_exec w turns = Some (w1, ss) -> worker_turn seen w1 i = Some (w2, o) ->
  worker_exec w (turns ++ [(seen, i)]) = Some (w2, ss ++ option_list o).
Proof.
  induction turns as [|[seen0 i0] turns IH]; intros w w1 ss seen i w2 o He Ht; cbn [worker_exec app] in *.
  { injection He as <- <-. rewrite Ht. cbn. by rewrite app_nil_r. }
  destruct (worker_turn seen0 w i0) as [[w0 o0]|]; [|done]. cbn [mbind option_bind] in *.
  destruct (worker_exec w0 turns) as [[w3 ss3]|] eqn:H3; [|done]. cbn in He. injection He as <- <-.
  rewrite (IH _ _ _ _ _ _ _ H3 Ht). cbn. by rewrite app_assoc.
Qed.

Lemma worker_exec_exited turns r : worker_exec Exited turns = Some r -> turns = [].
Proof. by destruct turns as [|[seen i] turns]. Qed.

Lemma turns_of_snoc i l j t :
  turns_of i (l ++ [(j, t)]) = turns_of i l ++ (if decide (j = i) then [t] else []).
Proof. unfold turns_of. rewrite omap_app. cbn. by destruct (decide (j = i)). Qed.
Lemma sent_by_app i a b : sent_by i (a ++ b) = sent_by i a ++ sent_by i b.
Proof. apply omap_app. Qed.

(** Every thread is where its turns have brought it, and has sent what they say. *)
Definition threads_inv (monitors : list AnyMonitor) (s : System) : Prop :=
  forall i, match monitors !! i with
  | Some m => exists w, sys_workers s !! i = Some w /\
      worker_exec (spawn m) (turns_of i (sys_turns s)) = Some (w, sent_by i (sys_sent s))
  | None => sys_workers s !! i = None
  end.

Lemma threads_inv_same monitors s s' : sys_workers s' = sys_workers s -> sys_turns s' = sys_turns s ->
  sys_sent s' = sys_sent s -> threads_inv monitors s -> threads_inv monitors s'.
Proof. unfold threads_inv. by intros -> -> ->. Qed.

Lemma threads_inv_turn monitors s i seen input w w' o : sys_workers s !! i = Some w ->
  worker_turn seen w input = Some (w', o) -> threads_inv monitors s ->
  threads_inv monitors (after_turn s i seen input w' o).
Proof.
  intros Hi Ht Hinv j. specialize (Hinv j). cbn [sys_workers sys_turns sys_sent after_turn].
  rewrite turns_of_snoc, sent_by_app. destruct (monitors !! j) as [m|].
  - destruct Hinv as (w1 & Hw1 & He). destruct (decide (i = j)) as [<-|Hne].
    + exists w'. rewrite list_lookup_insert_eq by (by eapply lookup_lt_Some). split; [done|].
      assert (w1 = w) as -> by congruence. rewrite (worker_exec_snoc _ _ _ _ _ _ _ _ He Ht).
      f_equal. f_equal. f_equal. destruct o as [x|]; [|done]. cbn. by destruct (decide (i = i)).
    + exists w1. rewrite list_lookup_insert_ne by done. split; [done|]. rewrite app_nil_r, He.
      f_equal. f_equal. destruct o as [x|]; cbn; [|by rewrite app_nil_r].
      destruct (decide (i = j)); [done|]. by rewrite app_nil_r.
  - destruct (decide (i = j)) as [<-|Hne]; [congruence|]. by rewrite list_lookup_insert_ne.
Qed.

Lemma threads_inv_step monitors s s' : sys_step s s' -> threads_inv monitors s -> threads_inv monitors s'.
Proof.
  intros Hst Hi. destruct Hst; try (by eapply threads_inv_same; [..|exact Hi]).
  - by eapply threads_inv_turn.
  - destruct seen; by eapply threads_inv_same; [..|exact Hi].
Qed.

Lemma reachable_threads monitors m s : reachable monitors m s -> threads_inv monitors s.
Proof.
  intros Hr. eapply (star_invariant sys_step); [apply threads_inv_step|exact Hr|].
  intros i. cbn. unfold spawn_monitors. rewrite list_lookup_fmap.
  destruct (monitors !! i) as [m0|]; cbn; [by eexists|done].
Qed.

(** *** What a monitor sends *)

(** The turns of a polling thread as ticks of its monitor's [run], and those of a reader as
    the lines of [run_with_reader]; the receiver of the signals lives as long as the main
    thread. *)
Definition turn_tick (t : bool * WorkerInput) : Tick :=
  {| tick_shutdown := t.1; tick_env := match t.2 with InEnv env => env | _ => empty_env end;
     tick_rx_open := true |}.
Definition turn_line (t : bool * WorkerInput) : LineEvent :=
  {| le_shutdown := t.1; le_line := match t.2 with InLine (LineText text) => Some text | _ => None end;
     le_rx_open := true |}.

(** The signal of a turn in which a line is looked at before the shutdown. *)
Definition turn_signal (t : bool * WorkerInput) : option SystemSignal :=
  if t.1 then None else line_signal signal_of_json (turn_line t).

(** The signals of a polling monitor's [run]. *)
Definition monitor_run (m : AnyMonitor) (ticks : list Tick) : outcome (list SystemSignal) :=
  match m with
  | MMemory m => let! (_, ss) := run (H0 := MemoryMonitor_polling oc) m ticks in Return ss
  | MThermal m => let! (_, ss) := run m ticks in Return ss
  | MCompute m => let! (_, ss) := run (H0 := ComputeMonitor_polling oc) m ticks in Return ss
  | MEnergy m => let! (_, ss) := run m ticks in Return ss
  | MExternal _ => Return []
  end.

(** What a thread of this monitor has sent when it has had these turns: the signals of its
    [run], those before the poll that panicked if one has, and for the external monitor
    those of the lines of standard input or of its clients. *)
Definition sends (m : AnyMonitor) (turns : list (bool * WorkerInput)) (ss : list SystemSignal) : Prop :=
  match m with
  | MExternal e =>
      ss = omap turn_signal turns /\
      (ext_mon_transport e = ExtStdin -> ss = run_with_reader signal_of_json (map turn_line turns))
  | _ =>
      let ticks := map turn_tick turns in
      monitor_run m ticks = Return ss \/
      (monitor_run m ticks = Panic /\ monitor_run m (removelast ticks) = Return ss)
  end.

Lemma polls_exec `{PollingMonitor M} (emb : M -> AnyMonitor) :
  (forall env m, any_poll env (emb m) = let! (m, s) := poll env m in Return (emb m, s)) ->
  forall turns m w ss, worker_exec (Polls (emb m)) turns = Some (w, ss) ->
  (exists m', run m (map turn_tick turns) = Return (m', ss)) \/
  (run m (map turn_tick turns) = Panic /\ exists m', run m (removelast (map turn_tick turns)) = Return (m', ss)).
Proof.
  intros Hemb. induction turns as [|[seen i] turns IH]; intros m w ss; cbn [worker_exec map].
  { intros [= _ <-]. left. by exists m. }
  destruct i as [env| | |]; try done. cbn [worker_turn run tick_shutdown turn_tick fst snd tick_env tick_rx_open].
  destruct seen.
  { cbn. destruct (worker_exec Exited turns) as [[w1 ss1]|] eqn:He; [|done].
    apply worker_exec_exited in He as Ht. subst turns. cbn in *. injection He as <- <-.
    intros [= _ <-]. left. by exists m. }
  rewrite Hemb. destruct (poll env m) as [[m1 o]|] eqn:Hp; cbn [mbind option_bind].
  2: { destruct (worker_exec Exited turns) as [[w1 ss1]|] eqn:He; [|done].
       apply worker_exec_exited in He as Ht. subst turns. cbn in *. injection He as <- <-.
       intros [= _ <-]. right. split; [done|]. by exists m. }
  destruct (worker_exec (Polls (emb m1)) turns) as [[w1 ss1]|] eqn:He; [|done]. cbn. intros [= _ <-].
  destruct (IH _ _ _ He) as [[m2 Hr]|[Hr [m2 Hr2]]].
  - left. exists m2. rewrite Hr. by destruct o.
  - right. rewrite Hr. split; [by destruct o|]. exists m2.
    destruct turns as [|t turns]; [done|]. cbn [map] in *. cbn [run turn_tick tick_shutdown fst tick_env snd tick_rx_open].
    rewrite Hp, Hr2. by destruct o.
Qed.

(** A thread of the external monitor, whatever it is waiting for. *)
Lemma external_exec turns : forall w w' ss, match w with Polls _ => False | _ => True end ->
  worker_exec w turns = Some (w', ss) -> ss = omap turn_signal turns.
Proof.
  induction turns as [|[seen i] turns IH]; intros w w' ss Hw; cbn [worker_exec]; [by intros [= _ <-]|].
  destruct (worker_turn seen w i) as [[w1 o]|] eqn:Ht; [|done]. cbn [mbind option_bind].
  destruct (worker_exec w1 turns) as [[w2 ss2]|] eqn:He; [|done]. cbn. intros [= _ <-].
  assert (Hstep : turn_signal (seen, i) = o /\ match w1 with Polls _ => False | _ => True end).
  { unfold turn_signal, line_signal. cbn.
    destruct w as [m| | |c|], i as [env|ok|r|l]; cbn in Ht; try done.
    - injection Ht as <- <-. by destruct seen, ok.
    - destruct seen; [by injection Ht as <- <-|]. injection Ht as <- <-. by destruct r as [[]| |].
    - destruct l as [text| |]; [|destruct seen, c; by injection Ht as <- <-..].
      cbn. destruct seen; [destruct c; by injection Ht as <- <-|].
      destruct (String.eqb (trim text) ""); by injection Ht as <- <-. }
  destruct Hstep as [Ho Hw1]. rewrite Ho, (IH _ _ _ Hw1 He). by destruct o.
Qed.

Lemma stdin_exec turns : forall w' ss, worker_exec (Reads false) turns = Some (w', ss) ->
  ss = run_with_reader signal_of_json (map turn_line turns).
Proof.
  assert (Hex : forall l r, worker_exec Exited l = Some r -> r.2 = [])
    by (intros l r Hl; apply worker_exec_exited in Hl as Hn; subst l; by injection Hl as <-).
  induction turns as [|[seen i] turns IH]; intros w' ss; cbn [worker_exec map run_with_reader]; [by intros [= _ <-]|].
  destruct i as [env|ok|r|l]; try done. cbn [worker_turn le_shutdown le_line le_rx_open turn_line fst snd].
  destruct l as [text| |]; cbn.
  2, 3: destruct (worker_exec Exited turns) as [[w1 ss1]|] eqn:He; [|done]; cbn; intros [= _ <-];
    apply Hex in He; cbn in He; subst; by destruct seen.
  destruct seen; cbn.
  { destruct (worker_exec Exited turns) as [[w1 ss1]|] eqn:He; [|done]. cbn. intros [= _ <-]. by apply Hex in He. }
  destruct (String.eqb (trim text) ""); cbn;
    (destruct (worker_exec (Reads false) turns) as [[w1 ss1]|] eqn:He; [|done]); cbn; intros [= _ <-];
    rewrite (IH _ _ eq_refl); [done|]. by destruct (signal_of_json (trim text)).
Qed.

Lemma exec_sends m turns w ss : worker_exec (spawn m) turns = Some (w, ss) -> sends m turns ss.
Proof.
  destruct m as [m|m|m|m|e]; cbn [spawn sends monitor_run]; intros He.
  1: apply (polls_exec (H2 := MemoryMonitor_polling oc) MMemory) in He; [|done].
  2: apply (polls_exec MThermal) in He; [|done].
  3: apply (polls_exec (H2 := ComputeMonitor_polling oc) MCompute) in He; [|done].
  4: apply (polls_exec MEnergy) in He; [|done].
  1, 2, 3, 4: destruct He as [[m' ->]|[-> [m' ->]]]; [by left|by right].
  split; [|intros Hstd; rewrite Hstd in He; by apply stdin_exec in He].
  by destruct (ext_mon_transport e); apply external_exec in He.
Qed.

(** *** Threads stop *)

(** A thread that is not waiting for a line. *)
Definition no_reader (w : Worker) : Prop := match w with Reads _ => False | _ => True end.

(** The turns that a thread which sees the flag can still take. *)
Definition turns_left (w : Worker) : nat :=
  match w with
  | Exited => 0
  | Polls _ | Accepts | Reads false => 1
  | Binds | Reads true => 2
  end.
Definition turns_left_at (s : System) (i : nat) : nat :=
  match sys_workers s !! i with Some w => turns_left w | None => 0 end.

(** A step in which no thread overlooks the flag: a thread whose turn it is sees it. *)
Definition heeds (s s' : System) : Prop :=
  sys_step s s' /\ exists l, sys_turns s' = sys_turns s ++ l /\ Forall (fun t => t.2.1 = true) l.

Lemma heeding_turn w i w' o : worker_turn true w i = Some (w', o) ->
  o = None /\ (turns_left w' < turns_left w)%nat.
Proof.
  destruct w as [m| | |c|], i as [env|ok|r|l]; cbn; try done.
  - intros [= <- <-]. split; [done|cbn; lia].
  - intros [= <- <-]. destruct ok; (split; [done|cbn; lia]).
  - intros [= <- <-]. split; [done|cbn; lia].
  - destruct l, c; intros [= <- <-]; (split; [done|cbn; lia]).
Qed.

(** From a state [s0] in which the program waits for its threads: nothing more is sent, and
    each thread's turns use up those it had left. *)
Definition stopping (s0 s : System) : Prop :=
  (sys_pc s = PcJoin \/ sys_pc s = PcDone) /\ sys_flag s = true /\ sys_sent s = sys_sent s0 /\
  exists l, sys_turns s = sys_turns s0 ++ l /\
    forall i, (length (turns_of i l) + turns_left_at s i <= turns_left_at s0 i)%nat.

Lemma stopping_same s0 s s' : sys_pc s' = sys_pc s \/ sys_pc s' = PcDone -> sys_flag s' = sys_flag s ->
  sys_sent s' = sys_sent s -> sys_turns s' = sys_turns s -> sys_workers s' = sys_workers s ->
  stopping s0 s -> stopping s0 s'.
Proof.
  intros Hp Hf Hs Ht Hw (Hpc & Hf0 & Hs0 & l & Hl & Hb). unfold stopping, turns_left_at in *.
  rewrite Hf, Hs, Ht, Hw. split_and!; [|done|done|by exists l].
  destruct Hp as [->| ->]; auto.
Qed.

Lemma stopping_step s0 s s' : heeds s s' -> stopping s0 s -> stopping s0 s'.
Proof.
  intros [Hst (l1 & Hl1 & Hseen)] Hi. pose proof Hi as (Hpc & Hf & Hs & l & Hl & Hb).
  destruct Hst as [s i w input seen w' o Hw Hflag Ht|s|s|s e|s seen Hpc'|s env Hpc'
    |s t msg p Hpc'|s t Hpc'|s i x q now io m Hpc'|s Hpc'|s Hpc'|s Hpc'
    |s Hpc' Ha|s t msg Hpc'|s i x q now io Hpc'];
    try (destruct Hpc as [Hpc|Hpc]; rewrite Hpc in Hpc'; done);
    try (eapply stopping_same; [..|exact Hi]; by auto).
  cbn in Hl1. apply app_inv_head in Hl1. subst l1. apply Forall_cons in Hseen as [Hsee _]. cbn in Hsee. subst seen.
  apply heeding_turn in Ht as [-> Hlt]. unfold stopping. cbn. rewrite app_nil_r.
  split_and!; [done|done|done|]. exists (l ++ [(i, (true, input))]). rewrite Hl, <- app_assoc. split; [done|].
  intros j. specialize (Hb j). unfold turns_left_at in *. cbn. rewrite turns_of_snoc, length_app.
  destruct (decide (i = j)) as [<-|Hne].
  - rewrite list_lookup_insert_eq by (by eapply lookup_lt_Some). rewrite Hw in Hb. cbn. lia.
  - rewrite list_lookup_insert_ne by done. cbn. lia.
Qed.

Lemma heeding_run_stopping s s' : sys_pc s = PcJoin -> sys_flag s = true -> star heeds s s' -> stopping s s'.
Proof.
  intros Hp Hf Hs. eapply (star_invariant heeds); [apply stopping_step|exact Hs|].
  split_and!; [by left|done|done|]. exists []. rewrite app_nil_r. split; [done|]. cbn. lia.
Qed.

Lemma heeds_turn s i w input w' o : sys_workers s !! i = Some w -> sys_flag s = true ->
  worker_turn true w input = Some (w', o) -> heeds s (after_turn s i true input w' o).
Proof.
  intros Hw Hf Ht. split; [by eapply step_worker|]. exists [(i, (true, input))]. split; [done|]. by repeat constructor.
Qed.

(** As long as a thread is left that is not reading, one can take its turn. *)
Lemma heeds_progress s : sys_flag s = true ->
  Forall (fun w => w = Exited \/ exists c, w = Reads c) (sys_workers s) \/
  exists i w s', sys_workers s !! i = Some w /\ no_reader w /\ heeds s s' /\
    exists input, sys_turns s' = sys_turns s ++ [(i, (true, input))].
Proof.
  intros Hf. destruct (decide (Exists (fun w => match w with Polls _ | Binds | Accepts => true | _ => false end = true)
    (sys_workers s))) as [He|Hn].
  - right. apply Exists_exists in He as (w & Hin & Hw). apply list_elem_of_lookup in Hin as [i Hi].
    destruct w as [m| | |c|]; try done; exists i; eexists; [set (inp := InEnv empty_env)
      |set (inp := InBind true)|set (inp := InAccept NoClient)];
      eexists; (split_and!; [exact Hi|done|eapply (heeds_turn s i _ inp); [exact Hi|done|reflexivity]|by exists inp]).
  - left. apply Forall_forall. intros w Hin. destruct w as [m| | |c|]; [| | |eauto|eauto];
      destruct Hn; apply Exists_exists; eexists; eauto.
Qed.

(** One turn, or two, are left to each thread. *)
Lemma turns_left_bound w : (turns_left w <= 2)%nat.
Proof. destruct w as [| | |[]|]; cbn; lia. Qed.
End System.

(** ** Properties *)

(** C14. No signal is lost or overtaken on the way to the policy.  In every interleaving of
    the monitor threads, the connection's reader, the operating system's signals and the
    main loop, each monitor's thread has sent what the loop of its monitor sends over the
    readings and lines the thread has met; the loop has taken the signals that are not
    still queued, from all threads in the order they were sent, and while it runs its
    policy, its deduplicator and what it has emitted are what those signals, with the
    reloads and engine messages between them, make of the start. *)
Theorem signals_reach_the_policy_in_order oc json `{Json} {P} `{PolicyStrategy P} command_eqb
    monitors config (p : P) t sent s :
  reachable oc json command_eqb monitors (loop_start config p t sent) s ->
  (forall i m, monitors !! i = Some m ->
     sends oc json m (turns_of i (sys_turns s)) (sent_by i (sys_sent s))) /\
  sys_sent s = op_signals (sys_ops s) ++ sys_queue s /\
  (in_loop s = true ->
     brain_run command_eqb (p, with_cooldown (dedup_cooldown_secs (cfg_adaptation config)), []) (sys_ops s)
     = Return (brain (sys_main s))).
Proof.
  intros Hr. apply reachable_inv in Hr as Hi. split_and!.
  - intros i m Hm. apply reachable_threads in Hr. specialize (Hr i). rewrite Hm in Hr.
    destruct Hr as (w & _ & He). by eapply exec_sends.
  - by destruct Hi.
  - intros Hin. exact (inv_brain_in_loop command_eqb (loop_start config p t sent) s Hin Hi).
Qed.

(** C13. The concurrent program decides like a sequential one.  In every interleaving, as
    long as the loop runs, the policy, the deduplicator and the directives emitted are
    exactly what the operations of the main loop - reloads, engine messages, signals - give
    when run one after the other from the start; and two successive directives are either
    different or at least the cooldown apart. *)
Theorem system_decides_sequentially oc json `{Json} {P} `{PolicyStrategy P} command_eqb
    monitors config (p : P) t sent s :
  reachable oc json command_eqb monitors (loop_start config p t sent) s ->
  (in_loop s = true ->
     brain_run command_eqb (p, with_cooldown (dedup_cooldown_secs (cfg_adaptation config)), []) (sys_ops s)
     = Return (brain (sys_main s))) /\
  adjacent (spaced command_eqb (dedup_cooldown_secs (cfg_adaptation config))) (mn_emitted (sys_main s)).
Proof.
  intros Hr. apply reachable_inv in Hr as Hi. split.
  - intros Hin. exact (inv_brain_in_loop command_eqb (loop_start config p t sent) s Hin Hi).
  - by destruct Hi as [_ _ _ _ (_ & _ & Ha) _].
Qed.

(** C15. Shutting down.  In every interleaving, the monitors are told to stop only once
    the loop has ended, and when the main thread waits for its threads they have been told.
    From then on, whatever else is interleaved, as long as a thread that looks at the flag
    sees it: no signal is sent any more; a thread that polls, accepts or reads standard
    input takes at most one more turn, one that has not bound its listener yet or reads
    from a client at most two; and as long as some thread has not ended one that is not
    reading can take its turn, unless all that remain are reading; when all have ended so
    does the program. *)
Theorem shutdown_joins_all oc json `{Json} {P} `{PolicyStrategy P} command_eqb
    monitors config (p : P) t sent s :
  reachable oc json command_eqb monitors (loop_start config p t sent) s ->
  (in_loop s = true -> sys_flag s = false) /\
  (sys_pc s = PcJoin ->
     sys_flag s = true /\
     forall s', star (heeds oc json command_eqb) s s' ->
       sys_sent s' = sys_sent s /\
       (exists l, sys_turns s' = sys_turns s ++ l /\
          forall i w, sys_workers s !! i = Some w -> (length (turns_of i l) <= turns_left w <= 2)%nat) /\
       (sys_pc s' = PcDone \/
        (all_exited s' /\ heeds oc json command_eqb s' (with_pc s' PcDone)) \/
        (exists i w s'' input, sys_workers s' !! i = Some w /\ no_reader w /\
           heeds oc json command_eqb s' s'' /\ sys_turns s'' = sys_turns s' ++ [(i, (true, input))]) \/
        (~ all_exited s' /\ Forall (fun w => w = Exited \/ exists c, w = Reads c) (sys_workers s')))).
Proof.
  intros Hr. apply reachable_inv in Hr as [_ Hf Hfu _ _ _]. split; [done|].
  intros Hp. specialize (Hfu (or_introl Hp)). split; [done|]. intros s' Hs.
  destruct (heeding_run_stopping _ _ _ s s' Hp Hfu Hs) as (Hpc & Hf' & Hsent & l & Hl & Hb).
  split_and!; [done| |].
  - exists l. split; [done|]. intros i w Hw. specialize (Hb i). unfold turns_left_at in Hb. rewrite Hw in Hb.
    split; [lia|apply turns_left_bound].
  - destruct Hpc as [Hpc|]; [right|by left]. destruct (decide (Forall (fun w => match w with Exited => true | _ => false end = true)
      (sys_workers s'))) as [Ha|Ha].
    + left. assert (all_exited s') by (eapply Forall_impl; [exact Ha|]; by intros []).
      split; [done|]. split; [by apply step_joined|]. exists []. by rewrite app_nil_r.
    + right. destruct (heeds_progress oc json command_eqb s' Hf') as [Hall|(i & w & s'' & ? & ? & ? & inp & ?)].
      * right. split; [|done]. intros Hx. destruct Ha. eapply Forall_impl; [exact Hx|]. by intros w ->.
      * left. by exists i, w, s'', inp.
Qed.

(** A silent client keeps the manager from ending.  While a thread of the external
    monitor is reading - standard input, or a client of its socket - the program has not
    ended, and the only thing that gives that thread another turn is a line, a read error
    or the end of its input: the shutdown flag alone does not. *)
Theorem silent_reader_blocks_exit oc json `{Json} {P} `{PolicyStrategy P} command_eqb
    monitors config (p : P) t sent s i client :
  reachable oc json command_eqb monitors (loop_start config p t sent) s ->
  sys_workers s !! i = Some (Reads client) ->
  sys_pc s <> PcDone /\
  (forall input seen r, worker_turn oc json seen (Reads client) input = Some r -> exists l, input = InLine l).
Proof.
  intros Hr Hw. apply reachable_inv in Hr as [_ _ _ _ _ Hd]. split.
  - intros Hp. pose proof (all_exited_turn s i _ (Hd Hp) Hw). done.
  - intros [env|ok|a|l] seen r Ht; try done. by exists l.
Qed.

(** ** An execution

    The external monitor reads one line from standard input, the loop takes its signal,
    and a SIGTERM arrives. *)

Definition demo_line_json (_ : string) : option SystemSignal := Some (EnergyConstraint Warning BatteryLow 500).
Definition demo_main : Main Z := loop_start default_Config 7%Z demo_transport [].
Definition demo_monitors : list AnyMonitor :=
  [MExternal {| ext_mon_transport := ExtStdin |}; MEnergy (EnergyMonitor_new empty_env default_EnergyMonitorConfig 1000)].
Definition demo_now : f64 := f64_lit 1 1.

Abbreviation demo_reachable := (reachable true demo_line_json demo_eqb demo_monitors demo_main).

(** One worker sends, and the loop handles what it sent. *)
Lemma demo_execution : exists s, demo_reachable s /\ sys_pc s = PcTop /\
  sys_workers s !! 0%nat = Some (Reads false) /\
  sys_ops s = [OpEngine (Response {| resp_seq_id := 1; results := [] |});
               OpSignal 0 (EnergyConstraint Warning BatteryLow 500) demo_now demo_io] /\
  turns_of 0 (sys_turns s) = [(false, InLine (LineText "hot"))] /\
  sent_by 0 (sys_sent s) = [EnergyConstraint Warning BatteryLow 500] /\
  map fst (mn_emitted (sys_main s)) = [demo_directive 107].
Proof.
  unfold reachable. eexists. split.
  - eapply star_step.
    { eapply (step_worker true demo_line_json demo_eqb _ 0 (Reads false) (InLine (LineText "hot")) false);
        [reflexivity|discriminate|reflexivity]. }
    eapply star_step; [apply (step_top _ _ _ _ false); [reflexivity|discriminate]|].
    eapply star_step; [apply (step_reload _ _ _ _ empty_env); reflexivity|].
    eapply star_step; [eapply step_message; reflexivity|].
    eapply star_step; [eapply step_drained; reflexivity|].
    eapply star_step; [eapply (step_signal _ _ _ _ 0 _ [] demo_now demo_io); [reflexivity|reflexivity|reflexivity]|].
    apply star_refl.
  - do 5 (split; [reflexivity|]). vm_compute. reflexivity.
Qed.

Lemma signals_reach_the_policy_in_order_witness :
  exists s, demo_reachable s /\
    sends true demo_line_json (MExternal {| ext_mon_transport := ExtStdin |}) [(false, InLine (LineText "hot"))]
      [EnergyConstraint Warning BatteryLow 500] /\
    sys_sent s = [(0%nat, EnergyConstraint Warning BatteryLow 500)] ++ sys_queue s /\
    brain_run demo_eqb (7%Z, with_cooldown (f64_lit 60 1), []) (sys_ops s) = Return (brain (sys_main s)).
Proof.
  destruct demo_execution as (s & Hr & Hpc & _ & Hops & Hturns & Hsent & _). exists s. split; [exact Hr|].
  destruct (signals_reach_the_policy_in_order true demo_line_json demo_eqb demo_monitors default_Config
    7%Z demo_transport [] s Hr) as (Hsend & Hs & Hb).
  split; [|split].
  - specialize (Hsend 0%nat _ eq_refl). rewrite Hturns, Hsent in Hsend. exact Hsend.
  - rewrite Hs, Hops. reflexivity.
  - apply Hb. unfold in_loop. rewrite Hpc. reflexivity.
Defined.

Lemma system_decides_sequentially_witness :
  exists s, demo_reachable s /\
    brain_run demo_eqb (7%Z, with_cooldown (f64_lit 60 1), []) (sys_ops s) = Return (brain (sys_main s)).
Proof.
  destruct demo_execution as (s & Hr & Hpc & _). exists s. split; [exact Hr|].
  pose proof (system_decides_sequentially true demo_line_json demo_eqb demo_monitors default_Config
    7%Z demo_transport [] s Hr) as [Hb _]. apply Hb. unfold in_loop. rewrite Hpc. reflexivity.
Defined.

(** After a SIGTERM: both threads take their last turns, and the program ends. *)
Lemma demo_shutdown : exists s s', demo_reachable s /\ sys_pc s = PcJoin /\
  sys_workers s !! 0%nat = Some (Reads false) /\
  star (heeds true demo_line_json demo_eqb) s s' /\ sys_pc s' = PcDone.
Proof.
  unfold reachable. eexists. eexists. split.
  - eapply star_step; [apply step_sigterm|].
    eapply star_step; [apply (step_top _ _ _ _ true); [reflexivity|reflexivity]|].
    eapply star_step; [apply step_save; reflexivity|].
    apply star_refl.
  - split; [reflexivity|]. split; [reflexivity|]. split.
    + eapply star_step.
      { eapply (heeds_turn _ _ _ _ 0 (Reads false) (InLine LineEnd)); reflexivity. }
      eapply star_step.
      { eapply (heeds_turn _ _ _ _ 1 _ (InEnv empty_env)); reflexivity. }
      eapply star_step.
      { split; [apply step_joined; [reflexivity|repeat constructor]|]. exists []. split; [reflexivity|constructor]. }
      apply star_refl.
    + reflexivity.
Qed.

Lemma shutdown_joins_all_witness : exists s s' : @System Z, demo_reachable s /\ sys_pc s = PcJoin /\ sys_flag s = true /\
  sys_pc s' = PcDone /\ sys_sent s' = sys_sent s /\
  exists l, sys_turns s' = sys_turns s ++ l /\ (length (turns_of 0 l) <= 1)%nat.
Proof.
  destruct demo_shutdown as (s & s' & Hr & Hp & Hw & Hrun & Hd). exists s, s'.
  destruct (shutdown_joins_all true demo_line_json demo_eqb demo_monitors default_Config 7%Z demo_transport [] s Hr)
    as [_ Hj].
  destruct (Hj Hp) as [Hf Hs]. destruct (Hs s' Hrun) as (Hsent & (l & Hl & Hb) & _).
  split; [exact Hr|]. split; [exact Hp|]. split; [exact Hf|]. split; [exact Hd|]. split; [exact Hsent|].
  exists l. split; [exact Hl|]. apply (Hb 0%nat (Reads false) Hw).
Defined.

Lemma silent_reader_blocks_exit_witness : exists s, demo_reachable s /\ sys_pc s <> PcDone.
Proof.
  destruct demo_execution as (s & Hr & _ & Hw & _). exists s. split; [exact Hr|].
  apply (silent_reader_blocks_exit true demo_line_json demo_eqb demo_monitors default_Config 7%Z demo_transport []
    s 0 false Hr Hw).
Defined.
