(* ===== verification/SimClock.v ===== *)
(** * SimClock: logical time and the simulator's event queue
    (src/clock.rs, src/sim/clock.rs, src/sim/clock_adapter.rs)

    A [Duration] is its number of nanoseconds.  [BinaryHeap] is a priority queue: here the
    list of its elements in the order in which it gives them out.  The periodic events are
    scheduled by a loop over the times, which takes fuel; [None] is running out of it. *)

From Stdlib Require Import ZArith Lia SpecFloat Sorting.Sorted.
From stdpp Require Import base tactics numbers list strings sorting.
From S2P Require Import Prelude Float Fmt.
Local Open Scope list_scope.
Local Open Scope Z_scope.

(** ** Durations *)

Definition DURATION_MAX : Z := u64_max * 1000000000 + 999999999.
Definition is_duration (d : Z) : Prop := 0 <= d <= DURATION_MAX.

(** [Duration::checked_add], [+] (which panics on overflow in every build),
    [saturating_sub] and [min]. *)
Definition duration_checked_add (a b : Z) : option Z :=
  if a + b <=? DURATION_MAX then Some (a + b) else None.
Definition duration_add (a b : Z) : outcome Z :=
  match duration_checked_add a b with Some d => Return d | None => Panic end.
Definition duration_saturating_sub (a b : Z) : Z := Z.max 0 (a - b).

Definition duration_from_secs (s : Z) : Z := s * 1000000000.
Definition duration_from_millis (ms : Z) : Z := ms * 1000000.

(** [Duration::from_secs_f64]: negative numbers, and numbers that are not finite or too large, panic. *)
Definition duration_from_secs_f64 (x : f64) : outcome Z :=
  match x with
  | S754_zero _ => Return 0
  | S754_finite false m e =>
      let n := Z.pos m * 1000000000 in
      let ns := if 0 <=? e then n * 2 ^ e else div_half_even n (2 ^ (- e)) in
      if ns <=? DURATION_MAX then Return ns else Panic
  | _ => Panic
  end.

(** ** Logical instants and clocks (src/clock.rs) *)

Record LogicalInstant := { from_duration_since_start : Z }.
Definition LogicalInstant_ZERO : LogicalInstant := {| from_duration_since_start := 0 |}.
Definition as_duration_since_start (t : LogicalInstant) : Z := from_duration_since_start t.
Definition saturating_duration_since (t earlier : LogicalInstant) : Z :=
  duration_saturating_sub (from_duration_since_start t) (from_duration_since_start earlier).
Definition instant_checked_add (t : LogicalInstant) (d : Z) : option LogicalInstant :=
  match duration_checked_add (from_duration_since_start t) d with
  | Some d => Some {| from_duration_since_start := d |}
  | None => None
  end.
Definition instant_add (t : LogicalInstant) (d : Z) : outcome LogicalInstant :=
  let! d := duration_add (from_duration_since_start t) d in
  Return {| from_duration_since_start := d |}.

(** [SystemTime] counts its seconds in an [i64]; adding past that panics. *)
Definition SYSTEM_TIME_MAX : Z := i64_max * 1000000000 + 999999999.

(** The trait: the logical time and the system time (nanoseconds since the Unix epoch) of
    a clock, the latter with the default of asking the system. *)
Class Clock (C : Type) := {
  clock_now : C -> LogicalInstant;
  clock_now_system : Z -> C -> outcome Z
}.
Definition elapsed_since `{Clock C} (c : C) (earlier : LogicalInstant) : Z :=
  saturating_duration_since (clock_now c) earlier.

(** The production clock: the instant of its creation, read at a monotonic instant. *)
Record SystemClock := { sc_start : Z; sc_read_at : Z }.
#[export] Instance SystemClock_clock : Clock SystemClock := {|
  clock_now := fun c =>
    {| from_duration_since_start := duration_saturating_sub (sc_read_at c) (sc_start c) |};
  clock_now_system := fun system_time _ => Return system_time
|}.

(** ** Events (src/sim/clock.rs) *)

Inductive EventKind :=
| EvHeartbeat
| EvSignalMemory
| EvSignalCompute
| EvSignalThermal
| EvSignalEnergy
| EvObservationDue (action : string) (recorded_at : Z)
| EvExternalInjectionStart (index : Z)
| EvExternalInjectionEnd (index : Z)
| EvCustom (name : string).
#[export] Instance EventKind_eq_dec : EqDecision EventKind.
Proof. solve_decision. Defined.

Record ScheduledEvent := { se_at : Z; se_id : Z; se_kind : EventKind }.
#[export] Instance ScheduledEvent_eq_dec : EqDecision ScheduledEvent.
Proof. solve_decision. Defined.

(** [Ord]: by time, then by number. *)
Definition event_cmp (a b : ScheduledEvent) : comparison :=
  match Z.compare (se_at a) (se_at b) with
  | Eq => Z.compare (se_id a) (se_id b)
  | c => c
  end.

(** ** The queue: [BinaryHeap<Reverse<ScheduledEvent>>] *)

Fixpoint heap_push (ev : ScheduledEvent) (heap : list ScheduledEvent) : list ScheduledEvent :=
  match heap with
  | [] => [ev]
  | x :: rest =>
      match event_cmp x ev with
      | Gt => ev :: x :: rest
      | _ => x :: heap_push ev rest
      end
  end.
Definition heap_peek (heap : list ScheduledEvent) : option ScheduledEvent := head heap.
Definition heap_pop (heap : list ScheduledEvent) : list ScheduledEvent := tail heap.

(** ** The virtual clock *)

Record VirtualClock := { vc_now : Z; vc_events : list ScheduledEvent; vc_next_id : Z }.

Definition VirtualClock_new : VirtualClock :=
  {| vc_now := 0; vc_events := []; vc_next_id := 0 |}.
Definition now_secs (c : VirtualClock) : f64 := duration_as_secs_f64 (vc_now c).

(** [schedule], with the number it returns. *)
Definition schedule (oc : bool) (c : VirtualClock) (kind : EventKind) (t : Z)
    : outcome (VirtualClock * Z) :=
  let id := vc_next_id c in
  let! next := u64_arith oc (id + 1) in
  Return ({| vc_now := vc_now c;
             vc_events := heap_push {| se_at := t; se_id := id; se_kind := kind |} (vc_events c);
             vc_next_id := next |}, id).

Fixpoint schedule_periodic (fuel : nat) (oc : bool) (c : VirtualClock) (kind : EventKind)
    (first period until : Z) : option (outcome VirtualClock) :=
  match fuel with
  | O => None
  | S fuel =>
      if first <=? until then
        match schedule oc c kind first with
        | Panic => Some Panic
        | Return (c, _) =>
            match duration_add first period with
            | Panic => Some Panic
            | Return t => schedule_periodic fuel oc c kind t period until
            end
        end
      else Some (Return c)
  end.

(** [while let Some(ev) = events.peek()]: each turn pops one event. *)
Fixpoint drain_events (fuel : nat) (target : Z) (heap : list ScheduledEvent)
    : list ScheduledEvent * list ScheduledEvent :=
  match fuel with
  | O => ([], heap)
  | S fuel =>
      match heap_peek heap with
      | Some ev =>
          if se_at ev <=? target then
            let '(fired, heap) := drain_events fuel target (heap_pop heap) in (ev :: fired, heap)
          else ([], heap)
      | None => ([], heap)
      end
  end.
Definition drain_until (c : VirtualClock) (target : Z) : list ScheduledEvent * VirtualClock :=
  let '(fired, heap) := drain_events (length (vc_events c)) target (vc_events c) in
  (fired, {| vc_now := vc_now c; vc_events := heap; vc_next_id := vc_next_id c |}).

Definition advance (c : VirtualClock) (dt : Z) : outcome VirtualClock :=
  let! now := duration_add (vc_now c) dt in
  Return {| vc_now := now; vc_events := vc_events c; vc_next_id := vc_next_id c |}.

Definition pending (c : VirtualClock) : nat := length (vc_events c).

(** The handle a policy reads the time through (src/sim/clock_adapter.rs): the shared
    clock, and a system time that starts at the epoch. *)
Record VirtualClockHandle := { vch_inner : VirtualClock; vch_start_epoch : Z }.
Definition VirtualClockHandle_new (shared : VirtualClock) : VirtualClockHandle :=
  {| vch_inner := shared; vch_start_epoch := 0 |}.
#[export] Instance VirtualClockHandle_clock : Clock VirtualClockHandle := {|
  clock_now := fun h => {| from_duration_since_start := vc_now (vch_inner h) |};
  clock_now_system := fun _ h =>
    let t := vch_start_epoch h + vc_now (vch_inner h) in
    if t <=? SYSTEM_TIME_MAX then Return t else Panic
|}.

(** ** The simulator's schedule (src/sim/harness.rs) *)

(** [schedule_periodic_from]: the multiples of [period] after [now], up to [until]. *)
Definition schedule_periodic_from (fuel : nat) (oc : bool) (c : VirtualClock) (kind : EventKind)
    (now period until : Z) : option (outcome VirtualClock) :=
  if period =? 0 then Some (Return c)
  else
    let first := wrap 0 u64_max ((now / period + 1) * period) in
    schedule_periodic fuel oc c kind first period until.

(** ** Specifications *)

(** The order of the queue, as a relation. *)
Definition event_le (a b : ScheduledEvent) : Prop :=
  se_at a < se_at b \/ (se_at a = se_at b /\ se_id a <= se_id b).

(** A run of [schedule] calls, and the events they ask for. *)
Fixpoint schedule_all (oc : bool) (c : VirtualClock) (reqs : list (EventKind * Z))
    : outcome VirtualClock :=
  match reqs with
  | [] => Return c
  | (kind, t) :: reqs => let! (c, _) := schedule oc c kind t in schedule_all oc c reqs
  end.
Fixpoint requested (id : Z) (reqs : list (EventKind * Z)) : list ScheduledEvent :=
  match reqs with
  | [] => []
  | (kind, t) :: reqs => {| se_at := t; se_id := id; se_kind := kind |} :: requested (id + 1) reqs
  end.

(** The multiples of [period] from the [k]-th on, [n] of them, as requests. *)
Definition multiples (kind : EventKind) (period k : Z) (n : nat) : list (EventKind * Z) :=
  map (fun i => (kind, i * period)) (seqZ k (Z.of_nat n)).

(** Successive drains, with the target at which each event came out. *)
Fixpoint drains (c : VirtualClock) (targets : list Z) : list (ScheduledEvent * Z) * VirtualClock :=
  match targets with
  | [] => ([], c)
  | target :: targets =>
      let '(fired, c) := drain_until c target in
      let '(later, c) := drains c targets in
      (map (fun ev => (ev, target)) fired ++ later, c)
  end.

(** ** Lemmas: the queue *)

#[export] Instance event_le_trans : Transitive event_le.
Proof. intros a b c. unfold event_le. lia. Qed.

Lemma event_cmp_gt a b : event_cmp a b = Gt -> event_le b a.
Proof.
  unfold event_cmp, event_le. destruct (Z.compare_spec (se_at a) (se_at b)); try done; [|lia].
  destruct (Z.compare_spec (se_id a) (se_id b)); (done || lia).
Qed.
Lemma event_cmp_not_gt a b : event_cmp a b <> Gt -> event_le a b.
Proof.
  unfold event_cmp, event_le. destruct (Z.compare_spec (se_at a) (se_at b)); try done; [|lia].
  destruct (Z.compare_spec (se_id a) (se_id b)); (done || lia).
Qed.

Lemma heap_push_perm ev heap : heap_push ev heap ≡ₚ ev :: heap.
Proof.
  induction heap as [|x rest IH]; cbn; [done|].
  destruct (event_cmp x ev); rewrite ?IH; (done || apply Permutation_swap).
Qed.

Lemma heap_push_head x ev heap : event_le x ev -> HdRel event_le x heap ->
  HdRel event_le x (heap_push ev heap).
Proof.
  intros Hx Hh. destruct Hh as [|y rest Hy]; cbn; [by constructor|].
  destruct (event_cmp y ev); by constructor.
Qed.

Lemma heap_push_sorted ev heap : Sorted event_le heap -> Sorted event_le (heap_push ev heap).
Proof.
  induction 1 as [|x rest Hs IH Hh]; cbn; [repeat constructor|].
  destruct (event_cmp x ev) eqn:E.
  1,2: constructor; [done|]; apply heap_push_head; [|done]; apply event_cmp_not_gt; congruence.
  constructor; [by constructor|]. constructor. by apply event_cmp_gt.
Qed.

(** Draining splits the queue where the times pass the target. *)
Lemma drain_events_spec target heap : Sorted event_le heap ->
  let '(fired, rest) := drain_events (length heap) target heap in
  heap = fired ++ rest /\ Forall (fun ev => se_at ev <= target) fired /\
  Forall (fun ev => target < se_at ev) rest /\ Sorted event_le fired /\ Sorted event_le rest.
Proof.
  intros Hs. apply Sorted_StronglySorted in Hs; [|apply _].
  induction Hs as [|x rest Hs IH Hx]; cbn; [by repeat constructor|].
  destruct (Z.leb_spec (se_at x) target) as [Hle|Hgt].
  - destruct (drain_events (length rest) target rest) as [fired later]; cbn in IH.
    destruct IH as (-> & Hf & Hl & Hsf & Hsl). split_and!; try done; [by constructor|].
    constructor; [done|]. apply Forall_app in Hx as [Hx _]. destruct Hx; by constructor.
  - split_and!; try done; [|by apply StronglySorted_Sorted; constructor].
    constructor; [lia|]. eapply Forall_impl; [exact Hx|]. intros y [|[]]; cbn in *; lia.
Qed.

Lemma drain_until_spec c target fired c' : Sorted event_le (vc_events c) ->
  drain_until c target = (fired, c') ->
  vc_events c = fired ++ vc_events c' /\ Forall (fun ev => se_at ev <= target) fired /\
  Forall (fun ev => target < se_at ev) (vc_events c') /\
  Sorted event_le fired /\ Sorted event_le (vc_events c') /\
  vc_now c' = vc_now c /\ vc_next_id c' = vc_next_id c.
Proof.
  intros Hs. unfold drain_until. pose proof (drain_events_spec target _ Hs) as Hd.
  destruct (drain_events _ _ _) as [f rest]. destruct Hd as (He & ? & ? & ? & ?).
  intros [= <- <-]. by split_and!.
Qed.

(** ** Lemmas: scheduling *)

Lemma duration_add_return a b d : duration_add a b = Return d -> d = a + b /\ d <= DURATION_MAX.
Proof.
  unfold duration_add, duration_checked_add. destruct (Z.leb_spec (a + b) DURATION_MAX); [|done].
  by intros [= <-].
Qed.

Lemma schedule_all_spec oc reqs : forall c,
  0 <= vc_next_id c -> vc_next_id c + Z.of_nat (length reqs) <= u64_max ->
  Sorted event_le (vc_events c) ->
  exists c', schedule_all oc c reqs = Return c' /\
    vc_now c' = vc_now c /\ vc_next_id c' = vc_next_id c + Z.of_nat (length reqs) /\
    Sorted event_le (vc_events c') /\
    vc_events c' ≡ₚ vc_events c ++ requested (vc_next_id c) reqs.
Proof.
  induction reqs as [|[kind t] reqs IH]; intros c H0 Hlen Hs; cbn [schedule_all requested length] in *.
  { exists c. rewrite app_nil_r. split_and!; (done || lia). }
  unfold schedule, u64_arith. rewrite arith_in_range by lia.
  edestruct IH as (c' & -> & Hn & Hid & Hs' & Hp); cbn [vc_next_id vc_events vc_now] in *;
    [lia|lia|by apply heap_push_sorted|].
  exists c'. split_and!; try done; [lia|]. rewrite Hp, heap_push_perm.
  apply Permutation_middle.
Qed.

(** The loop over the times schedules the multiples of the period. *)
Lemma schedule_periodic_multiples oc kind period until n : 0 < period ->
  until + period <= DURATION_MAX ->
  forall k c fuel, (n < fuel)%nat -> 0 <= k ->
    (k + Z.of_nat n - 1) * period <= until < (k + Z.of_nat n) * period ->
    schedule_periodic fuel oc c kind (k * period) period until
    = Some (schedule_all oc c (multiples kind period k n)).
Proof.
  intros Hp Hmax. unfold multiples.
  induction n as [|n IH]; intros k c [|fuel] Hfuel Hk Hn; try lia; cbn [schedule_periodic].
  - rewrite (proj2 (Z.leb_gt _ _)) by nia. done.
  - rewrite (proj2 (Z.leb_le _ _)) by nia.
    rewrite seqZ_cons by lia. cbn [map schedule_all].
    destruct (schedule oc c kind (k * period)) as [[c' id]|]; [|done].
    unfold duration_add, duration_checked_add. rewrite (proj2 (Z.leb_le _ _)) by nia.
    replace (k * period + period) with (Z.succ k * period) by lia.
    replace (Z.pred (Z.of_nat (S n))) with (Z.of_nat n) by lia.
    apply IH; [lia|lia|]. split; nia.
Qed.

(** The loop ends, panicking or not, within one turn for each nanosecond. *)
Lemma schedule_periodic_returns oc kind period until : 0 < period -> forall fuel c first,
  until - first + 1 < Z.of_nat fuel -> 0 < Z.of_nat fuel ->
  schedule_periodic fuel oc c kind first period until <> None.
Proof.
  intros Hp. induction fuel as [|fuel IH]; intros c first Hf H0; [lia|]. cbn [schedule_periodic].
  destruct (Z.leb_spec first until); [|done].
  destruct (schedule oc c kind first) as [[c' id]|]; [|done].
  unfold duration_add, duration_checked_add.
  destruct (first + period <=? DURATION_MAX); [apply IH; lia|done].
Qed.

(** One call of [schedule] adds one event. *)
Lemma schedule_adds oc c kind t c' id : schedule oc c kind t = Return (c', id) ->
  vc_now c' = vc_now c /\ (Sorted event_le (vc_events c) -> Sorted event_le (vc_events c')) /\
  vc_events c' ≡ₚ {| se_at := t; se_id := id; se_kind := kind |} :: vc_events c.
Proof.
  unfold schedule. destruct (u64_arith _ _) as [next|]; [|done]. intros [= <- <-]. cbn.
  split_and!; [done|apply heap_push_sorted|apply heap_push_perm].
Qed.

(** A schedule that the loop ends without a panic holds one more event for each period. *)
Lemma schedule_periodic_adds oc kind period until : 0 < period -> forall fuel c first c',
  schedule_periodic fuel oc c kind first period until = Some (Return c') ->
  vc_now c' = vc_now c /\ (Sorted event_le (vc_events c) -> Sorted event_le (vc_events c')) /\
  exists new, vc_events c' ≡ₚ new ++ vc_events c /\
    Forall (fun ev => se_kind ev = kind /\ first <= se_at ev <= until) new /\
    length new = Z.to_nat ((until - first) / period + 1).
Proof.
  intros Hp. induction fuel as [|fuel IH]; intros c first c'; [done|]. cbn [schedule_periodic].
  destruct (Z.leb_spec first until) as [Hle|Hgt].
  2: { intros [= <-]. split_and!; try done. exists []. split_and!; try done. cbn.
    assert ((until - first) / period < 0) by (apply Z.div_lt_upper_bound; lia). lia. }
  destruct (schedule oc c kind first) as [[c1 id]|] eqn:Hs; [|done].
  unfold duration_add, duration_checked_add. destruct (_ <=? DURATION_MAX); [|done].
  intros Hr. destruct (IH _ _ _ Hr) as (Hn & Hso & new & Hperm & Hall & Hlen).
  destruct (schedule_adds _ _ _ _ _ _ Hs) as (Hn1 & Hso1 & Hp1).
  split_and!; [congruence|auto|]. exists (new ++ [{| se_at := first; se_id := id; se_kind := kind |}]).
  split_and!.
  - rewrite Hperm, Hp1, <- app_assoc. reflexivity.
  - apply Forall_app. split; [|by repeat constructor].
    eapply Forall_impl; [exact Hall|]. intros ev [? ?]. split; [done|lia].
  - rewrite length_app, Hlen. cbn [length].
    replace (until - first) with (until - (first + period) + 1 * period) by lia.
    rewrite Z.div_add by lia.
    assert (-1 <= (until - (first + period)) / period); [|lia].
    apply Z.div_le_lower_bound; lia.
Qed.

Lemma drains_spec targets : forall c fired c',
  Sorted event_le (vc_events c) -> Sorted Z.le targets ->
  drains c targets = (fired, c') ->
  vc_events c = map fst fired ++ vc_events c' /\
  Sorted event_le (vc_events c') /\
  Forall (fun '(ev, target) => se_at ev <= target /\
    forall target', In target' targets -> target' < target -> target' < se_at ev) fired /\
  Forall (fun ev => forall target, In target targets -> target < se_at ev) (vc_events c').
Proof.
  induction targets as [|target targets IH]; intros c fired c' Hs Ht; cbn [drains].
  { intros [= <- <-]. split_and!; [done|done|constructor|].
    apply Forall_true. intros ? ? []. }
  destruct (drain_until c target) as [fired1 c1] eqn:Hd.
  destruct (drains c1 targets) as [later c2] eqn:Hl. intros [= <- <-].
  apply drain_until_spec in Hd as (He & Hf & Hrest & _ & Hs1 & _); [|done].
  apply Sorted_StronglySorted in Ht; [|intros ? ? ?; lia].
  inversion_clear Ht as [|? ? Ht' Hall].
  edestruct IH as (He' & Hs' & Hf' & Hr'); [exact Hs1|by apply StronglySorted_Sorted|exact Hl|].
  rewrite List.Forall_forall in Hall.
  split_and!; [|done| |].
  - rewrite map_app, map_map, map_id, <- app_assoc, <- He'. done.
  - apply Forall_app. split.
    + apply Forall_map. eapply Forall_impl; [exact Hf|]. cbn. intros ev Hle. split; [done|].
      intros t' [<-|Hin] Hlt; [lia|]. apply Hall in Hin. lia.
    + rewrite He' in Hrest. apply Forall_app in Hrest as [Hrest _].
      rewrite Forall_map in Hrest. pose proof (conj Hf' Hrest) as Hboth.
      apply Forall_and in Hboth. eapply Forall_impl; [exact Hboth|].
      intros [ev t'] [[Hle Hmin] Hgt]; cbn in *. split; [done|].
      intros t'' [<-|Hin] Hlt; [done|]. by apply Hmin.
  - rewrite He' in Hrest. apply Forall_app in Hrest as [_ Hrest].
    pose proof (conj Hr' Hrest) as Hboth. apply Forall_and in Hboth.
    eapply Forall_impl; [exact Hboth|]. intros ev [Hlater Hgt] t' [<-|Hin]; [done|by apply Hlater].
Qed.

(** ** Properties *)

(** C28. Every event fires once, on time.  Whatever events are scheduled on a new clock, in
    whatever order, draining at increasing times gives out events of the schedule only,
    each one exactly once: an event comes out at the first of the times that has reached
    it, and what is left is later than them all; events of one drain come in order of
    time, and at equal times in the order they were scheduled. *)
Theorem events_fire_once oc reqs targets :
  Z.of_nat (length reqs) <= u64_max -> Sorted Z.le targets ->
  exists c fired c',
    schedule_all oc VirtualClock_new reqs = Return c /\ drains c targets = (fired, c') /\
    map fst fired ++ vc_events c' ≡ₚ requested 0 reqs /\
    Sorted event_le (map fst fired ++ vc_events c') /\
    Forall (fun '(ev, target) => se_at ev <= target /\
      forall target', In target' targets -> target' < target -> target' < se_at ev) fired /\
    Forall (fun ev => forall target, In target targets -> target < se_at ev) (vc_events c').
Proof.
  intros Hlen Ht.
  destruct (schedule_all_spec oc reqs VirtualClock_new) as (c & Hc & _ & _ & Hs & Hp);
    [done|cbn; lia|constructor|].
  destruct (drains c targets) as [fired c'] eqn:Hd. exists c, fired, c'.
  destruct (drains_spec _ _ _ _ Hs Ht Hd) as (He & _ & Hf & Hr).
  rewrite <- He. by split_and!.
Qed.

Definition demo_reqs : list (EventKind * Z) :=
  [(EvHeartbeat, 500); (EvSignalMemory, 1000); (EvSignalThermal, 300); (EvCustom "x", 500)].

Lemma events_fire_once_witness :
  exists c fired c', schedule_all true VirtualClock_new demo_reqs = Return c /\
    drains c [250; 500; 750] = (fired, c') /\
    map fst fired ++ vc_events c' ≡ₚ requested 0 demo_reqs /\ length fired = 3%nat.
Proof.
  destruct (events_fire_once true demo_reqs [250; 500; 750]) as (c & fired & c' & Hc & Hd & Hp & _).
  - vm_compute. discriminate.
  - repeat constructor; lia.
  - exists c, fired, c'. split; [exact Hc|]. split; [exact Hd|]. split; [exact Hp|].
    vm_compute in Hc. injection Hc as <-. vm_compute in Hd. injection Hd as <- _. reflexivity.
Defined.

(** The periodic schedule is the multiples of the period.  From any time to any later
    one, with a positive period and room in the number types, the loop over the times
    ends within [until / period - now / period + 1] turns without panicking, and adds to
    the queue exactly one event at each multiple of the period after [now] up to [until],
    numbered in order; with a zero period nothing is scheduled. *)
Theorem periodic_schedule_exact oc c kind now period until fuel :
  0 <= now <= until -> 0 <= period -> now + period <= u64_max -> until + period <= DURATION_MAX ->
  Sorted event_le (vc_events c) ->
  let n := if period =? 0 then O else Z.to_nat (until / period - now / period) in
  (n < fuel)%nat -> 0 <= vc_next_id c -> vc_next_id c + Z.of_nat n <= u64_max ->
  exists c', schedule_periodic_from fuel oc c kind now period until = Some (Return c') /\
    vc_now c' = vc_now c /\ Sorted event_le (vc_events c') /\
    vc_events c' ≡ₚ vc_events c ++
      requested (vc_next_id c) (multiples kind period (now / period + 1) n).
Proof.
  intros Hnow Hp Hmax Huntil Hs n Hfuel Hid Hroom. unfold schedule_periodic_from.
  destruct (Z.eqb_spec period 0) as [->|Hp0]; cbn [Z.eqb] in n.
  { exists c. subst n. cbn. rewrite app_nil_r. by split_and!. }
  subst n. assert (Hpos : 0 < period) by lia.
  pose proof (Z.div_le_mono now until period Hpos ltac:(lia)) as Hdiv.
  pose proof (Z.div_mod now period Hp0) as Hm. pose proof (Z.mod_pos_bound now period Hpos).
  pose proof (Z.div_mod until period Hp0) as Hm'. pose proof (Z.mod_pos_bound until period Hpos).
  pose proof (Z.div_pos now period ltac:(lia) Hpos).
  rewrite wrap_id by nia.
  rewrite (schedule_periodic_multiples oc kind period until
    (Z.to_nat (until / period - now / period))); [|done|done|done|lia|nia].
  destruct (schedule_all_spec oc (multiples kind period (now / period + 1)
    (Z.to_nat (until / period - now / period))) c) as (c' & -> & Hn & _ & Hs' & Hp'); [done| |done|].
  { unfold multiples. rewrite length_map, length_seqZ. lia. }
  exists c'. by split_and!.
Qed.

Lemma periodic_schedule_exact_witness :
  exists c', schedule_periodic_from 5 true VirtualClock_new EvHeartbeat 300 250 1000 = Some (Return c') /\
    map se_at (vc_events c') = [500; 750; 1000].
Proof.
  destruct (periodic_schedule_exact true VirtualClock_new EvHeartbeat 300 250 1000 5)
    as (c' & Hc & _); [lia|lia|vm_compute; discriminate|vm_compute; discriminate|constructor
    |vm_compute; lia|vm_compute; discriminate|vm_compute; discriminate|].
  exists c'. split; [exact Hc|]. vm_compute in Hc. injection Hc as <-. reflexivity.
Defined.
