(* ===== verification/SimExpr.v ===== *)
(** * SimExpr: expressions of the simulator's scenarios (src/sim/expr.rs)

    Parsing and evaluating an expression is [evalexpr]'s: its trees, its contexts and
    their operations are the parameters of [Evalexpr].  What is modelled is the program's:
    the functions it registers, the wrapper around a context, and the context in which
    the expressions of a scenario are tried out. *)

From Stdlib Require Import ZArith Lia SpecFloat String.
From stdpp Require Import base tactics numbers list strings.
From S2P Require Import Prelude Float.
Local Open Scope string_scope.
Local Open Scope list_scope.
Local Open Scope Z_scope.

(** ** Values and contexts *)

(** [evalexpr::Value]. *)
Inductive EValue :=
| EString (s : string)
| EFloat (x : f64)
| EInt (i : Z)
| EBoolean (b : bool)
| ETuple (vs : list EValue)
| EEmpty.

(** The errors the registered functions return. *)
Inductive EvalexprError :=
| ExpectedTuple (actual : EValue)
| ExpectedFloat (actual : EValue)
| ExpectedString (actual : EValue)
| WrongOperatorArgumentAmount (expected actual : Z).

Definition EFunction := EValue -> result EValue EvalexprError.

(** [None] is an error of the library. *)
Class Evalexpr := {
  Node : Type;
  HashMapContext : Type;
  context_new : HashMapContext;
  set_value : HashMapContext -> string -> EValue -> option HashMapContext;
  set_function : HashMapContext -> string -> EFunction -> option HashMapContext;
  build_operator_tree : string -> option Node;
  eval_float : Node -> HashMapContext -> option f64;
  eval_boolean : Node -> HashMapContext -> option bool;
  eval_string : Node -> HashMapContext -> option string
}.

(** ** Arguments *)

Definition get_tuple (arg : EValue) : result (list EValue) EvalexprError :=
  match arg with ETuple vs => Ok vs | other => Err (ExpectedTuple other) end.
Definition get_float (v : EValue) : result f64 EvalexprError :=
  match v with
  | EFloat x => Ok x
  | EInt i => Ok (f64_of_Z i)
  | other => Err (ExpectedFloat other)
  end.
Definition get_str (v : EValue) : result string EvalexprError :=
  match v with EString s => Ok s | other => Err (ExpectedString other) end.

(** The argument of a function of one parameter, which may come as a tuple of one. *)
Definition single (arg : EValue) : EValue :=
  match arg with ETuple [v] => v | other => other end.

(** ** Throughput *)

Local Open Scope f64_scope.

Definition compute_merge_overhead (ratio : f64) : f64 :=
  f64_lit 4 1 * ratio * (f64_lit 1 1 - ratio) * f64_lit 15 100.

Definition compute_phase_throughput (phase device : string)
    (partition_ratio cpu_freq_ratio gpu_freq_ratio bw_util : f64)
    (base_tps_decode_gpu base_tps_decode_cpu base_tps_decode_partition
     base_tps_prefill_gpu : f64) : f64 :=
  let bw_penalty := f_min (bw_util / f64_lit 200 1) (f64_lit 4 10) in
  if String.eqb phase "idle" then f_zero
  else if String.eqb phase "prefill" then base_tps_prefill_gpu * gpu_freq_ratio
  else if String.eqb phase "decode" then
    if String.eqb device "cpu" then base_tps_decode_cpu * cpu_freq_ratio
    else if String.eqb device "opencl" || String.eqb device "cuda" then
      base_tps_decode_gpu * gpu_freq_ratio * (f64_lit 1 1 - bw_penalty)
    else if String.eqb device "partition" then
      if (partition_ratio <=? f_zero) || (partition_ratio >=? f64_lit 1 1) then
        base_tps_decode_gpu * gpu_freq_ratio
      else
        let base := base_tps_decode_partition
                    * (f64_lit 1 1 - compute_merge_overhead partition_ratio)
                    * (f64_lit 1 1 - bw_penalty) in
        let gpu_part := partition_ratio * gpu_freq_ratio in
        let cpu_part := (f64_lit 1 1 - partition_ratio) * cpu_freq_ratio in
        base * (gpu_part + cpu_part)
    else base_tps_decode_gpu * gpu_freq_ratio
  else f_zero.

(** ** The registered functions *)

Definition phase_throughput : EFunction := fun arg =>
  let? args := get_tuple arg in
  match args with
  | [a0; a1; a2; a3; a4; a5; a6; a7; a8; a9] =>
      let? phase := get_str a0 in
      let? device := get_str a1 in
      let? partition_ratio := get_float a2 in
      let? cpu_freq_ratio := get_float a3 in
      let? gpu_freq_ratio := get_float a4 in
      let? bw_util := get_float a5 in
      let? base_tps_decode_gpu := get_float a6 in
      let? base_tps_decode_cpu := get_float a7 in
      let? base_tps_decode_partition := get_float a8 in
      let? base_tps_prefill_gpu := get_float a9 in
      Ok (EFloat (compute_phase_throughput phase device partition_ratio cpu_freq_ratio
        gpu_freq_ratio bw_util base_tps_decode_gpu base_tps_decode_cpu
        base_tps_decode_partition base_tps_prefill_gpu))
  | _ => Err (WrongOperatorArgumentAmount 10 (Z.of_nat (length args)))
  end.

Definition throttle_factor : EFunction := fun arg =>
  let? delay_ms := get_float (single arg) in
  Ok (EFloat (f64_lit 1 1 / (f64_lit 1 1 + delay_ms / f64_lit 10 1))).

Definition skip_boost : EFunction := fun arg =>
  let? ratio := get_float (single arg) in
  Ok (EFloat (f64_lit 1 1 + ratio * f64_lit 8 10)).

Definition base_by_phase : EFunction := fun arg =>
  let? phase := get_str (single arg) in
  Ok (EFloat (
    if String.eqb phase "idle" then f_zero
    else if String.eqb phase "prefill" then f64_lit 70 1
    else if String.eqb phase "decode" then f64_lit 10 1
    else f_zero)).

Definition dtype_from_bits : EFunction := fun arg =>
  let? bits := get_float (single arg) in
  let bits := f_to_u32 bits in
  Ok (EString (
    (if bits =? 2 then "q2" else if bits =? 4 then "q4" else if bits =? 8 then "q8"
     else if bits =? 16 then "f16" else if bits =? 32 then "f32" else "f16")%Z)).

Definition merge_overhead : EFunction := fun arg =>
  let? ratio := get_float (single arg) in
  Ok (EFloat (compute_merge_overhead ratio)).

Definition builtins : list (string * EFunction) :=
  [("phase_throughput", phase_throughput); ("throttle_factor", throttle_factor);
   ("skip_boost", skip_boost); ("base_by_phase", base_by_phase);
   ("dtype_from_bits", dtype_from_bits); ("merge_overhead", merge_overhead)].

(** ** The context *)

Section Context.
Context `{Evalexpr}.

Record CompiledExpr := { source : string; tree : Node }.

(** Deserializing an expression compiles it. *)
Definition compile_expr (s : string) : option CompiledExpr :=
  match build_operator_tree s with Some t => Some {| source := s; tree := t |} | None => None end.

(** [register_builtins]: each registration is expected to succeed. *)
Fixpoint register (ctx : HashMapContext) (fs : list (string * EFunction)) : outcome HashMapContext :=
  match fs with
  | [] => Return ctx
  | (name, f) :: fs =>
      match set_function ctx name f with Some ctx => register ctx fs | None => Panic end
  end.
Definition register_builtins (ctx : HashMapContext) : outcome HashMapContext := register ctx builtins.

Definition ExprContext := HashMapContext.
Definition ExprContext_new : outcome ExprContext := register_builtins context_new.

Definition ctx_set (ctx : ExprContext) (key : string) (v : EValue) : outcome ExprContext :=
  match set_value ctx key v with Some ctx => Return ctx | None => Panic end.
Definition set_f64 (ctx : ExprContext) (key : string) (x : f64) : outcome ExprContext :=
  ctx_set ctx key (EFloat x).
Definition set_str (ctx : ExprContext) (key s : string) : outcome ExprContext :=
  ctx_set ctx key (EString s).

(** Several bindings in order. *)
Fixpoint bind_all (ctx : ExprContext) (bindings : list (string * EValue)) : outcome ExprContext :=
  match bindings with
  | [] => Return ctx
  | (key, v) :: bindings => let! ctx := ctx_set ctx key v in bind_all ctx bindings
  end.

Definition numeric_fields : list string :=
  ["kv_cache_bytes"; "kv_cache_capacity_bytes"; "kv_cache_tokens"; "kv_cache_token_capacity";
   "device_memory_total_mb"; "device_memory_used_mb"; "memory_bw_utilization_pct";
   "engine_cpu_pct"; "external_cpu_pct"; "cpu_freq_mhz"; "cpu_max_freq_mhz"; "cpu_min_freq_mhz";
   "engine_gpu_pct"; "external_gpu_pct"; "gpu_freq_mhz"; "gpu_max_freq_mhz"; "gpu_min_freq_mhz";
   "thermal_c"; "cpu_cluster_thermal_c"; "gpu_cluster_thermal_c"; "throttle_threshold_c";
   "base_tps_decode_gpu"; "base_tps_decode_cpu"; "base_tps_decode_partition";
   "base_tps_prefill_gpu"; "partition_ratio"; "throttle_delay_ms"; "tbt_target_ms"; "skip_ratio";
   "target_ratio"; "delay_ms"; "ratio"; "bits"].
Definition derived_fields : list string :=
  ["throughput_tps"; "tbt_ms"; "latency_degradation"; "skip_ratio"].

Definition make_dry_run_context : outcome ExprContext :=
  let! ctx := ExprContext_new in
  let! ctx := bind_all ctx (map (fun f => (f, EFloat f_zero)) numeric_fields) in
  let! ctx := bind_all ctx (map (fun f => (f, EFloat f_zero)) derived_fields) in
  let! ctx := set_str ctx "phase" "idle" in
  let! ctx := set_str ctx "active_device" "opencl" in
  let! ctx := set_str ctx "kv_dtype" "f16" in
  set_str ctx "device" "opencl".
End Context.
