(* ===== verification/SimYaml.v ===== *)
(** * SimYaml: scenario files and inheritance (src/sim/config.rs)

    A scenario file may name a parent in [extends]; the parent is loaded first, and the
    child is merged over it.  YAML values are [serde_yaml]'s: the class [Yaml] has the
    operations the program uses on them, and [YamlLaws] their documented behaviour. *)

From Stdlib Require Import ZArith Lia String.
From stdpp Require Import base tactics numbers list strings.
From S2P Require Import Prelude Monitor.
Local Open Scope string_scope.
Local Open Scope list_scope.
Local Open Scope nat_scope.

(** ** YAML *)

Class Yaml := {
  Value : Type;
  Key : Type;
  key_eq_dec :: EqDecision Key;
  Mapping : Type;
  (** a value that is a mapping, and the value a mapping is *)
  as_mapping : Value -> option Mapping;
  of_mapping : Mapping -> Value;
  (** the entries in order, and access by key *)
  entries : Mapping -> list (Key * Value);
  m_get : Mapping -> Key -> option Value;
  m_insert : Mapping -> Key -> Value -> Mapping;
  m_remove : Mapping -> Key -> Mapping;
  extends_key : Key;
  (** deserialization of a path *)
  as_path : Value -> option string;
  (** the parser *)
  from_str : string -> option Value;
  (** how deep mappings are nested in a value *)
  depth : Value -> nat
}.

Class YamlLaws `{Yaml} := {
  as_mapping_of m : as_mapping (of_mapping m) = Some m;
  of_as_mapping v m : as_mapping v = Some m -> v = of_mapping m;
  entries_nodup m : NoDup (map fst (entries m));
  entries_get m k v : In (k, v) (entries m) <-> m_get m k = Some v;
  get_insert m k k' v : m_get (m_insert m k v) k' = if decide (k = k') then Some v else m_get m k';
  get_remove m k k' : m_get (m_remove m k) k' = if decide (k = k') then None else m_get m k';
  depth_entry m k v : m_get m k = Some v -> depth v < depth (of_mapping m)
}.

Section Merge.
Context `{Yaml}.

(** [deep_merge]: mappings are merged entry by entry, anything else is replaced.  The
    depth of the overriding value is fuel enough. *)
Fixpoint merge_fuel (fuel : nat) (base override : Value) : Value :=
  match fuel with
  | O => override
  | S fuel =>
      match as_mapping base, as_mapping override with
      | Some b, Some o =>
          of_mapping (fold_left (fun b '(k, v) =>
            match m_get b k with
            | Some old => m_insert b k (merge_fuel fuel old v)
            | None => m_insert b k v
            end) (entries o) b)
      | _, _ => override
      end
  end.
Definition deep_merge (base override : Value) : Value :=
  merge_fuel (S (depth override)) base override.

(** ** Loading *)

(** The file system: [canonicalize], and reading a canonical path. *)
Record Files := { canonicalize : string -> option string; read_to_string : string -> option string }.

Inductive YamlError :=
| YamlIo (path : string)
| YamlParse (path : string)
| CircularExtends (cycle : list string).

(** [Path::parent] of a canonical path. *)
Context (path_parent : string -> string).

(** The [extends] entry of a mapping, and the mapping without it. *)
Definition take_extends (value : Value) : option (Value * Value) :=
  m ← as_mapping value; ext ← m_get m extends_key;
  Some (ext, of_mapping (m_remove m extends_key)).

Fixpoint load_yaml_with_extends (fuel : nat) (files : Files) (path base_dir : string)
    (visited : list string) : option (result Value YamlError) :=
  match fuel with
  | O => None
  | S fuel =>
      let canonical := default (path_join base_dir path) (canonicalize files path) in
      if bool_decide (canonical ∈ visited) then Some (Err (CircularExtends visited))
      else
        let visited := canonical :: visited in
        match read_to_string files canonical with
        | None => Some (Err (YamlIo canonical))
        | Some content =>
            match from_str content with
            | None => Some (Err (YamlParse canonical))
            | Some value =>
                match take_extends value with
                | None => Some (Ok value)
                | Some (ext, value) =>
                    match as_path ext with
                    | None => Some (Err (YamlParse canonical))
                    | Some parent_rel =>
                        let parent_path := path_join (path_parent canonical) parent_rel in
                        match load_yaml_with_extends fuel files parent_path base_dir visited with
                        | Some (Ok parent_value) => Some (Ok (deep_merge parent_value value))
                        | r => r
                        end
                    end
                end
            end
        end
  end.

(** ** Specifications *)

(** The value at a path of keys. *)
Fixpoint lookup_path (path : list Key) (v : Value) : option Value :=
  match path with
  | [] => Some v
  | k :: path => m ← as_mapping v; v ← m_get m k; lookup_path path v
  end.

(** A value leaves a path open when the path ends at a key that a mapping does not have. *)
Fixpoint leaves_open (path : list Key) (v : Value) : bool :=
  match path with
  | [] => false
  | k :: path =>
      match as_mapping v with
      | Some m => match m_get m k with Some v => leaves_open path v | None => true end
      | None => false
      end
  end.

Definition canonical_path (files : Files) (base_dir path : string) : string :=
  default (path_join base_dir path) (canonicalize files path).

(** A file at [path] is its own document, or names a parent. *)
Definition document (files : Files) (base_dir path : string) : option Value :=
  read_to_string files (canonical_path files base_dir path) ≫= from_str.
Definition parent_of (files : Files) (base_dir path : string) : option string :=
  v ← document files base_dir path;
  '(ext, _) ← take_extends v;
  rel ← as_path ext;
  Some (path_join (path_parent (canonical_path files base_dir path)) rel).

(** The documents from a file up to its oldest ancestor, without their [extends]. *)
Inductive ancestry (files : Files) (base_dir : string) : string -> list (string * Value) -> Prop :=
| ancestry_root path v :
    document files base_dir path = Some v -> take_extends v = None ->
    ancestry files base_dir path [(canonical_path files base_dir path, v)]
| ancestry_child path v ext own parent l :
    document files base_dir path = Some v -> take_extends v = Some (ext, own) ->
    parent_of files base_dir path = Some parent -> ancestry files base_dir parent l ->
    ancestry files base_dir path ((canonical_path files base_dir path, own) :: l).

(** Children over parents. *)
Fixpoint merge_all (l : list (string * Value)) : option Value :=
  match l with
  | [] => None
  | (_, v) :: l => match merge_all l with Some base => Some (deep_merge base v) | None => Some v end
  end.

(** ** Lemmas: merging *)

Section Laws.
Context `{!YamlLaws}.

Lemma fold_merge_get (f : Value -> Value -> Value) es : NoDup (map fst es) -> forall b k,
  m_get (fold_left (fun b '(k, v) =>
    match m_get b k with Some old => m_insert b k (f old v) | None => m_insert b k v end) es b) k
  = match find_map (fun '(k', v) => if decide (k' = k) then Some v else None) es with
    | Some v => match m_get b k with Some old => Some (f old v) | None => Some v end
    | None => m_get b k
    end.
Proof.
  induction es as [|[k1 v1] es IH]; intros Hnd b k; cbn [fold_left find_map map fst] in *; [done|].
  apply NoDup_cons in Hnd as [Hnin Hnd]. rewrite IH by done.
  destruct (decide (k1 = k)) as [->|Hne].
  - assert (find_map (fun '(k', v) => if decide (k' = k) then Some v else None) es = None) as ->.
    { apply find_map_None, Forall_forall. intros [k' v'] Hin. case_decide; [|done]. subst k'.
      destruct Hnin. apply list_elem_of_In, in_map_iff.
      exists (k, v'). split; [done|by apply list_elem_of_In]. }
    destruct (m_get b k); rewrite get_insert; by case_decide.
  - destruct (m_get b k1); rewrite !get_insert; by case_decide.
Qed.

Lemma entries_find m k :
  find_map (fun '(k', v) => if decide (k' = k) then Some v else None) (entries m) = m_get m k.
Proof.
  destruct (find_map _ _) as [v|] eqn:Hf.
  - apply find_map_Some in Hf as (l1 & [k' v'] & l2 & He & Hv & _). case_decide; simplify_eq.
    symmetry. apply entries_get. rewrite He. apply in_or_app. right. by left.
  - rewrite find_map_None, List.Forall_forall in Hf. destruct (m_get m k) as [v|] eqn:Hg; [|done].
    apply entries_get, Hf in Hg. by case_decide.
Qed.

Lemma merge_fuel_get fuel b o k :
  exists m, as_mapping (merge_fuel (S fuel) (of_mapping b) (of_mapping o)) = Some m /\
    m_get m k = match m_get o k with
      | Some v => match m_get b k with Some old => Some (merge_fuel fuel old v) | None => Some v end
      | None => m_get b k
      end.
Proof.
  cbn [merge_fuel]. rewrite !as_mapping_of. eexists. split; [reflexivity|].
  rewrite fold_merge_get by apply entries_nodup. by rewrite entries_find.
Qed.

(** A value at a path of the child, found at any sufficient depth of merging. *)
Lemma merge_fuel_overrides path : forall fuel base over v,
  depth over < fuel -> lookup_path path over = Some v -> as_mapping v = None ->
  lookup_path path (merge_fuel fuel base over) = Some v.
Proof.
  induction path as [|k path IH]; intros [|fuel] base over v Hd Hp Hv; try lia; cbn in Hp.
  - simplify_eq. cbn. rewrite Hv. by destruct (as_mapping base).
  - destruct (as_mapping over) as [o|] eqn:Ho; [|done]. apply of_as_mapping in Ho as ->. cbn in Hp.
    destruct (m_get o k) as [y|] eqn:Hy; [|done]. cbn in Hp.
    destruct (as_mapping base) as [b|] eqn:Hb.
    + apply of_as_mapping in Hb as ->.
      destruct (merge_fuel_get fuel b o k) as (m & Hm & Hk). rewrite Hy in Hk.
      cbn [lookup_path]. rewrite Hm. cbn [mbind option_bind]. rewrite Hk.
      destruct (m_get b k) as [x|]; cbn; [|done]. apply IH; [|done|done].
      pose proof (depth_entry o k y Hy). lia.
    + cbn [merge_fuel]. rewrite Hb. cbn. by rewrite as_mapping_of; cbn; rewrite Hy.
Qed.

(** What the child leaves open is inherited. *)
Lemma merge_fuel_inherits path : forall fuel base over v,
  depth over < fuel -> leaves_open path over = true -> lookup_path path base = Some v ->
  lookup_path path (merge_fuel fuel base over) = Some v.
Proof.
  induction path as [|k path IH]; intros [|fuel] base over v Hd Ho Hp; try lia; [done|].
  cbn in Ho, Hp.
  destruct (as_mapping over) as [o|] eqn:Hover; [|done]. apply of_as_mapping in Hover as ->.
  destruct (as_mapping base) as [b|] eqn:Hb; [|done]. apply of_as_mapping in Hb as ->. cbn in Hp.
  destruct (merge_fuel_get fuel b o k) as (m & Hm & Hk).
  cbn [lookup_path]. rewrite Hm. cbn [mbind option_bind]. rewrite Hk.
  destruct (m_get b k) as [x|] eqn:Hx; [|done]. cbn in Hp.
  destruct (m_get o k) as [y|] eqn:Hy; [|done]. cbn. apply IH; [|done|done].
  pose proof (depth_entry o k y Hy). lia.
Qed.

(** The merged values of an ancestry, where a path is decided by the nearest document that
    does not leave it open. *)
Lemma merge_all_inherits path c v l x :
  leaves_open path v = true -> (merge_all l ≫= lookup_path path) = Some x ->
  (merge_all ((c, v) :: l) ≫= lookup_path path) = Some x.
Proof.
  intros Ho. cbn [merge_all]. destruct (merge_all l) as [base|]; [|done].
  cbn [mbind option_bind]. intros Hx. apply merge_fuel_inherits; [lia|done|done].
Qed.
End Laws.

(** ** Lemmas: loading *)

(** One turn of loading, by the specification's functions. *)
Lemma load_unfold fuel files path base_dir visited :
  load_yaml_with_extends (S fuel) files path base_dir visited =
  let c := canonical_path files base_dir path in
  if bool_decide (c ∈ visited) then Some (Err (CircularExtends visited))
  else match document files base_dir path with
  | None => Some (Err (match read_to_string files c with
                       | None => YamlIo c | Some _ => YamlParse c end))
  | Some v =>
      match take_extends v with
      | None => Some (Ok v)
      | Some (_, own) =>
          match parent_of files base_dir path with
          | None => Some (Err (YamlParse c))
          | Some parent =>
              match load_yaml_with_extends fuel files parent base_dir (c :: visited) with
              | Some (Ok base) => Some (Ok (deep_merge base own))
              | r => r
              end
          end
      end
  end.
Proof.
  cbn [load_yaml_with_extends]. unfold parent_of, document, canonical_path. cbn zeta.
  case_bool_decide; [done|].
  destruct (read_to_string files _) as [content|]; cbn; [|done].
  destruct (from_str content) as [v|]; cbn; [|done].
  destruct (take_extends v) as [[ext own]|]; [|done]. cbn.
  by destruct (as_path ext) as [rel|].
Qed.

Lemma load_ancestry files base_dir path l : ancestry files base_dir path l ->
  forall fuel visited, length l < fuel -> NoDup (map fst l) ->
  Forall (fun c => c ∉ visited) (map fst l) ->
  exists v, load_yaml_with_extends fuel files path base_dir visited = Some (Ok v) /\
    merge_all l = Some v.
Proof.
  induction 1 as [path v Hdoc He|path v ext own parent l Hdoc He Hp Ha IH];
    intros [|fuel] visited Hfuel Hnd Hvis; try lia; rewrite load_unfold; cbn zeta;
    cbn [map fst] in *; apply NoDup_cons in Hnd as [Hnin Hnd];
    apply Forall_cons in Hvis as [Hc Hvis]; rewrite bool_decide_eq_false_2 by done;
    rewrite Hdoc, He; [by eexists|]. rewrite Hp. cbn [length] in Hfuel.
  edestruct (IH fuel) as (base & -> & Hm); [lia|done| |].
  { rewrite List.Forall_forall in Hvis |- *. intros c Hin Hv.
    apply elem_of_cons in Hv as [->|Hv]; [|by apply (Hvis c)].
    apply Hnin. by apply list_elem_of_In. }
  exists (deep_merge base own). cbn [merge_all]. by rewrite Hm.
Qed.

(** Without enough fuel the chain of files is longer than the fuel. *)
Lemma load_fuel files base_dir all : (forall c, read_to_string files c <> None -> c ∈ all) ->
  forall fuel path visited, NoDup visited -> (forall c, c ∈ visited -> c ∈ all) ->
  length all < fuel + length visited ->
  load_yaml_with_extends fuel files path base_dir visited <> None.
Proof.
  intros Hall. induction fuel as [|fuel IH]; intros path visited Hnd Hsub Hlen.
  { exfalso. assert (length visited <= length all); [|cbn in Hlen; lia].
    apply submseteq_length, NoDup_submseteq; auto. }
  rewrite load_unfold. cbn zeta. case_bool_decide as Hin; [done|].
  destruct (document files base_dir path) as [v|] eqn:Hdoc; [|done].
  destruct (take_extends v) as [[ext own]|]; [|done].
  destruct (parent_of _ _ _) as [parent|]; [|done].
  destruct (load_yaml_with_extends fuel files parent base_dir _) as [[base|e]|] eqn:Hl; try done.
  exfalso. revert Hl. apply IH.
  - by constructor.
  - intros c Hc. apply elem_of_cons in Hc as [->|Hc]; [|by apply Hsub].
    apply Hall. unfold document in Hdoc. by destruct (read_to_string files _).
  - cbn [length]. lia.
Qed.

(** The files of an ancestry can be read. *)
Lemma ancestry_readable files base_dir path l : ancestry files base_dir path l ->
  Forall (fun c => read_to_string files c <> None) (map fst l).
Proof.
  assert (Hread : forall path v, document files base_dir path = Some v ->
    read_to_string files (canonical_path files base_dir path) <> None).
  { intros p v. unfold document. by destruct (read_to_string files _). }
  induction 1; cbn; eauto.
Qed.

(** A load that succeeds has read an ancestry without repetition. *)
Lemma load_ok files base_dir fuel : forall path visited v,
  load_yaml_with_extends fuel files path base_dir visited = Some (Ok v) ->
  exists l, ancestry files base_dir path l /\ NoDup (map fst l) /\
    Forall (fun c => c ∉ visited) (map fst l) /\ merge_all l = Some v.
Proof.
  induction fuel as [|fuel IH]; intros path visited v; [done|].
  rewrite load_unfold. cbn zeta. case_bool_decide as Hin; [done|].
  destruct (document files base_dir path) as [w|] eqn:Hdoc; [|done].
  destruct (take_extends w) as [[ext own]|] eqn:He.
  - destruct (parent_of _ _ _) as [parent|] eqn:Hp; [|done].
    destruct (load_yaml_with_extends fuel files parent base_dir _) as [[base|e]|] eqn:Hl; try done.
    intros [= <-]. apply IH in Hl as (l & Ha & Hnd & Hv & Hm).
    exists ((canonical_path files base_dir path, own) :: l). cbn [map fst].
    rewrite List.Forall_forall in Hv. split_and!.
    + by eapply ancestry_child.
    + apply NoDup_cons. split; [|done]. intros Hc. apply list_elem_of_In, Hv in Hc.
      apply Hc. by apply elem_of_cons; left.
    + constructor; [done|]. apply List.Forall_forall. intros c Hc Hc'.
      apply (Hv c Hc). by apply elem_of_cons; right.
    + cbn [merge_all]. by rewrite Hm.
  - intros [= <-]. exists [(canonical_path files base_dir path, w)]. cbn. split_and!.
    + by constructor.
    + repeat constructor. by intros ?%elem_of_nil.
    + by repeat constructor.
    + done.
Qed.
End Merge.

(** ** Examples: values with three keys *)

Inductive DemoKey := DemoExtends | DemoA | DemoB.
Inductive DemoValue :=
| DemoLeaf (s : string)
| DemoNode (e a b : option DemoValue).
#[export] Instance DemoKey_eq_dec : EqDecision DemoKey.
Proof. solve_decision. Defined.

Definition DemoMapping : Type := option DemoValue * option DemoValue * option DemoValue.
Definition demo_field (m : DemoMapping) (k : DemoKey) : option DemoValue :=
  match k with DemoExtends => m.1.1 | DemoA => m.1.2 | DemoB => m.2 end.
Definition demo_update (m : DemoMapping) (k : DemoKey) (o : option DemoValue) : DemoMapping :=
  match k with
  | DemoExtends => (o, m.1.2, m.2) | DemoA => (m.1.1, o, m.2) | DemoB => (m.1, o)
  end.
Fixpoint demo_depth (v : DemoValue) : nat :=
  match v with
  | DemoLeaf _ => 0
  | DemoNode e a b =>
      let d o := match o with Some v => S (demo_depth v) | None => 0 end in
      d e + d a + d b
  end.

Definition demo_child : DemoValue :=
  DemoNode (Some (DemoLeaf "parent.yaml")) (Some (DemoNode None (Some (DemoLeaf "1")) None)) None.
Definition demo_parent : DemoValue :=
  DemoNode None (Some (DemoNode None (Some (DemoLeaf "2")) (Some (DemoLeaf "3")))) (Some (DemoLeaf "4")).

#[export] Instance demo_yaml : Yaml := {|
  Value := DemoValue;
  Key := DemoKey;
  Mapping := DemoMapping;
  as_mapping := fun v => match v with DemoNode e a b => Some (e, a, b) | DemoLeaf _ => None end;
  of_mapping := fun m => DemoNode m.1.1 m.1.2 m.2;
  entries := fun m => omap (fun k => v ← demo_field m k; Some (k, v)) [DemoExtends; DemoA; DemoB];
  m_get := demo_field;
  m_insert := fun m k v => demo_update m k (Some v);
  m_remove := fun m k => demo_update m k None;
  extends_key := DemoExtends;
  as_path := fun v => match v with DemoLeaf s => Some s | DemoNode _ _ _ => None end;
  from_str := fun s =>
    if String.eqb s "child" then Some demo_child
    else if String.eqb s "parent" then Some demo_parent else None;
  depth := demo_depth
|}.

#[export] Instance demo_yaml_laws : YamlLaws.
Proof.
  split.
  - by intros [[e a] b].
  - intros [s|e a b] [[e' a'] b']; cbn; [done|]. by intros [= -> -> ->].
  - intros [[[e|] [a|]] [b|]]; cbn; repeat constructor; intros Hin;
      repeat (apply elem_of_cons in Hin as [Hin|Hin]; [discriminate|]); by apply elem_of_nil in Hin.
  - intros [[e a] b] k v. destruct e, a, b, k; cbn; naive_solver.
  - by intros [[e a] b] [] [].
  - by intros [[e a] b] [] [].
  - intros [[e a] b] [] v; cbn; intros ->; lia.
Qed.

Definition demo_files : Files := {|
  canonicalize := fun p => Some (if String.eqb p "/s/parent.yaml" then p else "/s/child.yaml");
  read_to_string := fun p =>
    if String.eqb p "/s/child.yaml" then Some "child"
    else if String.eqb p "/s/parent.yaml" then Some "parent" else None
|}.

(** ** Properties *)

(** C27. Loading a scenario ends, and succeeds exactly on a finite line of ancestors.  In a
    file system with finitely many readable files, following [extends] returns within one
    turn for each file and one more, cycles included; it succeeds if and only if the files
    from the scenario up to an ancestor without [extends] can all be read and parsed and
    none comes twice, and the result is then those documents merged, children over
    parents. *)
Theorem scenario_inheritance `{Yaml} path_parent files base_dir all path fuel :
  (forall c, read_to_string files c <> None -> c ∈ all) -> length all < fuel ->
  exists r, load_yaml_with_extends path_parent fuel files path base_dir [] = Some r /\
    (forall v, r = Ok v <-> exists l, ancestry path_parent files base_dir path l /\
      NoDup (map fst l) /\ merge_all l = Some v).
Proof.
  intros Hall Hfuel.
  destruct (load_yaml_with_extends _ fuel files path base_dir []) as [r|] eqn:Hl.
  2: { exfalso. revert Hl. apply (load_fuel _ _ _ all Hall); [constructor| |cbn; lia].
       by intros c ?%elem_of_nil. }
  exists r. split; [done|]. intros v. split.
  - intros ->. apply load_ok in Hl as (l & Ha & Hnd & _ & Hm). eauto.
  - intros (l & Ha & Hnd & Hm).
    assert (Hlen : length l <= length all).
    { rewrite <- (length_map fst l). apply submseteq_length, NoDup_submseteq; [done|].
      intros c Hc. apply Hall. pose proof (ancestry_readable _ _ _ _ _ Ha) as Hr.
      rewrite Forall_forall in Hr. by apply Hr. }
    destruct (load_ancestry _ _ _ _ _ Ha fuel []) as (v' & Hl' & Hm'); [lia|done| |congruence].
    apply Forall_true. intros c ?%elem_of_nil. done.
Qed.

Lemma scenario_inheritance_witness :
  exists r, load_yaml_with_extends (fun _ => "/s") 3 demo_files "child.yaml" "/s" [] = Some r /\
    r = Ok (DemoNode None (Some (DemoNode None (Some (DemoLeaf "1")) (Some (DemoLeaf "3"))))
              (Some (DemoLeaf "4"))).
Proof.
  destruct (scenario_inheritance (fun _ => "/s") demo_files "/s" ["/s/child.yaml"; "/s/parent.yaml"]
    "child.yaml" 3) as (r & Hr & _).
  - intros c. cbn. destruct (String.eqb_spec c "/s/child.yaml") as [->|]; [by left|].
    destruct (String.eqb_spec c "/s/parent.yaml") as [->|]; [by right; left|done].
  - cbn. lia.
  - exists r. split; [exact Hr|]. vm_compute in Hr. by injection Hr as <-.
Defined.

(** C40. The nearest document decides.  In a scenario merged over its parents, a scalar or
    sequence that the scenario has at a path is the merged value at that path, whatever
    the parents say; at a path that it leaves open - one that ends at a key its mappings
    do not have - the merged value is the parents'. *)
Theorem nearest_document_decides `{YamlLaws} path c v l x :
  (lookup_path path v = Some x -> as_mapping x = None ->
     (merge_all ((c, v) :: l) ≫= lookup_path path) = Some x) /\
  (leaves_open path v = true -> (merge_all l ≫= lookup_path path) = Some x ->
     (merge_all ((c, v) :: l) ≫= lookup_path path) = Some x).
Proof.
  split; [|apply merge_all_inherits]. cbn [merge_all].
  destruct (merge_all l) as [base|]; [|done]. cbn [mbind option_bind]. intros Hp Hx.
  apply merge_fuel_overrides; [lia|done|done].
Qed.

Lemma nearest_document_decides_witness :
  (merge_all [("c", demo_child); ("p", demo_parent)] ≫= @lookup_path demo_yaml [DemoA; DemoA])
  = Some (DemoLeaf "1") /\
  (merge_all [("c", demo_child); ("p", demo_parent)] ≫= @lookup_path demo_yaml [DemoA; DemoB])
  = Some (DemoLeaf "3").
Proof.
  split.
  - apply (proj1 (@nearest_document_decides demo_yaml demo_yaml_laws [DemoA; DemoA] "c" demo_child
      [("p", demo_parent)] (DemoLeaf "1")));
      reflexivity.
  - apply (proj2 (@nearest_document_decides demo_yaml demo_yaml_laws [DemoA; DemoB] "c" demo_child
      [("p", demo_parent)] (DemoLeaf "3")));
      reflexivity.
Defined.
