(* ===== verification/SimConfig.v ===== *)
(** * SimConfig: the simulator's scenarios (src/sim/config.rs)

    The records of a scenario, the parsing of sizes, and the validation of a loaded
    scenario.  Deserialization is [serde]'s, except for the parsing the program does in it.
    A [HashMap] is a list of its entries, in the order in which it is iterated, which the
    standard library leaves open. *)

From Stdlib Require Import ZArith Lia SpecFloat Ascii String.
From stdpp Require Import base tactics numbers list strings pretty.
From S2P Require Import Prelude Float RustStr SimExpr.
Local Open Scope string_scope.
Local Open Scope list_scope.
Local Open Scope Z_scope.

(** ** Hash maps with string keys *)

Definition HashMap (A : Type) := list (string * A).

Fixpoint hm_get {A} (m : HashMap A) (k : string) : option A :=
  match m with
  | [] => None
  | (k', v) :: m => if String.eqb k' k then Some v else hm_get m k
  end.
Fixpoint hm_insert {A} (m : HashMap A) (k : string) (v : A) : HashMap A :=
  match m with
  | [] => [(k, v)]
  | (k', v') :: m => if String.eqb k' k then (k, v) :: m else (k', v') :: hm_insert m k v
  end.
(** [entry(k).or_insert(v)]: an entry already there stays. *)
Definition hm_or_insert {A} (m : HashMap A) (k : string) (v : A) : HashMap A :=
  match hm_get m k with Some _ => m | None => hm_insert m k v end.

(** ** Sizes *)

(** [char::is_alphabetic] on ASCII. *)
Definition is_alphabetic (c : ascii) : bool :=
  let n := ascii_code c in ((65 <=? n) && (n <=? 90)) || ((97 <=? n) && (n <=? 122)).

Fixpoint split_num_unit (s : string) : string * string :=
  match s with
  | "" => ("", "")
  | String c r =>
      if is_alphabetic c then ("", s)
      else let '(num, unit) := split_num_unit r in (String c num, unit)
  end.

Inductive SizeError := CannotParseNumber | UnsupportedUnit (unit : string).

Definition parse_byte_string (s : string) : result Z SizeError :=
  let s := trim s in
  let '(num_part, unit_part) := split_num_unit s in
  let? n := ok_or (parse_f64 (trim num_part)) CannotParseNumber in
  let unit := to_uppercase (trim unit_part) in
  let? mul :=
    if String.eqb unit "B" || String.eqb unit "" then Ok 1
    else if String.eqb unit "KB" || String.eqb unit "KIB" then Ok 1024
    else if String.eqb unit "MB" || String.eqb unit "MIB" then Ok (1024 * 1024)
    else if String.eqb unit "GB" || String.eqb unit "GIB" then Ok (1024 * 1024 * 1024)
    else Err (UnsupportedUnit unit) in
  Ok (f_to_u64 (f64_mul n (f64_of_Z mul))).

Definition parse_megabyte_string (s : string) : result Z SizeError :=
  let s := trim s in
  let '(num_part, unit_part) := split_num_unit s in
  let? n := ok_or (parse_f64 (trim num_part)) CannotParseNumber in
  let unit := to_uppercase (trim unit_part) in
  if String.eqb unit "MB" || String.eqb unit "MIB" || String.eqb unit "" then Ok (f_to_u32 n)
  else Err (UnsupportedUnit unit).

Inductive StringOrU64 := Str (s : string) | Int (n : Z).

Definition deserialize_bytes (v : StringOrU64) : result Z SizeError :=
  match v with Int n => Ok n | Str s => parse_byte_string s end.
(** The cast of an integer to [u32] keeps its low bits. *)
Definition deserialize_megabytes (v : StringOrU64) : result Z SizeError :=
  match v with Int n => Ok (wrap 0 u32_max n) | Str s => parse_megabyte_string s end.

(** ** The schema *)

Inductive CompositionOp := OpMultiply | OpAdd | OpAddDelta | OpMax | OpMin.
#[export] Instance CompositionOp_eq_dec : EqDecision CompositionOp.
Proof. solve_decision. Defined.

Record Composition := {
  comp_default : CompositionOp;
  per_dimension : HashMap CompositionOp
}.

Record ClusterThermalDynamics := {
  ct_baseline : f64;
  ct_tau_s : f64;
  heating : HashMap f64
}.
Record ThermalCoupling := { cpu_to_gpu : f64; gpu_to_cpu : f64 }.

Record DvfsCluster := {
  soft_threshold_c : f64;
  hard_threshold_c : f64;
  k_thermal : f64;
  dvfs_tau_s : f64
}.
Record DvfsConfig := { dvfs_cpu : DvfsCluster; dvfs_gpu : DvfsCluster }.

Record ExternalInjection := {
  t_start : f64;
  inj_duration : f64;
  inj_var : string;
  inj_op : string;
  inj_delta : option f64;
  delta_mb : option f64;
  inj_tau_s : f64
}.

Record NoiseSpec := {
  sigma : option f64;
  sigma_mb : option f64;
  sigma_mc : option f64;
  seed_key : string
}.
Record HeartbeatObservation := { interval_s : f64; hb_noise : HashMap NoiseSpec }.
Record SignalSourceConfig := {
  sig_source : string;
  poll_interval_s : f64;
  sig_noise : HashMap NoiseSpec
}.
Record SignalsObservation := {
  obs_memory : SignalSourceConfig;
  obs_compute : SignalSourceConfig;
  obs_thermal : SignalSourceConfig;
  obs_energy : SignalSourceConfig
}.
Record ObservationConfig := { heartbeat : HeartbeatObservation; signals : SignalsObservation }.

(** Sizes are [u64] ([Bytes]), counts and frequencies [u32]. *)
Record InitialState := {
  i_kv_cache_bytes : Z;
  i_kv_cache_capacity_bytes : Z;
  i_kv_cache_tokens : Z;
  i_kv_cache_token_capacity : Z;
  i_kv_dtype : string;
  i_device_memory_total_mb : Z;
  i_device_memory_used_mb : Z;
  i_memory_bw_utilization_pct : f64;
  i_engine_cpu_pct : f64;
  i_external_cpu_pct : f64;
  i_cpu_freq_mhz : Z;
  i_cpu_max_freq_mhz : Z;
  i_cpu_min_freq_mhz : Z;
  i_engine_gpu_pct : f64;
  i_external_gpu_pct : f64;
  i_gpu_freq_mhz : Z;
  i_gpu_max_freq_mhz : Z;
  i_gpu_min_freq_mhz : Z;
  i_thermal_c : f64;
  i_cpu_cluster_thermal_c : f64;
  i_gpu_cluster_thermal_c : f64;
  i_throttle_threshold_c : f64;
  i_phase : string;
  i_base_tps_decode_gpu : f64;
  i_base_tps_decode_cpu : f64;
  i_base_tps_decode_partition : f64;
  i_base_tps_prefill_gpu : f64;
  i_active_device : string;
  i_active_actions : list string;
  i_partition_ratio : f64;
  i_throttle_delay_ms : f64;
  i_tbt_target_ms : f64
}.

(** ** Validation of the initial state *)

Inductive ValidationError :=
| KvCacheBytesExceedsCapacity | MemoryUsedExceedsTotal | KvTokensExceedsCapacity.

Definition validate_kv_cache_capacity (state : InitialState) : result unit ValidationError :=
  if i_kv_cache_capacity_bytes state <? i_kv_cache_bytes state
  then Err KvCacheBytesExceedsCapacity else Ok tt.
Definition validate_device_memory (state : InitialState) : result unit ValidationError :=
  if i_device_memory_total_mb state <? i_device_memory_used_mb state
  then Err MemoryUsedExceedsTotal else Ok tt.
Definition validate_kv_token_capacity (state : InitialState) : result unit ValidationError :=
  if i_kv_cache_token_capacity state <? i_kv_cache_tokens state
  then Err KvTokensExceedsCapacity else Ok tt.

Section Scenario.
Context `{Evalexpr}.

(** ** The schema: effects and expressions *)

Inductive ExprOrValue :=
| Literal (x : f64)
| Expr (e : CompiledExpr)
| StringLiteral (s : string).

Inductive RawValue := RawFloat (x : f64) | RawInt (i : Z) | RawBool (b : bool) | RawStr (s : string).

Definition deserialize_expr_or_value (raw : RawValue) : ExprOrValue :=
  match raw with
  | RawFloat x => Literal x
  | RawInt i => Literal (f64_of_Z i)
  | RawBool b => Literal (if b then f64_lit 1 1 else f_zero)
  | RawStr s =>
      match compile_expr s with Some e => Expr e | None => StringLiteral s end
  end.

Inductive Effect :=
| EffSet (value : ExprOrValue) (tau_s : f64)
| EffScale (factor : ExprOrValue) (tau_s : f64)
| EffAdd (value : ExprOrValue) (tau_s : f64)
| EffSetTau (value : f64).

Record ActionSpec := { act_when : option CompiledExpr; act_effects : HashMap Effect }.
Record InteractionTerm := { term_actions : list string; term_effects : HashMap Effect }.
Record KvCacheGrowth := { growth_per_token : HashMap Z; applies_when : CompiledExpr }.
Record DerivedExpr := { der_expr : CompiledExpr; der_tau_s : f64 }.

Record PassiveDynamics := {
  pd_cpu_cluster_thermal_c : ClusterThermalDynamics;
  pd_gpu_cluster_thermal_c : ClusterThermalDynamics;
  thermal_coupling : ThermalCoupling;
  pd_thermal_c : DerivedExpr;
  pd_memory_bw_utilization_pct : DerivedExpr;
  pd_kv_cache_bytes : KvCacheGrowth
}.

Record ScenarioConfig := {
  sc_extends : option string;
  sc_initial_state : InitialState;
  sc_actions : HashMap ActionSpec;
  sc_composition : Composition;
  sc_interactions : list InteractionTerm;
  sc_passive_dynamics : PassiveDynamics;
  sc_dvfs : DvfsConfig;
  sc_derived : HashMap DerivedExpr;
  sc_external_injections : list ExternalInjection;
  sc_observation : ObservationConfig;
  sc_rng_seed : option Z
}.

(** ** Trying out the expressions *)

(** An entry of the error list: where, and the source of the expression. *)
Record ExprError := { err_location : string; err_source : string }.

Definition check_expr_node (ctx : ExprContext) (expr : CompiledExpr) (location : string)
    (errors : list ExprError) : list ExprError :=
  match eval_float (tree expr) ctx with
  | Some _ => errors
  | None =>
      match eval_boolean (tree expr) ctx with
      | Some _ => errors
      | None =>
          match eval_string (tree expr) ctx with
          | Some _ => errors
          | None => errors ++ [{| err_location := location; err_source := source expr |}]
          end
      end
  end.
Definition check_expr := check_expr_node.

Definition check_effect_exprs (ctx : ExprContext) (effect : Effect) (location : string)
    (errors : list ExprError) : list ExprError :=
  match effect with
  | EffSet (Expr e) _ | EffAdd (Expr e) _ => check_expr ctx e location errors
  | EffScale (Expr e) _ => check_expr ctx e location errors
  | _ => errors
  end.

Definition check_effects (ctx : ExprContext) (prefix : string) (effects : HashMap Effect)
    (errors : list ExprError) : list ExprError :=
  fold_left (fun errors '(dim, effect) =>
    check_effect_exprs ctx effect (prefix +:+ "." +:+ dim) errors) effects errors.

Definition check_action (ctx : ExprContext) (errors : list ExprError)
    (entry : string * ActionSpec) : list ExprError :=
  let '(action_name, spec) := entry in
  let errors :=
    match act_when spec with
    | Some e => check_expr_node ctx e ("actions." +:+ action_name +:+ ".when") errors
    | None => errors
    end in
  check_effects ctx ("actions." +:+ action_name) (act_effects spec) errors.

Fixpoint check_interactions (ctx : ExprContext) (i : Z) (terms : list InteractionTerm)
    (errors : list ExprError) : list ExprError :=
  match terms with
  | [] => errors
  | term :: terms =>
      check_interactions ctx (i + 1) terms
        (check_effects ctx ("interactions[" +:+ pretty i +:+ "]") (term_effects term) errors)
  end.

Definition validate_expressions (cfg : ScenarioConfig)
    : outcome (result unit (list ExprError)) :=
  let! ctx := make_dry_run_context in
  let pd := sc_passive_dynamics cfg in
  let errors := check_expr ctx (der_expr (pd_thermal_c pd)) "passive_dynamics.thermal_c" [] in
  let errors := check_expr ctx (der_expr (pd_memory_bw_utilization_pct pd))
    "passive_dynamics.memory_bw_utilization_pct" errors in
  let errors := check_expr ctx (applies_when (pd_kv_cache_bytes pd))
    "passive_dynamics.kv_cache_bytes.applies_when" errors in
  let errors := fold_left (fun errors '(name, d) =>
    check_expr ctx (der_expr d) ("derived." +:+ name) errors) (sc_derived cfg) errors in
  let errors := fold_left (check_action ctx) (sc_actions cfg) errors in
  let errors := check_interactions ctx 0 (sc_interactions cfg) errors in
  Return (match errors with [] => Ok tt | _ => Err errors end).
End Scenario.

(** ** Lemmas: hash maps *)

Lemma hm_insert_get {A} (m : HashMap A) k k' v :
  hm_get (hm_insert m k v) k' = if String.eqb k k' then Some v else hm_get m k'.
Proof.
  induction m as [|[k1 v1] m IH]; cbn; [done|].
  destruct (String.eqb_spec k1 k) as [->|Hne]; cbn.
  - by destruct (String.eqb_spec k k').
  - destruct (String.eqb_spec k1 k') as [->|]; [|done].
    destruct (String.eqb_spec k k'); [congruence|done].
Qed.

Lemma hm_insert_keys {A} (m : HashMap A) k v :
  map fst (hm_insert m k v) = map fst m ++ (if hm_get m k then [] else [k]).
Proof.
  induction m as [|[k' v'] m IH]; cbn; [done|].
  destruct (String.eqb_spec k' k) as [->|]; cbn; [by rewrite app_nil_r|]. by rewrite IH.
Qed.

Lemma hm_get_None {A} (m : HashMap A) k : hm_get m k = None <-> k ∉ map fst m.
Proof.
  induction m as [|[k' v'] m IH]; cbn; [split; [by intros _ ?%elem_of_nil|done]|].
  destruct (String.eqb_spec k' k) as [->|Hne].
  - split; [done|]. intros Hn. destruct Hn. by left.
  - rewrite IH, not_elem_of_cons. naive_solver.
Qed.

Lemma hm_insert_nodup {A} (m : HashMap A) k v :
  NoDup (map fst m) -> NoDup (map fst (hm_insert m k v)).
Proof.
  intros Hm. rewrite hm_insert_keys. destruct (hm_get m k) eqn:Hg; [by rewrite app_nil_r|].
  apply NoDup_app. apply hm_get_None in Hg. split_and!; [done| |apply NoDup_singleton].
  intros x Hx ->%list_elem_of_singleton. done.
Qed.

Lemma hm_get_Some {A} (m : HashMap A) k v : NoDup (map fst m) ->
  hm_get m k = Some v <-> (k, v) ∈ m.
Proof.
  induction m as [|[k' v'] m IH]; cbn; intros Hnd; [by split; [|intros ?%elem_of_nil]|].
  apply NoDup_cons in Hnd as [Hnin Hnd]. rewrite elem_of_cons.
  destruct (String.eqb_spec k' k) as [->|Hne].
  - split; [intros [= ->]; by left|]. intros [[= ->]|Hin]; [done|]. destruct Hnin.
    apply list_elem_of_In, in_map_iff. exists (k, v). by rewrite <- list_elem_of_In.
  - rewrite IH by done. split; [by right|]. intros [[= -> ->]|]; done.
Qed.

Lemma hm_get_perm {A} (m1 m2 : HashMap A) k :
  NoDup (map fst m1) -> m1 ≡ₚ m2 -> hm_get m1 k = hm_get m2 k.
Proof.
  intros Hnd Hp. assert (Hnd2 : NoDup (map fst m2)) by (by rewrite <- Hp).
  destruct (hm_get m2 k) as [v|] eqn:H2.
  - apply hm_get_Some in H2; [|done]. apply hm_get_Some; [done|]. by rewrite Hp.
  - rewrite hm_get_None in *. by rewrite Hp.
Qed.
