(* ===== verification/SimState.v ===== *)
(** * SimState: the simulated device and engine (src/sim/state.rs)

    [PhysicalState] is a structure of twenty-eight [f64] fields and a string, whose fields
    scenarios read and write by name; here the fields are enumerated by [Field], and the
    structure is their values.  [EngineStateModel] is what the engine has been told. *)

From Stdlib Require Import ZArith Lia SpecFloat String.
From stdpp Require Import base tactics numbers list strings.
From S2P Require Import Prelude Float Signal Wire SimExpr SimConfig.
Local Open Scope string_scope.
Local Open Scope list_scope.

(** ** The physical state *)

Inductive Field :=
| F_kv_cache_bytes | F_kv_cache_capacity_bytes | F_kv_cache_tokens | F_kv_cache_token_capacity
| F_device_memory_total_mb | F_device_memory_used_mb | F_memory_bw_utilization_pct
| F_engine_cpu_pct | F_external_cpu_pct | F_cpu_freq_mhz | F_cpu_max_freq_mhz
| F_cpu_min_freq_mhz | F_engine_gpu_pct | F_external_gpu_pct | F_gpu_freq_mhz
| F_gpu_max_freq_mhz | F_gpu_min_freq_mhz | F_thermal_c | F_cpu_cluster_thermal_c
| F_gpu_cluster_thermal_c | F_throttle_threshold_c | F_base_tps_decode_gpu
| F_base_tps_decode_cpu | F_base_tps_decode_partition | F_base_tps_prefill_gpu | F_throughput_tps
| F_tbt_ms | F_latency_degradation.
#[export] Instance Field_eq_dec : EqDecision Field.
Proof. solve_decision. Defined.

Record PhysicalState := { num : Field -> f64; kv_dtype : string }.

(** Assignment to one field. *)
Definition assign (s : PhysicalState) (f : Field) (x : f64) : PhysicalState :=
  {| num := fun g => if decide (g = f) then x else num s g; kv_dtype := kv_dtype s |}.
Definition assign_dtype (s : PhysicalState) (d : string) : PhysicalState :=
  {| num := num s; kv_dtype := d |}.

Definition PhysicalState_from_config (init : InitialState) : PhysicalState := {|
  num := fun f => match f with
    | F_kv_cache_bytes => f64_of_Z (i_kv_cache_bytes init)
    | F_kv_cache_capacity_bytes => f64_of_Z (i_kv_cache_capacity_bytes init)
    | F_kv_cache_tokens => f64_of_Z (i_kv_cache_tokens init)
    | F_kv_cache_token_capacity => f64_of_Z (i_kv_cache_token_capacity init)
    | F_device_memory_total_mb => f64_of_Z (i_device_memory_total_mb init)
    | F_device_memory_used_mb => f64_of_Z (i_device_memory_used_mb init)
    | F_memory_bw_utilization_pct => i_memory_bw_utilization_pct init
    | F_engine_cpu_pct => i_engine_cpu_pct init
    | F_external_cpu_pct => i_external_cpu_pct init
    | F_cpu_freq_mhz => f64_of_Z (i_cpu_freq_mhz init)
    | F_cpu_max_freq_mhz => f64_of_Z (i_cpu_max_freq_mhz init)
    | F_cpu_min_freq_mhz => f64_of_Z (i_cpu_min_freq_mhz init)
    | F_engine_gpu_pct => i_engine_gpu_pct init
    | F_external_gpu_pct => i_external_gpu_pct init
    | F_gpu_freq_mhz => f64_of_Z (i_gpu_freq_mhz init)
    | F_gpu_max_freq_mhz => f64_of_Z (i_gpu_max_freq_mhz init)
    | F_gpu_min_freq_mhz => f64_of_Z (i_gpu_min_freq_mhz init)
    | F_thermal_c => i_thermal_c init
    | F_cpu_cluster_thermal_c => i_cpu_cluster_thermal_c init
    | F_gpu_cluster_thermal_c => i_gpu_cluster_thermal_c init
    | F_throttle_threshold_c => i_throttle_threshold_c init
    | F_base_tps_decode_gpu => i_base_tps_decode_gpu init
    | F_base_tps_decode_cpu => i_base_tps_decode_cpu init
    | F_base_tps_decode_partition => i_base_tps_decode_partition init
    | F_base_tps_prefill_gpu => i_base_tps_prefill_gpu init
    | F_throughput_tps => f_zero
    | F_tbt_ms => f_zero
    | F_latency_degradation => f_zero
    end;
  kv_dtype := i_kv_dtype init
|}.

(** The names of the fields, in the order in which they are bound. *)
Definition fields : list (string * Field) :=
  [("kv_cache_bytes", F_kv_cache_bytes); ("kv_cache_capacity_bytes", F_kv_cache_capacity_bytes);
   ("kv_cache_tokens", F_kv_cache_tokens);
   ("kv_cache_token_capacity", F_kv_cache_token_capacity);
   ("device_memory_total_mb", F_device_memory_total_mb);
   ("device_memory_used_mb", F_device_memory_used_mb);
   ("memory_bw_utilization_pct", F_memory_bw_utilization_pct);
   ("engine_cpu_pct", F_engine_cpu_pct); ("external_cpu_pct", F_external_cpu_pct);
   ("cpu_freq_mhz", F_cpu_freq_mhz); ("cpu_max_freq_mhz", F_cpu_max_freq_mhz);
   ("cpu_min_freq_mhz", F_cpu_min_freq_mhz); ("engine_gpu_pct", F_engine_gpu_pct);
   ("external_gpu_pct", F_external_gpu_pct); ("gpu_freq_mhz", F_gpu_freq_mhz);
   ("gpu_max_freq_mhz", F_gpu_max_freq_mhz); ("gpu_min_freq_mhz", F_gpu_min_freq_mhz);
   ("thermal_c", F_thermal_c); ("cpu_cluster_thermal_c", F_cpu_cluster_thermal_c);
   ("gpu_cluster_thermal_c", F_gpu_cluster_thermal_c);
   ("throttle_threshold_c", F_throttle_threshold_c);
   ("base_tps_decode_gpu", F_base_tps_decode_gpu);
   ("base_tps_decode_cpu", F_base_tps_decode_cpu);
   ("base_tps_decode_partition", F_base_tps_decode_partition);
   ("base_tps_prefill_gpu", F_base_tps_prefill_gpu); ("throughput_tps", F_throughput_tps);
   ("tbt_ms", F_tbt_ms); ("latency_degradation", F_latency_degradation)].
Definition field_of_name (name : string) : option Field := hm_get fields name.

Definition get_f64 (s : PhysicalState) (field : string) : option f64 :=
  match field_of_name field with Some f => Some (num s f) | None => None end.
(** [set_f64]: the state, and whether the field is known. *)
Definition put_f64 (s : PhysicalState) (field : string) (value : f64) : PhysicalState * bool :=
  match field_of_name field with
  | Some f => (assign s f value, true)
  | None => (s, false)
  end.

(** ** The engine *)

Record EngineStateModel := {
  active_device : string;
  active_actions : list string;
  engine_phase : string;
  partition_ratio : f64;
  throttle_delay_ms : f64;
  tbt_target_ms : f64;
  skip_ratio : f64;
  kv_quant_bits : option Z;
  last_evict_ratio : option f64;
  last_switch_device : option string
}.

Definition EngineStateModel_from_config (init : InitialState) : EngineStateModel := {|
  active_device := i_active_device init;
  active_actions := i_active_actions init;
  engine_phase := i_phase init;
  partition_ratio := i_partition_ratio init;
  throttle_delay_ms := i_throttle_delay_ms init;
  tbt_target_ms := i_tbt_target_ms init;
  skip_ratio := f_zero;
  kv_quant_bits := None;
  last_evict_ratio := None;
  last_switch_device := None
|}.

Definition apply_command (e : EngineStateModel) (cmd : EngineCommand) : EngineStateModel :=
  match cmd with
  | KvCompress budget =>
      {| active_device := active_device e; active_actions := active_actions e;
         engine_phase := engine_phase e; partition_ratio := partition_ratio e;
         throttle_delay_ms := throttle_delay_ms e; tbt_target_ms := tbt_target_ms e;
         skip_ratio := skip_ratio e; kv_quant_bits := kv_quant_bits e;
         last_evict_ratio := Some (f64_of_f32 budget);
         last_switch_device := last_switch_device e |}
  | RestoreDefaults =>
      {| active_device := active_device e; active_actions := [];
         engine_phase := engine_phase e; partition_ratio := f_zero;
         throttle_delay_ms := f_zero; tbt_target_ms := tbt_target_ms e;
         skip_ratio := f_zero; kv_quant_bits := kv_quant_bits e;
         last_evict_ratio := None; last_switch_device := last_switch_device e |}
  | Suspend | Resume => e
  | GpuYield _ | GpuOffload _ => e
  end.
Definition apply_directive (e : EngineStateModel) (d : EngineDirective) : EngineStateModel :=
  fold_left apply_command (commands d) e.

(** ** Binding to an expression's context *)

Definition state_bindings (s : PhysicalState) : list (string * EValue) :=
  map (fun '(name, f) => (name, EFloat (num s f))) fields ++ [("kv_dtype", EString (kv_dtype s))].

Definition engine_bindings (e : EngineStateModel) : list (string * EValue) :=
  [("active_device", EString (active_device e));
   ("phase", EString (engine_phase e));
   ("partition_ratio", EFloat (partition_ratio e));
   ("throttle_delay_ms", EFloat (throttle_delay_ms e));
   ("tbt_target_ms", EFloat (tbt_target_ms e));
   ("skip_ratio", EFloat (skip_ratio e));
   ("target_ratio", EFloat (default f_zero (last_evict_ratio e)));
   ("delay_ms", EFloat (throttle_delay_ms e));
   ("ratio", EFloat (partition_ratio e));
   ("device", EString (default (active_device e) (last_switch_device e)))].

Definition bind_state `{Evalexpr} (s : PhysicalState) (ctx : ExprContext) : outcome ExprContext :=
  bind_all ctx (state_bindings s).
Definition bind_engine `{Evalexpr} (e : EngineStateModel) (ctx : ExprContext) : outcome ExprContext :=
  bind_all ctx (engine_bindings e).

(** ** Helpers the program keeps unused *)

Definition add_action (actions : list string) (name : string) : list string :=
  if existsb (fun a => String.eqb a name) actions then actions else actions ++ [name].

Definition bits_to_dtype (bits : Z) : string :=
  (if bits =? 2 then "q2" else if bits =? 4 then "q4" else if bits =? 8 then "q8"
   else if bits =? 16 then "f16" else if bits =? 32 then "f32" else "f16")%Z.

(** ** Lemmas *)

Lemma num_assign s f g x : num (assign s f x) g = if decide (g = f) then x else num s g.
Proof. reflexivity. Qed.
#[export] Hint Rewrite num_assign : argus.

(** The table of names is a bijection. *)
Definition field_index (f : Field) : nat :=
  match find (fun '(_, (_, g)) => bool_decide (g = f)) (zip (seq 0 28) fields) with
  | Some (i, _) => i
  | None => 28%nat
  end.
Definition field_name (f : Field) : string :=
  match fields !! field_index f with Some (name, _) => name | None => "" end.

Lemma field_of_field_name f : field_of_name (field_name f) = Some f.
Proof. destruct f; vm_compute; reflexivity. Qed.
Lemma field_name_of_name name f : field_of_name name = Some f -> name = field_name f.
Proof.
  unfold field_of_name. intros H.
  assert (Hin : In (name, f) fields).
  { revert H. generalize fields. induction l as [|[n g] l IH]; cbn; [done|].
    destruct (String.eqb_spec n name) as [->|]; [intros [= ->]; by left|auto]. }
  assert (Hall : Forall (fun '(n, g) => n = field_name g) fields).
  { repeat constructor; vm_compute; reflexivity. }
  rewrite List.Forall_forall in Hall. exact (Hall _ Hin).
Qed.

Lemma get_put_f64 s n m x :
  get_f64 (put_f64 s n x).1 m =
  if (put_f64 s n x).2 && bool_decide (n = m) then Some x else get_f64 s m.
Proof.
  unfold get_f64, put_f64. destruct (field_of_name n) as [f|] eqn:Hn; cbn [fst snd andb]; [|done].
  destruct (field_of_name m) as [g|] eqn:Hm.
  - rewrite num_assign. case_decide as Hg; [subst g|].
    + apply field_name_of_name in Hn, Hm. subst. by rewrite bool_decide_eq_true_2.
    + rewrite bool_decide_eq_false_2; [done|]. intros ->. congruence.
  - rewrite bool_decide_eq_false_2; [done|]. intros ->. congruence.
Qed.
