(* ===== verification/SimPhysics.v ===== *)
(** * SimPhysics: one step of the simulated device
    (src/sim/physics.rs, src/sim/compose.rs, src/sim/derived.rs)

    A step moves frequencies, temperatures and the KV cache, applies the external
    injections whose window is open, the effects of the active actions, and the derived
    expressions.  [exp] and [powf] are the platform's and parameters of the model. *)

From Stdlib Require Import ZArith Lia SpecFloat String.
From stdpp Require Import base tactics numbers list strings.
From S2P Require Import Prelude Float Signal Wire SimClock SimExpr SimConfig SimState.
Local Open Scope string_scope.
Local Open Scope list_scope.

(** [f64::exp] and [f64::powf], whose precision the standard library leaves open. *)
Class Libm := { f64_exp : f64 -> f64; f64_powf : f64 -> f64 -> f64 }.

Inductive PhysicsError := ExprFailed (location : string).

Section Physics.
Context `{Libm} `{Evalexpr}.
Local Open Scope f64_scope.

(** ** First-order lag *)

Definition lag_step (current target tau_s dt_s : f64) : f64 :=
  if tau_s <=? f_zero then target
  else current + (target - current) * (f64_lit 1 1 - f64_exp (SFopp dt_s / tau_s)).

(** ** Frequency scaling *)

(** The clamp panics when its bounds are out of order or not numbers. *)
Definition dvfs_target_freq (thermal_c soft hard k_thermal min_freq max_freq : f64) : outcome f64 :=
  if thermal_c <? soft then Return max_freq
  else if thermal_c >=? hard then Return min_freq
  else
    let ratio := f64_lit 1 1 - k_thermal * (thermal_c - soft) / (hard - soft) in
    let! ratio := f_clamp_checked ratio (min_freq / max_freq) (f64_lit 1 1) in
    Return (max_freq * ratio).

Definition dvfs_update (s : PhysicalState) (cfg : ScenarioConfig) (dt_s : f64) : outcome PhysicalState :=
  let cpu := dvfs_cpu (sc_dvfs cfg) in
  let! cpu_target_freq := dvfs_target_freq (num s F_cpu_cluster_thermal_c) (soft_threshold_c cpu)
    (hard_threshold_c cpu) (k_thermal cpu) (num s F_cpu_min_freq_mhz) (num s F_cpu_max_freq_mhz) in
  let s := assign s F_cpu_freq_mhz
    (lag_step (num s F_cpu_freq_mhz) cpu_target_freq (dvfs_tau_s cpu) dt_s) in
  let gpu := dvfs_gpu (sc_dvfs cfg) in
  let! gpu_target_freq := dvfs_target_freq (num s F_gpu_cluster_thermal_c) (soft_threshold_c gpu)
    (hard_threshold_c gpu) (k_thermal gpu) (num s F_gpu_min_freq_mhz) (num s F_gpu_max_freq_mhz) in
  Return (assign s F_gpu_freq_mhz
    (lag_step (num s F_gpu_freq_mhz) gpu_target_freq (dvfs_tau_s gpu) dt_s)).

(** ** Heat and cache growth *)

(** The temperature a cluster tends to. *)
Definition target_thermal (dyn : ClusterThermalDynamics) (coeff_key exp_key : string)
    (default_coeff default_exp load freq max_freq : f64) : f64 :=
  let coeff := default default_coeff (hm_get (heating dyn) coeff_key) in
  let freq_exp := default default_exp (hm_get (heating dyn) exp_key) in
  let freq_ratio := freq / max_freq in
  ct_baseline dyn + coeff * load
  + f_max (f64_powf freq_ratio freq_exp - f64_lit 1 2) f_zero * f64_lit 20 1.

Definition heat (s : PhysicalState) (cfg : ScenarioConfig) (dt_s : f64) : PhysicalState :=
  let pd := sc_passive_dynamics cfg in
  let cpu_dyn := pd_cpu_cluster_thermal_c pd in
  let gpu_dyn := pd_gpu_cluster_thermal_c pd in
  let cpu_target_thermal := target_thermal cpu_dyn "engine_cpu_pct_coeff" "cpu_freq_mhz_exp"
    (f64_lit 5 100) (f64_lit 16 10) (num s F_engine_cpu_pct + num s F_external_cpu_pct)
    (num s F_cpu_freq_mhz) (num s F_cpu_max_freq_mhz) in
  let gpu_target_thermal := target_thermal gpu_dyn "engine_gpu_pct_coeff" "gpu_freq_mhz_exp"
    (f64_lit 9 100) (f64_lit 14 10) (num s F_engine_gpu_pct + num s F_external_gpu_pct)
    (num s F_gpu_freq_mhz) (num s F_gpu_max_freq_mhz) in
  let new_cpu_thermal :=
    lag_step (num s F_cpu_cluster_thermal_c) cpu_target_thermal (ct_tau_s cpu_dyn) dt_s in
  let new_gpu_thermal :=
    lag_step (num s F_gpu_cluster_thermal_c) gpu_target_thermal (ct_tau_s gpu_dyn) dt_s in
  let cpu_to_gpu := cpu_to_gpu (thermal_coupling pd) in
  let gpu_to_cpu := gpu_to_cpu (thermal_coupling pd) in
  let gap := new_cpu_thermal - new_gpu_thermal in
  let cpu_thermal := new_cpu_thermal - cpu_to_gpu * gap * dt_s in
  let gpu_thermal := new_gpu_thermal + cpu_to_gpu * gap * dt_s in
  let gap2 := new_gpu_thermal - new_cpu_thermal in
  let cpu_thermal := cpu_thermal + gpu_to_cpu * gap2 * dt_s in
  let gpu_thermal := gpu_thermal - gpu_to_cpu * gap2 * dt_s in
  assign (assign s F_cpu_cluster_thermal_c cpu_thermal) F_gpu_cluster_thermal_c gpu_thermal.

Definition grow_kv (s : PhysicalState) (engine : EngineStateModel) (cfg : ScenarioConfig)
    (dt_s : f64) : PhysicalState :=
  let grow := pd_kv_cache_bytes (sc_passive_dynamics cfg) in
  if String.eqb (engine_phase engine) "decode" || String.eqb (engine_phase engine) "prefill" then
    match hm_get (growth_per_token grow) (kv_dtype s) with
    | Some bytes_per_token =>
        let tokens_per_dt :=
          if num s F_throughput_tps >? f_zero then num s F_throughput_tps * dt_s
          else f64_lit 1 1 in
        let growth := f64_of_Z bytes_per_token * tokens_per_dt in
        assign s F_kv_cache_bytes
          (f_min (num s F_kv_cache_bytes + growth) (num s F_kv_cache_capacity_bytes))
    | None => s
    end
  else s.

Definition passive_dynamics (s : PhysicalState) (engine : EngineStateModel) (cfg : ScenarioConfig)
    (dt_s : f64) : PhysicalState :=
  grow_kv (heat s cfg dt_s) engine cfg dt_s.

(** ** External injections *)

Definition in_window (inj : ExternalInjection) (now_s : f64) : bool :=
  (now_s >=? t_start inj) && (now_s <? t_start inj + inj_duration inj).

Definition apply_injection (now_s dt_s : f64) (s : PhysicalState) (inj : ExternalInjection)
    : PhysicalState :=
  if negb (in_window inj now_s) then s
  else
    match (match inj_delta inj with Some d => Some d | None => delta_mb inj end) with
    | None => s
    | Some delta =>
        if String.eqb (inj_op inj) "add" then
          match get_f64 s (inj_var inj) with
          | Some current =>
              let target := current + delta in
              let new_val :=
                if inj_tau_s inj >? f_zero then lag_step current target (inj_tau_s inj) dt_s
                else target in
              (put_f64 s (inj_var inj) new_val).1
          | None => s
          end
        else if String.eqb (inj_op inj) "set" then
          let new_val :=
            if inj_tau_s inj >? f_zero then
              match get_f64 s (inj_var inj) with
              | Some current => lag_step current delta (inj_tau_s inj) dt_s
              | None => delta
              end
            else delta in
          (put_f64 s (inj_var inj) new_val).1
        else s
    end.

Definition external_injection_apply (s : PhysicalState) (cfg : ScenarioConfig) (now_s dt_s : f64)
    : PhysicalState :=
  fold_left (apply_injection now_s dt_s) (sc_external_injections cfg) s.

(** ** Composition of actions (src/sim/compose.rs) *)

Record Collected := {
  dim_effects : HashMap (CompositionOp * list f64);
  dim_tau : HashMap f64;
  string_sets : HashMap string
}.
Definition collected_nothing : Collected :=
  {| dim_effects := []; dim_tau := []; string_sets := [] |}.

(** The first effect on a dimension decides how all of them are combined. *)
Definition collect_effect (effects : HashMap (CompositionOp * list f64)) (dim : string)
    (op : CompositionOp) (value : f64) : HashMap (CompositionOp * list f64) :=
  let '(op, values) := default (op, []) (hm_get effects dim) in
  hm_insert effects dim (op, values ++ [value]).

Definition eval_expr_or_value (v : ExprOrValue) (ctx : ExprContext) : option f64 :=
  match v with
  | Literal x => Some x
  | Expr e => eval_float (tree e) ctx
  | StringLiteral _ => None
  end.

Definition collect (c : Collected) (dim : string) (op : CompositionOp) (value : f64) : Collected :=
  {| dim_effects := collect_effect (dim_effects c) dim op value;
     dim_tau := dim_tau c; string_sets := string_sets c |}.
(** [dim_tau.insert] and [dim_tau.entry().or_insert], when [tau_s > 0]. *)
Definition tau_insert (c : Collected) (dim : string) (tau_s : f64) : Collected :=
  if tau_s >? f_zero then
    {| dim_effects := dim_effects c; dim_tau := hm_insert (dim_tau c) dim tau_s;
       string_sets := string_sets c |}
  else c.
Definition tau_or_insert (c : Collected) (dim : string) (tau_s : f64) : Collected :=
  if tau_s >? f_zero then
    {| dim_effects := dim_effects c; dim_tau := hm_or_insert (dim_tau c) dim tau_s;
       string_sets := string_sets c |}
  else c.
Definition string_set (c : Collected) (dim s : string) : Collected :=
  {| dim_effects := dim_effects c; dim_tau := dim_tau c;
     string_sets := hm_insert (string_sets c) dim s |}.
Definition set_tau (c : Collected) (dim : string) (value : f64) : Collected :=
  {| dim_effects := dim_effects c; dim_tau := hm_insert (dim_tau c) dim value;
     string_sets := string_sets c |}.

Definition composition_op (cfg : ScenarioConfig) (dim : string) : CompositionOp :=
  default (comp_default (sc_composition cfg)) (hm_get (per_dimension (sc_composition cfg)) dim).
Definition add_op (op : CompositionOp) : CompositionOp :=
  match op with OpAdd | OpAddDelta => op | _ => OpAdd end.

(** Scale and add effects are the same for actions and interactions. *)
Definition collect_scale (ctx : ExprContext) (c : Collected) (dim : string) (factor : ExprOrValue)
    (tau_s : f64) : Collected :=
  let v := default (f64_lit 1 1) (eval_expr_or_value factor ctx) in
  tau_or_insert (collect c dim OpMultiply v) dim tau_s.
Definition collect_add (ctx : ExprContext) (cfg : ScenarioConfig) (c : Collected) (dim : string)
    (value : ExprOrValue) (tau_s : f64) : Collected :=
  let v := default f_zero (eval_expr_or_value value ctx) in
  tau_or_insert (collect c dim (add_op (composition_op cfg dim)) v) dim tau_s.

Definition collect_action_effect (ctx : ExprContext) (cfg : ScenarioConfig) (c : Collected)
    (entry : string * Effect) : Collected :=
  let '(dim, effect) := entry in
  match effect with
  | EffSet value tau_s =>
      match value with
      | StringLiteral s => string_set c dim s
      | Expr e =>
          match eval_string (tree e) ctx with
          | Some s => string_set c dim s
          | None =>
              match eval_float (tree e) ctx with
              | Some v => tau_insert (collect c dim OpMax v) dim tau_s
              | None => c
              end
          end
      | Literal v => tau_insert (collect c dim OpMax v) dim tau_s
      end
  | EffScale factor tau_s => collect_scale ctx c dim factor tau_s
  | EffAdd value tau_s => collect_add ctx cfg c dim value tau_s
  | EffSetTau value => set_tau c dim value
  end.

Definition collect_action (ctx : ExprContext) (cfg : ScenarioConfig) (c : Collected)
    (action_name : string) : Collected :=
  match hm_get (sc_actions cfg) action_name with
  | None => c
  | Some spec =>
      let cond :=
        match act_when spec with
        | Some when_expr => default false (eval_boolean (tree when_expr) ctx)
        | None => true
        end in
      if cond then fold_left (collect_action_effect ctx cfg) (act_effects spec) c else c
  end.

Definition collect_interaction_effect (ctx : ExprContext) (cfg : ScenarioConfig) (c : Collected)
    (entry : string * Effect) : Collected :=
  let '(dim, effect) := entry in
  match effect with
  | EffScale factor tau_s => collect_scale ctx c dim factor tau_s
  | EffAdd value tau_s => collect_add ctx cfg c dim value tau_s
  | EffSet value tau_s =>
      match value with
      | Literal v =>
          let op := match composition_op cfg dim with OpMax => OpMax | OpMin => OpMin | _ => OpMax end in
          tau_insert (collect c dim op v) dim tau_s
      | _ => c
      end
  | EffSetTau value => set_tau c dim value
  end.

Definition collect_interaction (ctx : ExprContext) (cfg : ScenarioConfig) (active : list string)
    (c : Collected) (term : InteractionTerm) : Collected :=
  if forallb (fun a => existsb (String.eqb a) active) (term_actions term)
  then fold_left (collect_interaction_effect ctx cfg) (term_effects term) c
  else c.

(** [iter().product()] and [iter().sum()] of floats start at [1.0] and [-0.0]. *)
Definition f64_product (values : list f64) : f64 := fold_left f64_mul values (f64_lit 1 1).
Definition f64_sum (values : list f64) : f64 := fold_left f64_add values (S754_zero true).

Definition combine (op : CompositionOp) (current : f64) (values : list f64) : f64 :=
  match op with
  | OpMultiply => current * f64_product values
  | OpAdd | OpAddDelta => current + f64_sum values
  | OpMax => fold_left f_max values (S754_infinity true)
  | OpMin => fold_left f_min values (S754_infinity false)
  end.

Definition apply_dim (taus : HashMap f64) (dt_s : f64) (s : PhysicalState)
    (entry : string * (CompositionOp * list f64)) : PhysicalState :=
  let '(dim, (op, values)) := entry in
  match values with
  | [] => s
  | _ =>
      let tau_s := default f_zero (hm_get taus dim) in
      match get_f64 s dim with
      | Some current => (put_f64 s dim (lag_step current (combine op current values) tau_s dt_s)).1
      | None => s
      end
  end.

Definition apply_string (s : PhysicalState) (entry : string * string) : PhysicalState :=
  let '(dim, val) := entry in
  if String.eqb dim "active_device" || String.eqb dim "kv_dtype" then
    if String.eqb dim "kv_dtype" then assign_dtype s val else s
  else s.

Definition collect_all (ctx : ExprContext) (cfg : ScenarioConfig) (active : list string) : Collected :=
  fold_left (collect_interaction ctx cfg active) (sc_interactions cfg)
    (fold_left (collect_action ctx cfg) active collected_nothing).

Definition apply_actions (s : PhysicalState) (engine : EngineStateModel) (cfg : ScenarioConfig)
    (dt_s : f64) (ctx : ExprContext) : outcome (PhysicalState * ExprContext) :=
  match active_actions engine with
  | [] => Return (s, ctx)
  | active =>
      let! ctx := bind_state s ctx in
      let! ctx := bind_engine engine ctx in
      let c := collect_all ctx cfg active in
      let s := fold_left (apply_dim (dim_tau c) dt_s) (dim_effects c) s in
      Return (fold_left apply_string (string_sets c) s, ctx)
  end.

(** ** Derived expressions (src/sim/derived.rs) *)

(** The lag of a derived value always assumes a tick of 50 ms. *)
Definition derived_dt : f64 := f64_lit 5 100.

Fixpoint evaluate_derived (s : PhysicalState) (derived : HashMap DerivedExpr) (ctx : ExprContext)
    : outcome (PhysicalState * ExprContext * result unit PhysicsError) :=
  match derived with
  | [] => Return (s, ctx, Ok tt)
  | (name, d) :: derived =>
      match eval_float (tree (der_expr d)) ctx with
      | Some new_val =>
          let current := default f_zero (get_f64 s name) in
          let applied := lag_step current new_val (der_tau_s d) derived_dt in
          let s := (put_f64 s name applied).1 in
          let! ctx := set_f64 ctx name applied in
          evaluate_derived s derived ctx
      | None =>
          match eval_string (tree (der_expr d)) ctx with
          | Some _ => evaluate_derived s derived ctx
          | None => Return (s, ctx, Err (ExprFailed ("derived." +:+ name)))
          end
      end
  end.

Definition derived_evaluate (s : PhysicalState) (engine : EngineStateModel) (cfg : ScenarioConfig)
    (ctx : ExprContext) : outcome (PhysicalState * ExprContext * result unit PhysicsError) :=
  let! ctx := bind_state s ctx in
  let! ctx := bind_engine engine ctx in
  evaluate_derived s (sc_derived cfg) ctx.

(** ** The step *)

Definition step (s : PhysicalState) (engine : EngineStateModel) (cfg : ScenarioConfig)
    (clock : VirtualClock) (dt : Z) (ctx : ExprContext)
    : outcome (PhysicalState * ExprContext * result unit PhysicsError) :=
  let now_s := now_secs clock in
  let dt_s := duration_as_secs_f64 dt in
  let! s := dvfs_update s cfg dt_s in
  let s := passive_dynamics s engine cfg dt_s in
  let s := external_injection_apply s cfg now_s dt_s in
  let! (s, ctx) := apply_actions s engine cfg dt_s ctx in
  derived_evaluate s engine cfg ctx.

(** [step] at a time given in seconds, on a clock advanced to it. *)
Definition step_raw (s : PhysicalState) (engine : EngineStateModel) (cfg : ScenarioConfig)
    (now_s dt_s : f64) (ctx : ExprContext)
    : outcome (PhysicalState * ExprContext * result unit PhysicsError) :=
  let! now := duration_from_secs_f64 now_s in
  let! clock := advance VirtualClock_new now in
  let! dt := duration_from_secs_f64 dt_s in
  step s engine cfg clock dt ctx.

(** ** Specifications *)

(** The fields the physics itself moves, and the names a scenario writes to. *)
Definition physics_fields : list Field :=
  [F_cpu_freq_mhz; F_gpu_freq_mhz; F_cpu_cluster_thermal_c; F_gpu_cluster_thermal_c;
   F_kv_cache_bytes].
Definition written_names (cfg : ScenarioConfig) : list string :=
  map inj_var (sc_external_injections cfg) ++
  concat (map (fun '(_, spec) => map fst (act_effects spec)) (sc_actions cfg)) ++
  concat (map (fun term => map fst (term_effects term)) (sc_interactions cfg)) ++
  map fst (sc_derived cfg).

(** *** The effects in force

    What a step does to one dimension, said without the maps that the program collects it
    in: the effects of the active actions whose condition holds, in the order of the
    actions, then those of the interactions all of whose actions are active. *)

Inductive Origin := OfAction | OfInteraction.

Definition condition_holds (ctx : ExprContext) (spec : ActionSpec) : bool :=
  match act_when spec with None => true | Some e => default false (eval_boolean (tree e) ctx) end.
Definition in_force (ctx : ExprContext) (cfg : ScenarioConfig) (active : list string)
    : list (Origin * (string * Effect)) :=
  concat (map (fun name => match hm_get (sc_actions cfg) name with
    | Some spec => if condition_holds ctx spec then map (pair OfAction) (act_effects spec) else []
    | None => []
    end) active) ++
  concat (map (fun term =>
    if bool_decide (Forall (fun a => a ∈ active) (term_actions term))
    then map (pair OfInteraction) (term_effects term) else []) (sc_interactions cfg)).

(** The number an effect contributes, with the operation it asks for. *)
Definition effect_number (ctx : ExprContext) (cfg : ScenarioConfig) (e : Origin * (string * Effect))
    : option (CompositionOp * f64) :=
  let rule := default (comp_default (sc_composition cfg)) (hm_get (per_dimension (sc_composition cfg)) e.2.1) in
  match e.2.2, e.1 with
  | EffScale v _, _ => Some (OpMultiply, default (f64_lit 1 1) (eval_expr_or_value v ctx))
  | EffAdd v _, _ => Some (if bool_decide (rule = OpAddDelta) then OpAddDelta else OpAdd,
                           default f_zero (eval_expr_or_value v ctx))
  | EffSet (Literal x) _, OfAction => Some (OpMax, x)
  | EffSet (Expr e) _, OfAction =>
      match eval_string (tree e) ctx with Some _ => None | None => pair OpMax <$> eval_float (tree e) ctx end
  | EffSet (Literal x) _, OfInteraction => Some (if bool_decide (rule = OpMin) then OpMin else OpMax, x)
  | EffSet _ _, _ | EffSetTau _, _ => None
  end.

(** The text an effect sets. *)
Definition effect_text (ctx : ExprContext) (e : Origin * (string * Effect)) : option string :=
  match e.2.2, e.1 with
  | EffSet (StringLiteral x) _, OfAction => Some x
  | EffSet (Expr e) _, OfAction => eval_string (tree e) ctx
  | _, _ => None
  end.

(** The time constant after an effect: one that sets a value, or the constant itself,
    replaces it; one that scales or adds only gives it if there is none. *)
Definition effect_tau (ctx : ExprContext) (cfg : ScenarioConfig) (tau : option f64)
    (e : Origin * (string * Effect)) : option f64 :=
  match e.2.2 with
  | EffSetTau x => Some x
  | EffSet _ x =>
      match effect_number ctx cfg e with Some _ => if x >? f_zero then Some x else tau | None => tau end
  | EffScale _ x | EffAdd _ x =>
      match tau with Some _ => tau | None => if x >? f_zero then Some x else None end
  end.

(** The new value of a dimension: its operation is that of the first effect on it. *)
Definition composed (ctx : ExprContext) (cfg : ScenarioConfig) (active : list string) (dt_s : f64)
    (dim : string) (old : f64) : f64 :=
  let effects := filter (fun e => e.2.1 = dim) (in_force ctx cfg active) in
  let numbers := omap (effect_number ctx cfg) effects in
  let values := map snd numbers in
  match numbers with
  | [] => old
  | (op, _) :: _ =>
      let target :=
        match op with
        | OpMultiply => old * fold_left f64_mul values (f64_lit 1 1)
        | OpAdd | OpAddDelta => old + fold_left f64_add values (S754_zero true)
        | OpMax => fold_left f_max values (S754_infinity true)
        | OpMin => fold_left f_min values (S754_infinity false)
        end in
      let tau := default f_zero (fold_left (effect_tau ctx cfg) effects None) in
      if tau <=? f_zero then target
      else old + (target - old) * (f64_lit 1 1 - f64_exp (SFopp dt_s / tau))
  end.
Definition composed_text (ctx : ExprContext) (cfg : ScenarioConfig) (active : list string)
    (dim : string) (old : string) : string :=
  default old (last (omap (effect_text ctx) (filter (fun e => e.2.1 = dim) (in_force ctx cfg active)))).

(** Steps at any times, with the engine's commands in between. *)
Inductive physics_step (cfg : ScenarioConfig) : PhysicalState * ExprContext ->
    PhysicalState * ExprContext -> Prop :=
| physics_stepped s ctx engine clock dt s' ctx' r :
    step s engine cfg clock dt ctx = Return (s', ctx', r) ->
    physics_step cfg (s, ctx) (s', ctx').

(** ** Lemmas: what each part of a step leaves alone *)

Lemma num_put s n x f : n <> field_name f -> num (put_f64 s n x).1 f = num s f.
Proof.
  intros Hn. unfold put_f64. destruct (field_of_name n) as [g|] eqn:Hg; [|done].
  cbn [fst]. rewrite num_assign. case_decide as Hd; [|done]. subst g.
  by apply field_name_of_name in Hg.
Qed.

Lemma num_put_same s x f : num (put_f64 s (field_name f) x).1 f = x.
Proof. unfold put_f64. rewrite field_of_field_name. cbn [fst]. by rewrite num_assign, decide_True. Qed.
Lemma get_field_name s f : get_f64 s (field_name f) = Some (num s f).
Proof. unfold get_f64. by rewrite field_of_field_name. Qed.

(** A loop that leaves a field alone in every turn leaves it alone. *)
Lemma fold_frame {A} (step : PhysicalState -> A -> PhysicalState) f l :
  Forall (fun a => forall s, num (step s a) f = num s f) l ->
  forall s, num (fold_left step l s) f = num s f.
Proof. induction 1 as [|a l Ha _ IH]; intros s; cbn; [done|]. by rewrite IH, Ha. Qed.

Lemma dvfs_update_frame s cfg dt_s s' f : dvfs_update s cfg dt_s = Return s' ->
  f ∉ physics_fields -> num s' f = num s f.
Proof.
  unfold dvfs_update. intros Hd Hf. destruct (dvfs_target_freq _ _ _ _ _ _) as [x|]; [|done].
  destruct (dvfs_target_freq _ _ _ _ _ _) as [y|]; [|done]. injection Hd as <-.
  unfold physics_fields in Hf. rewrite !not_elem_of_cons in Hf.
  rewrite !num_assign, !decide_False by naive_solver. done.
Qed.

Lemma passive_dynamics_frame s engine cfg dt_s f :
  f ∉ physics_fields -> num (passive_dynamics s engine cfg dt_s) f = num s f.
Proof.
  unfold physics_fields. rewrite !not_elem_of_cons. intros Hf.
  unfold passive_dynamics, grow_kv.
  assert (Hh : num (heat s cfg dt_s) f = num s f).
  { unfold heat. rewrite !num_assign, !decide_False by naive_solver. done. }
  case_match; [|done]. case_match; [|done]. by rewrite num_assign, decide_False by naive_solver.
Qed.

Lemma apply_injection_frame now_s dt_s s inj f : inj_var inj <> field_name f ->
  num (apply_injection now_s dt_s s inj) f = num s f.
Proof.
  intros Hv. unfold apply_injection. repeat case_match; try done; by apply num_put.
Qed.

Lemma apply_dim_frame taus dt_s s entry f : entry.1 <> field_name f ->
  num (apply_dim taus dt_s s entry) f = num s f.
Proof.
  destruct entry as [dim [op values]]; cbn. intros Hd. repeat case_match; try done.
  by apply num_put.
Qed.

Lemma apply_string_frame s entry f : num (apply_string s entry) f = num s f.
Proof. destruct entry as [dim val]. unfold apply_string. by repeat case_match. Qed.

Lemma evaluate_derived_frame f derived : field_name f ∉ map fst derived ->
  forall s ctx s' ctx' r, evaluate_derived s derived ctx = Return (s', ctx', r) ->
  num s' f = num s f.
Proof.
  induction derived as [|[name d] derived IH]; cbn [evaluate_derived map fst];
    intros Hn s ctx s' ctx' r He; [by injection He as <- _ _|].
  apply not_elem_of_cons in Hn as [Hne Hn].
  destruct (eval_float _ _) as [x|].
  - destruct (set_f64 ctx name _) as [ctx1|]; [|done]. rewrite (IH Hn _ _ _ _ _ He).
    apply num_put. congruence.
  - destruct (eval_string _ _); [by eapply IH|]. by injection He as <- _ _.
Qed.

(** ** Lemmas: collecting effects *)

(** The dimensions collected are among the given names, each once. *)
Definition collected_in (names : list string) (c : Collected) : Prop :=
  NoDup (map fst (dim_effects c)) /\ Forall (fun n => n ∈ names) (map fst (dim_effects c)).

Lemma collect_in names c dim op x :
  dim ∈ names -> collected_in names c -> collected_in names (collect c dim op x).
Proof.
  intros Hd [Hnd Hin]. unfold collect, collect_effect, collected_in; cbn.
  destruct (default _ _) as [op' vs]; cbn. split; [by apply hm_insert_nodup|].
  rewrite hm_insert_keys. destruct (hm_get _ _); [by rewrite app_nil_r|].
  apply Forall_app. split; [done|by repeat constructor].
Qed.

Lemma collected_in_effects names c c' :
  dim_effects c' = dim_effects c -> collected_in names c -> collected_in names c'.
Proof. unfold collected_in. by intros ->. Qed.

Lemma tau_insert_in names c dim x : collected_in names c -> collected_in names (tau_insert c dim x).
Proof. unfold tau_insert. case_match; [by apply collected_in_effects|done]. Qed.
Lemma tau_or_insert_in names c dim x :
  collected_in names c -> collected_in names (tau_or_insert c dim x).
Proof. unfold tau_or_insert. case_match; [by apply collected_in_effects|done]. Qed.
#[local] Hint Resolve collect_in tau_insert_in tau_or_insert_in : argus.

Lemma collect_action_effect_in names ctx cfg c entry :
  entry.1 ∈ names -> collected_in names c -> collected_in names (collect_action_effect ctx cfg c entry).
Proof.
  destruct entry as [dim []]; cbn; intros Hd Hc; unfold collect_scale, collect_add;
    repeat case_match; auto with argus; by apply (collected_in_effects _ c).
Qed.
Lemma collect_interaction_effect_in names ctx cfg c entry :
  entry.1 ∈ names -> collected_in names c ->
  collected_in names (collect_interaction_effect ctx cfg c entry).
Proof.
  destruct entry as [dim []]; cbn; intros Hd Hc; unfold collect_scale, collect_add;
    repeat case_match; auto with argus; by apply (collected_in_effects _ c).
Qed.

Lemma fold_collected {A} names (f : Collected -> A -> Collected) (key : A -> Prop) l :
  (forall c a, key a -> collected_in names c -> collected_in names (f c a)) ->
  Forall key l -> forall c, collected_in names c -> collected_in names (fold_left f l c).
Proof. intros Hf. induction 1; intros c Hc; cbn; auto. Qed.

Lemma in_concat_map {A} (f : A -> list string) l a n : In a l -> n ∈ f a -> n ∈ concat (map f l).
Proof.
  intros Ha Hn. apply list_elem_of_In, in_concat. exists (f a).
  split; [by apply in_map|by apply list_elem_of_In].
Qed.

(** Every dimension that actions and interactions can touch is one of the written names. *)
Lemma collect_all_in ctx cfg active : collected_in (written_names cfg) (collect_all ctx cfg active).
Proof.
  assert (Hkeys : forall effects : HashMap Effect,
    Forall (fun e => e.1 ∈ map fst effects) effects).
  { intros effects. apply List.Forall_forall. intros e He. apply list_elem_of_In, in_map, He. }
  assert (Hget : forall (m : HashMap ActionSpec) k spec, hm_get m k = Some spec -> In (k, spec) m).
  { induction m as [|[k' v] m IH]; cbn; [done|]. intros k spec.
    destruct (String.eqb_spec k' k) as [->|]; [intros [= ->]; by left|auto]. }
  unfold collect_all, written_names.
  apply (fold_collected _ _ (fun term => In term (sc_interactions cfg))).
  - intros c term Ht Hc. unfold collect_interaction. case_match; [|done].
    apply (fold_collected _ _ (fun e => e.1 ∈ map fst (term_effects term))); [|apply Hkeys|done].
    intros c' e He. apply collect_interaction_effect_in. rewrite !elem_of_app. right; right; left.
    by apply (in_concat_map (fun term => map fst (term_effects term)) _ term).
  - by apply List.Forall_forall.
  - apply (fold_collected _ _ (fun _ => True)); [|by apply List.Forall_forall|].
    + intros c name _ Hc. unfold collect_action.
      destruct (hm_get (sc_actions cfg) name) as [spec|] eqn:Hs; [|done]. apply Hget in Hs.
      destruct (match act_when spec with Some _ => _ | None => _ end); [|done].
      apply (fold_collected _ _ (fun e => e.1 ∈ map fst (act_effects spec))); [|apply Hkeys|done].
      intros c' e He. apply collect_action_effect_in. rewrite !elem_of_app. right; left.
      by apply (in_concat_map (fun '(_, spec) => map fst (act_effects spec)) _ (name, spec)).
    + split; constructor.
Qed.

(** *** Collecting is going through the effects in force *)

Definition collect_tagged (ctx : ExprContext) (cfg : ScenarioConfig) (c : Collected)
    (e : Origin * (string * Effect)) : Collected :=
  match e.1 with
  | OfAction => collect_action_effect ctx cfg c e.2
  | OfInteraction => collect_interaction_effect ctx cfg c e.2
  end.

Lemma fold_left_concat {A B C} (g : C -> B -> C) (h : A -> list B) (step : C -> A -> C) l :
  (forall c a, step c a = fold_left g (h a) c) -> forall c,
  fold_left step l c = fold_left g (concat (map h l)) c.
Proof.
  intros Hstep. induction l as [|a l IH]; intros c; cbn [fold_left map concat]; [done|].
  by rewrite Hstep, IH, fold_left_app.
Qed.

Lemma fold_left_tagged {C} (g : C -> Origin * (string * Effect) -> C) o l : forall c,
  fold_left (fun c e => g c (o, e)) l c = fold_left g (map (pair o) l) c.
Proof. induction l as [|e l IH]; intros c; cbn; [done|]. apply IH. Qed.

Lemma all_active_decide active names :
  forallb (fun a => existsb (String.eqb a) active) names = bool_decide (Forall (fun a => a ∈ active) names).
Proof.
  apply eq_true_iff_eq. rewrite bool_decide_eq_true, forallb_forall, Forall_forall.
  setoid_rewrite existsb_exists. setoid_rewrite list_elem_of_In. setoid_rewrite String.eqb_eq.
  split; intros Ha a Hin; [destruct (Ha a Hin) as (? & ? & ->); done|eauto].
Qed.

Lemma collect_all_in_force ctx cfg active :
  collect_all ctx cfg active = fold_left (collect_tagged ctx cfg) (in_force ctx cfg active) collected_nothing.
Proof.
  unfold collect_all, in_force. rewrite fold_left_app.
  rewrite (fold_left_concat (collect_tagged ctx cfg) (fun name => match hm_get (sc_actions cfg) name with
    | Some spec => if condition_holds ctx spec then map (pair OfAction) (act_effects spec) else []
    | None => [] end) (collect_action ctx cfg)).
  - apply fold_left_concat. intros c term. unfold collect_interaction. rewrite all_active_decide.
    destruct (bool_decide _); [|done]. by rewrite <- fold_left_tagged.
  - intros c name. unfold collect_action. destruct (hm_get (sc_actions cfg) name) as [spec|]; [|done].
    unfold condition_holds. destruct (act_when spec) as [e|]; [destruct (default false _); [|done]|];
      by rewrite <- fold_left_tagged.
Qed.

(** What a map holds for a dimension after a number is added. *)
Definition push (o : option (CompositionOp * list f64)) (x : option (CompositionOp * f64))
    : option (CompositionOp * list f64) :=
  match x, o with
  | None, _ => o
  | Some (op, v), None => Some (op, [v])
  | Some (_, v), Some (op, values) => Some (op, values ++ [v])
  end.

Lemma hm_insert_get_eq {A} (m : HashMap A) k v : hm_get (hm_insert m k v) k = Some v.
Proof. by rewrite hm_insert_get, String.eqb_refl. Qed.
Lemma hm_insert_get_ne {A} (m : HashMap A) k k' v : k <> k' -> hm_get (hm_insert m k v) k' = hm_get m k'.
Proof. intros Hne. rewrite hm_insert_get. by destruct (String.eqb_spec k k'). Qed.

Lemma collect_effect_get effects dim op v d :
  hm_get (collect_effect effects dim op v) d =
  if decide (dim = d) then push (hm_get effects d) (Some (op, v)) else hm_get effects d.
Proof.
  unfold collect_effect. destruct (decide (dim = d)) as [<-|Hne].
  - destruct (hm_get effects dim) as [[op' vs]|]; cbn; by rewrite hm_insert_get_eq.
  - destruct (default _ _) as [op' vs]. by rewrite hm_insert_get_ne.
Qed.

Lemma tau_insert_get c dim x d :
  hm_get (dim_tau (tau_insert c dim x)) d =
  if decide (dim = d) then (if x >? f_zero then Some x else hm_get (dim_tau c) d) else hm_get (dim_tau c) d.
Proof.
  unfold tau_insert. destruct (x >? f_zero); cbn; [|by case_decide].
  case_decide as Hd; [subst; apply hm_insert_get_eq|by apply hm_insert_get_ne].
Qed.
Lemma tau_or_insert_get c dim x d :
  hm_get (dim_tau (tau_or_insert c dim x)) d =
  if decide (dim = d)
  then match hm_get (dim_tau c) d with Some y => Some y | None => if x >? f_zero then Some x else None end
  else hm_get (dim_tau c) d.
Proof.
  unfold tau_or_insert, hm_or_insert. destruct (x >? f_zero); cbn.
  - destruct (hm_get (dim_tau c) dim) eqn:Hg; case_decide as Hd; subst; rewrite ?Hg; try done;
      [apply hm_insert_get_eq|by apply hm_insert_get_ne].
  - case_decide; [|done]. by destruct (hm_get (dim_tau c) d).
Qed.

(** Inserting a time constant leaves the rest alone. *)
Lemma tau_insert_rest c dim x :
  dim_effects (tau_insert c dim x) = dim_effects c /\ string_sets (tau_insert c dim x) = string_sets c.
Proof. unfold tau_insert. by destruct (x >? f_zero). Qed.
Lemma tau_or_insert_rest c dim x :
  dim_effects (tau_or_insert c dim x) = dim_effects c /\ string_sets (tau_or_insert c dim x) = string_sets c.
Proof. unfold tau_or_insert. by destruct (x >? f_zero). Qed.

Lemma add_op_rule op : add_op op = if bool_decide (op = OpAddDelta) then OpAddDelta else OpAdd.
Proof. by destruct op. Qed.
Lemma set_op_rule op :
  (match op with OpMax => OpMax | OpMin => OpMin | _ => OpMax end) = if bool_decide (op = OpMin) then OpMin else OpMax.
Proof. by destruct op. Qed.

(** One effect, seen from one dimension. *)
Definition view_step (ctx : ExprContext) (cfg : ScenarioConfig) (d : string) (c : Collected)
    (e : Origin * (string * Effect)) (c' : Collected) : Prop :=
  hm_get (dim_effects c') d =
    (if decide (e.2.1 = d) then push (hm_get (dim_effects c) d) (effect_number ctx cfg e)
     else hm_get (dim_effects c) d) /\
  hm_get (dim_tau c') d =
    (if decide (e.2.1 = d) then effect_tau ctx cfg (hm_get (dim_tau c) d) e else hm_get (dim_tau c) d) /\
  hm_get (string_sets c') d =
    (if decide (e.2.1 = d) then match effect_text ctx e with Some x => Some x | None => hm_get (string_sets c) d end
     else hm_get (string_sets c) d).

(** A number collected with a time constant, and an effect that only sets one or a text. *)
Ltac collected_tau :=
  unfold view_step;
  rewrite ?(proj1 (tau_insert_rest _ _ _)), ?(proj2 (tau_insert_rest _ _ _)),
    ?(proj1 (tau_or_insert_rest _ _ _)), ?(proj2 (tau_or_insert_rest _ _ _)),
    ?tau_insert_get, ?tau_or_insert_get; cbn [collect dim_effects dim_tau string_sets];
  rewrite ?collect_effect_get; cbn [fst snd effect_number effect_tau effect_text];
  case_decide; split_and!; try done.
Ltac collected_set :=
  unfold view_step; cbn [string_set set_tau dim_effects dim_tau string_sets fst snd];
  case_decide as Hd; cbn [effect_number effect_tau effect_text fst snd]; split_and!; try done;
  first [subst; apply hm_insert_get_eq | by apply hm_insert_get_ne].

Lemma collect_scale_view ctx cfg c o dim v tau d :
  view_step ctx cfg d c (o, (dim, EffScale v tau)) (collect_scale ctx c dim v tau).
Proof. unfold collect_scale. collected_tau; by destruct o, (hm_get (dim_tau c) d). Qed.
Lemma collect_add_view ctx cfg c o dim v tau d :
  view_step ctx cfg d c (o, (dim, EffAdd v tau)) (collect_add ctx cfg c dim v tau).
Proof. unfold collect_add, composition_op. rewrite add_op_rule. collected_tau; by destruct o, (hm_get (dim_tau c) d). Qed.

Lemma view_same ctx cfg c e d : effect_number ctx cfg e = None -> effect_text ctx e = None ->
  effect_tau ctx cfg (hm_get (dim_tau c) d) e = hm_get (dim_tau c) d -> view_step ctx cfg d c e c.
Proof. unfold view_step. intros -> -> ->. by case_decide. Qed.

Lemma collect_tagged_view ctx cfg c e d : view_step ctx cfg d c e (collect_tagged ctx cfg c e).
Proof.
  destruct e as [[] [dim [v tau|v tau|v tau|x]]]; cbn [collect_tagged fst snd collect_action_effect collect_interaction_effect];
    try apply collect_scale_view; try apply collect_add_view; try collected_set.
  - destruct v as [x|e|t]; [collected_tau| |collected_set].
    destruct (eval_string (tree e) ctx) as [t|] eqn:Hs.
    + unfold view_step. cbn [string_set dim_effects dim_tau string_sets fst snd effect_number effect_tau effect_text].
      rewrite Hs. case_decide; split_and!; try done; [subst; apply hm_insert_get_eq|by apply hm_insert_get_ne].
    + destruct (eval_float (tree e) ctx) as [x|] eqn:Hf.
      * collected_tau; by rewrite Hs, ?Hf.
      * apply view_same; cbn; by rewrite Hs, ?Hf.
  - destruct v as [x|e|t]; [|by apply view_same..].
    unfold composition_op. rewrite set_op_rule. collected_tau.
Qed.

(** All of them: the numbers, the time constant and the text of each dimension. *)
Lemma collected_view ctx cfg d l : forall c,
  let c' := fold_left (collect_tagged ctx cfg) l c in
  let here := filter (fun e => e.2.1 = d) l in
  hm_get (dim_effects c') d = fold_left push (map Some (omap (effect_number ctx cfg) here)) (hm_get (dim_effects c) d) /\
  hm_get (dim_tau c') d = fold_left (effect_tau ctx cfg) here (hm_get (dim_tau c) d) /\
  hm_get (string_sets c') d = match last (omap (effect_text ctx) here) with
    | Some x => Some x | None => hm_get (string_sets c) d end.
Proof.
  induction l as [|e l IH]; intros c; cbn zeta; cbn [fold_left]; [done|].
  destruct (collect_tagged_view ctx cfg c e d) as (He & Ht & Hs).
  destruct (IH (collect_tagged ctx cfg c e)) as (IHe & IHt & IHs).
  rewrite IHe, IHt, IHs, He, Ht, Hs, filter_cons. clear.
  destruct (decide (e.2.1 = d)); [|done]. cbn [fold_left]. rewrite !omap_cons. split_and!; [|done|].
  - by destruct (effect_number ctx cfg e).
  - destruct (effect_text ctx e) as [x|]; [|done]. rewrite last_cons. by destruct (last _).
Qed.

Lemma push_all op values l : fold_left push (map Some l) (Some (op, values)) = Some (op, values ++ map snd l).
Proof.
  revert values. induction l as [|[op' v] l IH]; intros values; cbn; [by rewrite app_nil_r|].
  by rewrite IH, <- app_assoc.
Qed.

(** The loop over the dimensions, in any order, gives each field the value its own effects
    ask for. *)
Lemma fold_apply_dim taus dt_s l : NoDup (map fst l) -> forall s f,
  num (fold_left (apply_dim taus dt_s) l s) f =
  match hm_get l (field_name f) with
  | Some (op, v :: vs) =>
      lag_step (num s f) (combine op (num s f) (v :: vs))
        (default f_zero (hm_get taus (field_name f))) dt_s
  | _ => num s f
  end.
Proof.
  induction l as [|[dim [op values]] l IH]; intros Hnd s f; cbn [fold_left hm_get map fst] in *; [done|].
  apply NoDup_cons in Hnd as [Hnin Hnd]. rewrite IH by done.
  destruct (String.eqb_spec dim (field_name f)) as [->|Hne].
  - assert (hm_get l (field_name f) = None) as -> by by apply hm_get_None.
    cbn [apply_dim]. destruct values as [|v vs]; [done|].
    by rewrite get_field_name, num_put_same.
  - rewrite apply_dim_frame by done. done.
Qed.

(** So applying the collected dimensions, in any order, composes the effects in force. *)
Lemma fold_apply_composed ctx cfg active dt_s s f l :
  l ≡ₚ dim_effects (collect_all ctx cfg active) ->
  num (fold_left (apply_dim (dim_tau (collect_all ctx cfg active)) dt_s) l s) f =
  composed ctx cfg active dt_s (field_name f) (num s f).
Proof.
  intros Hl. destruct (collect_all_in ctx cfg active) as [Hnd _].
  assert (Hndl : NoDup (map fst l)) by by rewrite Hl.
  rewrite fold_apply_dim, (hm_get_perm _ _ _ Hndl Hl) by done. rewrite collect_all_in_force.
  destruct (collected_view ctx cfg (field_name f) (in_force ctx cfg active) collected_nothing) as (He & Ht & _).
  rewrite He, Ht. unfold composed. destruct (omap (effect_number ctx cfg) _) as [|[op v] numbers]; [done|].
  cbn [map fold_left push dim_effects collected_nothing hm_get]. rewrite push_all. cbn [app map snd].
  unfold lag_step, combine, f64_product, f64_sum. by destruct op.
Qed.

Lemma collect_tagged_texts ctx cfg c e : NoDup (map fst (string_sets c)) ->
  NoDup (map fst (string_sets (collect_tagged ctx cfg c e))).
Proof.
  intros Hnd. destruct e as [[] [dim [v tau|v tau|v tau|x]]];
    cbn [collect_tagged fst snd collect_action_effect collect_interaction_effect]; unfold collect_scale, collect_add;
    repeat case_match; rewrite ?(proj2 (tau_insert_rest _ _ _)), ?(proj2 (tau_or_insert_rest _ _ _));
    try done; by apply hm_insert_nodup.
Qed.

Lemma collect_all_texts ctx cfg active : NoDup (map fst (string_sets (collect_all ctx cfg active))).
Proof.
  rewrite collect_all_in_force. generalize (in_force ctx cfg active). intros l.
  assert (Hn : NoDup (map fst (string_sets collected_nothing))) by constructor. revert Hn.
  generalize collected_nothing. induction l as [|e l IH]; intros c Hn; cbn; [done|].
  by apply IH, collect_tagged_texts.
Qed.

Lemma fold_apply_dim_dtype taus dt_s l : forall s, kv_dtype (fold_left (apply_dim taus dt_s) l s) = kv_dtype s.
Proof.
  induction l as [|[dim [op values]] l IH]; intros s; cbn [fold_left]; [done|]. rewrite IH.
  cbn [apply_dim]. destruct values; [done|]. destruct (get_f64 s dim); [|done].
  unfold put_f64. by destruct (field_of_name dim).
Qed.

Lemma fold_apply_string l : NoDup (map fst l) -> forall s,
  kv_dtype (fold_left apply_string l s) = default (kv_dtype s) (hm_get l "kv_dtype").
Proof.
  induction l as [|[dim val] l IH]; intros Hnd s; cbn [fold_left hm_get map fst] in *; [done|].
  apply NoDup_cons in Hnd as [Hnin Hnd]. rewrite IH by done. unfold apply_string.
  destruct (String.eqb_spec dim "kv_dtype") as [->|Hne].
  - apply hm_get_None in Hnin. by rewrite Hnin, orb_true_r.
  - by destruct (_ || _).
Qed.

Lemma fold_apply_texts ctx cfg active s l : l ≡ₚ string_sets (collect_all ctx cfg active) ->
  kv_dtype (fold_left apply_string l s) = composed_text ctx cfg active "kv_dtype" (kv_dtype s).
Proof.
  intros Hl. pose proof (collect_all_texts ctx cfg active) as Hnd.
  assert (Hndl : NoDup (map fst l)) by by rewrite Hl.
  rewrite fold_apply_string, (hm_get_perm _ _ _ Hndl Hl) by done. rewrite collect_all_in_force.
  destruct (collected_view ctx cfg "kv_dtype" (in_force ctx cfg active) collected_nothing) as (_ & _ & ->).
  unfold composed_text. by destruct (last _).
Qed.

Lemma apply_actions_frame s engine cfg dt_s ctx s' ctx' f :
  apply_actions s engine cfg dt_s ctx = Return (s', ctx') ->
  field_name f ∉ written_names cfg -> num s' f = num s f.
Proof.
  unfold apply_actions. intros Ha Hf. destruct (active_actions engine) as [|a l]; [by simplify_eq|].
  destruct (bind_state s ctx) as [ctx1|]; [|done].
  destruct (bind_engine engine ctx1) as [ctx2|]; [|done]. injection Ha as <- _.
  rewrite (fold_frame apply_string) by (apply Forall_true; intros; apply apply_string_frame).
  destruct (collect_all_in ctx2 cfg (a :: l)) as [Hnd Hin]. rewrite fold_apply_dim by done.
  destruct (hm_get _ (field_name f)) eqn:Hg; [|done]. exfalso.
  apply hm_get_Some in Hg; [|done]. rewrite Forall_forall in Hin. apply Hf, Hin.
  apply list_elem_of_In, in_map_iff. eexists. split; [|by apply list_elem_of_In]. done.
Qed.

Lemma step_frame s engine cfg clock dt ctx s' ctx' r f :
  step s engine cfg clock dt ctx = Return (s', ctx', r) ->
  f ∉ physics_fields -> field_name f ∉ written_names cfg -> num s' f = num s f.
Proof.
  unfold step. intros Hs Hp Hw.
  destruct (dvfs_update _ _ _) as [s1|] eqn:Hd; [|done].
  set (s2 := passive_dynamics s1 _ _ _) in Hs. set (s3 := external_injection_apply s2 _ _ _) in Hs.
  destruct (apply_actions s3 _ _ _ _) as [[s4 ctx1]|] eqn:Ha; [|done].
  unfold derived_evaluate in Hs. destruct (bind_state s4 ctx1) as [ctx2|]; [|done].
  destruct (bind_engine engine ctx2) as [ctx3|]; [|done].
  pose proof Hw as Hall. unfold written_names in Hall. rewrite !not_elem_of_app in Hall.
  destruct Hall as (Hinj & _ & _ & Hder).
  rewrite (evaluate_derived_frame f _ Hder _ _ _ _ _ Hs), (apply_actions_frame _ _ _ _ _ _ _ _ Ha Hw).
  unfold s3, external_injection_apply. rewrite (fold_frame (apply_injection _ _)).
  - unfold s2. by rewrite passive_dynamics_frame, (dvfs_update_frame _ _ _ _ _ Hd).
  - apply List.Forall_forall. intros inj Hi s0. apply apply_injection_frame. intros He.
    apply Hinj. rewrite <- He. by apply list_elem_of_In, in_map.
Qed.
End Physics.

(** ** Examples: expressions that are the name of a variable *)

#[export] Instance demo_libm : Libm := {| f64_exp := fun _ => f_zero; f64_powf := fun x _ => x |}.

(** Values keep their type for ever, as in [evalexpr]'s contexts. *)
Definition demo_same_type (v w : EValue) : bool :=
  match v, w with
  | EString _, EString _ | EFloat _, EFloat _ | EInt _, EInt _ | EBoolean _, EBoolean _
  | ETuple _, ETuple _ | EEmpty, EEmpty => true
  | _, _ => false
  end.
#[export] Instance demo_evalexpr : Evalexpr := {|
  Node := string;
  HashMapContext := HashMap EValue;
  context_new := [];
  set_value := fun ctx k v =>
    match hm_get ctx k with
    | Some old => if demo_same_type old v then Some (hm_insert ctx k v) else None
    | None => Some (hm_insert ctx k v)
    end;
  set_function := fun ctx _ _ => Some ctx;
  build_operator_tree := Some;
  eval_float := fun t ctx => match hm_get ctx t with Some (EFloat x) => Some x | _ => None end;
  eval_boolean := fun t ctx => match hm_get ctx t with Some (EBoolean b) => Some b | _ => None end;
  eval_string := fun t ctx => match hm_get ctx t with Some (EString s) => Some s | _ => None end
|}.
Definition demo_expr (s : string) : CompiledExpr := {| source := s; tree := s |}.
Definition demo_derived (s : string) : DerivedExpr :=
  {| der_expr := demo_expr s; der_tau_s := f_zero |}.

Definition demo_initial : InitialState := {|
  i_kv_cache_bytes := 0; i_kv_cache_capacity_bytes := 4096; i_kv_cache_tokens := 0;
  i_kv_cache_token_capacity := 2048; i_kv_dtype := "f16"; i_device_memory_total_mb := 8192;
  i_device_memory_used_mb := 3500; i_memory_bw_utilization_pct := f64_lit 20 1;
  i_engine_cpu_pct := f64_lit 30 1; i_external_cpu_pct := f64_lit 15 1; i_cpu_freq_mhz := 2400;
  i_cpu_max_freq_mhz := 3200; i_cpu_min_freq_mhz := 400; i_engine_gpu_pct := f64_lit 65 1;
  i_external_gpu_pct := f64_lit 5 1; i_gpu_freq_mhz := 810; i_gpu_max_freq_mhz := 1100;
  i_gpu_min_freq_mhz := 300; i_thermal_c := f64_lit 42 1; i_cpu_cluster_thermal_c := f64_lit 44 1;
  i_gpu_cluster_thermal_c := f64_lit 48 1; i_throttle_threshold_c := f64_lit 85 1;
  i_phase := "decode"; i_base_tps_decode_gpu := f64_lit 185 10;
  i_base_tps_decode_cpu := f64_lit 42 10; i_base_tps_decode_partition := f64_lit 22 1;
  i_base_tps_prefill_gpu := f64_lit 145 1; i_active_device := "opencl";
  i_active_actions := ["Throttle"; "Boost"]; i_partition_ratio := f_zero;
  i_throttle_delay_ms := f_zero; i_tbt_target_ms := f_zero |}.

Definition demo_cluster : ClusterThermalDynamics :=
  {| ct_baseline := f64_lit 42 1; ct_tau_s := f64_lit 20 1; heating := [] |}.
Definition demo_dvfs : DvfsCluster :=
  {| soft_threshold_c := f64_lit 78 1; hard_threshold_c := f64_lit 95 1;
     k_thermal := f64_lit 8 100; dvfs_tau_s := f64_lit 3 10 |}.
Definition demo_source (period : f64) : SignalSourceConfig :=
  {| sig_source := "os_probe"; poll_interval_s := period; sig_noise := [] |}.
Definition demo_scenario : ScenarioConfig := {|
  sc_extends := None;
  sc_initial_state := demo_initial;
  sc_actions :=
    [("Throttle", {| act_when := None;
        act_effects := [("engine_cpu_pct", EffScale (Literal (f64_lit 1 2)) f_zero)] |});
     ("Boost", {| act_when := None;
        act_effects := [("engine_cpu_pct", EffAdd (Literal (f64_lit 10 1)) f_zero)] |})];
  sc_composition := {| comp_default := OpMultiply; per_dimension := [] |};
  sc_interactions := [];
  sc_passive_dynamics := {|
    pd_cpu_cluster_thermal_c := demo_cluster; pd_gpu_cluster_thermal_c := demo_cluster;
    thermal_coupling := {| cpu_to_gpu := f64_lit 5 100; gpu_to_cpu := f64_lit 4 100 |};
    pd_thermal_c := demo_derived "cpu_cluster_thermal_c";
    pd_memory_bw_utilization_pct := demo_derived "cpu_freq_mhz";
    pd_kv_cache_bytes := {| growth_per_token := [("f16", 1024%Z)]; applies_when := demo_expr "phase" |} |};
  sc_dvfs := {| dvfs_cpu := demo_dvfs; dvfs_gpu := demo_dvfs |};
  sc_derived := [("tbt_ms", demo_derived "throughput_tps")];
  sc_external_injections :=
    [{| t_start := f_zero; inj_duration := f64_lit 5 1; inj_var := "external_cpu_pct";
        inj_op := "add"; inj_delta := Some (f64_lit 40 1); delta_mb := None; inj_tau_s := f_zero |}];
  sc_observation := {|
    heartbeat := {| interval_s := f64_lit 1 1; hb_noise := [] |};
    signals := {| obs_memory := demo_source (f64_lit 1 2); obs_compute := demo_source (f64_lit 1 4);
                  obs_thermal := demo_source (f64_lit 1 1); obs_energy := demo_source (f64_lit 2 1) |} |};
  sc_rng_seed := None
|}.
Definition demo_state : PhysicalState := PhysicalState_from_config demo_initial.
Definition demo_engine : EngineStateModel := EngineStateModel_from_config demo_initial.

(** ** Properties *)

(** C26. What actions do to the device.  When no action is active, nothing.  Otherwise, in
    the context of the device's and the engine's variables, every field gets the value that
    the effects in force on it ask for - the effects of the active actions whose condition
    holds and then of the interactions all of whose actions are active, their values
    multiplied with the old value, added to it, or their largest or smallest taken, as the
    first of them says, reached with the lag they set - or keeps its value if there are
    none, and the type of the cache is the last one they set; and all of this is the same
    in whatever order the program's hash maps are iterated. *)
Theorem composition_result `{Libm} `{Evalexpr} s engine cfg dt_s ctx s' ctx' :
  apply_actions s engine cfg dt_s ctx = Return (s', ctx') ->
  let active := active_actions engine in
  (active = [] -> s' = s) /\
  (active <> [] ->
     (exists ctx1, bind_state s ctx = Return ctx1 /\ bind_engine engine ctx1 = Return ctx') /\
     (forall f, num s' f = composed ctx' cfg active dt_s (field_name f) (num s f)) /\
     kv_dtype s' = composed_text ctx' cfg active "kv_dtype" (kv_dtype s) /\
     forall c dims texts, c = collect_all ctx' cfg active ->
       dims ≡ₚ dim_effects c -> texts ≡ₚ string_sets c ->
       let r := fold_left apply_string texts (fold_left (apply_dim (dim_tau c) dt_s) dims s) in
       (forall f, num r f = num s' f) /\ kv_dtype r = kv_dtype s').
Proof.
  intros Ha. cbn zeta. unfold apply_actions in Ha.
  destruct (active_actions engine) as [|a l]; [injection Ha as <- _; split; [done|by intros Hne]|].
  split; [done|]. intros _.
  destruct (bind_state s ctx) as [ctx1|]; [|done].
  destruct (bind_engine engine ctx1) as [ctx2|] eqn:Hb; [|done]. injection Ha as <- <-.
  assert (Hnum : forall dims texts, dims ≡ₚ dim_effects (collect_all ctx2 cfg (a :: l)) -> forall f,
    num (fold_left apply_string texts
      (fold_left (apply_dim (dim_tau (collect_all ctx2 cfg (a :: l))) dt_s) dims s)) f
    = composed ctx2 cfg (a :: l) dt_s (field_name f) (num s f)).
  { intros dims texts Hd f. rewrite (fold_frame apply_string)
      by (apply Forall_true; intros; apply apply_string_frame). by apply fold_apply_composed. }
  split_and!.
  - by exists ctx1.
  - by apply Hnum.
  - by rewrite (fold_apply_texts ctx2 cfg (a :: l)), fold_apply_dim_dtype.
  - intros c dims texts -> Hd Ht. split; [intros f; by rewrite !Hnum|].
    by rewrite !(fold_apply_texts ctx2 cfg (a :: l)), !fold_apply_dim_dtype.
Qed.

(** Two actions on one dimension: the second effect, an addition of ten, is combined by
    the operation of the first, and multiplies. *)
Lemma composition_result_witness :
  exists s' ctx', apply_actions demo_state demo_engine demo_scenario (f64_lit 5 100) context_new = Return (s', ctx') /\
    num s' F_engine_cpu_pct = f64_lit 150 1 /\ kv_dtype s' = "f16".
Proof.
  destruct (apply_actions demo_state demo_engine demo_scenario (f64_lit 5 100) context_new) as [[s' ctx']|] eqn:Ha;
    [|vm_compute in Ha; discriminate].
  exists s', ctx'. split; [reflexivity|].
  destruct (composition_result _ _ _ _ _ _ _ Ha) as [_ Hc].
  destruct Hc as (_ & Hn & Hk & _); [discriminate|]. split.
  - rewrite Hn. vm_compute. reflexivity.
  - rewrite Hk. vm_compute. reflexivity.
Defined.

(** A step moves only what the scenario names.  Over any number of steps, at any times
    and with any state of the engine, a field of the device that is not one of the five
    the physics moves (the two frequencies, the two cluster temperatures, the KV cache)
    and that no injection, action, interaction or derived expression of the scenario
    names keeps its value; in particular the temperature the thermal signal reports does
    not follow the clusters' unless the scenario derives it. *)
Theorem untouched_fields `{Libm} `{Evalexpr} cfg st st' f :
  star (physics_step cfg) st st' ->
  f ∉ physics_fields -> field_name f ∉ written_names cfg ->
  num st'.1 f = num st.1 f.
Proof.
  intros Hs Hp Hw. apply (star_invariant _ (fun x => num x.1 f = num st.1 f)) in Hs; [done| |done].
  intros ? ? [s ctx engine clock dt s' ctx' r Hstep] Hi. cbn in *.
  by rewrite (step_frame _ _ _ _ _ _ _ _ _ _ Hstep Hp Hw).
Qed.

Lemma untouched_fields_witness :
  exists s' ctx' r, step demo_state demo_engine demo_scenario VirtualClock_new 50000000 context_new = Return (s', ctx', r) /\
    num s' F_thermal_c = f64_lit 42 1.
Proof.
  destruct (step demo_state demo_engine demo_scenario VirtualClock_new 50000000 context_new) as [[[s' ctx'] r]|] eqn:Hs;
    [|vm_compute in Hs; discriminate].
  exists s', ctx', r. split; [reflexivity|].
  apply (untouched_fields demo_scenario (demo_state, context_new) (s', ctx') F_thermal_c).
  - eapply star_step; [exact (physics_stepped _ _ _ _ _ _ _ _ _ Hs)|apply star_refl].
  - refine (bool_decide_unpack _ _). vm_compute. exact I.
  - refine (bool_decide_unpack _ _). vm_compute. exact I.
Defined.

(** The order in which derived expressions are iterated does change the result: a value
    derived from another one sees the new or the old value of the other. *)
Lemma derived_order_matters :
  exists derived derived' : HashMap DerivedExpr,
    derived ≡ₚ derived' /\
    match evaluate_derived demo_state derived (state_bindings demo_state),
          evaluate_derived demo_state derived' (state_bindings demo_state) with
    | Return (s, _, Ok _), Return (s', _, Ok _) => num s F_tbt_ms <> num s' F_tbt_ms
    | _, _ => False
    end.
Proof.
  exists [("throughput_tps", demo_derived "thermal_c"); ("tbt_ms", demo_derived "throughput_tps")],
    [("tbt_ms", demo_derived "throughput_tps"); ("throughput_tps", demo_derived "thermal_c")].
  split; [apply Permutation_swap|]. vm_compute. discriminate.
Qed.
