(* ===== verification/SimTypes.v ===== *)
(** * SimTypes: the variables of the simulator's expressions keep their types
    (the bindings of src/sim/state.rs, src/sim/expr.rs and src/sim/derived.rs)

    The context of the expressions is type-safe: assigning a variable a value of another
    type than it has is an error, which the program expects never to happen and panics on.
    A type environment, kept by every step, says when it does not. *)

From Stdlib Require Import ZArith Lia SpecFloat String.
From stdpp Require Import base tactics numbers list strings.
From S2P Require Import Prelude Float Wire SimClock SimExpr SimConfig SimState SimPhysics.
Local Open Scope string_scope.
Local Open Scope list_scope.

(** ** Types *)

Inductive ValueType := TString | TFloat | TInt | TBoolean | TTuple | TEmpty.
#[export] Instance ValueType_eq_dec : EqDecision ValueType.
Proof. solve_decision. Defined.
Definition typ (v : EValue) : ValueType :=
  match v with
  | EString _ => TString | EFloat _ => TFloat | EInt _ => TInt
  | EBoolean _ => TBoolean | ETuple _ => TTuple | EEmpty => TEmpty
  end.

(** What [evalexpr] documents of its contexts: a variable has one type for ever, and any
    value may be assigned to a variable that is new or has its type. *)
Class EvalexprTyped `{Evalexpr} := {
  type_of : HashMapContext -> string -> option ValueType;
  type_of_new k : type_of context_new k = None;
  type_of_function ctx name f ctx' k :
    set_function ctx name f = Some ctx' -> type_of ctx' k = type_of ctx k;
  set_value_typed ctx k v : type_of ctx k = None \/ type_of ctx k = Some (typ v) ->
    exists ctx', set_value ctx k v = Some ctx';
  type_of_set ctx k v ctx' k' : set_value ctx k v = Some ctx' ->
    type_of ctx' k' = if decide (k' = k) then Some (typ v) else type_of ctx k';
  set_value_mistyped ctx k v t : type_of ctx k = Some t -> t <> typ v -> set_value ctx k v = None
}.

(** The environment of the simulator's variables: four are texts, all others numbers. *)
Definition text_variables : list string := ["kv_dtype"; "active_device"; "phase"; "device"].
Definition variable_type (k : string) : ValueType :=
  if decide (k ∈ text_variables) then TString else TFloat.

Section Typed.
Context `{Libm} `{EvalexprTyped}.

Definition well_typed (ctx : ExprContext) : Prop :=
  forall k t, type_of ctx k = Some t -> t = variable_type k.
Definition typed_binding (b : string * EValue) : Prop := typ b.2 = variable_type b.1.

(** How a step that does not panic ends: well, or with the error of a derived expression
    that evaluates neither to a number nor to a text. *)
Definition derived_outcome (derived : HashMap DerivedExpr) (r : result unit PhysicsError)
    : Prop :=
  match r with
  | Ok _ => True
  | Err (ExprFailed location) => exists name d ctx, (name, d) ∈ derived /\
      location = "derived." +:+ name /\ well_typed ctx /\
      eval_float (tree (der_expr d)) ctx = None /\ eval_string (tree (der_expr d)) ctx = None
  end.

(** ** Lemmas: assignments *)

Lemma ctx_set_typed ctx k v : well_typed ctx -> typ v = variable_type k ->
  exists ctx', ctx_set ctx k v = Return ctx' /\ well_typed ctx' /\ type_of ctx' k = Some (typ v) /\
    (forall k', type_of ctx k' <> None -> type_of ctx' k' = type_of ctx k').
Proof.
  intros Hw Hv. unfold ctx_set. destruct (set_value_typed ctx k v) as [ctx' Hset].
  { destruct (type_of ctx k) as [t|] eqn:Ht; [|by left]. right. f_equal. rewrite Hv. by apply Hw. }
  rewrite Hset. exists ctx'. pose proof (type_of_set _ _ _ _ k Hset) as Hk.
  rewrite decide_True in Hk by done. split_and!; [done| |done|].
  - intros k' t Ht. rewrite (type_of_set _ _ _ _ _ Hset) in Ht. case_decide; [|by apply Hw].
    subst k'. congruence.
  - intros k' Hk'. rewrite (type_of_set _ _ _ _ _ Hset). case_decide; [|done]. subst k'.
    destruct (type_of ctx k) as [t|] eqn:Ht; [|done]. f_equal. rewrite Hv. symmetry. by apply Hw.
Qed.

Lemma bind_all_typed bindings : forall ctx, well_typed ctx -> Forall typed_binding bindings ->
  exists ctx', bind_all ctx bindings = Return ctx' /\ well_typed ctx' /\
    Forall (fun b => type_of ctx' b.1 = Some (typ b.2)) bindings /\
    (forall k, type_of ctx k <> None -> type_of ctx' k = type_of ctx k).
Proof.
  induction bindings as [|[k v] bindings IH]; intros ctx Hw Hb; cbn [bind_all].
  { exists ctx. by split_and!. }
  apply Forall_cons in Hb as [Hkv Hb].
  destruct (ctx_set_typed ctx k v Hw Hkv) as (ctx1 & -> & Hw1 & Hk & Hkeep1).
  destruct (IH ctx1 Hw1 Hb) as (ctx2 & -> & Hw2 & Hall & Hkeep2).
  exists ctx2. split_and!; [done|done| |].
  - constructor; [|done]. cbn. rewrite Hkeep2; congruence.
  - intros k' Hk'. rewrite Hkeep2; [by apply Hkeep1|]. by rewrite Hkeep1.
Qed.

Lemma register_typed fs : forall ctx ctx', register ctx fs = Return ctx' ->
  well_typed ctx -> well_typed ctx'.
Proof.
  induction fs as [|[name f] fs IH]; intros ctx ctx'; cbn [register]; [by intros [= <-]|].
  destruct (set_function ctx name f) as [ctx1|] eqn:Hf; [|done]. intros Hr Hw.
  apply (IH _ _ Hr). intros k t. rewrite (type_of_function _ _ _ _ _ Hf). apply Hw.
Qed.

Lemma new_context_typed ctx : ExprContext_new = Return ctx -> well_typed ctx.
Proof.
  intros Hn. eapply register_typed; [exact Hn|]. intros k t. by rewrite type_of_new.
Qed.

(** ** Lemmas: the bindings of a step *)

Lemma state_bindings_typed s : Forall typed_binding (state_bindings s).
Proof. by repeat constructor. Qed.
Lemma engine_bindings_typed e : Forall typed_binding (engine_bindings e).
Proof. by repeat constructor. Qed.

Lemma bind_step_typed s e ctx : well_typed ctx ->
  exists ctx1 ctx2, bind_state s ctx = Return ctx1 /\ bind_engine e ctx1 = Return ctx2 /\
    well_typed ctx2.
Proof.
  intros Hw. destruct (bind_all_typed _ ctx Hw (state_bindings_typed s)) as (ctx1 & Hb1 & Hw1 & _).
  destruct (bind_all_typed _ ctx1 Hw1 (engine_bindings_typed e)) as (ctx2 & Hb2 & Hw2 & _).
  by exists ctx1, ctx2.
Qed.

Lemma evaluate_derived_typed derived : Forall (fun d => d.1 ∉ text_variables) derived ->
  forall s ctx, well_typed ctx ->
  exists s' ctx' r, evaluate_derived s derived ctx = Return (s', ctx', r) /\ well_typed ctx' /\
    derived_outcome derived r.
Proof.
  induction 1 as [|[name d] derived Hn _ IH]; intros s ctx Hw; cbn [evaluate_derived];
    [by eexists _, _, _|].
  assert (Hmore : forall s ctx, well_typed ctx ->
    exists s' ctx' r, evaluate_derived s derived ctx = Return (s', ctx', r) /\ well_typed ctx' /\
      derived_outcome ((name, d) :: derived) r).
  { intros s1 ctx1 Hw1. destruct (IH s1 ctx1 Hw1) as (s' & ctx' & r & Hr & Hw' & Ho).
    exists s', ctx', r. split_and!; [done|done|]. destruct r as [?|[location]]; [done|].
    destruct Ho as (name' & d' & ctx2 & Hin & ?). exists name', d', ctx2. split; [by right|done]. }
  destruct (eval_float _ _) as [x|] eqn:Hf.
  - destruct (ctx_set_typed ctx name (EFloat (lag_step (default f_zero (get_f64 s name)) x
      (der_tau_s d) derived_dt)) Hw) as (ctx1 & Hset & Hw1 & _).
    { cbn. unfold variable_type. by rewrite decide_False. }
    unfold set_f64. rewrite Hset. by apply Hmore.
  - destruct (eval_string _ _) eqn:Hs; [by apply Hmore|]. eexists _, _, _. split_and!; [reflexivity|done|].
    exists name, d, ctx. split_and!; [by left|done..].
Qed.

(** After the frequencies nothing in a step can panic. *)
Lemma step_typed cfg s e clock dt ctx : well_typed ctx ->
  Forall (fun d => d.1 ∉ text_variables) (sc_derived cfg) ->
  (step s e cfg clock dt ctx = Panic /\ dvfs_update s cfg (duration_as_secs_f64 dt) = Panic) \/
  (exists s' ctx' r, step s e cfg clock dt ctx = Return (s', ctx', r) /\ well_typed ctx' /\
    derived_outcome (sc_derived cfg) r).
Proof.
  intros Hw Hd. unfold step. destruct (dvfs_update s cfg _) as [s1|]; [right|by left].
  set (s2 := external_injection_apply _ _ _ _).
  assert (Ha : exists s3 ctx3, apply_actions s2 e cfg (duration_as_secs_f64 dt) ctx
    = Return (s3, ctx3) /\ well_typed ctx3).
  { unfold apply_actions. destruct (active_actions e); [by eauto|].
    destruct (bind_step_typed s2 e ctx Hw) as (ctx1 & ctx2 & -> & -> & Hw2). by eauto. }
  destruct Ha as (s3 & ctx3 & -> & Hw3). unfold derived_evaluate.
  destruct (bind_step_typed s3 e ctx3 Hw3) as (ctx1 & ctx2 & -> & -> & Hw2).
  by apply evaluate_derived_typed.
Qed.

Lemma steps_typed cfg st st' : Forall (fun d => d.1 ∉ text_variables) (sc_derived cfg) ->
  star (physics_step cfg) st st' -> well_typed st.2 -> well_typed st'.2.
Proof.
  intros Hd. apply (star_invariant (physics_step cfg) (fun st => well_typed st.2)).
  intros st1 st2 [s ctx e clock dt s' ctx' r Hs] Hw. cbn [snd] in *.
  destruct (step_typed cfg s e clock dt ctx Hw Hd) as [[Hp _]|(s1 & ctx1 & r1 & Hr & Hw' & _)];
    [congruence|]. rewrite Hs in Hr. by injection Hr as _ <- _.
Qed.

(** A text variable given a number by a derived expression panics the first step. *)
Lemma mistyped_derived_panics cfg s e clock dt ctx name d derived x :
  sc_derived cfg = (name, d) :: derived -> name ∈ text_variables -> well_typed ctx ->
  active_actions e = [] ->
  (forall ctx, eval_float (tree (der_expr d)) ctx = Some x) -> step s e cfg clock dt ctx = Panic.
Proof.
  intros Hcfg Hn Hw Ha He. unfold step. destruct (dvfs_update _ _ _) as [s1|]; [|done].
  set (s2 := external_injection_apply _ _ _ _). unfold apply_actions. rewrite Ha.
  unfold derived_evaluate.
  destruct (bind_all_typed _ ctx Hw (state_bindings_typed s2)) as (ctx1 & Hb1 & Hw1 & Ht1 & _).
  destruct (bind_all_typed _ ctx1 Hw1 (engine_bindings_typed e)) as (ctx2 & Hb2 & Hw2 & Ht2 & Hkeep).
  unfold bind_state. rewrite Hb1. unfold bind_engine. rewrite Hb2, Hcfg. cbn [evaluate_derived].
  rewrite He. unfold set_f64, ctx_set. rewrite (set_value_mistyped ctx2 name _ TString); [done| |done].
  assert (Hset : type_of ctx2 name <> None).
  { rewrite List.Forall_forall in Ht1, Ht2. revert Hn. unfold text_variables. rewrite !elem_of_cons.
    intros [->|[->|[->|[->|Hn]]]]; [| | | |by apply elem_of_nil in Hn].
    - assert (Hk : type_of ctx1 "kv_dtype" = Some TString).
      { apply (Ht1 ("kv_dtype", EString (kv_dtype s2))). unfold state_bindings.
        apply in_or_app. right. by left. }
      rewrite Hkeep; congruence.
    - pose proof (Ht2 ("active_device", EString (active_device e))) as Hk. cbn in Hk.
      rewrite Hk; [done|tauto].
    - pose proof (Ht2 ("phase", EString (engine_phase e))) as Hk. cbn in Hk. rewrite Hk; [done|tauto].
    - pose proof (Ht2 ("device", EString (default (active_device e) (last_switch_device e)))) as Hk.
      cbn in Hk. rewrite Hk; [done|tauto]. }
  destruct (type_of ctx2 name) as [t|] eqn:Ht; [|done]. f_equal. rewrite (Hw2 _ _ Ht).
  unfold variable_type. by rewrite decide_True.
Qed.
End Typed.

(** ** Properties *)

(** C33. The variables of the expressions keep their types.  When no derived expression of
    the scenario is named like one of the four text variables, every context reached from a
    new one by any sequence of steps gives each variable its one type, and from there no
    binding of a further step can panic, whatever the engine does.  Either the clamp of the
    frequency scaling panics, before any binding, or the step returns a well-typed context:
    with success, or with the error of a derived expression that evaluates neither to a
    number nor to a text. *)
Theorem expression_types_sound `{Libm} `{EvalexprTyped} cfg ctx0 s0 s ctx engine clock dt :
  Forall (fun d => d.1 ∉ text_variables) (sc_derived cfg) ->
  ExprContext_new = Return ctx0 -> star (physics_step cfg) (s0, ctx0) (s, ctx) ->
  well_typed ctx /\
  ((exists s' ctx' r, step s engine cfg clock dt ctx = Return (s', ctx', r) /\ well_typed ctx' /\
      derived_outcome (sc_derived cfg) r) \/
   (step s engine cfg clock dt ctx = Panic /\
    dvfs_update s cfg (duration_as_secs_f64 dt) = Panic)).
Proof.
  intros Hd Hnew Hsteps.
  assert (Hw : well_typed ctx).
  { apply (steps_typed cfg _ _ Hd Hsteps). by apply new_context_typed. }
  split; [exact Hw|]. destruct (step_typed cfg s engine clock dt ctx Hw Hd) as [?|?]; auto.
Qed.

(** ** Examples *)

#[export] Instance demo_typed : EvalexprTyped.
Proof.
  refine (@Build_EvalexprTyped demo_evalexpr
    (fun (ctx : HashMap EValue) k => typ <$> hm_get ctx k) _ _ _ _ _).
  - done.
  - by intros ctx name f ctx' k [= ->].
  - intros ctx k v Ht. cbn. destruct (hm_get ctx k) as [old|]; [|by eexists].
    destruct Ht as [|[= Ht]]; [done|]. destruct old, v; try discriminate; cbn; eauto.
  - intros ctx k v ctx' k'. cbn.
    assert (Hget : typ <$> hm_get (hm_insert ctx k v) k' =
      if decide (k' = k) then Some (typ v) else typ <$> hm_get ctx k').
    { rewrite hm_insert_get. by destruct (String.eqb_spec k k'), (decide (k' = k)); subst. }
    destruct (hm_get ctx k) as [old|]; [destruct (demo_same_type old v); [|done]|];
      intros [= <-]; exact Hget.
  - intros ctx k v t. cbn. destruct (hm_get ctx k) as [old|]; [|done]. intros [= <-] Hne.
    by destruct old, v.
Defined.

Lemma expression_types_sound_witness :
  exists s1 ctx1, star (physics_step demo_scenario) (demo_state, context_new) (s1, ctx1) /\
    well_typed ctx1 /\
    ((exists s' ctx' r, step s1 demo_engine demo_scenario VirtualClock_new 50000000 ctx1
        = Return (s', ctx', r) /\ well_typed ctx' /\
        derived_outcome (sc_derived demo_scenario) r) \/
     (step s1 demo_engine demo_scenario VirtualClock_new 50000000 ctx1 = Panic /\
      dvfs_update s1 demo_scenario (duration_as_secs_f64 50000000) = Panic)).
Proof.
  destruct (step demo_state demo_engine demo_scenario VirtualClock_new 50000000 context_new)
    as [[[s1 ctx1] r]|] eqn:Hs; [|vm_compute in Hs; discriminate Hs].
  assert (Hsteps : star (physics_step demo_scenario) (demo_state, context_new) (s1, ctx1)).
  { eapply star_step; [|apply star_refl]. by econstructor. }
  exists s1, ctx1. split; [exact Hsteps|].
  apply (expression_types_sound demo_scenario context_new demo_state); [|reflexivity|exact Hsteps].
  constructor; [|constructor]. cbn. apply (bool_decide_unpack _). vm_compute. exact I.
Defined.

(** A scenario that validation accepts and whose first step panics. *)
Definition mistyped_scenario : ScenarioConfig :=
  {| sc_extends := None; sc_initial_state := sc_initial_state demo_scenario; sc_actions := [];
     sc_composition := sc_composition demo_scenario; sc_interactions := [];
     sc_passive_dynamics :=
       {| pd_cpu_cluster_thermal_c := demo_cluster; pd_gpu_cluster_thermal_c := demo_cluster;
          thermal_coupling := {| cpu_to_gpu := f_zero; gpu_to_cpu := f_zero |};
          pd_thermal_c := demo_derived "thermal_c"; pd_memory_bw_utilization_pct := demo_derived "bits";
          pd_kv_cache_bytes := {| growth_per_token := []; applies_when := demo_expr "phase" |} |};
     sc_dvfs := sc_dvfs demo_scenario; sc_derived := [("phase", demo_derived "cpu_freq_mhz")];
     sc_external_injections := []; sc_observation := sc_observation demo_scenario;
     sc_rng_seed := None |}.
Lemma mistyped_scenario_panics :
  validate_expressions mistyped_scenario = Return (Ok tt) /\
  step demo_state demo_engine mistyped_scenario VirtualClock_new 50000000 context_new = Panic.
Proof. split; vm_compute; reflexivity. Qed.
