(* ===== verification/SimSignal.v ===== *)
(** * SimSignal: what the simulated device reports (src/sim/noise.rs, src/sim/signal.rs)

    Noise streams, and the projections of the simulated state to heartbeats and signals.
    The generator is [rand_chacha]'s and [ln] and [cos] are the platform's: parameters.
    Drawing a sample repeats until the generator gives a number that is not zero; the
    repetition takes fuel, and [None] is running out of it. *)

From Stdlib Require Import ZArith Lia SpecFloat Ascii String.
From stdpp Require Import base tactics numbers list strings.
From S2P Require Import Prelude Float RustStr Signal Config Wire MemoryMonitor ThermalMonitor ComputeMonitor SimClock SimConfig SimExpr SimState.
Local Open Scope string_scope.
Local Open Scope list_scope.
Local Open Scope Z_scope.

(** ** Noise (src/sim/noise.rs) *)

Class Rng := {
  ChaCha8Rng : Type;
  seed_from_u64 : Z -> ChaCha8Rng;
  next_u32 : ChaCha8Rng -> Z * ChaCha8Rng
}.
Class LogCos := { f64_ln : f64 -> f64; f64_cos : f64 -> f64 }.

Definition FNV_OFFSET : Z := 14695981039346656037.
Definition FNV_PRIME : Z := 1099511628211.

(** One byte of the hash, with [wrapping_mul]. *)
Definition fnv_byte (hash byte : Z) : Z := wrap 0 u64_max (Z.lxor hash byte * FNV_PRIME).

Definition to_le_bytes (n : Z) : list Z :=
  map (fun i => Z.land (Z.shiftr n (8 * i)) 255) (seqZ 0 8).
Fixpoint str_bytes (s : string) : list Z :=
  match s with "" => [] | String c s => ascii_code c :: str_bytes s end.

Definition derive_stream_seed (master_seed : Z) (key : string) : Z :=
  fold_left fnv_byte (str_bytes key) (fold_left fnv_byte (to_le_bytes master_seed) FNV_OFFSET).

Section Noise.
Context `{Rng} `{LogCos} (fuel : nat).

(** [f64::consts::TAU]. *)
Definition TAU : f64 := f64_lit 6283185307179586 1000000000000000.

Fixpoint nonzero_u32 (fuel : nat) (rng : ChaCha8Rng) : option (Z * ChaCha8Rng) :=
  match fuel with
  | O => None
  | S fuel =>
      let '(raw, rng) := next_u32 rng in
      if negb (raw =? 0) then Some (raw, rng) else nonzero_u32 fuel rng
  end.

Definition box_muller (rng : ChaCha8Rng) : option (f64 * ChaCha8Rng) :=
  '(raw, rng) ← nonzero_u32 fuel rng;
  let u1 := f64_div (f64_of_Z raw) (f64_of_Z u32_max) in
  let '(raw, rng) := next_u32 rng in
  let u2 := f64_div (f64_of_Z raw) (f64_of_Z u32_max) in
  Some (f64_mul (SFsqrt 53 1024 (f64_mul (f64_lit (-2) 1) (f64_ln u1))) (f64_cos (f64_mul TAU u2)), rng).

Record NoiseRng := { streams : HashMap ChaCha8Rng; master_seed : Z }.
Definition NoiseRng_new (seed : Z) : NoiseRng := {| streams := []; master_seed := seed |}.

Definition gaussian (n : NoiseRng) (seed_key : string) (sigma : f64) : option (f64 * NoiseRng) :=
  if SFeqb sigma f_zero then Some (f_zero, n)
  else
    let rng :=
      match hm_get (streams n) seed_key with
      | Some rng => rng
      | None => seed_from_u64 (derive_stream_seed (master_seed n) seed_key)
      end in
    '(z, rng) ← box_muller rng;
    Some (f64_mul z sigma,
          {| streams := hm_insert (streams n) seed_key rng; master_seed := master_seed n |}).

Definition no_noise (n : NoiseRng) : f64 := f_zero.

(** A run of draws. *)
Fixpoint draws (n : NoiseRng) (keys : list (string * f64)) : option (list f64 * NoiseRng) :=
  match keys with
  | [] => Some ([], n)
  | (key, sigma) :: keys =>
      '(x, n) ← gaussian n key sigma;
      '(xs, n) ← draws n keys;
      Some (x :: xs, n)
  end.

(** ** Projections (src/sim/signal.rs) *)

Inductive ResourceLevel := ResNormal | ResWarning | ResCritical.
Definition to_resource_level (l : Level) : ResourceLevel :=
  match l with Normal => ResNormal | Warning => ResWarning | Critical | Emergency => ResCritical end.

Definition compute_level_from_usage (cpu_pct gpu_pct : f64) : Level :=
  compute_level_from_pcts cpu_pct gpu_pct.

(** A draw when there is a generator, and nothing otherwise. *)
Definition draw (rng : option NoiseRng) (key : string) (sigma : f64)
    : option (f64 * option NoiseRng) :=
  match rng with
  | Some n => '(x, n) ← gaussian n key sigma; Some (x, Some n)
  | None => Some (f_zero, None)
  end.

Definition noise_sigma (field : NoiseSpec -> option f64) (specs : HashMap NoiseSpec) (key : string)
    : f64 :=
  default f_zero (spec ← hm_get specs key; field spec).

Section Derive.
(** Whether integer overflow is checked. *)
Context `{Evalexpr} (oc : bool).

(** [derive_heartbeat]: what is computed from the state is dropped, so that only the draws
    remain; the status is a constant. *)
Definition derive_heartbeat (s : PhysicalState) (engine : EngineStateModel) (cfg : ScenarioConfig)
    (rng : option NoiseRng) : option (EngineMessage * option NoiseRng) :=
  let specs := hb_noise (SimConfig.heartbeat (sc_observation cfg)) in
  '(_, rng) ← draw rng "hb.tps" (noise_sigma sigma specs "throughput_tps");
  '(_, rng) ← draw rng "hb.cpu" (noise_sigma sigma specs "self_cpu_pct");
  Some (Heartbeat {|
    kv_cache_bytes := 1024; kv_cache_budget_bytes := 4096; kv_cache_tokens := 32;
    tbt_ms := f32_lit 125 10; phase := PhaseDecode; Wire.state := EngineRunning |}, rng).

Definition mib (mb : f64) : f64 := f64_mul (f64_mul mb (f64_lit 1024 1)) (f64_lit 1024 1).

Definition derive_memory_signal (s : PhysicalState) (cfg : ScenarioConfig) (rng : option NoiseRng)
    : option (outcome SystemSignal * option NoiseRng) :=
  let total_bytes := f_to_u64 (mib (num s F_device_memory_total_mb)) in
  let specs := sig_noise (obs_memory (SimConfig.signals (sc_observation cfg))) in
  '(noise, rng) ← draw rng "sig.mem" (noise_sigma sigma_mb specs "available_bytes");
  let noise_bytes := f_to_i64 (mib noise) in
  let used_bytes := f_to_i64 (mib (num s F_device_memory_used_mb)) in
  let signal :=
    let! free := arith i64_min i64_max oc (wrap i64_min i64_max total_bytes - used_bytes) in
    let! free := arith i64_min i64_max oc (free + noise_bytes) in
    let available_bytes := Z.max free 0 in
    let available_pct :=
      if 0 <? total_bytes
      then f64_mul (f64_div (f64_of_Z available_bytes) (f64_of_Z total_bytes)) (f64_lit 100 1)
      else f64_lit 100 1 in
    let level := memory_level_from_available_pct available_pct in
    let reclaim :=
      match level with
      | Normal => 0
      | Warning => f_to_u64 (f64_mul (f64_of_Z total_bytes) (f64_lit 5 100))
      | Critical => f_to_u64 (f64_mul (f64_of_Z total_bytes) (f64_lit 10 100))
      | Emergency => f_to_u64 (f64_mul (f64_of_Z total_bytes) (f64_lit 20 100))
      end in
    Return (MemoryPressure level available_bytes total_bytes reclaim) in
  Some (signal, rng).

Definition sim_compute_recommendation (cpu_pct gpu_pct gpu_thermal_c warning_pct : f64)
    : RecommendedBackend * ComputeReason :=
  if level_leb Critical (thermal_level_from_temp_c gpu_thermal_c) then (BackendCpu, GpuBottleneck)
  else compute_recommendation cpu_pct gpu_pct warning_pct.

Definition derive_compute_signal (s : PhysicalState) (cfg : ScenarioConfig) (rng : option NoiseRng)
    : option (SystemSignal * option NoiseRng) :=
  let cpu_usage_pct :=
    f_min (f64_add (num s F_engine_cpu_pct) (num s F_external_cpu_pct)) (f64_lit 100 1) in
  let gpu_usage_pct :=
    f_min (f64_add (num s F_engine_gpu_pct) (num s F_external_gpu_pct)) (f64_lit 100 1) in
  '(noise, rng') ← draw rng "sig.cpu" (f64_lit 5 10);
  let cpu_with_noise :=
    match rng with
    | Some _ => f_clamp (f64_add cpu_usage_pct noise) f_zero (f64_lit 100 1)
    | None => cpu_usage_pct
    end in
  let level := compute_level_from_usage cpu_with_noise gpu_usage_pct in
  let '(recommended_backend, reason) :=
    sim_compute_recommendation cpu_with_noise gpu_usage_pct (num s F_gpu_cluster_thermal_c)
      (cpu_warning_pct default_ComputeMonitorConfig) in
  Some (ComputeGuidance level recommended_backend reason cpu_with_noise gpu_usage_pct, rng').

Definition derive_thermal_signal (s : PhysicalState) (cfg : ScenarioConfig) (rng : option NoiseRng)
    : option (SystemSignal * option NoiseRng) :=
  let specs := sig_noise (obs_thermal (SimConfig.signals (sc_observation cfg))) in
  '(noise_c, rng) ← draw rng "sig.therm"
    (f64_div (noise_sigma sigma_mc specs "temperature_mc") (f64_lit 1000 1));
  let temp_c := f64_add (num s F_thermal_c) noise_c in
  let temperature_mc := f_to_i32 (f64_mul temp_c (f64_lit 1000 1)) in
  let level := thermal_level_from_temp_c temp_c in
  let throttling_active := SFleb (soft_threshold_c (dvfs_cpu (sc_dvfs cfg))) (num s F_thermal_c) in
  let throttle_ratio :=
    if SFltb f_zero (num s F_cpu_max_freq_mhz)
    then f_clamp (f64_div (num s F_cpu_freq_mhz) (num s F_cpu_max_freq_mhz)) f_zero (f64_lit 1 1)
    else f64_lit 1 1 in
  Some (ThermalAlert level temperature_mc throttling_active throttle_ratio, rng).

(** [energy_budgets]: only the baseline is used. *)
Definition BASELINE_MW : Z := 5000.
Definition WARNING_MW : Z := 3000.
Definition CRITICAL_MW : Z := 1500.
Definition EMERGENCY_MW : Z := 500.

Definition derive_energy_signal (s : PhysicalState) (cfg : ScenarioConfig) (rng : option NoiseRng)
    : option (outcome SystemSignal * option NoiseRng) :=
  '(noise, rng) ← draw rng "sig.energy" (f64_lit 100 1);
  let noise_mw := f_to_i32 noise in
  let signal :=
    let! budget := i32_arith oc (BASELINE_MW + noise_mw) in
    let power_budget_mw := Z.max budget 0 in
    let thermal_lv := thermal_level_from_temp_c (num s F_thermal_c) in
    let '(level, reason) :=
      if decide (thermal_lv = Emergency) then (Emergency, ThermalPower)
      else if level_leb Critical thermal_lv then (Critical, ThermalPower)
      else (Normal, NoReason) in
    Return (EnergyConstraint level reason power_budget_mw) in
  Some (signal, rng).

(** The public versions, for tests. *)
Definition derive_memory_signal_pub (s : PhysicalState) (cfg : ScenarioConfig) (rng : option NoiseRng)
    : option (outcome SystemSignal * option NoiseRng) := derive_memory_signal s cfg rng.
Definition derive_compute_signal_pub (s : PhysicalState) (cfg : ScenarioConfig) (rng : option NoiseRng)
    : option (SystemSignal * option NoiseRng) := derive_compute_signal s cfg rng.
Definition derive_thermal_signal_pub (s : PhysicalState) (cfg : ScenarioConfig) (rng : option NoiseRng)
    : option (SystemSignal * option NoiseRng) := derive_thermal_signal s cfg rng.

(** [derive_signal]: [None] inside for the events that are not signals. *)
Definition derive_signal (event : EventKind) (s : PhysicalState) (cfg : ScenarioConfig)
    (rng : option NoiseRng) : option (outcome (option SystemSignal) * option NoiseRng) :=
  match event with
  | EvSignalMemory =>
      '(o, rng) ← derive_memory_signal s cfg rng;
      Some (let! sig := o in Return (Some sig), rng)
  | EvSignalCompute =>
      '(sig, rng) ← derive_compute_signal s cfg rng; Some (Return (Some sig), rng)
  | EvSignalThermal =>
      '(sig, rng) ← derive_thermal_signal s cfg rng; Some (Return (Some sig), rng)
  | EvSignalEnergy =>
      '(o, rng) ← derive_energy_signal s cfg rng;
      Some (let! sig := o in Return (Some sig), rng)
  | _ => Some (Return None, rng)
  end.
End Derive.

(** [maybe_create]. *)
Definition maybe_create `{Evalexpr} (cfg : ScenarioConfig) : option NoiseRng :=
  match sc_rng_seed cfg with Some seed => Some (NoiseRng_new seed) | None => None end.

(** ** Lemmas *)

(** A draw only changes the stream of its own key, and depends on no other. *)
Lemma gaussian_streams n key sigma x n' : gaussian n key sigma = Some (x, n') ->
  master_seed n' = master_seed n /\
  (forall k, k <> key -> hm_get (streams n') k = hm_get (streams n) k).
Proof.
  unfold gaussian. destruct (SFeqb sigma f_zero); [by intros; simplify_eq|].
  destruct (box_muller _) as [[z rng]|]; [|done]. cbn. intros; simplify_eq. cbn.
  split; [done|]. intros k Hk. rewrite hm_insert_get. by destruct (String.eqb_spec key k).
Qed.

Lemma gaussian_same n1 n2 key sigma :
  master_seed n1 = master_seed n2 -> hm_get (streams n1) key = hm_get (streams n2) key ->
  match gaussian n1 key sigma, gaussian n2 key sigma with
  | Some (x1, n1'), Some (x2, n2') =>
      x1 = x2 /\ hm_get (streams n1') key = hm_get (streams n2') key
  | None, None => True
  | _, _ => False
  end.
Proof.
  intros Hm Hs. unfold gaussian. rewrite Hm, Hs. destruct (SFeqb sigma f_zero); [done|].
  destruct (box_muller _) as [[z rng]|]; [|done]. cbn.
  by rewrite !hm_insert_get, String.eqb_refl.
Qed.

Lemma draws_key k keys : forall n1 n2 xs n1',
  master_seed n1 = master_seed n2 -> hm_get (streams n1) k = hm_get (streams n2) k ->
  draws n1 keys = Some (xs, n1') ->
  exists n2', draws n2 (List.filter (fun d => String.eqb d.1 k) keys) =
    Some (map snd (List.filter (fun p => String.eqb p.1.1 k) (zip keys xs)), n2').
Proof.
  induction keys as [|[key sigma] keys IH]; intros n1 n2 xs n1' Hm Hs; cbn [draws].
  { intros [= <- <-]. by eexists. }
  destruct (gaussian n1 key sigma) as [[x m1]|] eqn:Hg; [|done]. cbn.
  destruct (draws m1 keys) as [[ys m1']|] eqn:Hd; [|done]. cbn. intros [= <- <-].
  pose proof (gaussian_streams _ _ _ _ _ Hg) as [Hm1 Hs1]. cbn.
  destruct (String.eqb_spec key k) as [->|Hne].
  - pose proof (gaussian_same n1 n2 k sigma Hm Hs) as Hsame. rewrite Hg in Hsame.
    destruct (gaussian n2 k sigma) as [[x2 m2]|] eqn:Hg2; [|done]. destruct Hsame as [<- Hk].
    pose proof (gaussian_streams _ _ _ _ _ Hg2) as [Hm2 _].
    destruct (IH m1 m2 ys m1') as [n2' Hn2]; [congruence|done|done|].
    exists n2'. cbn [draws]. rewrite Hg2. cbn. rewrite Hn2. done.
  - apply (IH m1 n2 ys m1'); [congruence| |done]. by rewrite Hs1.
Qed.
End Noise.

(** ** Properties *)

(** Noise streams are independent and reproducible.  In any run of draws from a
    generator with a given seed, the samples a key gives are those it gives when it is
    the only one drawn from, so that they depend on the seed, the key and its own draws
    alone, and not on how the draws of other keys are interleaved. *)
Theorem noise_streams_independent `{Rng} `{LogCos} fuel seed k keys xs n :
  draws fuel (NoiseRng_new seed) keys = Some (xs, n) ->
  exists n', draws fuel (NoiseRng_new seed) (List.filter (fun d => String.eqb d.1 k) keys) =
    Some (map snd (List.filter (fun p => String.eqb p.1.1 k) (zip keys xs)), n').
Proof. by apply draws_key. Qed.

#[export] Instance demo_rng : Rng := {|
  ChaCha8Rng := Z;
  seed_from_u64 := fun seed => if Z.even seed then 7 else 8;
  next_u32 := fun x => (x, Z.succ x)
|}.
#[export] Instance demo_logcos : LogCos := {| f64_ln := fun x => SFopp x; f64_cos := fun x => x |}.

Lemma noise_streams_independent_witness :
  exists x y z n n', draws 3 (NoiseRng_new 42)
      [("a", f64_lit 1 1); ("b", f64_lit 2 1); ("a", f64_lit 1 1)] = Some ([x; y; z], n) /\
    draws 3 (NoiseRng_new 42) [("a", f64_lit 1 1); ("a", f64_lit 1 1)] = Some ([x; z], n').
Proof.
  set (keys := [("a", f64_lit 1 1); ("b", f64_lit 2 1); ("a", f64_lit 1 1)]).
  destruct (draws 3 (NoiseRng_new 42) keys) as [[xs n]|] eqn:Hd; [|vm_compute in Hd; discriminate].
  destruct (noise_streams_independent 3 42 "a" keys xs n Hd) as [n' Hn].
  pose proof Hd as Hlen. vm_compute in Hlen. injection Hlen as Hxs _.
  destruct xs as [|x [|y [|z [|? ?]]]]; try discriminate Hxs.
  exists x, y, z, n, n'. split; [reflexivity|exact Hn].
Defined.
