(* ===== verification/SimTrajectory.v ===== *)
(** * SimTrajectory: the record of a simulation (src/sim/trajectory.rs)

    The entries of a trajectory, how they are recorded, and the queries of its tests.
    What is rendered of it is in [SimReport] and [SimRun]. *)

From Stdlib Require Import ZArith Lia SpecFloat Ascii String.
From stdpp Require Import base tactics numbers list strings.
From S2P Require Import Prelude Float RustStr Signal Wire SimClock SimConfig SimState.
Local Open Scope string_scope.
Local Open Scope list_scope.

(** ** Dumps *)

Record PhysicalStateSnapshot := {
  ss_kv_cache_bytes : f64; ss_kv_cache_tokens : f64; ss_kv_dtype : string;
  ss_device_memory_used_mb : f64; ss_device_memory_total_mb : f64;
  ss_memory_bw_utilization_pct : f64; ss_engine_cpu_pct : f64; ss_engine_gpu_pct : f64;
  ss_cpu_freq_mhz : f64; ss_gpu_freq_mhz : f64; ss_thermal_c : f64;
  ss_cpu_cluster_thermal_c : f64; ss_gpu_cluster_thermal_c : f64; ss_throughput_tps : f64;
  ss_tbt_ms : f64
}.
Definition snapshot_from_state (s : PhysicalState) : PhysicalStateSnapshot := {|
  ss_kv_cache_bytes := num s F_kv_cache_bytes;
  ss_kv_cache_tokens := num s F_kv_cache_tokens;
  ss_kv_dtype := kv_dtype s;
  ss_device_memory_used_mb := num s F_device_memory_used_mb;
  ss_device_memory_total_mb := num s F_device_memory_total_mb;
  ss_memory_bw_utilization_pct := num s F_memory_bw_utilization_pct;
  ss_engine_cpu_pct := num s F_engine_cpu_pct;
  ss_engine_gpu_pct := num s F_engine_gpu_pct;
  ss_cpu_freq_mhz := num s F_cpu_freq_mhz;
  ss_gpu_freq_mhz := num s F_gpu_freq_mhz;
  ss_thermal_c := num s F_thermal_c;
  ss_cpu_cluster_thermal_c := num s F_cpu_cluster_thermal_c;
  ss_gpu_cluster_thermal_c := num s F_gpu_cluster_thermal_c;
  ss_throughput_tps := num s F_throughput_tps;
  ss_tbt_ms := num s F_tbt_ms
|}.

Record EngineStateSnapshot := {
  es_active_device : string; es_active_actions : list string; es_phase : string;
  es_partition_ratio : f64; es_throttle_delay_ms : f64; es_skip_ratio : f64
}.
Definition snapshot_from_engine (e : EngineStateModel) : EngineStateSnapshot := {|
  es_active_device := active_device e;
  es_active_actions := active_actions e;
  es_phase := engine_phase e;
  es_partition_ratio := partition_ratio e;
  es_throttle_delay_ms := throttle_delay_ms e;
  es_skip_ratio := skip_ratio e
|}.

(** The [Debug] texts of the protocol package's types are its own. *)
Class ProtocolDebug := { phase_debug : Phase -> string; command_debug : EngineCommand -> string }.

Record EngineMessageDump := {
  md_kind : string; md_tbt_ms : option f32; md_kv_cache_bytes : option Z;
  md_kv_cache_budget_bytes : option Z; md_kv_cache_tokens : option Z; md_phase : option string
}.
Definition message_dump `{ProtocolDebug} (msg : EngineMessage) : EngineMessageDump :=
  match msg with
  | Heartbeat status =>
      {| md_kind := "heartbeat"; md_tbt_ms := Some (Wire.tbt_ms status);
         md_kv_cache_bytes := Some (Wire.kv_cache_bytes status);
         md_kv_cache_budget_bytes := Some (kv_cache_budget_bytes status);
         md_kv_cache_tokens := Some (Wire.kv_cache_tokens status);
         md_phase := Some (phase_debug (phase status)) |}
  | _ =>
      {| md_kind := "other"; md_tbt_ms := None; md_kv_cache_bytes := None;
         md_kv_cache_budget_bytes := None; md_kv_cache_tokens := None; md_phase := None |}
  end.

(** The values of the detail object. *)
Inductive Detail := DetailInt (z : Z) | DetailFloat (x : f64) | DetailBool (b : bool).

Definition level_debug (l : Level) : string :=
  match l with
  | Normal => "Normal" | Warning => "Warning" | Critical => "Critical" | Emergency => "Emergency"
  end.

Record SignalDump := { sd_kind : string; sd_level : string; sd_detail : list (string * Detail) }.
Definition signal_dump (sig : SystemSignal) : SignalDump :=
  match sig with
  | MemoryPressure level available_bytes total_bytes reclaim_target_bytes =>
      {| sd_kind := "memory_pressure"; sd_level := level_debug level;
         sd_detail := [("available_bytes", DetailInt available_bytes);
                       ("total_bytes", DetailInt total_bytes);
                       ("reclaim_target_bytes", DetailInt reclaim_target_bytes)] |}
  | ComputeGuidance level _ _ cpu_usage_pct gpu_usage_pct =>
      {| sd_kind := "compute_guidance"; sd_level := level_debug level;
         sd_detail := [("cpu_usage_pct", DetailFloat cpu_usage_pct);
                       ("gpu_usage_pct", DetailFloat gpu_usage_pct)] |}
  | ThermalAlert level temperature_mc throttling_active _ =>
      {| sd_kind := "thermal_alert"; sd_level := level_debug level;
         sd_detail := [("temperature_mc", DetailInt temperature_mc);
                       ("throttling_active", DetailBool throttling_active)] |}
  | EnergyConstraint level _ power_budget_mw =>
      {| sd_kind := "energy_constraint"; sd_level := level_debug level;
         sd_detail := [("power_budget_mw", DetailInt power_budget_mw)] |}
  end.

Record DirectiveDump := { dd_seq_id : Z; dd_commands : list string }.
Definition directive_dump `{ProtocolDebug} (d : EngineDirective) : DirectiveDump :=
  {| dd_seq_id := seq_id d; dd_commands := map command_debug (commands d) |}.

(** ** Entries *)

Inductive TrajectoryEntry :=
| StateSnapshot (at_s : f64) (state : PhysicalStateSnapshot) (engine : EngineStateSnapshot)
| HeartbeatEntry (at_s : f64) (message : EngineMessageDump)
| SignalEntry (at_s : f64) (signal : SignalDump)
| DirectiveEntry (at_s : f64) (trigger : SignalDump) (directive : DirectiveDump)
| ObservationDueEntry (at_s : f64) (action : string) (recorded_at_s : f64)
| InjectionEvent (at_s : f64) (idx : Z) (started : bool)
| CustomEntry (at_s : f64) (name : string)
| ReliefUpdate (at_s : f64) (action : string) (before after observed : list f32)
    (observation_count : Z) (age_s : f64)
| ObservationOverrun (at_s : f64) (total_count : Z)
| LevelTransition (at_s : f64) (signal_kind : string) (from_level : option string)
    (to_level : string) (state : PhysicalStateSnapshot).

Definition entry_at_s (e : TrajectoryEntry) : f64 :=
  match e with
  | StateSnapshot at_s _ _ | HeartbeatEntry at_s _ | SignalEntry at_s _ | DirectiveEntry at_s _ _
  | ObservationDueEntry at_s _ _ | InjectionEvent at_s _ _ | CustomEntry at_s _
  | ReliefUpdate at_s _ _ _ _ _ _ | ObservationOverrun at_s _ | LevelTransition at_s _ _ _ _ => at_s
  end.

(** A trajectory is the list of its entries, oldest first. *)
Definition Trajectory := list TrajectoryEntry.
Definition Trajectory_new : Trajectory := [].

(** ** Recording *)

Definition record_state_snapshot (t : Trajectory) (at_ : Z) (s : PhysicalState)
    (e : EngineStateModel) : Trajectory :=
  t ++ [StateSnapshot (duration_as_secs_f64 at_) (snapshot_from_state s) (snapshot_from_engine e)].
Definition record_heartbeat `{ProtocolDebug} (t : Trajectory) (at_ : Z) (msg : EngineMessage)
    : Trajectory := t ++ [HeartbeatEntry (duration_as_secs_f64 at_) (message_dump msg)].
Definition record_signal (t : Trajectory) (at_ : Z) (sig : SystemSignal) : Trajectory :=
  t ++ [SignalEntry (duration_as_secs_f64 at_) (signal_dump sig)].
Definition record_directive `{ProtocolDebug} (t : Trajectory) (at_ : Z) (trigger : SystemSignal)
    (d : EngineDirective) : Trajectory :=
  t ++ [DirectiveEntry (duration_as_secs_f64 at_) (signal_dump trigger) (directive_dump d)].
Definition record_observation_due (t : Trajectory) (at_ : Z) (action : string) (recorded_at : Z)
    : Trajectory :=
  t ++ [ObservationDueEntry (duration_as_secs_f64 at_) action (duration_as_secs_f64 recorded_at)].
Definition record_injection_event (t : Trajectory) (at_ idx : Z) (started : bool) : Trajectory :=
  t ++ [InjectionEvent (duration_as_secs_f64 at_) idx started].
Definition record_custom (t : Trajectory) (at_ : Z) (name : string) : Trajectory :=
  t ++ [CustomEntry (duration_as_secs_f64 at_) name].
Definition record_observation_overrun (t : Trajectory) (at_ total_count : Z) : Trajectory :=
  t ++ [ObservationOverrun (duration_as_secs_f64 at_) total_count].
Definition record_level_transition (t : Trajectory) (at_ : Z) (signal_kind : string)
    (from_level : option string) (to_level : string) (s : PhysicalState) : Trajectory :=
  t ++ [LevelTransition (duration_as_secs_f64 at_) signal_kind from_level to_level
          (snapshot_from_state s)].

(** ** Queries *)

Definition count (p : TrajectoryEntry -> bool) (t : Trajectory) : nat := length (List.filter p t).

Definition is_directive (e : TrajectoryEntry) : bool :=
  match e with DirectiveEntry _ _ _ => true | _ => false end.
Definition is_heartbeat (e : TrajectoryEntry) : bool :=
  match e with HeartbeatEntry _ _ => true | _ => false end.
Definition is_signal (e : TrajectoryEntry) : bool :=
  match e with SignalEntry _ _ => true | _ => false end.
Definition is_signal_of (kind : string) (e : TrajectoryEntry) : bool :=
  match e with SignalEntry _ s => String.eqb (sd_kind s) kind | _ => false end.
Definition is_observation_due (e : TrajectoryEntry) : bool :=
  match e with ObservationDueEntry _ _ _ => true | _ => false end.
Definition is_observation_due_for (action : string) (e : TrajectoryEntry) : bool :=
  match e with ObservationDueEntry _ a _ => String.eqb a action | _ => false end.

Definition directive_count : Trajectory -> nat := count is_directive.
Definition heartbeat_count : Trajectory -> nat := count is_heartbeat.
Definition signal_count : Trajectory -> nat := count is_signal.
Definition signal_count_by_kind (t : Trajectory) (kind : string) : nat := count (is_signal_of kind) t.
Definition observation_due_count : Trajectory -> nat := count is_observation_due.
Definition observation_due_count_for (t : Trajectory) (action : string) : nat :=
  count (is_observation_due_for action) t.

Definition directives_for_signal (t : Trajectory) (matcher : SignalDump -> bool) : list DirectiveDump :=
  omap (fun e => match e with
    | DirectiveEntry _ trigger d => if matcher trigger then Some d else None
    | _ => None
    end) t.
Definition first_directive_at_or_after (t : Trajectory) (t_s : f64) : option f64 :=
  find_map (fun e => match e with
    | DirectiveEntry at_s _ _ => if SFleb t_s at_s then Some at_s else None
    | _ => None
    end) t.

(** The projection of the snapshot nearest to [t_s], the first of several. *)
Definition nearer (proj : PhysicalStateSnapshot -> f64) (t_s : f64) (best : option (f64 * f64))
    (e : TrajectoryEntry) : option (f64 * f64) :=
  match e with
  | StateSnapshot at_s s _ =>
      let dist := f_abs (f64_sub at_s t_s) in
      match best with
      | None => Some (dist, proj s)
      | Some (d, _) => if SFltb dist d then Some (dist, proj s) else best
      end
  | _ => best
  end.
Definition state_at (t : Trajectory) (proj : PhysicalStateSnapshot -> f64) (t_s : f64) : option f64 :=
  match fold_left (nearer proj t_s) t None with Some (_, v) => Some v | None => None end.

(** [{:?}] of a text without characters to escape. *)
Definition quoted (s : string) : string := String "034" (s +:+ String "034" "").
Definition assert_contains_directive_kind (t : Trajectory) (kind : string) : result unit string :=
  if existsb (fun e => match e with
       | DirectiveEntry _ _ d => existsb (str_contains kind) (dd_commands d)
       | _ => false
       end) t
  then Ok tt else Err ("no directive containing " +:+ quoted kind +:+ " found in trajectory").

Definition last_at_s (t : Trajectory) : option f64 :=
  match last t with Some e => Some (entry_at_s e) | None => None end.

(** ** Lemmas *)

Lemma count_app p t1 t2 : count p (t1 ++ t2) = (count p t1 + count p t2)%nat.
Proof. unfold count. by rewrite List.filter_app, length_app. Qed.
