(* ===== verification/SimReport.v ===== *)
(** * SimReport: what a simulation reports (src/sim/trajectory.rs)

    The timeline in its two modes, the session summary, and the summary record the tests
    compare.  A text is the concatenation of its lines.  How serde_json prints the detail
    object of a signal is a parameter ([DetailText]). *)

From Stdlib Require Import ZArith Lia SpecFloat Ascii String.
From stdpp Require Import base tactics numbers list strings pretty.
From S2P Require Import Prelude Float RustStr Fmt BTree Signal Wire SimClock SimConfig SimState SimTrajectory.
Local Open Scope string_scope.
Local Open Scope list_scope.

(** ** Numbers *)

(** [x.round()]: to the nearest integer, halves away from zero, as a float. *)
Definition f_round (x : f64) : f64 :=
  match x with
  | S754_finite s m e =>
      if (0 <=? e)%Z then x
      else let n := ((2 * Z.pos m + 2 ^ (- e)) / (2 * 2 ^ (- e)))%Z in
           if (n =? 0)%Z then S754_zero s else if s then SFopp (f64_of_Z n) else f64_of_Z n
  | _ => x
  end.

(** [x.floor() as i64]. *)
Definition floor_i64 (x : f64) : Z :=
  match x with
  | S754_finite s m e =>
      let a := if s then (- Z.pos m)%Z else Z.pos m in
      let n := if (0 <=? e)%Z then (a * 2 ^ e)%Z else (a / 2 ^ (- e))%Z in
      Z.max i64_min (Z.min i64_max n)
  | _ => f_to_i64 x
  end.

Definition ln (s : string) : string := s +:+ String "010" "".
Definition unlines (l : list string) : string := foldr (fun s t => ln s +:+ t) "" l.
Definition max_len (l : list nat) : option nat :=
  match l with [] => None | n :: l => Some (fold_left Nat.max l n) end.

Definition hundred : f64 := f64_of_Z 100.
Definition mem_pct (s : PhysicalStateSnapshot) : f64 :=
  if SFltb f_zero (ss_device_memory_total_mb s)
  then f64_div (f64_mul hundred (ss_device_memory_used_mb s)) (ss_device_memory_total_mb s)
  else f_zero.

(** [cmd.split_once('{')], the part before it trimmed; the whole text without one. *)
Definition command_kind (cmd : string) : string :=
  match find_before "{" cmd with Some k => trim k | None => cmd end.

Definition directives (t : Trajectory) : list (f64 * SignalDump * DirectiveDump) :=
  omap (fun e => match e with DirectiveEntry at_s tr d => Some (at_s, tr, d) | _ => None end) t.
Definition transitions (t : Trajectory)
    : list (f64 * string * option string * string * PhysicalStateSnapshot) :=
  omap (fun e => match e with
    | LevelTransition at_s k f l s => Some (at_s, k, f, l, s) | _ => None end) t.

(** ** The dump of the states *)

Definition CSV_HEADER : string :=
  "at_s,kv_cache_bytes,kv_cache_tokens,device_memory_used_mb,engine_cpu_pct,engine_gpu_pct,cpu_freq_mhz,gpu_freq_mhz,thermal_c,throughput_tps,tbt_ms".
Definition csv_cells (e : TrajectoryEntry) : option (list f64) :=
  match e with
  | StateSnapshot at_s s _ =>
      Some [at_s; ss_kv_cache_bytes s; ss_kv_cache_tokens s; ss_device_memory_used_mb s;
            ss_engine_cpu_pct s; ss_engine_gpu_pct s; ss_cpu_freq_mhz s; ss_gpu_freq_mhz s;
            ss_thermal_c s; ss_throughput_tps s; ss_tbt_ms s]
  | _ => None
  end.
(** The text that [dump_csv_states] writes to its file. *)
Definition dump_csv_states (t : Trajectory) : string :=
  join (String "010" "") (CSV_HEADER :: map (fun cells => join "," (map display cells)) (omap csv_cells t)).

(** ** Timeline *)

Inductive TimelineMode := Full | Compact.

Class DetailText := detail_text : list (string * Detail) -> string.

Section Timeline.
Context `{DetailText}.

(** The time and tag every line begins with. *)
Definition stamp (at_s : f64) (rest : string) : string := "t=" +:+ float_wp 7 2 at_s +:+ "s  " +:+ rest.
Definition show_Z (z : Z) : string := pretty z.
Definition nth_f32 (l : list f32) (n : nat) : f32 := nth n l f_zero.
Definition bytes_mib (x : f64) : f64 := f64_div x (f64_mul (f64_of_Z 1024) (f64_of_Z 1024)).

Definition entry_line (e : TrajectoryEntry) : string :=
  match e with
  | StateSnapshot at_s s en =>
      stamp at_s ("[STATE]  kv=" +:+ float_wp 6 2 (bytes_mib (ss_kv_cache_bytes s))
        +:+ "MiB  mem=" +:+ float_wp 6 1 (ss_device_memory_used_mb s)
        +:+ "MB  cpu=" +:+ float_wp 5 1 (ss_engine_cpu_pct s)
        +:+ "%  gpu=" +:+ float_wp 5 1 (ss_engine_gpu_pct s)
        +:+ "%  therm=" +:+ float_wp 5 1 (ss_thermal_c s)
        +:+ "°C  tps=" +:+ float_wp 6 2 (ss_throughput_tps s)
        +:+ "  dev=" +:+ es_active_device en +:+ "  phase=" +:+ es_phase en
        +:+ "  actions=" +:+ debug_strs (es_active_actions en))
  | HeartbeatEntry at_s m =>
      stamp at_s ("[HB]     tbt=" +:+ float_wp 6 2 (default f_zero (md_tbt_ms m))
        +:+ "ms  kv=" +:+ show_Z (default 0%Z (md_kv_cache_bytes m))
        +:+ "/" +:+ show_Z (default 0%Z (md_kv_cache_budget_bytes m))
        +:+ "B  kv_tok=" +:+ show_Z (default 0%Z (md_kv_cache_tokens m))
        +:+ "  phase=" +:+ default "?" (md_phase m))
  | SignalEntry at_s s =>
      stamp at_s ("[SIG]    " +:+ sd_kind s +:+ "@" +:+ sd_level s +:+ "  "
        +:+ detail_text (sd_detail s))
  | DirectiveEntry at_s tr d =>
      stamp at_s ("[DIR] ← " +:+ sd_kind tr +:+ "@" +:+ sd_level tr
        +:+ "  seq=" +:+ show_Z (dd_seq_id d) +:+ "  cmds=" +:+ debug_strs (dd_commands d))
  | ObservationDueEntry at_s action recorded_at_s =>
      stamp at_s ("[OBS]    " +:+ action +:+ " (recorded t=" +:+ fixed 2 recorded_at_s +:+ "s)")
  | InjectionEvent at_s idx started =>
      stamp at_s ("[INJ]    idx=" +:+ show_Z idx +:+ " "
        +:+ (if started then "started" else "ended"))
  | CustomEntry at_s name => stamp at_s ("[CUSTOM] " +:+ name)
  | ReliefUpdate at_s action before after _ observation_count age_s =>
      stamp at_s ("[RELIEF] " +:+ action +:+ " age=" +:+ fixed 2 age_s
        +:+ "s obs#" +:+ show_Z observation_count
        +:+ "  relief[mem]: " +:+ fixed 3 (nth_f32 before 2) +:+ "→" +:+ fixed 3 (nth_f32 after 2))
  | ObservationOverrun at_s total_count =>
      stamp at_s ("[OVERRUN] pending observation 덮어써짐 (누적 " +:+ show_Z total_count +:+ ")")
  | LevelTransition at_s kind from to s =>
      stamp at_s ("[TRANS]  " +:+ kind +:+ ": " +:+ default "-" from +:+ " → " +:+ to
        +:+ "   mem=" +:+ fixed 0 (mem_pct s) +:+ "%  cpu=" +:+ fixed 0 (ss_engine_cpu_pct s)
        +:+ "%  gpu=" +:+ fixed 0 (ss_engine_gpu_pct s)
        +:+ "%  therm=" +:+ fixed 1 (ss_thermal_c s) +:+ "°C")
  end.

(** The lines of the entries; [last] is the second of the last state printed. *)
Fixpoint timeline_lines (mode : TimelineMode) (last : option Z) (t : Trajectory) : list string :=
  match t with
  | [] => []
  | e :: t =>
      match mode, e with
      | Compact, StateSnapshot at_s _ _ =>
          let sec := floor_i64 at_s in
          if bool_decide (last = Some sec) then timeline_lines mode last t
          else entry_line e :: timeline_lines mode (Some sec) t
      | Compact, HeartbeatEntry _ _ => timeline_lines mode last t
      | _, _ => entry_line e :: timeline_lines mode last t
      end
  end.

Definition timeline_header (t : Trajectory) : list string :=
  ["━━━ Simulation Timeline ━━━";
   "duration=" +:+ fixed 2 (default f_zero (last_at_s t))
     +:+ "s  heartbeats=" +:+ show_Z (Z.of_nat (heartbeat_count t))
     +:+ "  signals=" +:+ show_Z (Z.of_nat (signal_count t))
     +:+ "  directives=" +:+ show_Z (Z.of_nat (directive_count t))
     +:+ "  obs=" +:+ show_Z (Z.of_nat (observation_due_count t));
   ""].

Definition format_timeline_inner (t : Trajectory) (mode : TimelineMode) : string :=
  unlines (timeline_header t ++ timeline_lines mode None t).
Definition format_timeline (t : Trajectory) : string := format_timeline_inner t Full.
Definition format_timeline_compact (t : Trajectory) : string := format_timeline_inner t Compact.
End Timeline.

(** ** Session summary *)

(** Kind to level to count. *)
Definition sig_by_kind_level (t : Trajectory) : BTreeMap (BTreeMap Z) :=
  fold_left (fun m e => match e with
    | SignalEntry _ s => bt_update m (sd_kind s) (fun o => tally (default [] o) (sd_level s) 1)
    | _ => m
    end) t [].
Definition total_signals (m : BTreeMap (BTreeMap Z)) : Z := foldr (fun e n => total e.2 + n)%Z 0%Z m.

Definition signals_block (t : Trajectory) : list string :=
  let m := sig_by_kind_level t in
  if (total_signals m =? 0)%Z then ["Signals (0 total): none"]
  else
    let w := default O (max_len (map (fun e => String.length e.1) m)) in
    ("Signals (" +:+ show_Z (total_signals m) +:+ " total):")
    :: map (fun e : string * BTreeMap Z =>
         "  " +:+ pad_right w e.1 +:+ "  " +:+ pad_left 4 (show_Z (total e.2)) +:+ "  ["
         +:+ join "  " (map (fun c : string * Z => c.1 +:+ "×" +:+ show_Z c.2) e.2) +:+ "]") m.

Definition dir_kinds (t : Trajectory) : BTreeMap Z :=
  tally_all [] (flat_map (fun d => map command_kind (dd_commands d.2)) (directives t)).

Definition saturated (m : BTreeMap Z) : bool :=
  match m with [(_, n)] => (10 <=? n)%Z | _ => false end.

Definition directives_block (t : Trajectory) : list string :=
  let ds := directives t in
  match ds with
  | [] => ["Directives (0 sent): ⚠ 정책이 어떤 directive도 방출하지 않음"]
  | _ =>
      ("Directives (" +:+ show_Z (Z.of_nat (length ds)) +:+ " sent):")
      :: flat_map (fun '(at_s, tr, d) =>
           ["  t=+" +:+ float_wp 6 2 at_s +:+ "s  " +:+ join ", " (dd_commands d);
            "  " +:+ spaces 10 +:+ "  trigger: " +:+ sd_kind tr +:+ "(" +:+ sd_level tr +:+ ")"]) ds
      ++ (if saturated (dir_kinds t) then ["  ⚠ 단일 action으로 포화 — action 다양성 없음"] else [])
  end.

Definition transitions_block (t : Trajectory) : list string :=
  let ts := transitions t in
  match ts with
  | [] => ["Signal Transitions (0): none"]
  | _ =>
      let kind_w := default 0%nat (max_len (map (fun '(_, k, _, _, _) => String.length k) ts)) in
      let from_w := default 1%nat
        (max_len (map (fun '(_, _, f, _, _) => String.length (default "-" f)) ts)) in
      let to_w := default 0%nat (max_len (map (fun '(_, _, _, l, _) => String.length l) ts)) in
      ("Signal Transitions (" +:+ show_Z (Z.of_nat (length ts)) +:+ "):")
      :: map (fun '(at_s, k, f, l, s) =>
           "  t=" +:+ float_plus_wp 8 2 at_s +:+ "s  " +:+ pad_right kind_w k +:+ "  "
           +:+ pad_right from_w (default "-" f) +:+ "  → " +:+ pad_right to_w l
           +:+ "  mem=" +:+ float_wp 5 1 (mem_pct s) +:+ "%  cpu=" +:+ float_wp 5 1 (ss_engine_cpu_pct s)
           +:+ "%  gpu=" +:+ float_wp 5 1 (ss_engine_gpu_pct s)
           +:+ "%  therm=" +:+ float_wp 5 1 (ss_thermal_c s) +:+ "°C") ts
  end.

Record ReliefAgg := { ra_count : Z; first_before : list f32; last_after : list f32 }.
Definition relief_agg (t : Trajectory) : BTreeMap ReliefAgg :=
  fold_left (fun m e => match e with
    | ReliefUpdate _ action before after _ _ _ =>
        bt_update m action (fun o => match o with
          | Some a => {| ra_count := ra_count a + 1; first_before := first_before a; last_after := after |}
          | None => {| ra_count := 1; first_before := before; last_after := after |}
          end)
    | _ => m
    end) t [].
Definition DIM_NAMES : list string := ["gpu"; "cpu"; "mem"; "therm"; "lat"; "app"].

Definition relief_block (t : Trajectory) : list string :=
  let m := relief_agg t in
  match m with
  | [] => ["Relief Table (0 actions learned)"]
  | _ =>
      let total_relief := foldr (fun e n => ra_count e.2 + n)%Z 0%Z m in
      let w := Nat.max (default 6%nat (max_len (map (fun e => String.length e.1) m))) 6 in
      let row (vs : list f32) := String.concat "" (map (fun v => "  " +:+ float_wp 6 3 v) vs) in
      ("Relief Table (" +:+ show_Z total_relief +:+ " action(s) learned):")
      :: ("  " +:+ pad_right w "action"
            +:+ String.concat "" (map (fun d => "  " +:+ pad_left 6 d) DIM_NAMES) +:+ "  obs")
      :: flat_map (fun e : string * ReliefAgg =>
           ["  " +:+ pad_right w e.1 +:+ row (first_before e.2) +:+ "  (prior)";
            "  " +:+ pad_right w "" +:+ row (last_after e.2) +:+ "  obs#" +:+ show_Z (ra_count e.2)]) m
  end.

Definition overrun_total (t : Trajectory) : Z :=
  default 0%Z (find_map (fun e => match e with
    | ObservationOverrun _ n => Some n | _ => None end) (rev t)).
Definition overrun_block (t : Trajectory) : list string :=
  let n := overrun_total t in
  let dirs := Z.of_nat (length (directives t)) in
  if (0 <? n)%Z then
    let pct := if (0 <? dirs)%Z then f64_div (f64_mul hundred (f64_of_Z n)) (f64_of_Z dirs) else f_zero in
    [""; "⚠ observation overruns: " +:+ show_Z n +:+ " / " +:+ show_Z dirs +:+ " directives ("
         +:+ fixed 0 pct +:+ "%) — 3s 지연 미충족으로 학습 누락"]
  else [].

Definition format_session_summary (t : Trajectory) : string :=
  unlines (["━━━ Session Summary ━━━";
            "duration: " +:+ fixed 2 (default f_zero (last_at_s t)) +:+ "s"; ""]
    ++ signals_block t ++ [""] ++ directives_block t ++ [""] ++ transitions_block t ++ [""]
    ++ relief_block t ++ overrun_block t).

(** What is written to the standard error, given the variable SIM_TIMELINE. *)
Definition print_timeline_if_enabled `{DetailText} (var : option string) (t : Trajectory) : option string :=
  match var with
  | Some v =>
      if String.eqb v "1" || String.eqb v "full" then Some (ln (format_timeline t))
      else if String.eqb v "compact" then Some (ln (format_timeline_compact t))
      else if String.eqb v "summary" then Some (ln (format_session_summary t))
      else None
  | None => None
  end.

(** ** The summary record *)

Definition round_to (k : Z) (v : f64) : f64 := f64_div (f_round (f64_mul v (f64_of_Z k))) (f64_of_Z k).
Definition r1 : f64 -> f64 := round_to 10.
Definition r2 : f64 -> f64 := round_to 100.
Definition r3 : f64 -> f64 := round_to 1000.

Record PhysicalStateSummary := {
  su_kv_cache_bytes_mib : f64; su_device_memory_used_mb : f64; su_engine_cpu_pct : f64;
  su_engine_gpu_pct : f64; su_cpu_freq_ratio : f64; su_gpu_freq_ratio : f64; su_thermal_c : f64;
  su_throughput_tps : f64
}.
Definition summary_of_snapshot (s : PhysicalStateSnapshot) (cfg_cpu_max cfg_gpu_max : f64)
    : PhysicalStateSummary :=
  let cpu_max := if SFltb f_zero cfg_cpu_max then cfg_cpu_max
                 else f_max (ss_cpu_freq_mhz s) (f64_of_Z 1) in
  let gpu_max := if SFltb f_zero cfg_gpu_max then cfg_gpu_max
                 else f_max (ss_gpu_freq_mhz s) (f64_of_Z 1) in
  {| su_kv_cache_bytes_mib := r2 (bytes_mib (ss_kv_cache_bytes s));
     su_device_memory_used_mb := r1 (ss_device_memory_used_mb s);
     su_engine_cpu_pct := r1 (ss_engine_cpu_pct s);
     su_engine_gpu_pct := r1 (ss_engine_gpu_pct s);
     su_cpu_freq_ratio := r3 (f64_div (ss_cpu_freq_mhz s) cpu_max);
     su_gpu_freq_ratio := r3 (f64_div (ss_gpu_freq_mhz s) gpu_max);
     su_thermal_c := r1 (ss_thermal_c s);
     su_throughput_tps := r2 (ss_throughput_tps s) |}.

Record TrajectorySummary := {
  ts_duration_s : f64; ts_heartbeat_count : nat; ts_signal_count_by_kind : BTreeMap Z;
  ts_directive_count : Z; ts_directive_kinds : BTreeMap Z; ts_first_directive_at_s : option f64;
  ts_state_final : option PhysicalStateSummary
}.

(** The loop over the directives: kinds, the first one's time, their number. *)
Definition directive_step (acc : BTreeMap Z * option f64 * Z) (e : TrajectoryEntry)
    : BTreeMap Z * option f64 * Z :=
  let '(kinds, first, n) := acc in
  match e with
  | DirectiveEntry at_s _ d =>
      (tally_all kinds (map command_kind (dd_commands d)),
       match first with None => Some (r2 at_s) | Some _ => first end, (n + 1)%Z)
  | _ => acc
  end.

Definition from_trajectory (t : Trajectory) (cpu_max_mhz gpu_max_mhz : f64) : TrajectorySummary :=
  let signals := fold_left (fun m e => match e with
    | SignalEntry _ s => tally m (sd_kind s) 1%Z | _ => m end) t [] in
  let '(kinds, first, n) := fold_left directive_step t ([], None, 0%Z) in
  let state_final := find_map (fun e => match e with
    | StateSnapshot _ s _ => Some (summary_of_snapshot s cpu_max_mhz gpu_max_mhz)
    | _ => None end) (rev t) in
  {| ts_duration_s := match last_at_s t with Some v => r2 v | None => f_zero end;
     ts_heartbeat_count := heartbeat_count t;
     ts_signal_count_by_kind := signals;
     ts_directive_count := n;
     ts_directive_kinds := kinds;
     ts_first_directive_at_s := first;
     ts_state_final := state_final |}.

(** ** Lemmas *)

(** A loop over the entries that only acts on some is one over what those hold. *)
Lemma fold_left_omap {A B C} (g : A -> option B) (f : C -> B -> C) (l : list A) : forall c,
  fold_left (fun c a => match g a with Some b => f c b | None => c end) l c =
  fold_left f (omap g l) c.
Proof. induction l as [|a l IH]; intros c; [done|]. cbn. destruct (g a); apply IH. Qed.

Definition signal_kind (e : TrajectoryEntry) : option string :=
  match e with SignalEntry _ s => Some (sd_kind s) | _ => None end.
Definition signal_kinds (t : Trajectory) : list string := omap signal_kind t.
(** The kinds of all commands sent, in order. *)
Definition command_kinds (t : Trajectory) : list string :=
  flat_map (fun d => map command_kind (dd_commands d.2)) (directives t).

Lemma signal_tally t : forall m,
  fold_left (fun m e => match e with SignalEntry _ s => tally m (sd_kind s) 1%Z | _ => m end) t m =
  tally_all m (signal_kinds t).
Proof.
  unfold tally_all, signal_kinds. intros m. rewrite <- fold_left_omap.
  revert m. induction t as [|e t IH]; intros m; [done|]. cbn. destruct e; apply IH.
Qed.

Lemma signal_kinds_occurrences k t : occurrences k (signal_kinds t) = signal_count_by_kind t k.
Proof.
  unfold occurrences, signal_count_by_kind, count, signal_kinds.
  induction t as [|e t IH]; [done|]. destruct e; cbn; try exact IH. cbn [is_signal_of].
  rewrite String.eqb_sym. destruct (String.eqb _ _); cbn; by rewrite IH.
Qed.
Lemma signal_kinds_length t : length (signal_kinds t) = signal_count t.
Proof.
  unfold signal_count, count, signal_kinds.
  induction t as [|e t IH]; [done|]. destruct e; cbn; by rewrite ?IH.
Qed.

Lemma tally_all_app ks1 ks2 m : tally_all m (ks1 ++ ks2) = tally_all (tally_all m ks1) ks2.
Proof. apply fold_left_app. Qed.

Definition first_directive (t : Trajectory) : option f64 :=
  find_map (fun e => match e with DirectiveEntry at_s _ _ => Some at_s | _ => None end) t.

Lemma directive_loop t : forall kinds first n,
  fold_left directive_step t (kinds, first, n) =
  (tally_all kinds (command_kinds t),
   match first with Some x => Some x | None => r2 <$> first_directive t end,
   (n + Z.of_nat (directive_count t))%Z).
Proof.
  induction t as [|e t IH]; intros kinds first n.
  - cbn. rewrite Z.add_0_r. by destruct first.
  - destruct e; cbn [fold_left directive_step]; rewrite IH; try (f_equal; fail); [].
    unfold command_kinds, directive_count, count.
    cbn [directives omap list_omap flat_map snd]. cbn.
    rewrite tally_all_app. f_equal; [f_equal|lia]. by destruct first.
Qed.

Lemma level_totals t : forall m,
  total_signals (fold_left (fun m e => match e with
    | SignalEntry _ s => bt_update m (sd_kind s) (fun o => tally (default [] o) (sd_level s) 1%Z)
    | _ => m end) t m) = (total_signals m + Z.of_nat (signal_count t))%Z.
Proof.
  unfold signal_count, count. induction t as [|e t IH]; intros m; cbn [fold_left List.filter]; [cbn; lia|].
  destruct e; cbn [is_signal]; rewrite IH; try done. cbn [length].
  unfold total_signals at 1. rewrite (bt_update_weight total _ _ _ 1%Z).
  - fold (total_signals m). lia.
  - intros [v|]; cbn [default]; unfold id; rewrite total_tally; [lia|]. cbn. lia.
Qed.

(** ** Properties *)

(** C34. The summary of a run accounts for its record.  For every trajectory, the kinds
    of signals are counted exactly, and so are the kinds of commands of all directives,
    each table in the order of its keys and with the sum of its counts the number of
    signals and of commands; the directives are counted and the first one's time,
    rounded to two decimals, is the one reported; and the table of the session summary adds up to the same signals. *)
Theorem summary_accounts t cpu_max gpu_max :
  let s := from_trajectory t cpu_max gpu_max in
  (forall k, bt_get (ts_signal_count_by_kind s) k = counted (signal_count_by_kind t k)) /\
  total (ts_signal_count_by_kind s) = Z.of_nat (signal_count t) /\
  ordered (ts_signal_count_by_kind s) /\
  (forall k, bt_get (ts_directive_kinds s) k = counted (occurrences k (command_kinds t))) /\
  total (ts_directive_kinds s) = Z.of_nat (length (command_kinds t)) /\
  ordered (ts_directive_kinds s) /\
  ts_directive_count s = Z.of_nat (directive_count t) /\
  ts_first_directive_at_s s = r2 <$> first_directive t /\
  total_signals (sig_by_kind_level t) = Z.of_nat (signal_count t).
Proof.
  unfold from_trajectory. rewrite signal_tally, directive_loop. cbn.
  split_and!; intros; rewrite ?tally_all_get, ?tally_all_total, ?signal_kinds_occurrences,
    ?signal_kinds_length; try done; try (apply tally_all_ordered; constructor).
  apply level_totals.
Qed.

(** The entries that are neither states nor heartbeats. *)
Definition structural (e : TrajectoryEntry) : bool :=
  match e with StateSnapshot _ _ _ | HeartbeatEntry _ _ => false | _ => true end.
Definition state_second (e : TrajectoryEntry) : option Z :=
  match e with StateSnapshot at_s _ _ => Some (floor_i64 at_s) | _ => None end.
Definition state_seconds (t : Trajectory) : list Z := omap state_second t.

(** Runs of equal elements collapsed; a first run of [last] goes entirely. *)
Fixpoint collapse (last : option Z) (l : list Z) : list Z :=
  match l with
  | [] => []
  | x :: l => if bool_decide (last = Some x) then collapse last l else x :: collapse (Some x) l
  end.

Section TimelineLemmas.
Context `{DetailText}.

Lemma timeline_full t : forall last, timeline_lines Full last t = map entry_line t.
Proof. induction t as [|e t IH]; intros last; [done|]. cbn. by rewrite IH. Qed.

(** What the compact mode keeps. *)
Definition compacted (last : option Z) (t l : Trajectory) : Prop :=
  timeline_lines Compact last t = map entry_line l /\ sublist l t /\
  List.filter structural l = List.filter structural t /\ heartbeat_count l = O /\
  state_seconds l = collapse last (state_seconds t).

Lemma compacted_skip_state last at_s s en t l : last = Some (floor_i64 at_s) ->
  compacted last t l -> compacted last (StateSnapshot at_s s en :: t) l.
Proof.
  intros Hl (Ht & Hs & Hf & Hh & Hc). unfold compacted. cbn.
  rewrite !bool_decide_true by done. split_and!; try done. by constructor.
Qed.
Lemma compacted_keep_state last at_s s en t l : last <> Some (floor_i64 at_s) ->
  compacted (Some (floor_i64 at_s)) t l ->
  compacted last (StateSnapshot at_s s en :: t) (StateSnapshot at_s s en :: l).
Proof.
  intros Hl (Ht & Hs & Hf & Hh & Hc). unfold compacted. cbn.
  rewrite !bool_decide_false by done. split_and!; try done; [by rewrite Ht|by constructor|].
  unfold state_seconds in *. by rewrite Hc.
Qed.
Lemma compacted_structural last e t l : structural e = true ->
  compacted last t l -> compacted last (e :: t) (e :: l).
Proof.
  intros He (Ht & Hs & Hf & Hh & Hc). unfold compacted.
  destruct e; try done; cbn; (split_and!; [by rewrite Ht|by constructor|by rewrite Hf|done|done]).
Qed.

Lemma compacted_exists t : forall last, exists l, compacted last t l.
Proof.
  induction t as [|e t IH]; intros last; [exists []; repeat split; constructor|].
  destruct (structural e) eqn:He.
  - destruct (IH last) as [l Hl]. eexists. by apply compacted_structural.
  - destruct e as [at_s s en|at_s m| | | | | | | |]; try done.
    + destruct (decide (last = Some (floor_i64 at_s))).
      * destruct (IH last) as [l Hl]. exists l. by apply compacted_skip_state.
      * destruct (IH (Some (floor_i64 at_s))) as [l Hl]. eexists. by apply compacted_keep_state.
    + destruct (IH last) as [l (Ht & Hs & Hf & Hh & Hc)]. exists l.
      split_and!; try done. by constructor.
Qed.
End TimelineLemmas.

(** The compact timeline is a sample of the full one.  For every trajectory, the
    full timeline has a line for each entry; the compact one has the same header and the
    lines of some of them, in the same order: all the structural entries, no heartbeat,
    and the states sampled so that the seconds of those printed are those recorded with
    every run of one second collapsed. *)
Theorem compact_timeline_samples `{DetailText} t :
  format_timeline t = unlines (timeline_header t ++ map entry_line t) /\
  exists l, format_timeline_compact t = unlines (timeline_header t ++ map entry_line l) /\
    sublist l t /\ List.filter structural l = List.filter structural t /\
    heartbeat_count l = O /\ state_seconds l = collapse None (state_seconds t).
Proof.
  unfold format_timeline, format_timeline_compact, format_timeline_inner.
  rewrite timeline_full. split; [done|]. destruct (compacted_exists t None) as (l & Hl & Hr).
  exists l. by rewrite Hl.
Qed.

(** The rows of a dump are read back. *)
Definition csv_values (row : string) : list (option f64) :=
  map parse_f64 (split_on (fun x => Ascii.eqb x ",") row).
Definition csv_row (cells : list f64) : string := join "," (map display cells).

Lemma csv_row_chars c cells : float_char c = false -> c <> ","%char ->
  Forall (fun x => valid_binary 53 1024 x = true) cells ->
  all_chars (fun d => negb (Ascii.eqb d c)) (csv_row cells) = true.
Proof.
  intros Hc Hcomma Hall. unfold csv_row, join. induction Hall as [|x cells Hx Hall IH]; [done|].
  cbn [map]. destruct cells as [|y cells]; [by apply float_char_not|].
  cbn [map]. change (String.concat "," (display x :: display y :: map display cells))
    with (display x +:+ String "," (String.concat "," (map display (y :: cells)))).
  rewrite all_chars_app, float_char_not by done. cbn [andb all_chars].
  rewrite IH. rewrite (proj2 (Ascii.eqb_neq _ _)) by congruence. done.
Qed.

Lemma csv_row_values cells : cells <> [] -> Forall (fun x => valid_binary 53 1024 x = true) cells ->
  csv_values (csv_row cells) = map Some cells.
Proof.
  intros Hne Hall. unfold csv_values, csv_row. rewrite split_on_join.
  - rewrite map_map. apply map_ext_in. intros x Hx. apply display_reads_back.
    rewrite List.Forall_forall in Hall. by apply Hall.
  - by destruct cells.
  - apply List.Forall_map. eapply Forall_impl; [exact Hall|]. intros x Hx. by apply float_char_not.
Qed.

(** C22. The dump of the states loses nothing.  For every trajectory whose recorded values
    are doubles, the file [dump_csv_states] writes splits at its newlines into the header and
    one row for each state snapshot, in order, and the cells of each row parse to exactly
    the values recorded - infinities, NaNs and signed zeros included. *)
Theorem csv_reads_back t :
  Forall (Forall (fun x => valid_binary 53 1024 x = true)) (omap csv_cells t) ->
  exists rows,
    split_on (fun x => Ascii.eqb x "010") (dump_csv_states t) = CSV_HEADER :: rows /\
    map csv_values rows = map (map Some) (omap csv_cells t).
Proof.
  intros Hall. exists (map csv_row (omap csv_cells t)). unfold dump_csv_states.
  change (map (fun cells => join "," (map display cells))) with (map csv_row).
  split.
  - apply split_on_join; [done|]. constructor; [done|]. apply List.Forall_map.
    eapply Forall_impl; [exact Hall|]. intros cells Hc. by apply csv_row_chars.
  - rewrite map_map. apply map_ext_in. intros cells Hin. apply csv_row_values.
    + apply list_elem_of_In, list_elem_of_omap in Hin as (e & _ & He). by destruct e; cbn in He; simplify_eq.
    + rewrite List.Forall_forall in Hall. by apply Hall.
Qed.

(** No operation records a [ReliefUpdate], so the relief table of a session is empty. *)
Definition is_relief (e : TrajectoryEntry) : bool :=
  match e with ReliefUpdate _ _ _ _ _ _ _ => true | _ => false end.
Lemma relief_agg_none t : count is_relief t = O -> relief_agg t = [].
Proof.
  unfold relief_agg, count. induction t as [|e t IH]; [done|]. cbn. destruct e; cbn; try done; apply IH.
Qed.
Lemma relief_never_learned t : count is_relief t = O ->
  relief_block t = ["Relief Table (0 actions learned)"].
Proof. intros Ht. unfold relief_block. by rewrite relief_agg_none. Qed.

(** ** Examples *)

Definition no_detail : DetailText := fun _ => "{}".
Definition demo_signal : SignalDump :=
  {| sd_kind := "memory_pressure"; sd_level := "Warning"; sd_detail := [] |}.
Definition demo_directive (cmd : string) : DirectiveDump := {| dd_seq_id := 3; dd_commands := [cmd] |}.
Definition demo_record : Trajectory :=
  [SignalEntry (f64_lit 3 2) demo_signal;
   DirectiveEntry (f64_lit 3 2) demo_signal (demo_directive "SetTargetTbt { target_ms: 5 }");
   ObservationOverrun (f64_lit 2 1) 1].

Example demo_timeline : @format_timeline_compact no_detail demo_record =
  unlines ["━━━ Simulation Timeline ━━━";
           "duration=2.00s  heartbeats=0  signals=1  directives=1  obs=0"; "";
           "t=   1.50s  [SIG]    memory_pressure@Warning  {}";
           "t=   1.50s  [DIR] ← memory_pressure@Warning  seq=3  cmds=[" +:+
             debug_str "SetTargetTbt { target_ms: 5 }" +:+ "]";
           "t=   2.00s  [OVERRUN] pending observation 덮어써짐 (누적 1)"].
Proof. vm_compute. reflexivity. Qed.

Example demo_session : format_session_summary demo_record =
  unlines ["━━━ Session Summary ━━━"; "duration: 2.00s"; "";
           "Signals (1 total):"; "  memory_pressure     1  [Warning×1]"; "";
           "Directives (1 sent):"; "  t=+  1.50s  SetTargetTbt { target_ms: 5 }";
           "              trigger: memory_pressure(Warning)"; "";
           "Signal Transitions (0): none"; ""; "Relief Table (0 actions learned)"; "";
           "⚠ observation overruns: 1 / 1 directives (100%) — 3s 지연 미충족으로 학습 누락"].
Proof. vm_compute. reflexivity. Qed.

Definition demo_snapshot : PhysicalStateSnapshot := {|
  ss_kv_cache_bytes := f64_of_Z 1024; ss_kv_cache_tokens := f64_of_Z 12; ss_kv_dtype := "f16";
  ss_device_memory_used_mb := f64_lit 1005 10; ss_device_memory_total_mb := f64_of_Z 8192;
  ss_memory_bw_utilization_pct := f_zero; ss_engine_cpu_pct := f64_lit 1 3;
  ss_engine_gpu_pct := f_zero; ss_cpu_freq_mhz := f64_of_Z 2000; ss_gpu_freq_mhz := f64_of_Z 700;
  ss_thermal_c := f64_lit 405 10; ss_cpu_cluster_thermal_c := f_zero;
  ss_gpu_cluster_thermal_c := f_zero; ss_throughput_tps := f64_of_Z 10; ss_tbt_ms := f64_of_Z 100
|}.
Definition demo_states : Trajectory :=
  StateSnapshot (f64_lit 1 20) demo_snapshot
    {| es_active_device := "cpu"; es_active_actions := []; es_phase := "idle";
       es_partition_ratio := f_zero; es_throttle_delay_ms := f_zero; es_skip_ratio := f_zero |}
    :: demo_record.
Lemma csv_reads_back_witness :
  exists rows, split_on (fun x => Ascii.eqb x "010") (dump_csv_states demo_states) = CSV_HEADER :: rows /\
    map csv_values rows = map (map Some) (omap csv_cells demo_states).
Proof.
  apply csv_reads_back. repeat (constructor; [repeat (constructor; [vm_compute; reflexivity|]); constructor|]).
  constructor.
Defined.

Example demo_csv :
  dump_csv_states demo_states
  = CSV_HEADER +:+ String "010" "0.05,1024,12,100.5,0.3333333333333333,0,2000,700,40.5,10,100".
Proof. vm_compute. reflexivity. Qed.

Example demo_kinds :
  ts_directive_kinds (from_trajectory demo_record f_zero f_zero) = [("SetTargetTbt", 1%Z)] /\
  r1 (f64_lit 225 100) = f64_lit 23 10 /\ r2 (f64_lit (-1) 1000) = S754_zero true.
Proof. vm_compute. done. Qed.
