(* ===== verification/SimHarness.v ===== *)
(** * SimHarness: the simulator's loop (src/sim/harness.rs, src/sim/mock_policy.rs)

    A simulator drains the events of a tick, lets the policy react to the signals derived
    from the simulated state, steps the physics and advances the clock.  A run takes fuel
    for its loops; [None] is running out of it, or of the fuel for drawing noise. *)

From Stdlib Require Import ZArith Lia SpecFloat String Sorting.Sorted.
From stdpp Require Import base tactics numbers list strings.
From S2P Require Import Prelude Float Fmt Signal Wire Monitor Pipeline SimClock SimExpr SimConfig SimState SimPhysics SimSignal SimTrajectory.
Local Open Scope string_scope.
Local Open Scope list_scope.
Local Open Scope Z_scope.

(** Rust code that can panic, run with fuel. *)
Notation "'let+' x ':=' e 'in' k" :=
  (match e with Some (Return x) => k | Some Panic => Some Panic | None => None end)
  (at level 10, x pattern, e at level 100, k at level 200).

Definition OBSERVATION_DELAY : Z := duration_from_secs 3.

Inductive SimError :=
| ErrPhysics (e : PhysicsError)
| ErrMaxDurationExceeded.

Section Harness.
Context `{Libm} `{Evalexpr} `{Rng} `{LogCos} `{ProtocolDebug} {P : Type} `{PolicyStrategy P}.
(** Equality of commands, overflow checks, and fuel for drawing noise. *)
Context (command_eqb : EngineCommand -> EngineCommand -> bool) (oc : bool) (noise_fuel : nat).

Record Simulator := {
  sim_clock : VirtualClock;
  sim_state : PhysicalState;
  sim_engine : EngineStateModel;
  sim_cfg : ScenarioConfig;
  sim_policy : P;
  sim_trajectory : Trajectory;
  sim_rng : option NoiseRng;
  tick_dt : Z;
  sim_ctx : ExprContext;
  last_overrun_count : Z;
  sim_dedup : DirectiveDeduplicator;
  last_signal_levels : HashMap string
}.

Definition Simulator_new (cfg : ScenarioConfig) (policy : P) : outcome Simulator :=
  let! ctx := ExprContext_new in
  Return {|
    sim_clock := VirtualClock_new;
    sim_state := PhysicalState_from_config (sc_initial_state cfg);
    sim_engine := EngineStateModel_from_config (sc_initial_state cfg);
    sim_cfg := cfg;
    sim_policy := policy;
    sim_trajectory := Trajectory_new;
    sim_rng := maybe_create cfg;
    tick_dt := duration_from_millis 50;
    sim_ctx := ctx;
    last_overrun_count := 0;
    sim_dedup := with_cooldown (f64_lit 60 1);
    last_signal_levels := []
  |}.

(** Assignments to fields. *)
Definition set_clock (s : Simulator) (c : VirtualClock) : Simulator :=
  {| sim_clock := c; sim_state := sim_state s; sim_engine := sim_engine s; sim_cfg := sim_cfg s;
     sim_policy := sim_policy s; sim_trajectory := sim_trajectory s; sim_rng := sim_rng s;
     tick_dt := tick_dt s; sim_ctx := sim_ctx s; last_overrun_count := last_overrun_count s;
     sim_dedup := sim_dedup s; last_signal_levels := last_signal_levels s |}.
Definition set_engine (s : Simulator) (e : EngineStateModel) : Simulator :=
  {| sim_clock := sim_clock s; sim_state := sim_state s; sim_engine := e; sim_cfg := sim_cfg s;
     sim_policy := sim_policy s; sim_trajectory := sim_trajectory s; sim_rng := sim_rng s;
     tick_dt := tick_dt s; sim_ctx := sim_ctx s; last_overrun_count := last_overrun_count s;
     sim_dedup := sim_dedup s; last_signal_levels := last_signal_levels s |}.
Definition set_policy (s : Simulator) (p : P) : Simulator :=
  {| sim_clock := sim_clock s; sim_state := sim_state s; sim_engine := sim_engine s;
     sim_cfg := sim_cfg s; sim_policy := p; sim_trajectory := sim_trajectory s;
     sim_rng := sim_rng s; tick_dt := tick_dt s; sim_ctx := sim_ctx s;
     last_overrun_count := last_overrun_count s; sim_dedup := sim_dedup s;
     last_signal_levels := last_signal_levels s |}.
Definition set_trajectory (s : Simulator) (t : Trajectory) : Simulator :=
  {| sim_clock := sim_clock s; sim_state := sim_state s; sim_engine := sim_engine s;
     sim_cfg := sim_cfg s; sim_policy := sim_policy s; sim_trajectory := t; sim_rng := sim_rng s;
     tick_dt := tick_dt s; sim_ctx := sim_ctx s; last_overrun_count := last_overrun_count s;
     sim_dedup := sim_dedup s; last_signal_levels := last_signal_levels s |}.
Definition set_rng (s : Simulator) (r : option NoiseRng) : Simulator :=
  {| sim_clock := sim_clock s; sim_state := sim_state s; sim_engine := sim_engine s;
     sim_cfg := sim_cfg s; sim_policy := sim_policy s; sim_trajectory := sim_trajectory s;
     sim_rng := r; tick_dt := tick_dt s; sim_ctx := sim_ctx s;
     last_overrun_count := last_overrun_count s; sim_dedup := sim_dedup s;
     last_signal_levels := last_signal_levels s |}.
Definition set_tick_dt (s : Simulator) (dt : Z) : Simulator :=
  {| sim_clock := sim_clock s; sim_state := sim_state s; sim_engine := sim_engine s;
     sim_cfg := sim_cfg s; sim_policy := sim_policy s; sim_trajectory := sim_trajectory s;
     sim_rng := sim_rng s; tick_dt := dt; sim_ctx := sim_ctx s;
     last_overrun_count := last_overrun_count s; sim_dedup := sim_dedup s;
     last_signal_levels := last_signal_levels s |}.
Definition set_dedup (s : Simulator) (d : DirectiveDeduplicator) : Simulator :=
  {| sim_clock := sim_clock s; sim_state := sim_state s; sim_engine := sim_engine s;
     sim_cfg := sim_cfg s; sim_policy := sim_policy s; sim_trajectory := sim_trajectory s;
     sim_rng := sim_rng s; tick_dt := tick_dt s; sim_ctx := sim_ctx s;
     last_overrun_count := last_overrun_count s; sim_dedup := d;
     last_signal_levels := last_signal_levels s |}.
Definition set_overrun_count (s : Simulator) (n : Z) : Simulator :=
  {| sim_clock := sim_clock s; sim_state := sim_state s; sim_engine := sim_engine s;
     sim_cfg := sim_cfg s; sim_policy := sim_policy s; sim_trajectory := sim_trajectory s;
     sim_rng := sim_rng s; tick_dt := tick_dt s; sim_ctx := sim_ctx s; last_overrun_count := n;
     sim_dedup := sim_dedup s; last_signal_levels := last_signal_levels s |}.
Definition set_signal_levels (s : Simulator) (m : HashMap string) : Simulator :=
  {| sim_clock := sim_clock s; sim_state := sim_state s; sim_engine := sim_engine s;
     sim_cfg := sim_cfg s; sim_policy := sim_policy s; sim_trajectory := sim_trajectory s;
     sim_rng := sim_rng s; tick_dt := tick_dt s; sim_ctx := sim_ctx s;
     last_overrun_count := last_overrun_count s; sim_dedup := sim_dedup s;
     last_signal_levels := m |}.
Definition set_physics (s : Simulator) (st : PhysicalState) (ctx : ExprContext) : Simulator :=
  {| sim_clock := sim_clock s; sim_state := st; sim_engine := sim_engine s; sim_cfg := sim_cfg s;
     sim_policy := sim_policy s; sim_trajectory := sim_trajectory s; sim_rng := sim_rng s;
     tick_dt := tick_dt s; sim_ctx := ctx; last_overrun_count := last_overrun_count s;
     sim_dedup := sim_dedup s; last_signal_levels := last_signal_levels s |}.

Definition with_dedup_cooldown (s : Simulator) (secs : f64) : Simulator :=
  set_dedup s (with_cooldown secs).
Definition with_tick_dt (s : Simulator) (dt : Z) : Simulator := set_tick_dt s dt.

(** ** Directives *)

Definition observable_action_name (cmd : EngineCommand) : option string :=
  match cmd with
  | KvCompress _ => Some "kv.compress"
  | RestoreDefaults | Suspend | Resume | GpuYield _ | GpuOffload _ => None
  end.

(** The observations a directive's commands ask for, due after the delay. *)
Fixpoint schedule_observations (c : VirtualClock) (cmds : list EngineCommand) : outcome VirtualClock :=
  match cmds with
  | [] => Return c
  | cmd :: cmds =>
      match observable_action_name cmd with
      | Some action_name =>
          let recorded_at := vc_now c in
          let! due_at := duration_add recorded_at OBSERVATION_DELAY in
          let! (c, _) := schedule oc c (EvObservationDue action_name recorded_at) due_at in
          schedule_observations c cmds
      | None => schedule_observations c cmds
      end
  end.

Definition sim_apply_directive (s : Simulator) (d : EngineDirective) : outcome Simulator :=
  let s := set_engine s (apply_directive (sim_engine s) d) in
  let! c := schedule_observations (sim_clock s) (commands d) in
  Return (set_clock s c).

(** ** Events *)

(** The record of a level that differs from the last one of its kind. *)
Definition detect_transition (s : Simulator) (t : Z) (sig : SystemSignal) : Simulator :=
  let dump := signal_dump sig in
  let prev := hm_get (last_signal_levels s) (sd_kind dump) in
  if bool_decide (prev = Some (sd_level dump)) then s
  else
    let s := set_trajectory s (record_level_transition (sim_trajectory s) t (sd_kind dump) prev
               (sd_level dump) (sim_state s)) in
    set_signal_levels s (hm_insert (last_signal_levels s) (sd_kind dump) (sd_level dump)).

(** What the policy makes of a signal. *)
Definition decide_signal (s : Simulator) (t : Z) (sig : SystemSignal) : outcome Simulator :=
  let! (p, dir) := process_signal (sim_policy s) sig in
  let s := set_policy s p in
  match dir with
  | None => Return s
  | Some dir =>
      let '(dedup, out) := process command_eqb (sim_dedup s) dir (duration_as_secs_f64 t) in
      let s := set_dedup s dedup in
      match out with
      | Some dir =>
          let! s := sim_apply_directive s dir in
          Return (set_trajectory s (record_directive (sim_trajectory s) t sig dir))
      | None => Return (set_policy s (cancel_last_observation (sim_policy s)))
      end
  end.

Definition handle_signal (s : Simulator) (t : Z) (kind : EventKind) : option (outcome Simulator) :=
  match derive_signal noise_fuel oc kind (sim_state s) (sim_cfg s) (sim_rng s) with
  | None => None
  | Some (o, rng) =>
      let s := set_rng s rng in
      Some (
        let! sig := o in
        match sig with
        | None => Return s
        | Some sig =>
            let! s := decide_signal (detect_transition s t sig) t sig in
            Return (set_trajectory s (record_signal (sim_trajectory s) t sig))
        end)
  end.

Definition handle_event (s : Simulator) (ev : ScheduledEvent) : option (outcome Simulator) :=
  let t := se_at ev in
  match se_kind ev with
  | EvHeartbeat =>
      match derive_heartbeat noise_fuel (sim_state s) (sim_engine s) (sim_cfg s) (sim_rng s) with
      | None => None
      | Some (msg, rng) =>
          let s := set_rng s rng in
          Some (
            let! p := update_engine_state (sim_policy s) msg in
            let s := set_policy s p in
            Return (set_trajectory s (record_heartbeat (sim_trajectory s) t msg)))
      end
  | EvSignalMemory | EvSignalCompute | EvSignalThermal | EvSignalEnergy =>
      handle_signal s t (se_kind ev)
  | EvObservationDue action recorded_at =>
      Some (Return (set_trajectory s (record_observation_due (sim_trajectory s) t action recorded_at)))
  | EvExternalInjectionStart idx =>
      Some (Return (set_trajectory s (record_injection_event (sim_trajectory s) t idx true)))
  | EvExternalInjectionEnd idx =>
      Some (Return (set_trajectory s (record_injection_event (sim_trajectory s) t idx false)))
  | EvCustom name =>
      Some (Return (set_trajectory s (record_custom (sim_trajectory s) t name)))
  end.

Fixpoint handle_events (s : Simulator) (evs : list ScheduledEvent) : option (outcome Simulator) :=
  match evs with
  | [] => Some (Return s)
  | ev :: evs => let+ s := handle_event s ev in handle_events s evs
  end.

(** ** Ticks *)

(** The policy's count of overrun observations, recorded when it has grown. *)
Definition note_overruns (s : Simulator) (tick_end : Z) : Simulator :=
  let overrun_total := get_observation_overrun_count (sim_policy s) in
  if last_overrun_count s <? overrun_total then
    let s := set_overrun_count s overrun_total in
    set_trajectory s (record_observation_overrun (sim_trajectory s) tick_end overrun_total)
  else s.

(** A tick: the simulator, and the error that ended it early. *)
Definition tick (s : Simulator) : option (outcome (Simulator * result unit SimError)) :=
  match duration_add (vc_now (sim_clock s)) (tick_dt s) with
  | Panic => Some Panic
  | Return tick_end =>
      let '(events, c) := drain_until (sim_clock s) tick_end in
      let+ s := handle_events (set_clock s c) events in
      let s := note_overruns s tick_end in
      match step (sim_state s) (sim_engine s) (sim_cfg s) (sim_clock s) (tick_dt s) (sim_ctx s) with
      | Panic => Some Panic
      | Return (st, ctx, r) =>
          let s := set_physics s st ctx in
          match r with
          | Err e => Some (Return (s, Err (ErrPhysics e)))
          | Ok _ =>
              let s := set_trajectory s
                (record_state_snapshot (sim_trajectory s) tick_end (sim_state s) (sim_engine s)) in
              Some (let! c := advance (sim_clock s) (tick_dt s) in Return (set_clock s c, Ok tt))
          end
      end
  end.

(** ** Preloading *)

(** One periodic source, whose period comes from the scenario. *)
Definition preload_source (fuel : nat) (kind : EventKind) (period : f64) (now until : Z)
    (c : VirtualClock) : option (outcome VirtualClock) :=
  match duration_from_secs_f64 period with
  | Panic => Some Panic
  | Return period => schedule_periodic_from fuel oc c kind now period until
  end.

Fixpoint preload_injections (injs : list ExternalInjection) (idx now until : Z) (c : VirtualClock)
    : outcome VirtualClock :=
  match injs with
  | [] => Return c
  | inj :: injs =>
      let! start := duration_from_secs_f64 (t_start inj) in
      let! length := duration_from_secs_f64 (inj_duration inj) in
      let! finish := duration_add start length in
      let! c :=
        if (now <? start) && (start <=? until)
        then let! (c, _) := schedule oc c (EvExternalInjectionStart idx) start in Return c
        else Return c in
      let! c :=
        if (now <? finish) && (finish <=? until)
        then let! (c, _) := schedule oc c (EvExternalInjectionEnd idx) finish in Return c
        else Return c in
      preload_injections injs (idx + 1) now until c
  end.

Definition preload_events (fuel : nat) (s : Simulator) (until : Z) : option (outcome Simulator) :=
  let now := vc_now (sim_clock s) in
  let obs := sc_observation (sim_cfg s) in
  let sigs := SimConfig.signals obs in
  let+ c := preload_source fuel EvHeartbeat (interval_s (SimConfig.heartbeat obs)) now until (sim_clock s) in
  let+ c := preload_source fuel EvSignalMemory (poll_interval_s (obs_memory sigs)) now until c in
  let+ c := preload_source fuel EvSignalCompute (poll_interval_s (obs_compute sigs)) now until c in
  let+ c := preload_source fuel EvSignalThermal (poll_interval_s (obs_thermal sigs)) now until c in
  let+ c := preload_source fuel EvSignalEnergy (poll_interval_s (obs_energy sigs)) now until c in
  Some (
    let! c := preload_injections (sc_external_injections (sim_cfg s)) 0 now until c in
    Return (set_clock s c)).

(** ** Runs *)

Fixpoint run_ticks (fuel : nat) (s : Simulator) (finish : Z)
    : option (outcome (Simulator * result unit SimError)) :=
  if vc_now (sim_clock s) <? finish then
    match fuel with
    | O => None
    | S fuel =>
        let+ (s, r) := tick s in
        match r with
        | Err e => Some (Return (s, Err e))
        | Ok _ => run_ticks fuel s finish
        end
    end
  else Some (Return (s, Ok tt)).

Definition run_for (fuel : nat) (s : Simulator) (duration : Z)
    : option (outcome (Simulator * result unit SimError)) :=
  match duration_add (vc_now (sim_clock s)) duration with
  | Panic => Some Panic
  | Return finish => let+ s := preload_events fuel s finish in run_ticks fuel s finish
  end.

Fixpoint until_ticks (fuel : nat) (predicate : Simulator -> bool) (s : Simulator) (finish : Z)
    : option (outcome (Simulator * result unit SimError)) :=
  if predicate s then Some (Return (s, Ok tt))
  else if finish <=? vc_now (sim_clock s) then Some (Return (s, Err ErrMaxDurationExceeded))
  else
    match fuel with
    | O => None
    | S fuel =>
        let+ (s, r) := tick s in
        match r with
        | Err e => Some (Return (s, Err e))
        | Ok _ => until_ticks fuel predicate s finish
        end
    end.

Definition HORIZON : Z := duration_from_secs 60.

Definition run_until (fuel : nat) (predicate : Simulator -> bool) (s : Simulator) (max : Z)
    : option (outcome (Simulator * result unit SimError)) :=
  match duration_add (vc_now (sim_clock s)) (Z.min max HORIZON) with
  | Panic => Some Panic
  | Return until =>
      let+ s := preload_events fuel s until in
      match duration_add (vc_now (sim_clock s)) max with
      | Panic => Some Panic
      | Return finish => until_ticks fuel predicate s finish
      end
  end.

(** ** Lemmas: what the handlers do to the clock and to the record of heartbeats *)

Definition is_beat (ev : ScheduledEvent) : bool := bool_decide (se_kind ev = EvHeartbeat).
Definition beats (evs : list ScheduledEvent) : nat := length (List.filter is_beat evs).

Lemma beats_app l1 l2 : beats (l1 ++ l2) = (beats l1 + beats l2)%nat.
Proof. unfold beats. by rewrite List.filter_app, length_app. Qed.
#[global] Instance beats_proper : Proper ((≡ₚ) ==> (=)) beats.
Proof.
  intros l1 l2 Hp. unfold beats. induction Hp as [|x l1 l2 _ IH|x y l|l1 l2 l3 _ IH1 _ IH2];
    cbn; [done|..|congruence].
  - destruct (is_beat x); cbn; congruence.
  - destruct (is_beat x), (is_beat y); reflexivity.
Qed.

(** The clock only gets events that are not heartbeats. *)
Definition quiet (c c' : VirtualClock) : Prop :=
  vc_now c' = vc_now c /\ (Sorted event_le (vc_events c) -> Sorted event_le (vc_events c')) /\
  exists new, vc_events c' ≡ₚ new ++ vc_events c /\ Forall (fun ev => is_beat ev = false) new.

#[global] Instance quiet_refl : Reflexive quiet.
Proof. intros c. split_and!; [done|done|]. by exists []. Qed.
#[global] Instance quiet_trans : Transitive quiet.
Proof.
  intros c1 c2 c3 (Hn1 & Hs1 & new1 & Hp1 & Hf1) (Hn2 & Hs2 & new2 & Hp2 & Hf2).
  split_and!; [congruence|auto|]. exists (new2 ++ new1). split.
  - by rewrite Hp2, Hp1, app_assoc.
  - by apply Forall_app.
Qed.

Lemma beats_none l : Forall (fun ev => is_beat ev = false) l -> beats l = O.
Proof. induction 1 as [|ev l He _ IH]; cbn; [done|]. unfold beats in *. cbn. by rewrite He. Qed.

Lemma schedule_quiet c kind t c' id : kind <> EvHeartbeat ->
  schedule oc c kind t = Return (c', id) -> quiet c c'.
Proof.
  intros Hk Hs. destruct (schedule_adds _ _ _ _ _ _ Hs) as (Hn & Hso & Hp).
  split_and!; [done|done|]. eexists [_]. split; [exact Hp|].
  repeat constructor. unfold is_beat; cbn. by apply bool_decide_eq_false.
Qed.

Lemma schedule_observations_quiet cmds : forall c c',
  schedule_observations c cmds = Return c' -> quiet c c'.
Proof.
  induction cmds as [|cmd cmds IH]; intros c c'; cbn; [by intros [= <-]|].
  destruct (observable_action_name cmd); [|by apply IH].
  destruct (duration_add _ _) as [due|]; [|done].
  destruct (schedule oc c _ due) as [[c1 id]|] eqn:Hs; [|done]. intros H'.
  etrans; [eapply schedule_quiet, Hs; discriminate|by apply IH].
Qed.

(** What a handler keeps, and what it adds to the record of heartbeats. *)
Definition handled (n : nat) (s s' : Simulator) : Prop :=
  quiet (sim_clock s) (sim_clock s') /\ tick_dt s' = tick_dt s /\ sim_cfg s' = sim_cfg s /\
  (sim_rng s = None -> sim_rng s' = None) /\
  heartbeat_count (sim_trajectory s') = (n + heartbeat_count (sim_trajectory s))%nat.

Lemma handled_trans n m s1 s2 s3 : handled n s1 s2 -> handled m s2 s3 -> handled (m + n) s1 s3.
Proof.
  intros (Hq1 & Hd1 & Hc1 & Hr1 & Hh1) (Hq2 & Hd2 & Hc2 & Hr2 & Hh2).
  split_and!; [by etrans|congruence|congruence|auto|lia].
Qed.

(** Changes that leave clock, tick, scenario and generator alone. *)
Lemma handled_same n s s' : sim_clock s' = sim_clock s -> tick_dt s' = tick_dt s ->
  sim_cfg s' = sim_cfg s -> sim_rng s' = sim_rng s ->
  heartbeat_count (sim_trajectory s') = (n + heartbeat_count (sim_trajectory s))%nat ->
  handled n s s'.
Proof. intros Hc Hd Hg Hr Hh. split_and!; try done; [by rewrite Hc|by rewrite Hr]. Qed.

Lemma record_count t e :
  heartbeat_count (t ++ [e]) = ((if is_heartbeat e then 1 else 0) + heartbeat_count t)%nat.
Proof.
  unfold heartbeat_count. rewrite count_app. unfold count at 2. cbn.
  destruct (is_heartbeat e); cbn; lia.
Qed.

(** Such a change that records one entry. *)
Lemma handled_record e s s' : sim_clock s' = sim_clock s -> tick_dt s' = tick_dt s ->
  sim_cfg s' = sim_cfg s -> sim_rng s' = sim_rng s ->
  sim_trajectory s' = sim_trajectory s ++ [e] ->
  handled (if is_heartbeat e then 1 else 0) s s'.
Proof. intros ? ? ? ? Ht. apply handled_same; try done. by rewrite Ht, record_count. Qed.

Lemma detect_transition_handled s t sig : handled 0 s (detect_transition s t sig).
Proof.
  unfold detect_transition. case_match; [by apply handled_same|].
  by eapply (handled_record (LevelTransition _ _ _ _ _)).
Qed.

Lemma decide_signal_handled s t sig s' : decide_signal s t sig = Return s' -> handled 0 s s'.
Proof.
  unfold decide_signal. destruct (process_signal _ _) as [[p [dir|]]|]; [|by intros [= <-]; apply handled_same|done].
  destruct (process command_eqb _ dir _) as [dedup [out|]]; [|by intros [= <-]; apply handled_same].
  unfold sim_apply_directive. destruct (schedule_observations _ _) as [c|] eqn:Hs; [|done].
  intros [= <-]. apply schedule_observations_quiet in Hs.
  split_and!; try done. cbn -[heartbeat_count]. unfold record_directive. by rewrite record_count.
Qed.

Lemma draw_none key sigma : draw noise_fuel None key sigma = Some (f_zero, None).
Proof. reflexivity. Qed.

Lemma derive_signal_none kind st cfg :
  exists o, derive_signal noise_fuel oc kind st cfg None = Some (o, None).
Proof.
  unfold derive_signal, derive_memory_signal, derive_compute_signal, derive_thermal_signal,
    derive_energy_signal. rewrite !draw_none. cbn [mbind option_bind].
  destruct kind; try by eexists. destruct (sim_compute_recommendation _ _ _ _). by eexists.
Qed.

Lemma handle_signal_handled s t kind s' : handle_signal s t kind = Some (Return s') -> handled 0 s s'.
Proof.
  unfold handle_signal. destruct (derive_signal _ _ _ _ _ _) as [[o rng]|] eqn:Hd; [|done].
  assert (Hr : handled 0 s (set_rng s rng)).
  { split_and!; try done. cbn. intros Hn. rewrite Hn in Hd.
    destruct (derive_signal_none kind (sim_state s) (sim_cfg s)) as [o' Ho]. congruence. }
  intros [= Hs]. destruct o as [[sig|]|]; [|by simplify_eq|done].
  destruct (decide_signal _ t sig) as [s1|] eqn:Hdec; [|done]. injection Hs as <-.
  apply decide_signal_handled in Hdec.
  apply (handled_trans 0 0 _ s1).
  - eapply (handled_trans 0 0); [exact Hr|]. eapply (handled_trans 0 0); [|exact Hdec].
    apply detect_transition_handled.
  - by eapply (handled_record (SignalEntry _ _)).
Qed.

Lemma handle_event_handled s ev s' : handle_event s ev = Some (Return s') ->
  handled (if is_beat ev then 1 else 0) s s'.
Proof.
  unfold handle_event, is_beat. destruct (se_kind ev) eqn:Hk;
    rewrite ?bool_decide_eq_true_2, ?bool_decide_eq_false_2 by done; try apply handle_signal_handled.
  { destruct (derive_heartbeat _ _ _ _ _) as [[msg rng]|] eqn:Hd; [|done]. intros [= Hs].
    destruct (update_engine_state _ msg) as [p|]; [|done]. injection Hs as <-.
    assert (exists m b, msg = m /\ m = Heartbeat b) as (m & b & -> & ->).
    { revert Hd. unfold derive_heartbeat. destruct (draw _ _ _ _) as [[? ?]|]; [|done]; cbn.
      destruct (draw _ _ _ _) as [[? ?]|]; [|done]. cbn. intros [= <- _]. by eexists _, _. }
    split_and!; try done.
    - cbn. intros Hn. rewrite Hn in Hd. unfold derive_heartbeat in Hd. rewrite !draw_none in Hd.
      cbn in Hd. by simplify_eq.
    - cbn -[heartbeat_count]. unfold record_heartbeat. by rewrite record_count. }
  all: intros [= <-].
  - by eapply (handled_record (ObservationDueEntry _ _ _)).
  - by eapply (handled_record (InjectionEvent _ _ _)).
  - by eapply (handled_record (InjectionEvent _ _ _)).
  - by eapply (handled_record (CustomEntry _ _)).
Qed.

Lemma handle_events_handled evs : forall s s', handle_events s evs = Some (Return s') ->
  handled (beats evs) s s'.
Proof.
  induction evs as [|ev evs IH]; intros s s'; cbn [handle_events].
  { intros [= <-]. by apply handled_same. }
  destruct (handle_event s ev) as [[s1|]|] eqn:He; try done. intros Hs.
  apply handle_event_handled in He. apply IH in Hs.
  pose proof (handled_trans _ _ _ _ _ He Hs) as Ht. unfold beats in *. cbn [List.filter].
  destruct (is_beat ev); cbn [length]; [|by rewrite Nat.add_0_r in Ht].
  by rewrite Nat.add_1_r in Ht.
Qed.
(** ** Lemmas: ticks *)

(** The queue between ticks: in order, its heartbeats after the time and up to [finish]. *)
Definition due_by (finish : Z) (c : VirtualClock) : Prop :=
  Sorted event_le (vc_events c) /\
  Forall (fun ev => is_beat ev = true -> vc_now c < se_at ev <= finish) (vc_events c).

(** What a run accounts for: the heartbeats recorded and those in the queue. *)
Definition beats_of (s : Simulator) : nat :=
  (heartbeat_count (sim_trajectory s) + beats (vc_events (sim_clock s)))%nat.

Lemma note_overruns_handled s t : handled 0 s (note_overruns s t).
Proof.
  unfold note_overruns. case_match; [|by apply handled_same].
  by eapply (handled_record (ObservationOverrun _ _)).
Qed.

(** A tick without an error: it drains, handles and advances. *)
Lemma tick_inv s s' : tick s = Some (Return (s', Ok tt)) ->
  exists events c s1, drain_until (sim_clock s) (vc_now (sim_clock s) + tick_dt s) = (events, c) /\
    handled (beats events) (set_clock s c) s1 /\
    vc_now (sim_clock s') = vc_now (sim_clock s1) + tick_dt s1 /\
    vc_events (sim_clock s') = vc_events (sim_clock s1) /\ tick_dt s' = tick_dt s1 /\
    sim_cfg s' = sim_cfg s1 /\ sim_rng s' = sim_rng s1 /\
    heartbeat_count (sim_trajectory s') = heartbeat_count (sim_trajectory s1).
Proof.
  unfold tick. destruct (duration_add _ _) as [tick_end|] eqn:Hend; [|done].
  apply duration_add_return in Hend as [-> _].
  destruct (drain_until _ _) as [events c] eqn:Hdrain.
  destruct (handle_events _ events) as [[s1|]|] eqn:Hh; try done.
  apply handle_events_handled in Hh.
  pose proof (handled_trans _ _ _ _ _ Hh
    (note_overruns_handled s1 (vc_now (sim_clock s) + tick_dt s))) as Hn.
  revert Hn. clear Hh. generalize (note_overruns s1 (vc_now (sim_clock s) + tick_dt s)).
  clear s1. intros s1 Hn. destruct (step _ _ _ _ _ _) as [[[st ctx] [[]|e]]|]; [|done|done].
  unfold advance. cbn [sim_clock set_trajectory set_physics tick_dt set_clock].
  destruct (duration_add _ _) as [now'|] eqn:Hadv; [|done].
  apply duration_add_return in Hadv as [-> _]. intros [= <-].
  exists events, c, s1. split_and!; try done.
  cbn -[heartbeat_count]. unfold record_state_snapshot. by rewrite record_count.
Qed.

Lemma drain_until_now c target events c' : drain_until c target = (events, c') ->
  vc_now c' = vc_now c.
Proof. unfold drain_until. destruct (drain_events _ _ _). by intros [= _ <-]. Qed.

Lemma tick_frame s s' : tick s = Some (Return (s', Ok tt)) ->
  vc_now (sim_clock s') = vc_now (sim_clock s) + tick_dt s /\ tick_dt s' = tick_dt s /\
  (sim_rng s = None -> sim_rng s' = None).
Proof.
  intros (events & c & s1 & Hd & ([Hn _] & Hdt & _ & Hr & _) & Hnow & _ & Hdt' & _ & Hr' & _)%tick_inv.
  apply drain_until_now in Hd. cbn in *. split_and!; [congruence|congruence|].
  intros E. rewrite Hr'. by apply Hr.
Qed.

Lemma tick_beats s s' finish : tick s = Some (Return (s', Ok tt)) ->
  due_by finish (sim_clock s) -> due_by finish (sim_clock s') /\ beats_of s' = beats_of s.
Proof.
  intros Ht [Hsort Hdue]. destruct (tick_frame _ _ Ht) as [Hnow _].
  apply tick_inv in Ht as (events & c & s1 & Hdrain & ([_ [Hs1 (new & Hp & Hf)]] & _ & _ & _ & Hc) &
    _ & He & _ & _ & _ & Hc'). unfold due_by, beats_of.
  apply drain_until_spec in Hdrain as (Hsplit & _ & Hrest & _ & Hsc & _); [|done].
  cbn -[heartbeat_count] in *. rewrite Hsplit in Hdue. apply Forall_app in Hdue as [_ Hdue].
  rewrite He, Hc', Hc, Hsplit. split_and!.
  - auto.
  - rewrite Hp. apply Forall_app. split.
    + eapply Forall_impl; [exact Hf|]. intros ev E1 E2. congruence.
    + pose proof (conj Hdue Hrest) as Hboth. apply Forall_and in Hboth.
      eapply Forall_impl; [exact Hboth|]. intros ev [Hle Hgt] Hb; cbn in *.
      specialize (Hle Hb). rewrite Hnow. lia.
  - rewrite Hp, !beats_app, (beats_none _ Hf). lia.
Qed.

(** The end of a run: what is left in the queue is not a heartbeat. *)
Lemma due_by_end finish c : due_by finish c -> finish <= vc_now c -> beats (vc_events c) = O.
Proof.
  intros [_ Hdue] Hend. apply beats_none. eapply Forall_impl; [exact Hdue|]. cbn.
  intros ev Hb. destruct (is_beat ev); [|done]. specialize (Hb eq_refl). lia.
Qed.

Lemma run_ticks_beats fuel finish : forall s s',
  run_ticks fuel s finish = Some (Return (s', Ok tt)) -> due_by finish (sim_clock s) ->
  beats_of s' = beats_of s /\ beats (vc_events (sim_clock s')) = O /\
  finish <= vc_now (sim_clock s').
Proof.
  induction fuel as [|fuel IH]; intros s s'; cbn [run_ticks];
    destruct (Z.ltb_spec (vc_now (sim_clock s)) finish) as [Hlt|Hge]; try done.
  1,3: intros [= <-] Hdue; split_and!; [done|by eapply due_by_end|done].
  destruct (tick s) as [[[s1 [[]|e]]|]|] eqn:Ht; try done. intros Hrun Hdue.
  destruct (tick_beats _ _ _ Ht Hdue) as (Hdue1 & Hb).
  destruct (IH _ _ Hrun Hdue1) as (Hb' & ? & ?). by rewrite Hb', Hb.
Qed.

(** ** Lemmas: preloading *)

Lemma duration_from_secs_f64_nonneg x d : duration_from_secs_f64 x = Return d -> 0 <= d.
Proof.
  unfold duration_from_secs_f64. destruct x as [sg|sg| |[] m e]; try done; [by intros [= <-]|].
  assert (Hn : 0 <= Z.pos m * 1000000000) by lia.
  set (ns := if 0 <=? e then _ else _). assert (0 <= ns).
  { unfold ns. destruct (Z.leb_spec 0 e); [by apply Z.mul_nonneg_nonneg; [|apply Z.pow_nonneg]|].
    unfold div_half_even. pose proof (Z.pow_pos_nonneg 2 (- e)).
    assert (0 <= Z.pos m * 1000000000 / 2 ^ (- e)) by (apply Z.div_pos; lia).
    repeat case_match; lia. }
  destruct (ns <=? _); [|done]. by intros [= <-].
Qed.

(** A source only adds its events. *)
Lemma preload_source_adds fuel kind period now until c c' :
  preload_source fuel kind period now until c = Some (Return c') ->
  vc_now c' = vc_now c /\ (Sorted event_le (vc_events c) -> Sorted event_le (vc_events c')) /\
  exists new, vc_events c' ≡ₚ new ++ vc_events c /\ Forall (fun ev => se_kind ev = kind) new.
Proof.
  unfold preload_source. destruct (duration_from_secs_f64 period) as [per|] eqn:Hper; [|done].
  unfold schedule_periodic_from. destruct (Z.eqb_spec per 0).
  { intros [= <-]. split_and!; try done. by exists []. }
  pose proof (duration_from_secs_f64_nonneg _ _ Hper).
  intros Hs. apply schedule_periodic_adds in Hs as (? & ? & new & Hp & Hf & _); [|lia].
  split_and!; try done. exists new. split; [done|]. eapply Forall_impl; [exact Hf|]. by intros ev [? _].
Qed.

(** A source that is not the heartbeat schedules no heartbeat. *)
Lemma preload_source_quiet fuel kind period now until c c' : kind <> EvHeartbeat ->
  preload_source fuel kind period now until c = Some (Return c') -> quiet c c'.
Proof.
  intros Hk (? & ? & new & Hp & Hf)%preload_source_adds. split_and!; [done|done|].
  exists new. split; [done|]. eapply Forall_impl; [exact Hf|].
  intros ev Hkind. unfold is_beat. apply bool_decide_eq_false. congruence.
Qed.

Lemma preload_injections_quiet injs : forall idx now until c c',
  preload_injections injs idx now until c = Return c' -> quiet c c'.
Proof.
  induction injs as [|inj injs IH]; intros idx now until c c'; cbn; [by intros [= <-]|].
  destruct (duration_from_secs_f64 (t_start inj)) as [start|]; [|done].
  destruct (duration_from_secs_f64 (inj_duration inj)) as [len|]; [|done].
  destruct (duration_add start len) as [finish|]; [|done].
  assert (Hone : forall (b : bool) kind t c1 c2, kind <> EvHeartbeat ->
    (if b then let! (c, _) := schedule oc c1 kind t in Return c else Return c1) = Return c2 ->
    quiet c1 c2).
  { intros [] kind t c1 c2 Hk; [|by intros [= <-]].
    destruct (schedule oc c1 kind t) as [[c3 id]|] eqn:Hs; [|done]. intros [= <-].
    by eapply schedule_quiet. }
  destruct (if _ && _ then _ else _) as [c1|] eqn:G1; [|done].
  destruct (if (now <? finish) && _ then _ else _) as [c2|] eqn:G2; [|done].
  intros G3. etrans; [eapply Hone, G1; discriminate|]. etrans; [eapply Hone, G2; discriminate|].
  by eapply IH.
Qed.

(** Preloading schedules a heartbeat for each multiple of its period in the window. *)
Lemma preload_events_beats fuel s until per s' :
  preload_events fuel s until = Some (Return s') ->
  duration_from_secs_f64 (interval_s (SimConfig.heartbeat (sc_observation (sim_cfg s)))) = Return per ->
  0 < per -> 0 <= vc_now (sim_clock s) <= until -> until + per <= u64_max ->
  Sorted event_le (vc_events (sim_clock s)) -> beats (vc_events (sim_clock s)) = O ->
  due_by until (sim_clock s') /\
  beats (vc_events (sim_clock s')) = Z.to_nat (until / per - vc_now (sim_clock s) / per) /\
  sim_trajectory s' = sim_trajectory s.
Proof.
  unfold preload_events. intros Hpre Hper Hpos Hnow Hmax Hsort Hnone.
  destruct (preload_source _ EvHeartbeat _ _ _ _) as [[c1|]|] eqn:G1; try done.
  destruct (preload_source _ EvSignalMemory _ _ _ _) as [[c2|]|] eqn:G2; try done.
  destruct (preload_source _ EvSignalCompute _ _ _ _) as [[c3|]|] eqn:G3; try done.
  destruct (preload_source _ EvSignalThermal _ _ _ _) as [[c4|]|] eqn:G4; try done.
  destruct (preload_source _ EvSignalEnergy _ _ _ _) as [[c5|]|] eqn:G5; try done.
  destruct (preload_injections _ _ _ _ _) as [c6|] eqn:G6; [|done]. injection Hpre as <-.
  apply preload_source_quiet in G2, G3, G4, G5; try discriminate.
  apply preload_injections_quiet in G6.
  assert (Hq : quiet c1 c6) by (do 5 (etrans; [eassumption|]); reflexivity).
  clear - G1 Hper Hpos Hnow Hmax Hsort Hnone Hq. unfold preload_source in G1. rewrite Hper in G1.
  unfold schedule_periodic_from in G1. rewrite (proj2 (Z.eqb_neq _ _)) in G1 by lia.
  set (now := vc_now (sim_clock s)) in *.
  assert (Hfirst : now < (now / per + 1) * per <= now + per).
  { pose proof (Z.div_mod now per). pose proof (Z.mod_pos_bound now per). lia. }
  rewrite wrap_id in G1 by lia.
  apply schedule_periodic_adds in G1 as (Hn1 & Hs1 & new & Hp1 & Hf1 & Hlen); [|done].
  destruct Hq as (Hn2 & Hs2 & new2 & Hp2 & Hf2). cbn [sim_clock set_clock sim_trajectory].
  assert (Hnew : beats new = length new).
  { clear Hlen Hp1. unfold beats. induction Hf1 as [|ev l [Hk _] _ IH]; cbn; [done|].
    unfold is_beat at 1. rewrite bool_decide_eq_true_2 by done. cbn. by rewrite IH. }
  split_and!; [|by rewrite Hp2, beats_app, (beats_none _ Hf2), Hp1, beats_app, Hnone, Hnew, Hlen;
    replace (until - (now / per + 1) * per) with (until + (- (now / per + 1)) * per) by lia;
    rewrite Z.div_add by lia; f_equal; lia|done].
  split; [auto|]. rewrite Hp2. apply Forall_app. split.
  { eapply Forall_impl; [exact Hf2|]. intros ev E1 E2. congruence. }
  rewrite Hp1. apply Forall_app. split.
  - eapply Forall_impl; [exact Hf1|]. intros ev [_ Hr] _. cbn. rewrite Hn2, Hn1. fold now. lia.
  - apply List.Forall_forall. intros ev Hin Hb. exfalso.
    assert (Hin' : In ev (List.filter is_beat (vc_events (sim_clock s)))) by (by apply filter_In).
    unfold beats in Hnone. destruct (List.filter _ _); [done|discriminate].
Qed.

(** ** Lemmas: a simulator without noise makes progress *)

Lemma handle_event_returns s ev : sim_rng s = None -> handle_event s ev <> None.
Proof.
  intros Hr. unfold handle_event, handle_signal. destruct (se_kind ev); try done.
  { rewrite Hr. unfold derive_heartbeat. by rewrite !draw_none. }
  all: rewrite Hr; match goal with |- context [derive_signal _ _ ?k ?st ?cfg None] =>
    destruct (derive_signal_none k st cfg) as [o ->] end; done.
Qed.

Lemma handle_events_returns evs : forall s, sim_rng s = None -> handle_events s evs <> None.
Proof.
  induction evs as [|ev evs IH]; intros s Hr; cbn [handle_events]; [done|].
  pose proof (handle_event_returns s ev Hr).
  destruct (handle_event s ev) as [[s1|]|] eqn:He; try done.
  apply handle_event_handled in He as (_ & _ & _ & Hr1 & _). apply IH. auto.
Qed.

Lemma tick_returns s : sim_rng s = None -> tick s <> None.
Proof.
  intros Hr. unfold tick. destruct (duration_add _ _) as [tick_end|]; [|done].
  destruct (drain_until _ _) as [events c].
  pose proof (handle_events_returns events (set_clock s c) Hr).
  destruct (handle_events _ _) as [[s1|]|]; try done.
  by destruct (step _ _ _ _ _ _) as [[[st ctx] [[]|e]]|].
Qed.

Lemma run_ticks_returns finish fuel : forall s, sim_rng s = None -> 0 < tick_dt s ->
  finish - vc_now (sim_clock s) <= Z.of_nat fuel -> run_ticks fuel s finish <> None.
Proof.
  induction fuel as [|fuel IH]; intros s Hr Hdt Hf; cbn [run_ticks];
    destruct (Z.ltb_spec (vc_now (sim_clock s)) finish) as [Hlt|Hge]; try done; [lia|].
  pose proof (tick_returns s Hr).
  destruct (tick s) as [[[s1 [[]|e]]|]|] eqn:Ht; try done.
  apply tick_frame in Ht as (Hn & Hd & Hr1). apply IH; [auto|lia|lia].
Qed.

(** The source kept by a source's preload, and that it returns. *)
Lemma preload_source_returns fuel kind period now until c :
  until + 1 < Z.of_nat fuel -> 0 < Z.of_nat fuel -> preload_source fuel kind period now until c <> None.
Proof.
  intros Hf Hz. unfold preload_source. destruct (duration_from_secs_f64 period) as [per|] eqn:Hper; [|done].
  unfold schedule_periodic_from. destruct (Z.eqb_spec per 0); [done|].
  pose proof (duration_from_secs_f64_nonneg _ _ Hper).
  apply schedule_periodic_returns; [lia| |done].
  pose proof (wrap_range 0 u64_max ((now / per + 1) * per)). unfold u64_max in *. lia.
Qed.

Lemma preload_events_returns fuel s until : until + 1 < Z.of_nat fuel -> 0 < Z.of_nat fuel ->
  preload_events fuel s until <> None.
Proof.
  intros Hf Hz. unfold preload_events.
  repeat match goal with |- context [preload_source fuel ?k ?p ?n ?u ?c] =>
    pose proof (preload_source_returns fuel k p n u c Hf Hz);
    destruct (preload_source fuel k p n u c) as [[?|]|]; try done end.
Qed.

Lemma preload_events_frame fuel s until s' : preload_events fuel s until = Some (Return s') ->
  exists c, s' = set_clock s c /\ vc_now c = vc_now (sim_clock s).
Proof.
  unfold preload_events. intros Hpre.
  destruct (preload_source _ EvHeartbeat _ _ _ _) as [[c1|]|] eqn:G1; try done.
  destruct (preload_source _ EvSignalMemory _ _ _ _) as [[c2|]|] eqn:G2; try done.
  destruct (preload_source _ EvSignalCompute _ _ _ _) as [[c3|]|] eqn:G3; try done.
  destruct (preload_source _ EvSignalThermal _ _ _ _) as [[c4|]|] eqn:G4; try done.
  destruct (preload_source _ EvSignalEnergy _ _ _ _) as [[c5|]|] eqn:G5; try done.
  destruct (preload_injections _ _ _ _ _) as [c6|] eqn:G6; [|done]. injection Hpre as <-.
  exists c6. split; [done|].
  apply preload_source_quiet in G2 as [? _], G3 as [? _], G4 as [? _], G5 as [? _]; try discriminate.
  apply preload_injections_quiet in G6 as [? _]. apply preload_source_adds in G1 as [? _]. congruence.
Qed.

(** C25. Heartbeats are neither lost nor doubled: a run that starts with none in the queue
    and ends without an error records
    one for each multiple of the scenario's interval after the time it starts and up to the
    time it is asked to run to, whatever the tick's length, the signals, the directives
    and the observations they schedule; no heartbeat stays in the queue, and the clock has
    reached the end. *)
Theorem run_for_heartbeats fuel s duration per s' :
  run_for fuel s duration = Some (Return (s', Ok tt)) ->
  duration_from_secs_f64 (interval_s (SimConfig.heartbeat (sc_observation (sim_cfg s)))) = Return per ->
  0 < per -> 0 <= vc_now (sim_clock s) -> 0 <= duration ->
  vc_now (sim_clock s) + duration + per <= u64_max ->
  Sorted event_le (vc_events (sim_clock s)) -> beats (vc_events (sim_clock s)) = O ->
  heartbeat_count (sim_trajectory s') = (heartbeat_count (sim_trajectory s) +
    Z.to_nat ((vc_now (sim_clock s) + duration) / per - vc_now (sim_clock s) / per))%nat /\
  beats (vc_events (sim_clock s')) = O /\
  vc_now (sim_clock s) + duration <= vc_now (sim_clock s').
Proof.
  unfold run_for. intros Hrun Hper Hpos Hnow Hdur Hmax Hsort Hnone.
  destruct (duration_add _ _) as [finish|] eqn:Hadd; [|done].
  apply duration_add_return in Hadd as [-> _].
  destruct (preload_events _ _ _) as [[s1|]|] eqn:Hpre; try done.
  eapply preload_events_beats in Hpre as (Hdue & Hb & Ht); try done; [|lia].
  apply run_ticks_beats in Hrun as (Hsum & Hzero & Hend); [|done].
  unfold beats_of in Hsum. rewrite Hzero, Hb, Ht in Hsum. split_and!; [lia|done|done].
Qed.

(** C39. A run of a simulator without noise, by a positive tick, ends: with more fuel than the nanoseconds up
    to its end, neither the preloading of the periodic sources nor the ticks run out of
    it, whatever the policy does and whatever the scenario's periods are. *)
Theorem run_for_returns fuel s duration :
  sim_rng s = None -> 0 < tick_dt s -> 0 <= vc_now (sim_clock s) -> 0 <= duration ->
  vc_now (sim_clock s) + duration + 1 < Z.of_nat fuel ->
  run_for fuel s duration <> None.
Proof.
  intros Hr Hdt Hnow Hdur Hf. unfold run_for.
  destruct (duration_add _ _) as [finish|] eqn:Hadd; [|done].
  apply duration_add_return in Hadd as [-> _].
  assert (Hpre := preload_events_returns fuel s (vc_now (sim_clock s) + duration) Hf ltac:(lia)).
  destruct (preload_events _ _ _) as [[s1|]|] eqn:E; try done.
  apply preload_events_frame in E as (c & -> & Hc).
  apply run_ticks_returns; cbn; [done|done|lia].
Qed.
End Harness.
Arguments Simulator {_ _} P.

(** ** The policy of the tests (src/sim/mock_policy.rs) *)

Record MockPolicy := {
  received_signals : list SystemSignal;
  received_heartbeats : Z;
  qcf_timeout_count : Z;
  directive_on_signal : option (SystemSignal -> option EngineDirective);
  pending_qcf_directive : option EngineDirective
}.
Definition MockPolicy_new : MockPolicy :=
  {| received_signals := []; received_heartbeats := 0; qcf_timeout_count := 0;
     directive_on_signal := None; pending_qcf_directive := None |}.
Definition with_fixed_directive (d : EngineDirective) : MockPolicy :=
  {| received_signals := []; received_heartbeats := 0; qcf_timeout_count := 0;
     directive_on_signal := Some (fun _ => Some d); pending_qcf_directive := None |}.

Definition mock_process_signal (p : MockPolicy) (signal : SystemSignal)
    : outcome (MockPolicy * option EngineDirective) :=
  Return ({| received_signals := received_signals p ++ [signal];
             received_heartbeats := received_heartbeats p;
             qcf_timeout_count := qcf_timeout_count p;
             directive_on_signal := directive_on_signal p;
             pending_qcf_directive := pending_qcf_directive p |},
          match directive_on_signal p with Some cb => cb signal | None => None end).

(** The count is a [usize], which no run fills. *)
Definition mock_update_engine_state (p : MockPolicy) (msg : EngineMessage) : outcome MockPolicy :=
  let! n := u64_arith true (received_heartbeats p + 1) in
  Return {| received_signals := received_signals p; received_heartbeats := n;
            qcf_timeout_count := qcf_timeout_count p;
            directive_on_signal := directive_on_signal p;
            pending_qcf_directive := pending_qcf_directive p |}.

#[export] Instance MockPolicy_strategy : PolicyStrategy MockPolicy := {|
  process_signal := mock_process_signal;
  update_engine_state := mock_update_engine_state;
  mode := fun _ => ModeNormal;
  save_model := default_save_model;
  inspect_state := default_inspect_state;
  cancel_last_observation := default_cancel_last_observation;
  script_path := default_script_path;
  reload_script := fun _ p _ => (p, Err "not reloadable")
|}.

(** ** Examples: a run of two seconds and a half, and a short one *)

#[export] Instance demo_debug : ProtocolDebug := {|
  phase_debug := fun _ => "Decode"; command_debug := fun _ => "Cmd"
|}.
Definition demo_start : Simulator MockPolicy :=
  match Simulator_new demo_scenario MockPolicy_new with
  | Return s => s
  | Panic => {| sim_clock := VirtualClock_new; sim_state := demo_state; sim_engine := demo_engine;
       sim_cfg := demo_scenario; sim_policy := MockPolicy_new; sim_trajectory := [];
       sim_rng := None; tick_dt := 0; sim_ctx := []; last_overrun_count := 0;
       sim_dedup := with_cooldown f_zero; last_signal_levels := [] |}
  end.
Definition completes {A E} (o : option (outcome (A * result unit E))) : bool :=
  match o with Some (Return (_, Ok _)) => true | _ => false end.

Lemma run_for_heartbeats_witness : exists s',
  run_for demo_eqb true 0 60 demo_start (duration_from_millis 2500) = Some (Return (s', Ok tt)) /\
  heartbeat_count (sim_trajectory s') = 2%nat.
Proof.
  assert (Hok : completes (run_for demo_eqb true 0 60 demo_start (duration_from_millis 2500)) = true)
    by (vm_compute; reflexivity).
  destruct (run_for demo_eqb true 0 60 demo_start (duration_from_millis 2500))
    as [[[s' [[]|e]]|]|] eqn:Hrun; try discriminate Hok.
  pose proof (run_for_heartbeats demo_eqb true 0 60 demo_start (duration_from_millis 2500)
    1000000000 s' Hrun ltac:(vm_compute; reflexivity) ltac:(lia)
    ltac:(vm_compute; discriminate) ltac:(vm_compute; discriminate)
    ltac:(vm_compute; discriminate) ltac:(vm_compute; constructor)
    ltac:(vm_compute; reflexivity)) as (Hc & _ & _).
  exists s'. split; [reflexivity|]. rewrite Hc. vm_compute. reflexivity.
Defined.

Lemma run_for_returns_witness :
  run_for demo_eqb true 0 10 (with_tick_dt demo_start 2) 7 <> None.
Proof. apply run_for_returns; vm_compute; first [reflexivity|discriminate]. Defined.

(** A run that stops early leaves its schedule in the queue, and the next run schedules the
    same times again: stopping at once a run of two seconds and a half, then running for as
    long, records each heartbeat twice. *)
Lemma run_until_then_run_for :
  match run_until demo_eqb true 0 60 (fun _ => true) demo_start (duration_from_millis 2500) with
  | Some (Return (s, Ok _)) =>
      match run_for demo_eqb true 0 60 s (duration_from_millis 2500) with
      | Some (Return (s, Ok _)) => Some (heartbeat_count (sim_trajectory s))
      | _ => None
      end
  | _ => None
  end = Some 4%nat.
Proof. vm_compute. reflexivity. Qed.
