(* ===== verification/SimRun.v ===== *)
(** * SimRun: loading a scenario and simulating a Lua policy
    (load_scenario of src/sim/config.rs, Simulator::with_lua_policy of src/sim/harness.rs,
    src/bin/sim_run.rs)

    The composition of the simulator's parts, and what it records of the policy's
    directives, proved against an interface that says how a policy's directives evolve. *)

From Stdlib Require Import ZArith Lia SpecFloat String Sorting.Sorted.
From stdpp Require Import base tactics numbers list strings.
From S2P Require Import Prelude Float RustStr Fmt Signal Config Wire Pipeline PolicyState Monitor SimYaml LuaContext LuaPolicy SimClock SimExpr SimConfig SimState SimPhysics SimSignal SimTrajectory SimReport SimHarness.
Local Open Scope string_scope.
Local Open Scope list_scope.
Local Open Scope Z_scope.

(** ** Loading a scenario *)

(** Decoding of a merged document into the records is [serde_yaml]'s. *)
Class ScenarioYaml `{Evalexpr} `{Yaml} := scenario_from_value : SimYaml.Value -> option ScenarioConfig.

Section Load.
Context `{ScenarioYaml}.

Inductive ScenarioError :=
| ErrLoad (e : YamlError)
| ErrDecode (path : string)
| ErrValidation (path : string)
| ErrExpression (path : string) (errors : list ExprError).

(** [cfg.validate()]: the three checks of the initial state. *)
Definition validates (cfg : ScenarioConfig) : bool :=
  let st := sc_initial_state cfg in
  match validate_kv_cache_capacity st, validate_device_memory st, validate_kv_token_capacity st with
  | Ok _, Ok _, Ok _ => true
  | _, _, _ => false
  end.

Definition load_scenario (path_parent : string -> string) (fuel : nat) (files : Files) (path : string)
    : option (outcome (result ScenarioConfig ScenarioError)) :=
  match load_yaml_with_extends path_parent fuel files path (path_parent path) [] with
  | None => None
  | Some (Err e) => Some (Return (Err (ErrLoad e)))
  | Some (Ok raw) =>
      match scenario_from_value raw with
      | None => Some (Return (Err (ErrDecode path)))
      | Some cfg =>
          if validates cfg then
            Some (let! r := validate_expressions cfg in
                  Return (match r with Ok _ => Ok cfg | Err es => Err (ErrExpression path es) end))
          else Some (Return (Err (ErrValidation path)))
      end
  end.

(** What is loaded is a document that decodes and passes every check. *)
Lemma load_scenario_ok path_parent fuel files path cfg :
  load_scenario path_parent fuel files path = Some (Return (Ok cfg)) ->
  (exists raw, load_yaml_with_extends path_parent fuel files path (path_parent path) [] = Some (Ok raw) /\
     scenario_from_value raw = Some cfg) /\
  i_kv_cache_bytes (sc_initial_state cfg) <= i_kv_cache_capacity_bytes (sc_initial_state cfg) /\
  i_device_memory_used_mb (sc_initial_state cfg) <= i_device_memory_total_mb (sc_initial_state cfg) /\
  i_kv_cache_tokens (sc_initial_state cfg) <= i_kv_cache_token_capacity (sc_initial_state cfg) /\
  validate_expressions cfg = Return (Ok tt).
Proof.
  unfold load_scenario. destruct (load_yaml_with_extends _ _ _ _ _ _) as [[raw|e]|]; try done.
  destruct (scenario_from_value raw) as [cfg'|] eqn:Hd; [|done].
  destruct (validates cfg') eqn:Hv; [|done].
  destruct (validate_expressions cfg') as [[[]|es]|] eqn:He; intros [= <-].
  split; [eauto|]. unfold validates in Hv.
  unfold validate_kv_cache_capacity, validate_device_memory, validate_kv_token_capacity in Hv.
  destruct (Z.ltb_spec (i_kv_cache_capacity_bytes (sc_initial_state cfg'))
    (i_kv_cache_bytes (sc_initial_state cfg'))); [done|].
  destruct (Z.ltb_spec (i_device_memory_total_mb (sc_initial_state cfg'))
    (i_device_memory_used_mb (sc_initial_state cfg'))); [done|].
  destruct (Z.ltb_spec (i_kv_cache_token_capacity (sc_initial_state cfg'))
    (i_kv_cache_tokens (sc_initial_state cfg'))); [done|].
  by split_and!.
Qed.
End Load.

(** ** What a simulation records of the directives *)

(** The directives of a trajectory with their times, and how emitted ones look there. *)
Definition recorded (t : Trajectory) : list (DirectiveDump * f64) :=
  map (fun d => (d.2, d.1.1)) (directives t).
Definition dumps `{ProtocolDebug} (sent : list (EngineDirective * f64)) : list (DirectiveDump * f64) :=
  map (fun d => (directive_dump d.1, d.2)) sent.

(** How the directives of a policy evolve: a relation between the policy and what has been
    let through, kept by each of the policy's operations. *)
Class PolicyTrace {P} `{PolicyStrategy P} (trace : P -> list (EngineDirective * f64) -> Prop) := {
  trace_quiet p sig p' sent :
    process_signal p sig = Return (p', None) -> trace p sent -> trace p' sent;
  trace_suppressed p sig p' d sent :
    process_signal p sig = Return (p', Some d) -> trace p sent -> trace p' sent;
  trace_sent p sig p' d t sent :
    process_signal p sig = Return (p', Some d) -> trace p sent -> trace p' (sent ++ [(d, t)]);
  trace_update p msg p' sent : update_engine_state p msg = Return p' -> trace p sent -> trace p' sent;
  trace_cancel p sent : trace p sent -> trace (cancel_last_observation p) sent
}.

Section Trace.
Context `{Libm} `{Evalexpr} `{Rng} `{LogCos} `{ProtocolDebug} {P : Type} `{PolicyStrategy P}.
Context (trace : P -> list (EngineDirective * f64) -> Prop) `{!PolicyTrace trace}.
Context (command_eqb : EngineCommand -> EngineCommand -> bool) (oc : bool) (noise_fuel : nat).
Context (cooldown : f64).

(** The trajectory holds what was sent: the policy's directives, spaced by the cooldown. *)
Definition faithful_to (s : Simulator P) (sent : list (EngineDirective * f64)) : Prop :=
  recorded (sim_trajectory s) = dumps sent /\ trace (sim_policy s) sent /\
  cooldown_secs (sim_dedup s) = cooldown /\ last_emission (sim_dedup s) (last sent) /\
  adjacent (spaced command_eqb cooldown) sent.
Definition faithful (s : Simulator P) : Prop := exists sent, faithful_to s sent.

Lemma recorded_snoc t e : is_directive e = false -> recorded (t ++ [e]) = recorded t.
Proof.
  unfold recorded, directives. intros He. rewrite omap_app. destruct e; try done; cbn; by rewrite app_nil_r.
Qed.
Lemma recorded_directive t at_ sig d :
  recorded (record_directive t at_ sig d) = recorded t ++ [(directive_dump d, duration_as_secs_f64 at_)].
Proof. unfold recorded, record_directive, directives. by rewrite omap_app, map_app. Qed.

Lemma faithful_frame s s' : faithful s -> sim_policy s' = sim_policy s ->
  sim_dedup s' = sim_dedup s -> recorded (sim_trajectory s') = recorded (sim_trajectory s) -> faithful s'.
Proof. intros [sent Hs] Hp Hd Ht. exists sent. unfold faithful_to. by rewrite Hp, Hd, Ht. Qed.

(** Entries of other kinds change nothing. *)
Lemma faithful_record s e : is_directive e = false -> faithful s ->
  faithful (set_trajectory s (sim_trajectory s ++ [e])).
Proof. intros He Hs. apply (faithful_frame s); [done..|]. by apply recorded_snoc. Qed.

Lemma detect_transition_faithful s t sig : faithful s -> faithful (detect_transition s t sig).
Proof.
  intros Hs. unfold detect_transition. case_bool_decide; [done|].
  apply (faithful_frame (set_trajectory s (record_level_transition (sim_trajectory s) t
    (sd_kind (signal_dump sig)) (hm_get (last_signal_levels s) (sd_kind (signal_dump sig)))
    (sd_level (signal_dump sig)) (sim_state s)))); [|done..].
  by apply faithful_record.
Qed.

Lemma sim_apply_directive_frame (s : Simulator P) d s' : sim_apply_directive oc s d = Return s' ->
  sim_policy s' = sim_policy s /\ sim_dedup s' = sim_dedup s /\ sim_trajectory s' = sim_trajectory s.
Proof.
  unfold sim_apply_directive. destruct (schedule_observations _ _ _); [|done]. by intros [= <-].
Qed.

Lemma decide_signal_faithful s t sig s' : decide_signal command_eqb oc s t sig = Return s' ->
  faithful s -> faithful s'.
Proof.
  unfold decide_signal. intros Hd (sent & Hr & Ht & Hc & Hl & Ha).
  destruct (process_signal (sim_policy s) sig) as [[p [d|]]|] eqn:Hp; [| |done].
  - cbn [sim_dedup set_policy] in Hd. pose proof (process_cooldown command_eqb (sim_dedup s) d (duration_as_secs_f64 t)) as Hcd.
    pose proof (process_cases command_eqb (sim_dedup s) _ d (duration_as_secs_f64 t) Hl) as Hcase.
    destruct (process command_eqb (sim_dedup s) d (duration_as_secs_f64 t)) as [dd out]. cbn in Hcd.
    destruct Hcase as [[Heq _]|(Hout & Hl' & Hsp)].
    + injection Heq as -> ->. injection Hd as <-. exists sent. split_and!; try done.
      apply trace_cancel. by eapply trace_suppressed.
    + cbn in Hout, Hl'. subst out.
      destruct (sim_apply_directive oc _ d) as [s1|] eqn:Happ; [|done].
      apply sim_apply_directive_frame in Happ as (Hp1 & Hd1 & Ht1). cbn in Hp1, Hd1, Ht1.
      injection Hd as <-. exists (sent ++ [(d, duration_as_secs_f64 t)]).
      unfold faithful_to. cbn [sim_trajectory set_trajectory sim_policy sim_dedup].
      rewrite recorded_directive, Ht1, Hr, Hp1, Hd1, last_snoc. unfold dumps. rewrite map_app.
      split_and!; [done|by eapply trace_sent|congruence|done|].
      apply adjacent_snoc; [done|]. intros [d0 t0] Hlast Hv. cbn. rewrite <- Hc. by eapply Hsp.
  - injection Hd as <-. exists sent. split_and!; try done. by eapply trace_quiet.
Qed.

Lemma handle_signal_faithful s t kind s' :
  handle_signal command_eqb oc noise_fuel s t kind = Some (Return s') -> faithful s -> faithful s'.
Proof.
  unfold handle_signal. destruct (derive_signal _ _ _ _ _ _) as [[[sig|] rng]|]; try done.
  intros [= Hh] Hs. assert (Hs1 : faithful (set_rng s rng)) by by apply (faithful_frame s).
  destruct sig as [sig|]; [|by injection Hh as <-].
  destruct (decide_signal _ _ _ _ _) as [s1|] eqn:Hd; [|done]. injection Hh as <-.
  apply faithful_record; [done|]. eapply decide_signal_faithful; [exact Hd|].
  by apply detect_transition_faithful.
Qed.

Lemma handle_event_faithful s ev s' :
  handle_event command_eqb oc noise_fuel s ev = Some (Return s') -> faithful s -> faithful s'.
Proof.
  unfold handle_event. intros Hh Hs.
  destruct (se_kind ev); try (by eapply handle_signal_faithful);
    try (injection Hh as <-; by apply faithful_record).
  destruct (derive_heartbeat _ _ _ _ _) as [[msg rng]|]; [|done]. injection Hh as Hh.
  destruct (update_engine_state _ msg) as [p|] eqn:Hu; [|done]. injection Hh as <-.
  apply (faithful_record (set_policy (set_rng s rng) p)); [done|].
  destruct Hs as (sent & Hr & Ht & Hrest). exists sent. split_and!; try done; try apply Hrest.
  by eapply trace_update.
Qed.

Lemma handle_events_faithful evs : forall s s',
  handle_events command_eqb oc noise_fuel s evs = Some (Return s') -> faithful s -> faithful s'.
Proof.
  induction evs as [|ev evs IH]; intros s s'; cbn; [by intros [= <-]|].
  destruct (handle_event _ _ _ s ev) as [[s1|]|] eqn:Hh; try done.
  intros Hr Hs. eapply IH; [exact Hr|]. by eapply handle_event_faithful.
Qed.

Lemma note_overruns_faithful s t : faithful s -> faithful (note_overruns s t).
Proof.
  intros Hs. unfold note_overruns. destruct (_ <? _); [|done].
  apply (faithful_record (set_overrun_count s _)); [done|]. by apply (faithful_frame s).
Qed.

Lemma tick_faithful s s' r : tick command_eqb oc noise_fuel s = Some (Return (s', r)) ->
  faithful s -> faithful s'.
Proof.
  unfold tick. destruct (duration_add _ _) as [tick_end|]; [|done].
  destruct (drain_until _ _) as [events c].
  destruct (handle_events _ _ _ _ events) as [[s1|]|] eqn:Hh; try done. intros Ht Hs.
  assert (Hs1 : faithful s1).
  { eapply handle_events_faithful; [exact Hh|]. by apply (faithful_frame s). }
  apply (note_overruns_faithful _ tick_end) in Hs1. set (s2 := note_overruns s1 tick_end) in *.
  destruct (step _ _ _ _ _ _) as [[[st ctx] res]|]; [|done].
  assert (Hs3 : faithful (set_physics s2 st ctx)) by by apply (faithful_frame s2).
  destruct res as [[]|e]; [|by injection Ht as <- _].
  destruct (advance _ _) as [c'|]; [|done]. injection Ht as <- _.
  apply (faithful_frame (set_trajectory (set_physics s2 st ctx) (record_state_snapshot
    (sim_trajectory s2) tick_end st (sim_engine s2)))); [|done..].
  by apply (faithful_record (set_physics s2 st ctx)).
Qed.

Lemma run_ticks_faithful fuel finish : forall s s' r,
  run_ticks command_eqb oc noise_fuel fuel s finish = Some (Return (s', r)) -> faithful s -> faithful s'.
Proof.
  induction fuel as [|fuel IH]; intros s s' r; cbn [run_ticks];
    (destruct (_ <? _); [|by intros [= <- _]]); [done|].
  destruct (tick _ _ _ s) as [[[s1 [u|e]]|]|] eqn:Ht; try done.
  - intros Hr Hs. eapply IH; [exact Hr|]. by eapply tick_faithful.
  - intros [= <- _] Hs. by eapply tick_faithful.
Qed.

Lemma preload_events_keeps fuel (s : Simulator P) until s' : preload_events oc fuel s until = Some (Return s') ->
  exists c, s' = set_clock s c.
Proof.
  unfold preload_events. intros Hp.
  repeat (match type of Hp with
          | match ?x with _ => _ end = _ => destruct x as [[?|]|]; try done
          end).
  injection Hp as Hp. destruct (preload_injections _ _ _ _ _ _) as [c'|]; [|done].
  injection Hp as <-. by exists c'.
Qed.

Lemma run_for_faithful fuel s duration s' r :
  run_for command_eqb oc noise_fuel fuel s duration = Some (Return (s', r)) -> faithful s -> faithful s'.
Proof.
  unfold run_for. destruct (duration_add _ _) as [finish|]; [|done].
  destruct (preload_events _ _ s finish) as [[s1|]|] eqn:Hp; try done. intros Hr Hs.
  apply preload_events_keeps in Hp as [c ->]. eapply run_ticks_faithful; [exact Hr|].
  by apply (faithful_frame s).
Qed.
End Trace.

(** ** A Lua policy in the simulator *)

Section LuaTrace.
Context `{LuaVM} `{YieldBound} (oc : bool).

(** A directive the engine can receive. *)
Definition sendable (d : EngineDirective) : Prop :=
  commands d <> [] /\ Forall (fun c => wire_valid GPU_YIELD_EVERY_MAX c = true) (commands d).

(** From the counter at [q], [n] numbers have been taken; the directives let through carry
    some of them, in order. *)
Definition lua_trace (q : Z) (w : LuaWorld) (sent : list (EngineDirective * f64)) : Prop :=
  exists n ks, 0 <= n /\ lw_seq w = wrap 0 u64_max (q + n) /\
    map (fun e => seq_id e.1) sent = map (fun k => wrap 0 u64_max (q + k)) ks /\
    StronglySorted Z.lt ks /\ Forall (fun k => 0 <= k < n) ks /\
    Forall (fun e => sendable e.1) sent.

Lemma wrap_succ z : wrap 0 u64_max (wrap 0 u64_max z + 1) = wrap 0 u64_max (z + 1).
Proof.
  unfold wrap. rewrite !Z.add_0_l, !Z.sub_0_r. by rewrite Zplus_mod_idemp_l.
Qed.

Lemma sorted_snoc ks n : StronglySorted Z.lt ks -> Forall (fun k => k < n) ks ->
  StronglySorted Z.lt (ks ++ [n]).
Proof.
  induction 1 as [|k ks Hs IH Hk]; intros Hn; cbn; [by repeat constructor|].
  apply Forall_cons in Hn as [Hkn Hn]. constructor; [by apply IH|].
  apply Forall_app. split; [done|]. by constructor.
Qed.

(** What processing a signal does to the counter. *)
Lemma lua_process_seq w sig w' o : lua_process_signal oc w sig = Return (w', o) ->
  match o with
  | None => lw_seq w' = lw_seq w
  | Some d => sendable d /\ seq_id d = lw_seq w /\ lw_seq w' = wrap 0 u64_max (lw_seq w + 1)
  end.
Proof.
  intros Hp. apply lua_process_policy in Hp as (cmds & Hd & Ho).
  apply call_decide_valid in Hd. destruct cmds as [|c cmds]; destruct Ho as [-> Hs]; [done|].
  by split_and!.
Qed.

#[export] Instance lua_policy_trace q : @PolicyTrace _ (LuaPolicy_strategy oc) (lua_trace q).
Proof.
  constructor.
  - intros w sig w' sent Hp (n & ks & Hn & Hw & Hrest). apply lua_process_seq in Hp.
    exists n, ks. split_and!; try apply Hrest; [done|congruence].
  - intros w sig w' d sent Hp (n & ks & Hn & Hw & Hm & Hs & Hk & Hv).
    apply lua_process_seq in Hp as (_ & _ & Hnext). exists (n + 1), ks.
    rewrite Hnext, Hw, wrap_succ, Z.add_assoc. split_and!; try done; [lia|].
    eapply Forall_impl; [exact Hk|]. cbn. lia.
  - intros w sig w' d t sent Hp (n & ks & Hn & Hw & Hm & Hs & Hk & Hv).
    apply lua_process_seq in Hp as (Hd & Hid & Hnext). exists (n + 1), (ks ++ [n]).
    rewrite Hnext, Hw, wrap_succ, Z.add_assoc, !map_app. split_and!; [lia|done| | | |].
    + cbn. by rewrite Hm, Hid, Hw.
    + apply sorted_snoc; [done|]. eapply Forall_impl; [exact Hk|]. cbn. lia.
    + apply Forall_app. split; [eapply Forall_impl; [exact Hk|]; cbn; lia|].
      constructor; [lia|constructor].
    + apply Forall_app. split; [done|]. by constructor.
  - intros w msg w' sent Hu (n & ks & Hn & Hw & Hrest). exists n, ks. split_and!; try apply Hrest; [done|].
    rewrite <- Hw. cbn in Hu. destruct msg as [status|]; cbn in Hu; [|by injection Hu as <-].
    destruct (update_tbt_ms _ _ _); [|done]. by injection Hu as <-.
  - done.
Qed.
End LuaTrace.

(** ** The command line (src/bin/sim_run.rs) *)

Record SimArgs := {
  sa_scenario : string;
  sa_lua : option string; (* the path as text, if it is UTF-8 *)
  sa_duration : f64;
  sa_verbose : bool;
  sa_output_json : option string;
  sa_config : option string
}.

Inductive InitError := InvalidScriptPath | PolicyInit (e : LuaPolicy.LoadError).

Inductive RunError :=
| ErrScenario (e : ScenarioError)
| ErrConfig (path : string)
| ErrInit (e : InitError)
| ErrRun (e : SimError)
| ErrDump.

Section Run.
Context `{Libm} `{ScenarioYaml} `{Rng} `{LogCos} `{ProtocolDebug} `{LuaVM} `{YieldBound} `{DetailText}.
Context (command_eqb : EngineCommand -> EngineCommand -> bool) (oc : bool) (noise_fuel : nat).
(** The files: the monitors' view for the script, the scenario files, the configuration,
    the JSON of a trajectory, and writing. *)
Context (env : Env) (files : Files) (path_parent : string -> string)
  (config_from_file : string -> option Config) (to_string_pretty : Trajectory -> option string)
  (fs_write : string -> string -> bool).

#[local] Instance lua_strategy : PolicyStrategy LuaWorld := LuaPolicy_strategy oc.

(** [Simulator::with_lua_policy], with the process-wide counter at [seq]. *)
Definition with_lua_policy (seq : Z) (cfg : ScenarioConfig) (script_path : option string)
    (adaptation_config : AdaptationConfig) : outcome (result (Simulator LuaWorld) InitError) :=
  match script_path with
  | None => Return (Err InvalidScriptPath)
  | Some path =>
      match lua_new env path adaptation_config with
      | Err e => Return (Err (PolicyInit e))
      | Ok policy =>
          let! s := Simulator_new cfg {| lw_policy := policy; lw_seq := seq |} in
          Return (Ok s)
      end
  end.

(** [dump_json]: the file written, if serialization and the write succeed. *)
Definition dump_json (t : Trajectory) (path : string) : option string :=
  match to_string_pretty t with
  | Some json => if fs_write path json then Some json else None
  | None => None
  end.

(** What is printed of a finished simulation. *)
Definition report (args : SimArgs) (t : Trajectory) : string :=
  (if sa_verbose args then ln (format_timeline_compact t) +:+ ln "" else "") +:+
  ln (format_session_summary t).

Definition adaptation_of (args : SimArgs) : result AdaptationConfig RunError :=
  match sa_config args with
  | Some path =>
      match config_from_file path with
      | Some config => Ok (cfg_adaptation config)
      | None => Err (ErrConfig path)
      end
  | None => Ok default_AdaptationConfig
  end.

(** [main]: what it prints, the JSON it writes, and how it ends. *)
Definition sim_run (fuel : nat) (seq : Z) (args : SimArgs)
    : option (outcome (string * option string * result unit RunError)) :=
  let+ loaded := load_scenario path_parent fuel files (sa_scenario args) in
  match loaded with
  | Err e => Some (Return ("", None, Err (ErrScenario e)))
  | Ok cfg =>
      match adaptation_of args with
      | Err e => Some (Return ("", None, Err e))
      | Ok adaptation =>
          match with_lua_policy seq cfg (sa_lua args) adaptation with
          | Panic => Some Panic
          | Return (Err e) => Some (Return ("", None, Err (ErrInit e)))
          | Return (Ok sim) =>
              match duration_from_secs_f64 (sa_duration args) with
              | Panic => Some Panic
              | Return duration =>
                  let+ (sim, r) := run_for command_eqb oc noise_fuel fuel sim duration in
                  match r with
                  | Err e => Some (Return ("", None, Err (ErrRun e)))
                  | Ok _ =>
                      let t := sim_trajectory sim in
                      match sa_output_json args with
                      | None => Some (Return (report args t, None, Ok tt))
                      | Some out =>
                          match dump_json t out with
                          | Some json => Some (Return (report args t, Some json, Ok tt))
                          | None => Some (Return (report args t, None, Err ErrDump))
                          end
                      end
                  end
              end
          end
      end
  end.

(** ** Lemmas *)

Lemma with_lua_policy_faithful seq cfg path adaptation s : 0 <= seq <= u64_max ->
  with_lua_policy seq cfg path adaptation = Return (Ok s) ->
  faithful (lua_trace seq) command_eqb (f64_lit 60 1) s.
Proof.
  intros Hseq. unfold with_lua_policy. destruct path as [path|]; [|done].
  destruct (lua_new env path adaptation) as [policy|e]; [|done].
  unfold Simulator_new. destruct ExprContext_new as [ctx|]; [|done]. intros [= <-].
  exists []. unfold faithful_to. cbn. split_and!; try done.
  - exists 0, []. rewrite Z.add_0_r, wrap_id by done. split_and!; try done; constructor.
  - intros [|? ?] ? ? ? Hn; discriminate Hn.
Qed.

(** A run that ends well has simulated the scenario with the script's policy. *)
Lemma sim_run_ok fuel seq args out json :
  sim_run fuel seq args = Some (Return (out, json, Ok tt)) ->
  exists cfg adaptation s duration s',
    load_scenario path_parent fuel files (sa_scenario args) = Some (Return (Ok cfg)) /\
    adaptation_of args = Ok adaptation /\
    with_lua_policy seq cfg (sa_lua args) adaptation = Return (Ok s) /\
    duration_from_secs_f64 (sa_duration args) = Return duration /\
    run_for command_eqb oc noise_fuel fuel s duration = Some (Return (s', Ok tt)) /\
    out = report args (sim_trajectory s') /\
    json = (path ← sa_output_json args; dump_json (sim_trajectory s') path).
Proof.
  unfold sim_run. destruct (load_scenario _ _ _ _) as [[[cfg|e]|]|]; try done.
  destruct (adaptation_of args) as [adaptation|]; [|done].
  destruct (with_lua_policy _ _ _ _) as [[s|]|] eqn:Hs; try done.
  destruct (duration_from_secs_f64 _) as [duration|] eqn:Hd; [|done].
  destruct (run_for _ _ _ _ s duration) as [[[s' [[]|]]|]|] eqn:Hr; try done.
  intros Ho. exists cfg, adaptation, s, duration, s'. split_and!; try done;
    destruct (sa_output_json args); cbn; try (by injection Ho as <- <-);
    destruct (dump_json _ _); by injection Ho as <- <-.
Qed.
End Run.

(** ** Properties *)

(** C24. What a simulation reports is what the policy decided.  When [sim_run] ends well,
    the text it prints and the JSON it writes are those of a trajectory whose directives
    are, in order and with their times, ones the engine can receive; their sequence
    numbers are increasing positions from the process's counter on; and two neighbours
    with equal commands are at least the sixty seconds of the cooldown apart. *)
Theorem sim_run_reports `{Libm} `{ScenarioYaml} `{Rng} `{LogCos} `{ProtocolDebug} `{LuaVM}
    `{YieldBound} `{DetailText} command_eqb oc noise_fuel env files path_parent config_from_file
    to_string_pretty fs_write fuel seq args out json :
  0 <= seq <= u64_max ->
  sim_run command_eqb oc noise_fuel env files path_parent config_from_file to_string_pretty
    fs_write fuel seq args = Some (Return (out, json, Ok tt)) ->
  exists t sent ks,
    out = report args t /\ json = (path ← sa_output_json args; dump_json to_string_pretty fs_write t path) /\
    recorded t = dumps sent /\ Forall (fun e => sendable e.1) sent /\
    map (fun e => seq_id e.1) sent = map (fun k => wrap 0 u64_max (seq + k)) ks /\
    StronglySorted Z.lt ks /\ Forall (Z.le 0) ks /\
    adjacent (spaced command_eqb (f64_lit 60 1)) sent.
Proof.
  intros Hseq Hrun. apply sim_run_ok in Hrun as (cfg & ad & s & dur & s' & _ & _ & Hs & _ & Hr & Ho & Hj).
  apply (with_lua_policy_faithful command_eqb) in Hs; [|done].
  destruct (run_for_faithful (H4 := LuaPolicy_strategy oc) (lua_trace seq) command_eqb oc noise_fuel _
    _ _ _ _ _ Hr Hs) as (sent & Hrec & (n & ks & _ & _ & Hm & Hsort & Hk & Hv) & _ & _ & Ha).
  exists (sim_trajectory s'), sent, ks. split_and!; try done.
  eapply Forall_impl; [exact Hk|]. cbn. lia.
Qed.

(** ** Example: two and a half seconds with the script that halves the cache once *)

#[export] Instance demo_scenario_yaml : ScenarioYaml := fun _ => Some demo_scenario.
Definition demo_sim_args : SimArgs := {|
  sa_scenario := "child.yaml"; sa_lua := Some "halve.lua"; sa_duration := f64_lit 5 2;
  sa_verbose := false; sa_output_json := None; sa_config := None |}.
Abbreviation demo_sim_run :=
  (sim_run (H8 := no_detail) demo_eqb true 0 (env_of_files [("halve.lua", "halve")]) demo_files
    (fun _ => "/s") (fun _ => None) (fun _ => None) (fun _ _ => false) 60 7 demo_sim_args).

Definition ends_well {A B E} (o : option (outcome (A * B * result unit E))) : bool :=
  match o with Some (Return (_, _, Ok _)) => true | _ => false end.

Lemma sim_run_reports_witness : exists out t sent ks,
  demo_sim_run = Some (Return (out, None, Ok tt)) /\ out = @report no_detail demo_sim_args t /\
  recorded t = dumps sent /\ Forall (fun e => sendable e.1) sent /\
  map (fun e => seq_id e.1) sent = map (fun k => wrap 0 u64_max (7 + k)) ks /\
  StronglySorted Z.lt ks /\ adjacent (spaced demo_eqb (f64_lit 60 1)) sent.
Proof.
  assert (Hok : ends_well demo_sim_run = true) by (vm_compute; reflexivity).
  destruct demo_sim_run as [[[[out json] [[]|e]]|]|] eqn:Hrun; try discriminate Hok.
  destruct (sim_run_reports (H8 := no_detail) demo_eqb true 0 (env_of_files [("halve.lua", "halve")])
    demo_files (fun _ => "/s") (fun _ => None) (fun _ => None) (fun _ _ => false) 60 7 demo_sim_args
    out json ltac:(unfold u64_max; lia) Hrun) as (t & sent & ks & Ho & Hj & Hr & Hs & Hm & Hk & _ & Ha).
  exists out, t, sent, ks. rewrite Hj. by split_and!.
Defined.

(** The directive of this run, in the text of the report. *)
Example demo_sim_report :
  match demo_sim_run with
  | Some (Return (out, _, _)) =>
      str_contains (unlines ["Directives (1 sent):"; "  t=+  0.25s  Cmd";
        "              trigger: compute_guidance(Critical)"]) out
  | _ => false
  end = true.
Proof. vm_compute. reflexivity. Qed.
