(* ===== verification/MockWire.v ===== *)
(** * MockWire: the stream of the mock engine and the mock manager
    (send_message and recv_message of src/bin/mock_engine.rs and src/bin/mock_manager.rs)

    The two test binaries frame their messages as the channels do, but read with a
    timeout.  A stream is what the successive [read]s of the socket answer.  The JSON of
    the messages is [serde_json]'s: the directions that the channels do not need are the
    parameters of [EngineJson], and [JsonLaws] says that a message within the ranges of its
    types whose floats are finite is read back as itself. *)

From Stdlib Require Import ZArith Lia SpecFloat Ascii String.
From stdpp Require Import base tactics numbers list strings.
From S2P Require Import Prelude Float Signal Wire Channel.
Local Open Scope list_scope.
Local Open Scope Z_scope.

(** ** JSON *)

Class EngineJson := {
  json_of_engine : EngineMessage -> option bytes;
  directive_of_json : bytes -> option ManagerMessage
}.

(** Messages as the program's types have them, with floats that JSON can carry (it has no
    notation for NaN and the infinities): [u64] and [u32] fields in their range, [f32]
    fields that are finite 32-bit floats, and texts of ASCII characters. *)
Definition in_u32 (n : Z) : bool := (0 <=? n) && (n <=? u32_max).
Definition in_u64 (n : Z) : bool := (0 <=? n) && (n <=? u64_max).
Definition finite_f32 (x : f32) : bool := is_finite x && valid_binary 24 128 x.
Definition ascii_text (s : string) : bool :=
  forallb (fun c => (N_of_ascii c <? 128)%N) (list_ascii_of_string s).

Definition command_ok (c : EngineCommand) : bool :=
  match c with
  | KvCompress budget => finite_f32 budget
  | GpuYield every => in_u32 every
  | _ => true
  end.
Definition directive_ok (d : EngineDirective) : bool := in_u64 (seq_id d) && forallb command_ok (commands d).
Definition result_ok (r : CommandResult) : bool :=
  match r with
  | ResultOk => true
  | ResultPartial achieved reason => finite_f32 achieved && ascii_text reason
  | ResultRejected reason => ascii_text reason
  end.
Definition engine_message_ok (m : EngineMessage) : bool :=
  match m with
  | Heartbeat status =>
      in_u64 (kv_cache_bytes status) && in_u64 (kv_cache_budget_bytes status) &&
      in_u64 (kv_cache_tokens status) && finite_f32 (tbt_ms status)
  | Response resp => in_u64 (resp_seq_id resp) && forallb result_ok (results resp)
  end.

Definition is_byte (b : Z) : Prop := 0 <= b <= 255.

(** What [serde_json] promises of the derived instances: such a message is written, as bytes,
    and reading them gives it back; and what is read as a [u64] is one.  Nothing bounds the
    length. *)
Class JsonLaws `{Json} `{EngineJson} := {
  directive_roundtrip : forall d, directive_ok d = true ->
    exists json, json_of_message (Directive d) = Some json /\ Forall is_byte json /\
      directive_of_json json = Some (Directive d);
  engine_roundtrip : forall m, engine_message_ok m = true ->
    exists json, json_of_engine m = Some json /\ Forall is_byte json /\
      message_of_json json = Some m;
  directive_seq_u64 : forall json d, directive_of_json json = Some (Directive d) ->
    in_u64 (seq_id d) = true
}.

(** ** Reading with a timeout *)

(** What one [read] answers: some bytes (none at the end of the stream), a timeout, an
    interruption, or another error. *)
Inductive Answer := Bytes (c : bytes) | TimedOut | Interrupted | Broken.
Inductive IoKind := KindTimeout | KindEof | KindOther.

(** [Read::read_exact] of [n] bytes: what an error has already taken is lost. *)
Fixpoint fill (n : nat) (s : list Answer) : result bytes IoKind * list Answer :=
  match n with
  | O => (Ok [], s)
  | S _ =>
      match s with
      | [] => (Err KindEof, [])
      | Bytes [] :: s => (Err KindEof, s)
      | Bytes c :: s =>
          if (n <? length c)%nat then (Ok (take n c), Bytes (drop n c) :: s)
          else
            let '(r, s) := fill (n - length c) s in
            (match r with Ok b => Ok (c ++ b) | Err e => Err e end, s)
      | Interrupted :: s => fill n s
      | TimedOut :: s => (Err KindTimeout, s)
      | Broken :: s => (Err KindOther, s)
      end
  end.

Inductive RecvError := RecvPrefix (e : IoKind) | RecvPayload (e : IoKind) | RecvJson.

(** [recv_message]: a timeout before the length prefix is complete is no message; anything
    else that stops a read is an error.  The length is not bounded. *)
Definition recv_message {M} (parse : bytes -> option M) (s : list Answer)
    : result (option M) RecvError * list Answer :=
  match fill 4 s with
  | (Ok len_buf, s) =>
      match fill (Z.to_nat (from_be_bytes len_buf)) s with
      | (Ok json_buf, s) =>
          (match parse json_buf with Some msg => Ok (Some msg) | None => Err RecvJson end, s)
      | (Err e, s) => (Err (RecvPayload e), s)
      end
  | (Err KindTimeout, s) => (Ok None, s)
  | (Err e, s) => (Err (RecvPrefix e), s)
  end.

(** [send_message]: the frame, if serialization, both writes and the flush succeed; the tools
    only learn that it has failed, not what a failing write has left. *)
Definition send_message (io : Io) (json : option bytes) : option bytes :=
  match json with
  | None => None
  | Some json =>
      let len := to_be_bytes (as_u32 (Z.of_nat (length json))) in
      match io_write io len, io_write io json with
      | WriteOk, WriteOk => if io_flush io then Some (len ++ json) else None
      | _, _ => None
      end
  end.

(** ** Specification: the content of a stream *)

(** The bytes of a stream and its timeouts, without the way they are cut into reads. *)
Fixpoint content (s : list Answer) : list (option Z) :=
  match s with
  | [] => []
  | Bytes c :: s => map Some c ++ content s
  | TimedOut :: s => None :: content s
  | Interrupted :: s | Broken :: s => content s
  end.

(** A stream that does not end early and has no error. *)
Definition healthy (a : Answer) : Prop :=
  match a with Bytes [] | Broken => False | _ => True end.
Abbreviation clean := (Forall healthy).

(** Timeouts and whole frames. *)
Inductive Item := Wait | Framed (json : bytes).
Definition item_content (i : Item) : list (option Z) :=
  match i with Wait => [None] | Framed json => map Some (frame json) end.
Definition items_content (l : list Item) : list (option Z) := concat (map item_content l).

(** ** Lemmas *)

Lemma fill_content n : forall s b rest, clean s -> content s = map Some b ++ rest ->
  length b = n -> exists s', fill n s = (Ok b, s') /\ clean s' /\ content s' = rest.
Proof.
  intros s. revert n. induction s as [|a s IH]; intros n b rest Hc Hs Hl.
  { destruct b; [|done]. cbn in Hl. subst n. cbn in *. by exists []. }
  apply Forall_cons in Hc as [Ha Hc].
  destruct n as [|n].
  { destruct b; [|done]. cbn [fill]. eexists. by split_and!; [|apply Forall_cons|]. }
  destruct a as [c| | |]; cbn [content] in Hs.
  - destruct c as [|x c]; [done|]. cbn [fill]. destruct (Nat.ltb_spec (S n) (length (x :: c))) as [Hlt|Hge].
    + assert (Hb : b = take (S n) (x :: c) /\ rest = map Some (drop (S n) (x :: c)) ++ content s).
      { rewrite <- (take_drop (S n) (x :: c)) in Hs at 1. rewrite map_app, <- app_assoc in Hs.
        apply app_inj_1 in Hs as [Hs1 Hs2]; [|rewrite !length_map, length_take; lia].
        apply (inj (map (@Some Z))) in Hs1. done. }
      destruct Hb as [-> ->]. eexists. split_and!; [done| |done]. apply Forall_cons. split; [|done].
      cbn [healthy]. destruct (drop (S n) (x :: c)) eqn:Hd; [|done].
      apply (f_equal length) in Hd. rewrite length_drop in Hd. cbn [length] in *. lia.
    + assert (Hb : b = (x :: c) ++ drop (length (x :: c)) b /\
        content s = map Some (drop (length (x :: c)) b) ++ rest).
      { rewrite <- (take_drop (length (x :: c)) b) in Hs at 1. rewrite map_app, <- app_assoc in Hs.
        apply app_inj_1 in Hs as [Hs1 Hs2]; [|rewrite !length_map, length_take; lia].
        apply (inj (map (@Some Z))) in Hs1. split; [|done].
        rewrite Hs1 at 1. by rewrite take_drop. }
      destruct Hb as [Hb1 Hb2].
      destruct (IH (S n - length (x :: c))%nat _ _ Hc Hb2) as (s' & -> & Hc' & Hr).
      { rewrite length_drop, Hl. done. }
      exists s'. split_and!; [|done|done]. by rewrite <- Hb1.
  - destruct b; [done|]. cbn in Hs. done.
  - cbn [fill]. by apply IH.
  - done.
Qed.

Lemma fill_timeout n : forall s b rest, clean s -> content s = map Some b ++ None :: rest ->
  (length b < n)%nat ->
  exists s', fill n s = (Err KindTimeout, s') /\ clean s' /\ content s' = rest.
Proof.
  intros s. revert n. induction s as [|a s IH]; intros n b rest Hc Hs Hl; [by destruct b|].
  apply Forall_cons in Hc as [Ha Hc]. destruct n as [|n]; [lia|].
  destruct a as [[|x c]| | |]; cbn [content] in Hs; try done.
  - assert (Hle : (length (x :: c) <= length b)%nat).
    { destruct (Nat.le_gt_cases (length (x :: c)) (length b)) as [|Hlt]; [done|exfalso].
      apply (f_equal (lookup (length b))) in Hs.
      rewrite list_lookup_middle in Hs by (by rewrite length_map).
      rewrite lookup_app_l, list_lookup_fmap in Hs by (rewrite length_map; lia).
      by destruct ((x :: c) !! length b). }
    assert (Hb : content s = map Some (drop (length (x :: c)) b) ++ None :: rest).
    { rewrite <- (take_drop (length (x :: c)) b) in Hs at 1. rewrite map_app, <- app_assoc in Hs.
      apply app_inj_1 in Hs as [_ Hs]; [done|]. rewrite !length_map, length_take. lia. }
    cbn [fill]. destruct (Nat.ltb_spec (S n) (length (x :: c))) as [Hlt|_].
    { exfalso. revert Hlt Hle Hl. cbn [length]. lia. }
    destruct (IH (S n - length (x :: c))%nat _ _ Hc Hb) as (s' & -> & ? & ?).
    { rewrite length_drop. cbn in *. lia. }
    by exists s'.
  - destruct b; [|done]. injection Hs as Hs. cbn [fill]. by exists s.
  - cbn [fill]. by apply (IH _ b).
Qed.

Lemma send_message_ok io json : io_ok io -> send_message io (Some json) = Some (frame json).
Proof. intros [Hw Hf]. unfold send_message. by rewrite !Hw, Hf. Qed.

(** Bounds on the lengths of texts, decided. *)
Lemma lengths_within (n : Z) (l : list bytes) : forallb (fun json => Z.of_nat (length json) <=? n) l = true ->
  Forall (fun json => Z.of_nat (length json) <= n) l.
Proof.
  induction l as [|json l IH]; cbn [forallb]; [constructor|]. intros Hl. split_bools.
  constructor; [by apply Z.leb_le|auto].
Qed.

Section Recv.
Context {M : Type} (parse : bytes -> option M).

Lemma recv_parsed s m s' : recv_message parse s = (Ok (Some m), s') -> exists json, parse json = Some m.
Proof.
  unfold recv_message. destruct (fill 4 s) as [[len_buf|[]] s1]; try done.
  destruct (fill _ s1) as [[json_buf|e] s2]; [|done].
  destruct (parse json_buf) as [m'|] eqn:Hp; [|done]. intros [= <- _]. by exists json_buf.
Qed.

(** A timeout before a message is no message. *)
Lemma recv_wait s rest : clean s -> content s = None :: rest ->
  exists s', recv_message parse s = (Ok None, s') /\ clean s' /\ content s' = rest.
Proof.
  intros Hc Hs. destruct (fill_timeout 4 s [] rest Hc Hs) as (s' & Hf & ? & ?); [cbn; lia|].
  exists s'. unfold recv_message. by rewrite Hf.
Qed.

(** A whole frame is a message, however it is cut into reads. *)
Lemma recv_framed s json rest : clean s -> content s = map Some (frame json) ++ rest ->
  Z.of_nat (length json) <= u32_max ->
  exists s', recv_message parse s =
    (match parse json with Some m => Ok (Some m) | None => Err RecvJson end, s') /\
    clean s' /\ content s' = rest.
Proof.
  intros Hc Hs Hlen. unfold frame in Hs. rewrite map_app, <- app_assoc in Hs.
  destruct (fill_content 4 s _ _ Hc Hs eq_refl) as (s1 & Hf1 & Hc1 & Hs1).
  unfold recv_message. rewrite Hf1, as_u32_id, be_bytes_roundtrip, Nat2Z.id by (unfold is_u32; lia).
  destruct (fill_content (length json) s1 _ _ Hc1 Hs1 eq_refl) as (s2 & -> & Hc2 & Hs2).
  by exists s2.
Qed.

(** A timeout inside a length prefix is no message either, and the bytes already read are
    lost: the rest of the prefix is taken for the start of a new one. *)
Lemma recv_split_prefix s b rest : clean s -> content s = map Some b ++ None :: rest ->
  (length b < 4)%nat ->
  exists s', recv_message parse s = (Ok None, s') /\ clean s' /\ content s' = rest.
Proof.
  intros Hc Hs Hl. destruct (fill_timeout 4 s b rest Hc Hs Hl) as (s' & Hf & ? & ?).
  exists s'. unfold recv_message. by rewrite Hf.
Qed.
End Recv.
