(* ===== verification/MockEngine.v ===== *)
(** * MockEngine: the engine of the end-to-end tests (src/bin/mock_engine.rs)

    Its state, what each command does to it, the answer to a directive, and its main loop
    over a stream with timeouts.  One turn of the loop is given the readings of the clock
    and the answers of the socket that it meets. *)

From Stdlib Require Import ZArith Lia SpecFloat String.
From stdpp Require Import base tactics numbers countable list strings.
From S2P Require Import Prelude Float Wire Channel MockWire.
Local Open Scope string_scope.
Local Open Scope list_scope.
Local Open Scope Z_scope.

(** ** State *)

Record EngineState_ := {
  kv_occupancy : f32;
  me_active_device : string;
  me_throttle_delay_ms : Z;
  me_eviction_policy : string;
  me_skip_ratio : f32;
  me_state : EngineState;
  tokens_generated : Z;
  me_active_actions : list string
}.

Definition EngineState_new (occupancy : f32) (device : string) : EngineState_ := {|
  kv_occupancy := occupancy;
  me_active_device := device;
  me_throttle_delay_ms := 0;
  me_eviction_policy := "none";
  me_skip_ratio := f_zero;
  me_state := EngineRunning;
  tokens_generated := 0;
  me_active_actions := []
|}.

Definition with_occupancy (e : EngineState_) (x : f32) : EngineState_ :=
  {| kv_occupancy := x; me_active_device := me_active_device e;
     me_throttle_delay_ms := me_throttle_delay_ms e; me_eviction_policy := me_eviction_policy e;
     me_skip_ratio := me_skip_ratio e; me_state := me_state e;
     tokens_generated := tokens_generated e; me_active_actions := me_active_actions e |}.
Definition with_engine_state (e : EngineState_) (st : EngineState) : EngineState_ :=
  {| kv_occupancy := kv_occupancy e; me_active_device := me_active_device e;
     me_throttle_delay_ms := me_throttle_delay_ms e; me_eviction_policy := me_eviction_policy e;
     me_skip_ratio := me_skip_ratio e; me_state := st;
     tokens_generated := tokens_generated e; me_active_actions := me_active_actions e |}.
Definition with_tokens (e : EngineState_) (n : Z) : EngineState_ :=
  {| kv_occupancy := kv_occupancy e; me_active_device := me_active_device e;
     me_throttle_delay_ms := me_throttle_delay_ms e; me_eviction_policy := me_eviction_policy e;
     me_skip_ratio := me_skip_ratio e; me_state := me_state e;
     tokens_generated := n; me_active_actions := me_active_actions e |}.

Definition MIN_COMPRESSION : f32 := f32_lit 3 100.

(** [apply]: the occupancy only moves when a compression would reclaim enough. *)
Definition apply (e : EngineState_) (cmd : EngineCommand) : EngineState_ * CommandResult :=
  match cmd with
  | KvCompress budget =>
      let before := kv_occupancy e in
      let target := f_clamp (f32_mul before budget) (f32_lit 1 100) (f32_lit 1 1) in
      if SFltb (f32_sub before target) MIN_COMPRESSION
      then (e, ResultPartial (f32_lit 1 1) "compression declined: too little would be reclaimed")
      else (with_occupancy e target, ResultOk)
  | RestoreDefaults =>
      ({| kv_occupancy := kv_occupancy e; me_active_device := me_active_device e;
          me_throttle_delay_ms := me_throttle_delay_ms e;
          me_eviction_policy := me_eviction_policy e; me_skip_ratio := f_zero;
          me_state := EngineRunning; tokens_generated := tokens_generated e;
          me_active_actions := [] |}, ResultOk)
  | Suspend => (with_engine_state e EngineSuspended, ResultOk)
  | Resume => (with_engine_state e EngineRunning, ResultOk)
  | GpuYield _ | GpuOffload _ => (e, ResultOk)
  end.

(** [status]: the heartbeat does not depend on the state. *)
Definition status (e : EngineState_) : EngineStatus := {|
  kv_cache_bytes := 1024; kv_cache_budget_bytes := 4096; kv_cache_tokens := 32;
  tbt_ms := f32_lit 125 10; phase := PhaseDecode; Wire.state := EngineRunning
|}.

(** ** Directives *)

(** The commands of a directive, applied in order. *)
Fixpoint apply_commands (e : EngineState_) (cmds : list EngineCommand)
    : EngineState_ * list CommandResult :=
  match cmds with
  | [] => (e, [])
  | cmd :: cmds =>
      let '(e, r) := apply e cmd in
      let '(e, rs) := apply_commands e cmds in
      (e, r :: rs)
  end.

Section Engine.
Context `{EngineJson} (oc : bool).

Definition answer (e : EngineState_) (d : EngineDirective) : EngineState_ * CommandResponse :=
  let '(e, rs) := apply_commands e (commands d) in
  (e, {| resp_seq_id := seq_id d; results := rs |}).

(** [handle_directive]: the engine, the count of directives, and the response that was
    completely written; a failed write is only reported. *)
Definition handle_directive (io : Io) (d : EngineDirective) (e : EngineState_) (count : Z)
    : outcome (EngineState_ * Z * option CommandResponse) :=
  let! count := u32_arith oc (count + 1) in
  let '(e, resp) := answer e d in
  Return (e, count,
    match send_message io (json_of_engine (Response resp)) with
    | Some _ => Some resp
    | None => None
    end).

(** ** The main loop *)

(** What one turn meets: the readings of the clock at the head of the loop, at the
    heartbeat check and after a heartbeat, and the socket's answers to the two writes. *)
Record Turn := { at_head : Z; at_check : Z; at_sent : Z; io_beat : Io; io_resp : Io }.

Record EngineRun := {
  run_engine : EngineState_;
  run_last_heartbeat : Z;
  run_directives : Z;
  run_heartbeats : Z;
  run_stream : list Answer;
  run_sent : list EngineMessage
}.

(** Whether the loop goes on. *)
Inductive LoopEnd := Running | TimeUp | Stopped.

Definition elapsed (now earlier : Z) : Z := Z.max 0 (now - earlier).

(** The heartbeat of a turn; [false] is a failed write, which ends the loop. *)
Definition beat (interval : Z) (r : EngineRun) (t : Turn) : outcome (EngineRun * bool) :=
  if interval <=? elapsed (at_check t) (run_last_heartbeat r) then
    let! tokens := u64_arith oc (tokens_generated (run_engine r) + 1) in
    let engine := with_tokens (run_engine r) tokens in
    match send_message (io_beat t) (json_of_engine (Heartbeat (status engine))) with
    | Some _ =>
        let! n := u32_arith oc (run_heartbeats r + 1) in
        Return ({| run_engine := engine; run_last_heartbeat := at_sent t;
                   run_directives := run_directives r; run_heartbeats := n;
                   run_stream := run_stream r;
                   run_sent := run_sent r ++ [Heartbeat (status engine)] |}, true)
    | None =>
        Return ({| run_engine := engine; run_last_heartbeat := run_last_heartbeat r;
                   run_directives := run_directives r; run_heartbeats := run_heartbeats r;
                   run_stream := run_stream r; run_sent := run_sent r |}, false)
    end
  else Return (r, true).

(** The reception of a turn; [false] is a read error, which ends the loop. *)
Definition receive (r : EngineRun) (t : Turn) : outcome (EngineRun * bool) :=
  let '(msg, stream) := recv_message directive_of_json (run_stream r) in
  let r := {| run_engine := run_engine r; run_last_heartbeat := run_last_heartbeat r;
              run_directives := run_directives r; run_heartbeats := run_heartbeats r;
              run_stream := stream; run_sent := run_sent r |} in
  match msg with
  | Ok (Some (Directive d)) =>
      let! (engine, count, resp) := handle_directive (io_resp t) d (run_engine r) (run_directives r) in
      Return ({| run_engine := engine; run_last_heartbeat := run_last_heartbeat r;
                 run_directives := count; run_heartbeats := run_heartbeats r;
                 run_stream := run_stream r;
                 run_sent := run_sent r ++
                   match resp with Some resp => [Response resp] | None => [] end |}, true)
  | Ok None => Return (r, true)
  | Err _ => Return (r, false)
  end.

(** [run_protocol], from the loop on, for the turns it is given. *)
Fixpoint run_protocol (duration interval start : Z) (r : EngineRun) (turns : list Turn)
    : outcome (EngineRun * LoopEnd) :=
  match turns with
  | [] => Return (r, Running)
  | t :: turns =>
      if elapsed (at_head t) start <? duration then
        let! (r, go) := beat interval r t in
        if go then
          let! (r, go) := receive r t in
          if go then run_protocol duration interval start r turns else Return (r, Stopped)
        else Return (r, Stopped)
      else Return (r, TimeUp)
  end.

Definition engine_start (occupancy : f32) (device : string) (now : Z) (stream : list Answer)
    : EngineRun :=
  {| run_engine := EngineState_new occupancy device; run_last_heartbeat := now;
     run_directives := 0; run_heartbeats := 0; run_stream := stream; run_sent := [] |}.

(** ** Specification *)

(** The answers to successive directives. *)
Fixpoint answers (e : EngineState_) (ds : list EngineDirective) : list CommandResponse :=
  match ds with
  | [] => []
  | d :: ds => let '(e, resp) := answer e d in resp :: answers e ds
  end.

Definition responses (sent : list EngineMessage) : list CommandResponse :=
  omap (fun m => match m with Response resp => Some resp | Heartbeat _ => None end) sent.

(** ** Lemmas *)

Lemma apply_tokens e n cmd :
  apply (with_tokens e n) cmd = (with_tokens (apply e cmd).1 n, (apply e cmd).2).
Proof. destruct cmd; try reflexivity. cbn. by case_match. Qed.

Lemma apply_commands_tokens cmds : forall e n,
  apply_commands (with_tokens e n) cmds =
  (with_tokens (apply_commands e cmds).1 n, (apply_commands e cmds).2).
Proof.
  induction cmds as [|cmd cmds IH]; intros e n; cbn; [done|]. rewrite apply_tokens.
  destruct (apply e cmd) as [e' r]; cbn. rewrite IH. by destruct (apply_commands e' cmds).
Qed.

Lemma answers_tokens ds : forall e n, answers (with_tokens e n) ds = answers e ds.
Proof.
  induction ds as [|d ds IH]; intros e n; cbn; [done|]. unfold answer.
  rewrite apply_commands_tokens. destruct (apply_commands e (commands d)) as [e' rs]; cbn.
  by rewrite IH.
Qed.

Lemma apply_commands_length cmds : forall e, length (apply_commands e cmds).2 = length cmds.
Proof.
  induction cmds as [|cmd cmds IH]; intros e; cbn; [done|].
  destruct (apply e cmd) as [e' r]. specialize (IH e'). destruct (apply_commands e' cmds). cbn in *. lia.
Qed.

Lemma answer_length e d : length (results (answer e d).2) = length (commands d).
Proof.
  unfold answer. pose proof (apply_commands_length (commands d) e).
  by destruct (apply_commands e (commands d)).
Qed.

(** The answers of the engine are messages that JSON can carry. *)
Lemma apply_result_ok e cmd : result_ok (apply e cmd).2 = true.
Proof. destruct cmd; try reflexivity. cbn -[result_ok]. by case_match. Qed.
Lemma apply_commands_ok cmds : forall e, forallb result_ok (apply_commands e cmds).2 = true.
Proof.
  induction cmds as [|cmd cmds IH]; intros e; cbn -[result_ok]; [done|].
  pose proof (apply_result_ok e cmd) as Hr. destruct (apply e cmd) as [e' r]. specialize (IH e').
  destruct (apply_commands e' cmds). cbn -[result_ok] in *. by rewrite Hr, IH.
Qed.
Lemma answer_ok e d : in_u64 (seq_id d) = true -> engine_message_ok (Response (answer e d).2) = true.
Proof.
  unfold answer. pose proof (apply_commands_ok (commands d) e) as Hr. intros Hd.
  destruct (apply_commands e (commands d)). cbn -[result_ok in_u64] in *. by rewrite Hd, Hr.
Qed.
Lemma status_ok e : engine_message_ok (Heartbeat (status e)) = true.
Proof. vm_compute. reflexivity. Qed.

Lemma responses_app l1 l2 : responses (l1 ++ l2) = responses l1 ++ responses l2.
Proof. apply omap_app. Qed.

Lemma with_tokens_same e : with_tokens e (tokens_generated e) = e.
Proof. by destruct e. Qed.

(** The turns of a run that finds time left and a healthy socket. *)
Definition turn_ok (duration start : Z) (t : Turn) : Prop :=
  elapsed (at_head t) start < duration /\ io_ok (io_beat t) /\ io_ok (io_resp t).

(** Room in the counters for [n] more turns. *)
Definition room (r : EngineRun) (n : nat) : Prop :=
  0 <= run_directives r /\ run_directives r + Z.of_nat n <= u32_max /\
  0 <= run_heartbeats r /\ run_heartbeats r + Z.of_nat n <= u32_max /\
  0 <= tokens_generated (run_engine r) /\ tokens_generated (run_engine r) + Z.of_nat n <= u64_max.

(** What a heartbeat leaves alone. *)
Lemma beat_ok `{Json} `{!JsonLaws} interval r t n : io_ok (io_beat t) -> room r (S n) ->
  exists r' k, beat interval r t = Return (r', true) /\ run_stream r' = run_stream r /\
    run_engine r' = with_tokens (run_engine r) k /\
    responses (run_sent r') = responses (run_sent r) /\
    run_directives r' = run_directives r /\
    0 <= run_heartbeats r' <= run_heartbeats r + 1 /\
    0 <= k <= tokens_generated (run_engine r) + 1.
Proof.
  intros Hio (? & ? & ? & ? & ? & ?). unfold beat. destruct (_ <=? _).
  2: { exists r, (tokens_generated (run_engine r)). rewrite with_tokens_same. split_and!; (done || lia). }
  unfold u64_arith. rewrite arith_in_range by lia.
  set (e := with_tokens _ _).
  destruct (engine_roundtrip _ (status_ok e)) as (json & -> & _ & _).
  rewrite send_message_ok by done. unfold u32_arith. rewrite arith_in_range by lia.
  do 2 eexists. split_and!; [reflexivity|done|reflexivity| |done|cbn; lia..].
  cbn. unfold responses. by rewrite omap_app, app_nil_r.
Qed.

Lemma receive_wait r t rest : clean (run_stream r) -> content (run_stream r) = None :: rest ->
  exists s', receive r t = Return ({| run_engine := run_engine r;
      run_last_heartbeat := run_last_heartbeat r; run_directives := run_directives r;
      run_heartbeats := run_heartbeats r; run_stream := s'; run_sent := run_sent r |}, true) /\
    clean s' /\ content s' = rest.
Proof.
  intros Hc Hs. destruct (recv_wait directive_of_json _ _ Hc Hs) as (s' & Hr & ? & ?).
  exists s'. unfold receive. by rewrite Hr.
Qed.

(** A directive that arrives is answered in the same turn. *)
Lemma receive_directive `{Json} `{!JsonLaws} r t json d rest :
  clean (run_stream r) -> content (run_stream r) = map Some (frame json) ++ rest ->
  Z.of_nat (length json) <= u32_max -> directive_of_json json = Some (Directive d) ->
  io_ok (io_resp t) -> 0 <= run_directives r < u32_max ->
  exists s', receive r t = Return ({| run_engine := (answer (run_engine r) d).1;
      run_last_heartbeat := run_last_heartbeat r; run_directives := run_directives r + 1;
      run_heartbeats := run_heartbeats r; run_stream := s';
      run_sent := run_sent r ++ [Response (answer (run_engine r) d).2] |}, true) /\
    clean s' /\ content s' = rest.
Proof.
  intros Hc Hs Hlen Hd Hio ?. destruct (recv_framed directive_of_json _ _ _ Hc Hs Hlen) as (s' & Hr & ? & ?).
  exists s'. unfold receive. rewrite Hr, Hd. unfold handle_directive, u32_arith. cbn [run_directives].
  rewrite arith_in_range by lia. cbn [run_engine].
  pose proof (answer_ok (run_engine r) d (directive_seq_u64 _ _ Hd)) as Hok.
  destruct (answer (run_engine r) d) as [e resp]; cbn -[engine_message_ok] in Hok |- *.
  destruct (engine_roundtrip (Response resp) Hok) as (j & -> & _ & _).
  by rewrite send_message_ok.
Qed.

Lemma apply_tokens_generated e cmd : tokens_generated (apply e cmd).1 = tokens_generated e.
Proof. destruct cmd; try reflexivity. cbn. by case_match. Qed.
Lemma answer_tokens_generated e d : tokens_generated (answer e d).1 = tokens_generated e.
Proof.
  unfold answer. generalize (commands d) as cmds. intros cmds. revert e.
  induction cmds as [|cmd cmds IH]; intros e; cbn; [done|].
  pose proof (apply_tokens_generated e cmd). destruct (apply e cmd) as [e' r]. specialize (IH e').
  destruct (apply_commands e' cmds). cbn in *. congruence.
Qed.
Lemma answer_with_tokens e n d :
  answer (with_tokens e n) d = (with_tokens (answer e d).1 n, (answer e d).2).
Proof. unfold answer. rewrite apply_commands_tokens. by destruct (apply_commands e (commands d)). Qed.
End Engine.

(** ** Lemmas: the occupancy *)

Definition occupancy_ok (e : EngineState_) : Prop :=
  SFleb (f32_lit 1 100) (kv_occupancy e) = true /\ SFleb (kv_occupancy e) (f32_lit 1 1) = true.
Definition budget_is_number (c : EngineCommand) : Prop :=
  match c with KvCompress budget => is_nan budget = false | _ => True end.

(** Whatever is commanded the occupancy stays in its range, except that a NaN passes every
    test and is stored. *)
Lemma apply_occupancy_ok e c : budget_is_number c -> occupancy_ok e -> occupancy_ok (apply e c).1.
Proof.
  destruct c as [budget| | | | |]; try done. cbn. intros Hb [Hlo Hhi]. case_match; [by split|].
  unfold occupancy_ok. cbn [kv_occupancy fst with_occupancy]. apply f_clamp_range; [|reflexivity].
  assert (Hfin : exists m x, kv_occupancy e = S754_finite false m x).
  { destruct (kv_occupancy e) as [[]|[]| |[] m x]; [..|by eauto];
      first [discriminate Hlo|discriminate Hhi]. }
  destruct Hfin as (m & x & ->). by apply SFmul_not_nan.
Qed.

Lemma apply_commands_occupancy_ok cmds : forall e, Forall budget_is_number cmds ->
  occupancy_ok e -> occupancy_ok (apply_commands e cmds).1.
Proof.
  induction cmds as [|c cmds IH]; intros e Hb He; cbn; [done|].
  apply Forall_cons in Hb as [Hc Hb]. pose proof (apply_occupancy_ok _ _ Hc He) as Ha.
  destruct (apply e c) as [e' r]. specialize (IH e' Hb Ha). by destruct (apply_commands e' cmds).
Qed.

Lemma apply_nan_occupancy e : kv_occupancy (apply e (KvCompress S754_nan)).1 = S754_nan.
Proof.
  unfold apply. assert (f32_mul (kv_occupancy e) S754_nan = S754_nan) as ->
    by (by destruct (kv_occupancy e)).
  assert (f_clamp S754_nan (f32_lit 1 100) (f32_lit 1 1) = S754_nan) as -> by reflexivity.
  assert (SFltb (f32_sub (kv_occupancy e) S754_nan) MIN_COMPRESSION = false) as ->
    by (by destruct (kv_occupancy e)). done.
Qed.

(** The JSON texts that arrive. *)
Definition framed_json (i : Item) : option bytes :=
  match i with Framed json => Some json | Wait => None end.

Lemma engine_loop_answers `{JsonLaws} oc duration interval start items : forall r ds turns,
  clean (run_stream r) -> content (run_stream r) = items_content items ->
  Forall (fun json => Z.of_nat (length json) <= u32_max) (omap framed_json items) ->
  map directive_of_json (omap framed_json items) = map (fun d => Some (Directive d)) ds ->
  length turns = length items -> Forall (turn_ok duration start) turns ->
  room r (length turns) ->
  exists r', run_protocol oc duration interval start r turns = Return (r', Running) /\
    run_directives r' = run_directives r + Z.of_nat (length ds) /\
    responses (run_sent r') = responses (run_sent r) ++ answers (run_engine r) ds /\
    Forall2 (fun d resp => resp_seq_id resp = seq_id d /\
               length (results resp) = length (commands d)) ds (answers (run_engine r) ds).
Proof.
  induction items as [|i items IH]; intros r ds turns Hc Hs Hlen Hds Hturns Hok Hroom.
  { destruct turns; [|done]. destruct ds; [|done]. exists r. cbn. rewrite app_nil_r.
    split_and!; (done || lia || constructor). }
  destruct turns as [|t turns]; [done|]. injection Hturns as Hturns.
  apply Forall_cons in Hok as [(Htime & Hio1 & Hio2) Hok]. cbn [run_protocol length] in *.
  rewrite (proj2 (Z.ltb_lt _ _) Htime).
  destruct (beat_ok oc interval r t _ Hio1 Hroom) as (r1 & k & -> & Hst & He & Hresp & Hdir & Hhb & Hk).
  destruct Hroom as (? & ? & ? & ? & ? & ?). rewrite <- Hst in Hc, Hs.
  destruct i as [|json].
  - destruct (receive_wait oc r1 t (items_content items) Hc Hs) as (s' & -> & Hc' & Hs').
    edestruct (IH {| run_engine := run_engine r1; run_last_heartbeat := run_last_heartbeat r1;
      run_directives := run_directives r1; run_heartbeats := run_heartbeats r1;
      run_stream := s'; run_sent := run_sent r1 |} ds turns) as (r' & -> & Hd' & Hr' & Hf'); try done.
    { unfold room; cbn. rewrite He, Hdir. cbn. lia. }
    cbn -[responses] in Hd', Hr', Hf'. rewrite He, answers_tokens in Hr', Hf'.
    exists r'. split_and!; [done|lia|by rewrite Hr', Hresp|done].
  - apply Forall_cons in Hlen as [Hj Hlen]. destruct ds as [|d ds]; [done|].
    cbn in Hds. injection Hds as Hd Hds.
    destruct (receive_directive oc r1 t json d (items_content items) Hc Hs Hj Hd Hio2 ltac:(lia))
      as (s' & -> & Hc' & Hs').
    edestruct (IH {| run_engine := (answer (run_engine r1) d).1;
      run_last_heartbeat := run_last_heartbeat r1; run_directives := run_directives r1 + 1;
      run_heartbeats := run_heartbeats r1; run_stream := s';
      run_sent := run_sent r1 ++ [Response (answer (run_engine r1) d).2] |} ds turns)
      as (r' & -> & Hd' & Hr' & Hf'); try done.
    { unfold room; cbn. rewrite answer_tokens_generated, He, Hdir. cbn. lia. }
    cbn [run_engine run_directives run_sent] in Hd', Hr', Hf'.
    rewrite He, answer_with_tokens in Hr', Hf'. cbn [fst snd] in Hr', Hf'.
    rewrite answers_tokens in Hr', Hf'.
    exists r'. pose proof (answer_length (run_engine r) d) as Hal.
    rewrite (responses_app (run_sent r1)), Hresp in Hr'.
    split_and!; [done|cbn [length] in *; lia| |].
    + rewrite Hr', <- app_assoc. cbn. by destruct (answer (run_engine r) d).
    + cbn. unfold answer in *. by destruct (apply_commands (run_engine r) (commands d)); constructor.
Qed.

(** ** Properties *)

(** C32. Every directive is answered.  Whatever the timeouts before and between the
    directives and however their frames are cut into reads, as long as the texts are shorter than
    4 GiB and the socket and the clock leave it the turns, the engine answers all of them, each within one turn of its
    arrival, in order, with the directive's number and one result for each command, as the
    commands applied one after the other from its state say; heartbeats sent meanwhile
    change none of it. *)
Theorem engine_answers_all `{JsonLaws} oc duration interval start items : forall r ds turns,
  clean (run_stream r) -> content (run_stream r) = items_content items ->
  Forall (fun json => Z.of_nat (length json) <= u32_max) (omap framed_json items) ->
  map directive_of_json (omap framed_json items) = map (fun d => Some (Directive d)) ds ->
  length turns = length items -> Forall (turn_ok duration start) turns ->
  room r (length turns) ->
  exists r', run_protocol oc duration interval start r turns = Return (r', Running) /\
    run_directives r' = run_directives r + Z.of_nat (length ds) /\
    responses (run_sent r') = responses (run_sent r) ++ answers (run_engine r) ds /\
    Forall2 (fun d resp => resp_seq_id resp = seq_id d /\
               length (results resp) = length (commands d)) ds (answers (run_engine r) ds).
Proof. by apply engine_loop_answers. Qed.

(** ** Examples: an encoding of every message *)

Definition float_code (x : spec_float) : bool + bool + unit + bool * positive * Z :=
  match x with
  | S754_zero s => inl (inl (inl s))
  | S754_infinity s => inl (inl (inr s))
  | S754_nan => inl (inr tt)
  | S754_finite s m e => inr (s, m, e)
  end.
Definition float_decode (c : bool + bool + unit + bool * positive * Z) : spec_float :=
  match c with
  | inl (inl (inl s)) => S754_zero s
  | inl (inl (inr s)) => S754_infinity s
  | inl (inr _) => S754_nan
  | inr (s, m, e) => S754_finite s m e
  end.
#[export] Instance float_eq_dec : EqDecision spec_float.
Proof. solve_decision. Defined.
#[export] Instance float_countable : Countable spec_float.
Proof. refine (inj_countable' float_code float_decode _). by intros []. Defined.

#[export] Instance command_eq_dec : EqDecision EngineCommand.
Proof. solve_decision. Defined.
#[export] Instance command_countable : Countable EngineCommand.
Proof.
  refine (inj_countable'
    (fun c => match c with
      | KvCompress b => inl (inl (inl b)) | GpuYield n => inl (inl (inr n))
      | GpuOffload b => inl (inr b) | RestoreDefaults => inr (inl ())
      | Suspend => inr (inr false) | Resume => inr (inr true) end)
    (fun x : spec_float + Z + bool + (unit + bool) => match x with
      | inl (inl (inl b)) => KvCompress b | inl (inl (inr n)) => GpuYield n
      | inl (inr b) => GpuOffload b | inr (inl _) => RestoreDefaults
      | inr (inr false) => Suspend | inr (inr true) => Resume end) _).
  by intros [].
Defined.
#[export] Instance directive_eq_dec : EqDecision EngineDirective.
Proof. solve_decision. Defined.
#[export] Instance directive_countable : Countable EngineDirective.
Proof.
  refine (inj_countable' (fun d => (seq_id d, commands d))
    (fun '(n, cs) => {| seq_id := n; commands := cs |}) _). by intros [].
Defined.

#[export] Instance result_code_eq_dec : EqDecision CommandResult.
Proof. solve_decision. Defined.
#[export] Instance result_countable : Countable CommandResult.
Proof.
  refine (inj_countable'
    (fun r => match r with
      | ResultOk => inl () | ResultPartial x s => inr (inl (x, s)) | ResultRejected s => inr (inr s) end)
    (fun x : unit + (spec_float * string + string) => match x with
      | inl _ => ResultOk | inr (inl (x, s)) => ResultPartial x s | inr (inr s) => ResultRejected s end) _).
  by intros [].
Defined.
#[export] Instance phase_eq_dec : EqDecision Phase.
Proof. solve_decision. Defined.
#[export] Instance engine_state_eq_dec : EqDecision EngineState.
Proof. solve_decision. Defined.
#[export] Instance status_eq_dec : EqDecision EngineStatus.
Proof. solve_decision. Defined.
#[export] Instance response_eq_dec : EqDecision CommandResponse.
Proof. solve_decision. Defined.
#[export] Instance message_eq_dec : EqDecision EngineMessage.
Proof. solve_decision. Defined.
#[export] Instance message_countable : Countable EngineMessage.
Proof.
  refine (inj_countable'
    (fun m => match m with
      | Heartbeat s => inl (kv_cache_bytes s, kv_cache_budget_bytes s, kv_cache_tokens s, tbt_ms s,
          match phase s with PhaseIdle => 0 | PhasePrefill => 1 | PhaseDecode => 2 end,
          match Wire.state s with EngineIdle => 0 | EngineRunning => 1 | EngineSuspended => 2 end)
      | Response r => inr (resp_seq_id r, results r) end)
    (fun x : Z * Z * Z * spec_float * Z * Z + Z * list CommandResult => match x with
      | inl (a, b, c, t, p, st) => Heartbeat {| kv_cache_bytes := a; kv_cache_budget_bytes := b;
          kv_cache_tokens := c; tbt_ms := t;
          phase := if p =? 0 then PhaseIdle else if p =? 1 then PhasePrefill else PhaseDecode;
          Wire.state := if st =? 0 then EngineIdle else if st =? 1 then EngineRunning
                        else EngineSuspended |}
      | inr (n, rs) => Response {| resp_seq_id := n; results := rs |} end) _).
  intros [[a b c t p st]|[n rs]]; [|reflexivity]. destruct p, st; reflexivity.
Defined.

(** The number of a message in binary, a digit a byte. *)
Fixpoint digits (p : positive) : bytes :=
  match p with xH => [] | xO p => 0 :: digits p | xI p => 1 :: digits p end.
Fixpoint of_digits (b : bytes) : option positive :=
  match b with
  | [] => Some xH
  | d :: b => p ← of_digits b; if d =? 0 then Some (xO p) else if d =? 1 then Some (xI p) else None
  end.
Lemma of_digits_digits p : of_digits (digits p) = Some p.
Proof. induction p as [p IH|p IH|]; cbn; [by rewrite IH..|done]. Qed.
Lemma digits_bytes p : Forall is_byte (digits p).
Proof. induction p; cbn; constructor; (done || (unfold is_byte; lia)). Qed.

Definition to_code {A} `{Countable A} (x : A) : bytes := digits (encode x).
Definition of_code {A} `{Countable A} (b : bytes) : option A := p ← of_digits b; decode p.
Lemma of_code_to_code {A} `{Countable A} (x : A) : of_code (to_code x) = Some x.
Proof. unfold of_code, to_code. rewrite of_digits_digits. cbn. apply decode_encode. Qed.

Definition coded_json : Json := {|
  json_of_message := fun m => match m with Directive d => Some (to_code d) end;
  json_of_signal := fun _ => None;
  message_of_json := of_code
|}.
#[export] Instance coded_engine_json : EngineJson := {|
  json_of_engine := fun m => Some (to_code m);
  directive_of_json := fun b => d ← of_code b; if in_u64 (seq_id d) then Some (Directive d) else None
|}.
Lemma coded_json_laws : @JsonLaws coded_json coded_engine_json.
Proof.
  split.
  - intros d Hd. exists (to_code d). split_and!; [done|apply digits_bytes|].
    cbn -[in_u64]. rewrite of_code_to_code. cbn -[in_u64]. apply andb_true_iff in Hd as [Hd _]. by rewrite Hd.
  - intros m _. exists (to_code m). split_and!; [done|apply digits_bytes|]. apply of_code_to_code.
  - intros json d. cbn -[in_u64]. destruct (of_code json) as [d'|]; [|done]. cbn -[in_u64].
    destruct (in_u64 (seq_id d')) eqn:Hd; [|done]. by intros [= <-].
Qed.

Definition demo_directive (n : Z) (budget : f32) : EngineDirective :=
  {| seq_id := n; commands := [KvCompress budget; Suspend] |}.
Definition demo_frame (n : Z) (budget : f32) : bytes := to_code (demo_directive n budget).
Definition demo_items : list Item :=
  [Wait; Framed (demo_frame 1 (f32_lit 1 2)); Framed (demo_frame 2 (f32_lit 99 100))].
(** A first timeout, a frame in two reads, and both frames sharing a read. *)
Definition demo_stream : list Answer :=
  let f1 := frame (demo_frame 1 (f32_lit 1 2)) in
  let f2 := frame (demo_frame 2 (f32_lit 99 100)) in
  [TimedOut; Bytes (take 2 f1); Interrupted; Bytes (drop 2 f1 ++ f2)].
Definition demo_healthy : Io :=
  {| io_accept := WouldBlock; io_write := fun _ => WriteOk; io_flush := true |}.
Definition demo_turn (now : Z) : Turn :=
  {| at_head := now; at_check := now; at_sent := now; io_beat := demo_healthy; io_resp := demo_healthy |}.
Definition demo_run_start : EngineRun := engine_start (f32_lit 1 2) "opencl" 0 demo_stream.

Lemma engine_answers_all_witness :
  exists r', run_protocol true 30 100 0 demo_run_start [demo_turn 1; demo_turn 2; demo_turn 3]
      = Return (r', Running) /\
    responses (run_sent r') =
      [{| resp_seq_id := 1; results := [ResultOk; ResultOk] |};
       {| resp_seq_id := 2; results := [ResultPartial (f32_lit 1 1)
          "compression declined: too little would be reclaimed"; ResultOk] |}].
Proof.
  destruct (@engine_answers_all coded_json coded_engine_json coded_json_laws true 30 100 0 demo_items
    demo_run_start [demo_directive 1 (f32_lit 1 2); demo_directive 2 (f32_lit 99 100)]
    [demo_turn 1; demo_turn 2; demo_turn 3]) as (r' & Hr & _ & Hresp & _).
  - vm_compute. repeat constructor.
  - vm_compute. reflexivity.
  - apply lengths_within. vm_compute. reflexivity.
  - vm_compute. reflexivity.
  - reflexivity.
  - repeat constructor; done.
  - vm_compute. repeat split; discriminate.
  - exists r'. split; [exact Hr|]. rewrite Hresp. vm_compute. reflexivity.
Defined.
