(* ===== verification/MockManager.v ===== *)
(** * MockManager: the manager of the end-to-end tests (src/bin/mock_manager.rs)

    Building commands, checking responses, the two ways of driving an engine over a socket
    (one command, or a scenario file) and the D-Bus mode.  The tool runs in a monad over
    its world: the answers of the socket and the readings of the clock still to come, the
    messages it has sent and the lines it has printed. *)

From Stdlib Require Import ZArith Lia String.
From stdpp Require Import base tactics numbers list strings.
From S2P Require Import Prelude Float Signal Wire Channel MockWire.
Local Open Scope string_scope.
Local Open Scope list_scope.
Local Open Scope Z_scope.

(** ** Arguments and scenario files *)

(** The arguments of the tool; those between [arg_on] and [arg_dbus] are read by no mode. *)
Record Args := {
  arg_socket : string;
  arg_tcp : option string;
  arg_command : option string;
  arg_scenario : option string;
  arg_wait_secs : Z;
  arg_keep_ratio : option f32;
  arg_every : option Z;
  arg_on : option bool;
  arg_sink_size : option Z;
  arg_window_size : option Z;
  arg_delay_ms : option Z;
  arg_device : option string;
  arg_target_bits : option Z;
  arg_skip_ratio : option f32;
  arg_target_ms : option Z;
  arg_ratio : option f32;
  arg_chunk_size : option Z;
  arg_yield_ms : option Z;
  arg_cpu_chunk_size : option Z;
  arg_target_dtype : option string;
  arg_dbus : bool;
  arg_signal : option string;
  arg_level : option string;
  arg_available_bytes : option Z;
  arg_reclaim_target : option Z;
  arg_recommended_backend : option string;
  arg_reason : option string;
  arg_cpu_usage : option f64;
  arg_gpu_usage : option f64;
  arg_temperature_mc : option Z;
  arg_throttling_active : option bool;
  arg_throttle_ratio : option f64;
  arg_power_budget_mw : option Z
}.

Record ScenarioCommand := { sc_delay_ms : Z; sc_command : string; sc_keep_ratio : option f32 }.
Record CommandScenario := {
  scenario_name : string; scenario_description : option string;
  scenario_commands : list ScenarioCommand
}.

Record DbusScenarioSignal := {
  ds_delay_ms : Z;
  ds_signal : string;
  ds_level : string;
  ds_available_bytes : option Z;
  ds_reclaim_target_bytes : option Z;
  ds_recommended_backend : option string;
  ds_reason : option string;
  ds_cpu_usage_pct : option f64;
  ds_gpu_usage_pct : option f64;
  ds_temperature_mc : option Z;
  ds_throttling_active : option bool;
  ds_throttle_ratio : option f64;
  ds_power_budget_mw : option Z
}.
Record DbusScenario := {
  dbus_name : string; dbus_description : option string; dbus_signals : list DbusScenarioSignal
}.

(** The JSON of the scenario files is [serde_json]'s. *)
Class ScenarioJson := {
  scenario_of_json : string -> option CommandScenario;
  dbus_scenario_of_json : string -> option DbusScenario
}.

(** ** Commands *)

Inductive BuildError := MissingArgument (arg : string) | UnknownCommand (name : string).

Record CommandParams := {
  p_name : string; p_keep_ratio : option f32; p_every : option Z; p_on : option bool
}.

Definition build_command (p : CommandParams) : result EngineCommand BuildError :=
  let name := p_name p in
  if String.eqb name "KvCompress" then
    let? budget := ok_or (p_keep_ratio p) (MissingArgument "--keep-ratio") in
    Ok (KvCompress budget)
  else if String.eqb name "RestoreDefaults" then Ok RestoreDefaults
  else if String.eqb name "Suspend" then Ok Suspend
  else if String.eqb name "Resume" then Ok Resume
  else if String.eqb name "GpuYield" then
    let? every := ok_or (p_every p) (MissingArgument "--every") in
    Ok (GpuYield every)
  else if String.eqb name "GpuOffload" then
    let? on := ok_or (p_on p) (MissingArgument "--on") in
    Ok (GpuOffload on)
  else Err (UnknownCommand name).

(** ** The world of a run *)

(** The lines that tell what happened. *)
Inductive Event :=
| LogHeartbeat (n : Z) (s : EngineStatus)
| LogUnexpected (m : EngineMessage)
| LogReceived (n : Z)
| LogDrained (s : EngineStatus)
| LogSkipped (m : EngineMessage)
| LogSent (seq : Z) (name : string)
| LogSeqMismatch (sent received : Z)
| LogCountMismatch (sent : Z) (received : nat)
| LogResponse (seq : Z) (results : list CommandResult)
| LogTimeout (seq : Z)
| LogDone.

(** What ends a run early; a panic ends it as an error does. *)
Inductive MockError :=
| ErrRecv (e : RecvError)
| ErrSend
| ErrBuild (e : BuildError)
| ErrReadScenario (path : string)
| ErrParseScenario (path : string)
| ErrNoCommand
| Panicked.

Record World := {
  w_stream : list Answer;
  w_clock : list Z;
  w_writes : list Io;
  w_sent : list ManagerMessage;
  w_log : list Event
}.

(** A run: [None] when the readings of the clock or the answers to the writes end first. *)
Definition Mock (A : Type) := World -> option (result A MockError * World).

Definition mret {A} (a : A) : Mock A := fun w => Some (Ok a, w).
Definition mfail {A} (e : MockError) : Mock A := fun w => Some (Err e, w).
Definition mbind {A B} (m : Mock A) (k : A -> Mock B) : Mock B := fun w =>
  match m w with
  | Some (Ok a, w) => k a w
  | Some (Err e, w) => Some (Err e, w)
  | None => None
  end.
Notation "'do' x ':=' m 'in' k" := (mbind m (fun x => k))
  (at level 10, x pattern, m at level 100, k at level 200).
Notation "m ';;;' k" := (mbind m (fun _ => k)) (at level 100, k at level 200, right associativity).

Definition log (e : Event) : Mock unit := fun w =>
  Some (Ok tt, {| w_stream := w_stream w; w_clock := w_clock w; w_writes := w_writes w;
                  w_sent := w_sent w; w_log := w_log w ++ [e] |}).
(** [Instant::now]. *)
Definition now : Mock Z := fun w =>
  match w_clock w with
  | [] => None
  | t :: ts => Some (Ok t, {| w_stream := w_stream w; w_clock := ts; w_writes := w_writes w;
                              w_sent := w_sent w; w_log := w_log w |})
  end.

(** The latest [Instant]; later ones panic. *)
Definition INSTANT_MAX : Z := i64_max * 1000000000 + 999999999.
Definition deadline_in (duration : Z) : Mock Z :=
  do t := now in
  if t + duration <=? INSTANT_MAX then mret (t + duration) else mfail Panicked.

Section Manager.
Context `{Json} `{ScenarioJson}.
(** Overflow checks, and the files. *)
Context (oc : bool) (read_to_string : string -> option string).

(** [recv_message], errors as values. *)
Definition recv : Mock (result (option EngineMessage) RecvError) := fun w =>
  let '(r, stream) := recv_message message_of_json (w_stream w) in
  Some (Ok r, {| w_stream := stream; w_clock := w_clock w; w_writes := w_writes w;
                 w_sent := w_sent w; w_log := w_log w |}).
(** [recv_message(stream)?]. *)
Definition recv_or_fail : Mock (option EngineMessage) :=
  do r := recv in match r with Ok msg => mret msg | Err e => mfail (ErrRecv e) end.

(** [send_message(stream, &msg)?]. *)
Definition send (msg : ManagerMessage) : Mock unit := fun w =>
  match w_writes w with
  | [] => None
  | io :: ios =>
      match send_message io (json_of_message msg) with
      | Some _ => Some (Ok tt, {| w_stream := w_stream w; w_clock := w_clock w; w_writes := ios;
                                  w_sent := w_sent w ++ [msg]; w_log := w_log w |})
      | None => Some (Err ErrSend, {| w_stream := w_stream w; w_clock := w_clock w; w_writes := ios;
                                      w_sent := w_sent w; w_log := w_log w |})
      end
  end.

(** ** Responses *)

(** [validate_response]: both invariants are checked, and each violation printed. *)
Definition validate_response (seq_id : Z) (response : CommandResponse) (num_commands : nat)
    : Mock bool :=
  let seq_ok := resp_seq_id response =? seq_id in
  let count_ok := Nat.eqb (length (results response)) num_commands in
  (if seq_ok then mret tt else log (LogSeqMismatch seq_id (resp_seq_id response))) ;;;
  (if count_ok then mret tt
   else log (LogCountMismatch (Z.of_nat num_commands) (length (results response)))) ;;;
  mret (seq_ok && count_ok).

Inductive Selected (T : Type) := Match (v : T) | Skip (m : EngineMessage).
Arguments Match {T} _.
Arguments Skip {T} _.

(** The loop of [recv_until]: [None] inside is the deadline. *)
Fixpoint recv_loop {T} (fuel : nat) (deadline : Z) (select : EngineMessage -> Selected T)
    : Mock (option T) :=
  match fuel with
  | O => fun _ => None
  | S fuel =>
      do t := now in
      if t <? deadline then
        do msg := recv_or_fail in
        match msg with
        | Some msg =>
            match select msg with
            | Match value => mret (Some value)
            | Skip skipped => log (LogSkipped skipped) ;;; recv_loop fuel deadline select
            end
        | None => recv_loop fuel deadline select
        end
      else mret None
  end.
Definition recv_until {T} (fuel : nat) (timeout : Z) (select : EngineMessage -> Selected T)
    : Mock (option T) :=
  do deadline := deadline_in timeout in recv_loop fuel deadline select.

Definition select_response (msg : EngineMessage) : Selected CommandResponse :=
  match msg with Response resp => Match resp | other => Skip other end.
Definition recv_response_skip_heartbeats (fuel : nat) (timeout : Z) : Mock (option CommandResponse) :=
  recv_until fuel timeout select_response.

Definition RESPONSE_TIMEOUT : Z := 5000000000.

(** Sending one command and waiting for its response, as both modes do. *)
Definition run_command (fuel : nat) (seq_id : Z) (name : string) (cmd : EngineCommand) : Mock unit :=
  send (Directive {| Wire.seq_id := seq_id; commands := [cmd] |}) ;;;
  log (LogSent seq_id name) ;;;
  do resp := recv_response_skip_heartbeats fuel RESPONSE_TIMEOUT in
  match resp with
  | Some resp =>
      validate_response seq_id resp 1 ;;;
      log (LogResponse (resp_seq_id resp) (results resp))
  | None => log (LogTimeout seq_id)
  end.

(** ** One command *)

Definition run_single_command (fuel : nat) (args : Args) (cmd_name : string) : Mock unit :=
  match build_command {| p_name := cmd_name; p_keep_ratio := arg_keep_ratio args;
                         p_every := arg_every args; p_on := arg_on args |} with
  | Err e => mfail (ErrBuild e)
  | Ok cmd => run_command fuel 1 cmd_name cmd
  end.

(** ** Scenarios *)

(** Waiting before a command: heartbeats are printed, and everything else that arrives,
    responses and errors included, is dropped. *)
Fixpoint drain_loop (fuel : nat) (deadline : Z) : Mock unit :=
  match fuel with
  | O => fun _ => None
  | S fuel =>
      do t := now in
      if t <? deadline then
        do r := recv in
        match r with
        | Ok (Some (Heartbeat status)) => log (LogDrained status) ;;; drain_loop fuel deadline
        | _ => drain_loop fuel deadline
        end
      else mret tt
  end.

Fixpoint run_entries (fuel : nat) (seq_id : Z) (entries : list ScenarioCommand) : Mock unit :=
  match entries with
  | [] => log LogDone
  | entry :: entries =>
      (if 0 <? sc_delay_ms entry
       then do deadline := deadline_in (sc_delay_ms entry * 1000000) in drain_loop fuel deadline
       else mret tt) ;;;
      match build_command {| p_name := sc_command entry; p_keep_ratio := sc_keep_ratio entry;
                             p_every := None; p_on := None |} with
      | Err e => mfail (ErrBuild e)
      | Ok cmd =>
          match u64_arith oc (seq_id + 1) with
          | Panic => mfail Panicked
          | Return seq_id =>
              run_command fuel seq_id (sc_command entry) cmd ;;; run_entries fuel seq_id entries
          end
      end
  end.

Definition run_scenario (fuel : nat) (path : string) : Mock unit :=
  match read_to_string path with
  | None => mfail (ErrReadScenario path)
  | Some content =>
      match scenario_of_json content with
      | None => mfail (ErrParseScenario path)
      | Some scenario => run_entries fuel 0 (scenario_commands scenario)
      end
  end.

(** ** The protocol *)

(** Reading until a deadline, counting heartbeats; before the directive other messages are
    reported, after it they are not. *)
Fixpoint watch_loop (fuel : nat) (report_others : bool) (deadline count : Z) : Mock Z :=
  match fuel with
  | O => fun _ => None
  | S fuel =>
      do t := now in
      if t <? deadline then
        do msg := recv_or_fail in
        match msg with
        | Some (Heartbeat status) =>
            match u32_arith oc (count + 1) with
            | Panic => mfail Panicked
            | Return count =>
                log (LogHeartbeat count status) ;;; watch_loop fuel report_others deadline count
            end
        | Some other =>
            (if report_others then log (LogUnexpected other) else mret tt) ;;;
            watch_loop fuel report_others deadline count
        | None => watch_loop fuel report_others deadline count
        end
      else mret count
  end.

Definition OBSERVE : Z := 2000000000.

(** [run_protocol]; [dbus_feature] is whether the D-Bus mode is compiled in. *)
Definition mock_run_protocol (dbus_feature : bool) (fuel : nat) (args : Args) : Mock unit :=
  do wait_until := deadline_in (arg_wait_secs args * 1000000000) in
  do count := watch_loop fuel true wait_until 0 in
  log (LogReceived count) ;;;
  match arg_scenario args, arg_command args with
  | Some path, _ => run_scenario fuel path
  | None, Some name => run_single_command fuel args name
  | None, None => if dbus_feature && arg_dbus args then mret tt else mfail ErrNoCommand
  end ;;;
  do observe_until := deadline_in OBSERVE in
  watch_loop fuel false observe_until count ;;;
  log LogDone.
End Manager.
Arguments Match {T} _.
Arguments Skip {T} _.

(** ** D-Bus mode *)

Inductive DbusError :=
| UnknownSignal (name : string)
| EmitFailed
| DbusReadScenario
| DbusParseScenario
| DbusNoSignal
| DbusConnect.

(** A message on the bus: the member and the values of its body. *)
Definition DbusMessage : Type := string * list DbusArg.

(** The body both emitters build from the fields they are given. *)
Definition dbus_body (signal level : string) (available reclaim : option Z)
    (backend reason : option string) (cpu gpu : option f64) (temperature : option Z)
    (throttling : option bool) (ratio : option f64) (budget : option Z)
    : result DbusMessage DbusError :=
  if String.eqb signal "MemoryPressure" then
    Ok (signal, [DStr level; DU64 (default 0 available); DU64 (default 0 reclaim)])
  else if String.eqb signal "ComputeGuidance" then
    Ok (signal, [DStr level; DStr (default "any" backend); DStr (default "balanced" reason);
                 DF64 (default f_zero cpu); DF64 (default f_zero gpu)])
  else if String.eqb signal "ThermalAlert" then
    Ok (signal, [DStr level; DI32 (default 25000 temperature); DBool (default false throttling);
                 DF64 (default (f64_lit 1 1) ratio)])
  else if String.eqb signal "EnergyConstraint" then
    Ok (signal, [DStr level; DStr (default "none" reason); DU32 (default 0 budget)])
  else Err (UnknownSignal signal).

Definition emit_scenario_signal (entry : DbusScenarioSignal) : result DbusMessage DbusError :=
  dbus_body (ds_signal entry) (ds_level entry) (ds_available_bytes entry)
    (ds_reclaim_target_bytes entry) (ds_recommended_backend entry) (ds_reason entry)
    (ds_cpu_usage_pct entry) (ds_gpu_usage_pct entry) (ds_temperature_mc entry)
    (ds_throttling_active entry) (ds_throttle_ratio entry) (ds_power_budget_mw entry).

Definition emit_single (args : Args) (signal_name : string) : result DbusMessage DbusError :=
  dbus_body signal_name (default "normal" (arg_level args)) (arg_available_bytes args)
    (arg_reclaim_target args) (arg_recommended_backend args) (arg_reason args)
    (arg_cpu_usage args) (arg_gpu_usage args) (arg_temperature_mc args)
    (arg_throttling_active args) (arg_throttle_ratio args) (arg_power_budget_mw args).

Section Dbus.
(** The bus accepts a message or not; connecting and the name; the files and their JSON. *)
Context `{ScenarioJson} (accepts : DbusMessage -> bool) (connected : bool)
  (read_to_string : string -> option string).

Definition emit_on_bus (m : result DbusMessage DbusError) : list DbusMessage * result unit DbusError :=
  match m with
  | Err e => ([], Err e)
  | Ok m => if accepts m then ([m], Ok tt) else ([], Err EmitFailed)
  end.

Fixpoint emit_entries (entries : list DbusScenarioSignal) : list DbusMessage * result unit DbusError :=
  match entries with
  | [] => ([], Ok tt)
  | entry :: entries =>
      let '(sent, r) := emit_on_bus (emit_scenario_signal entry) in
      match r with
      | Err e => (sent, Err e)
      | Ok _ => let '(later, r) := emit_entries entries in (sent ++ later, r)
      end
  end.

Definition run_dbus_scenario (path : string) : list DbusMessage * result unit DbusError :=
  match read_to_string path with
  | None => ([], Err DbusReadScenario)
  | Some content =>
      match dbus_scenario_of_json content with
      | None => ([], Err DbusParseScenario)
      | Some scenario => emit_entries (dbus_signals scenario)
      end
  end.

Definition run_dbus_mode (args : Args) : list DbusMessage * result unit DbusError :=
  if negb connected then ([], Err DbusConnect)
  else
    match arg_scenario args, arg_signal args with
    | Some path, _ => run_dbus_scenario path
    | None, Some name => emit_on_bus (emit_single args name)
    | None, None => ([], Err DbusNoSignal)
    end.
End Dbus.
