(* ===== verification/MockMain.v ===== *)
(** * MockMain: the two test binaries from their arguments on
    (main and the summary of src/bin/mock_engine.rs; main, the two ways of accepting an
    engine and the socket mode of src/bin/mock_manager.rs)

    What connecting and listening answer is given: a failure, or a stream. *)

From Stdlib Require Import ZArith Lia SpecFloat String.
From stdpp Require Import base tactics numbers countable list strings pretty.
From S2P Require Import Prelude Float Fmt Signal Wire Channel MockWire MockEngine MockManager.
Local Open Scope string_scope.
Local Open Scope list_scope.
Local Open Scope Z_scope.

(** ** The mock engine *)

Module EngineTool.
Record Args := {
  socket : string;
  tcp : option string;
  heartbeat_ms : Z;
  kv_occupancy_arg : f32;
  device : string;
  duration_secs : Z
}.

(** [connect] and [set_read_timeout]. *)
Inductive Connect := ConnectFailed | TimeoutFailed | ConnectedTo (stream : list Answer).

Definition state_debug (s : EngineState) : string :=
  match s with EngineIdle => "Idle" | EngineRunning => "Running" | EngineSuspended => "Suspended" end.

(** The summary, a line each; [elapsed] in nanoseconds. *)
Definition summary (elapsed : Z) (r : EngineRun) : list string :=
  let e := run_engine r in
  [""; "[MockEngine] ── Summary ────────────────────────────";
   "  Elapsed:             " +:+ fixed 1 (duration_as_secs_f32 elapsed) +:+ "s";
   "  Heartbeats sent:     " +:+ pretty (run_heartbeats r);
   "  Directives received: " +:+ pretty (run_directives r);
   "  Final kv_occupancy:  " +:+ fixed 3 (kv_occupancy e);
   "  Final device:        " +:+ me_active_device e;
   "  Final throttle_ms:   " +:+ pretty (me_throttle_delay_ms e);
   "  Final eviction:      " +:+ me_eviction_policy e;
   "  Final skip_ratio:    " +:+ fixed 2 (me_skip_ratio e);
   "  Final state:         " +:+ state_debug (me_state e);
   "────────────────────────────────────────────────────"].

(** How a run ends: without a connection, with a panic, with the summary, or not within
    the turns it is given. *)
Inductive Ending :=
| NoConnection (c : Connect)
| EnginePanic
| Summarised (r : EngineRun) (lines : list string)
| Unfinished (r : EngineRun).

Section Engine.
Context `{EngineJson} (oc : bool).
(** The two ways to connect, by address; the clock before the loop, in its turns, and
    after it. *)
Context (connect_tcp connect_unix : string -> Connect).

Definition run (args : Args) (stream : list Answer) (start finish : Z) (turns : list Turn) : Ending :=
  match run_protocol oc (duration_secs args * 1000000000) (heartbeat_ms args * 1000000) start
          (engine_start (kv_occupancy_arg args) (device args) start stream) turns with
  | Panic => EnginePanic
  | Return (r, Running) => Unfinished r
  | Return (r, _) => Summarised r (summary (elapsed finish start) r)
  end.

Definition main (args : Args) (start finish : Z) (turns : list Turn) : Ending :=
  match (match tcp args with
         | Some addr => connect_tcp addr
         | None => connect_unix (socket args)
         end) with
  | ConnectedTo stream => run args stream start finish turns
  | c => NoConnection c
  end.

(** ** What the summary says *)

Definition beats (sent : list EngineMessage) : nat :=
  length (omap (fun m => match m with Heartbeat s => Some s | Response _ => None end) sent).

(** The counters are those of the messages written. *)
Definition counted (n : Z) (r : EngineRun) : Prop :=
  run_heartbeats r = Z.of_nat (beats (run_sent r)) /\ run_heartbeats r <= n /\
  Z.of_nat (length (responses (run_sent r))) <= run_directives r <= n.

Ltac simpl_counts := cbn [run_heartbeats run_sent run_directives run_engine].

Lemma sent_beats_app l1 l2 : beats (l1 ++ l2) = (beats l1 + beats l2)%nat.
Proof. unfold beats. by rewrite omap_app, length_app. Qed.

Lemma beat_counted n interval r t r' go : n < u32_max ->
  counted n r -> beat oc interval r t = Return (r', go) -> counted (n + 1) r'.
Proof.
  intros Hn (Hh & Hhn & Hr). unfold beat. destruct (_ <=? _).
  2: { intros [= <- _]. split_and!; [done|lia..]. }
  destruct (u64_arith oc _) as [k|]; [|done]. cbn.
  destruct (send_message _ _); [|intros [= <- _]; split_and!; [done|simpl_counts; lia..]].
  unfold u32_arith. rewrite arith_in_range by (pose proof (Nat2Z.is_nonneg (beats (run_sent r))); lia).
  intros [= <- _]. unfold counted. cbn [run_heartbeats run_sent run_directives].
  rewrite sent_beats_app, responses_app, length_app. cbn [beats responses omap list_omap length app]. split_and!; cbn; lia.
Qed.

Lemma receive_counted n r t r' go : n < u32_max ->
  counted n r -> receive oc r t = Return (r', go) -> counted (n + 1) r'.
Proof.
  intros Hn (Hh & Hhn & Hr). unfold receive. destruct (recv_message _ _) as [[[[d]|]|e] s].
  2, 3: intros [= <- _]; split_and!; [done|simpl_counts; lia..].
  unfold handle_directive, u32_arith. cbn [run_directives run_engine].
  rewrite arith_in_range by lia. cbn. destruct (answer _ d) as [e resp].
  intros [= <- _]. unfold counted. cbn [run_heartbeats run_sent run_directives].
  rewrite sent_beats_app, responses_app, length_app.
  destruct (send_message _ _); cbn; split_and!; lia.
Qed.

Lemma run_protocol_counted duration interval start turns : forall n r r' e,
  n + 2 * Z.of_nat (length turns) < u32_max -> counted n r ->
  run_protocol oc duration interval start r turns = Return (r', e) ->
  exists n', counted n' r'.
Proof.
  induction turns as [|t turns IH]; intros n r r' e Hn Hc; cbn [run_protocol length] in *.
  { intros [= <- _]. by exists n. }
  destruct (_ <? _); [|intros [= <- _]; by exists n].
  destruct (beat oc interval r t) as [[r1 go]|] eqn:Hb; [|done].
  eapply (beat_counted n) in Hb; [|lia|done]. cbn [mbind outcome_bind].
  destruct go; [|intros [= <- _]; by eexists].
  destruct (receive oc r1 t) as [[r2 go]|] eqn:Hr; [|done].
  eapply (receive_counted (n + 1)) in Hr; [|lia|done].
  destruct go; [|intros [= <- _]; by eexists]. intros Hrun. eapply (IH (n + 1 + 1)); [lia|done..].
Qed.
End Engine.

(** The summary tells the truth about what was written: the heartbeats it counts are those
    sent, and it counts at least a directive for every response sent.  It is printed unless
    the connection fails, whatever the socket does. *)
Theorem summary_is_true `{EngineJson} oc connect_tcp connect_unix args start finish turns r lines :
  main oc connect_tcp connect_unix args start finish turns = Summarised r lines ->
  2 * Z.of_nat (length turns) < u32_max ->
  lines = summary (elapsed finish start) r /\
  run_heartbeats r = Z.of_nat (beats (run_sent r)) /\
  Z.of_nat (length (responses (run_sent r))) <= run_directives r.
Proof.
  unfold main, run. intros Hm Hn. destruct (match tcp args with Some a => _ | None => _ end) as [| |stream]; try done.
  destruct (run_protocol _ _ _ _ _ turns) as [[r' []]|] eqn:Hr; simplify_eq.
  all: eapply (run_protocol_counted oc _ _ _ _ 0) in Hr as (n & Hh & _ & Hd & _);
    [split_and!; [done|exact Hh|exact Hd]|lia|split_and!; cbn; lia].
Qed.
End EngineTool.

(** ** The mock manager *)

Module ManagerTool.
(** Binding, accepting and setting the timeout. *)
Inductive Listen := BindFailed | AcceptFailed | TimeoutFailed | EngineConnected (stream : list Answer).
Inductive MainError := ErrListen (l : Listen) | ErrRun (e : MockError) | ErrDbus (e : DbusError).

(** The line printed for a message that is skipped. *)
Definition log_skipped (msg : EngineMessage) (waiting_for : string) : string :=
  match msg with
  | Heartbeat status =>
      "[MockManager] (skipping heartbeat while waiting for " +:+ waiting_for +:+ ": kv=" +:+
      pretty (kv_cache_bytes status) +:+ "/" +:+ pretty (kv_cache_budget_bytes status) +:+
      "B, tokens=" +:+ pretty (kv_cache_tokens status) +:+ ")"
  | Response resp =>
      "[MockManager] (unexpected Response seq_id=" +:+ pretty (resp_seq_id resp) +:+
      " while waiting for " +:+ waiting_for +:+ ", skipping)"
  end.

Section Manager.
Context `{Json} `{ScenarioJson} (oc : bool) (read_to_string : string -> option string).
(** What listening on an address or a path comes to; and the bus. *)
Context (listen_tcp listen_unix : string -> Listen).
Context (accepts : DbusMessage -> bool) (connected : bool).

Definition accept_tcp (addr : string) : result (list Answer) MainError :=
  match listen_tcp addr with EngineConnected stream => Ok stream | l => Err (ErrListen l) end.
(** A stale socket is removed first; that it fails does not matter. *)
Definition accept_unix (path : string) : result (list Answer) MainError :=
  match listen_unix path with EngineConnected stream => Ok stream | l => Err (ErrListen l) end.

(** The clock readings and the answers to the writes that are still to come. *)
Definition run_socket_mode (dbus_feature : bool) (fuel : nat) (args : Args) (clock : list Z)
    (writes : list Io) : option (result unit MainError * World) :=
  let world stream :=
    {| w_stream := stream; w_clock := clock; w_writes := writes; w_sent := []; w_log := [] |} in
  match (match arg_tcp args with
         | Some addr => accept_tcp addr
         | None => accept_unix (arg_socket args)
         end) with
  | Err e => Some (Err e, world [])
  | Ok stream =>
      match mock_run_protocol oc read_to_string dbus_feature fuel args (world stream) with
      | Some (Ok tt, w) => Some (Ok tt, w)
      | Some (Err e, w) => Some (Err (ErrRun e), w)
      | None => None
      end
  end.

(** Messages on the bus, and the world of a socket run. *)
Definition main (dbus_feature : bool) (fuel : nat) (args : Args) (clock : list Z)
    (writes : list Io) : option (result unit MainError * list DbusMessage * option World) :=
  if dbus_feature && arg_dbus args then
    let '(sent, r) := run_dbus_mode accepts connected read_to_string args in
    Some (match r with Ok u => Ok u | Err e => Err (ErrDbus e) end, sent, None)
  else
    match run_socket_mode dbus_feature fuel args clock writes with
    | Some (r, w) => Some (r, [], Some w)
    | None => None
    end.
End Manager.

(** Computations that send nothing. *)
Definition quiet {A} (m : Mock A) : Prop := forall w r w', m w = Some (r, w') -> w_sent w' = w_sent w.

Lemma quiet_ret {A} (a : A) : quiet (mret a).
Proof. by intros w r w' [= _ <-]. Qed.
Lemma quiet_fail {A} e : quiet (mfail (A := A) e).
Proof. by intros w r w' [= _ <-]. Qed.
Lemma quiet_log e : quiet (log e).
Proof. by intros w r w' [= _ <-]. Qed.
Lemma quiet_now : quiet now.
Proof. unfold now. intros w r w'. destruct (w_clock w); [done|]. by intros [= _ <-]. Qed.
Lemma quiet_bind {A B} (m : Mock A) (k : A -> Mock B) :
  quiet m -> (forall a, quiet (k a)) -> quiet (mbind m k).
Proof.
  intros Hm Hk w r w'. unfold mbind. destruct (m w) as [[[a|e] w1]|] eqn:Hw; [| |done].
  - intros Hr. by rewrite (Hk _ _ _ _ Hr), (Hm _ _ _ Hw).
  - intros [= _ <-]. by eapply Hm.
Qed.
Create HintDb quiet.
#[export] Hint Resolve quiet_ret quiet_fail quiet_log quiet_now quiet_bind : quiet.

Lemma quiet_deadline d : quiet (deadline_in d).
Proof. unfold deadline_in. apply quiet_bind; [auto with quiet|]. intros t. case_match; auto with quiet. Qed.
Lemma quiet_recv `{Json} : quiet recv_or_fail.
Proof.
  unfold recv_or_fail. apply quiet_bind; [|intros []; auto with quiet].
  unfold recv. intros w r w'. destruct (recv_message _ _). by intros [= _ <-].
Qed.
#[export] Hint Resolve quiet_deadline quiet_recv : quiet.

Lemma quiet_watch `{Json} oc fuel report deadline : forall count, quiet (watch_loop oc fuel report deadline count).
Proof.
  induction fuel as [|fuel IH]; intros count; cbn [watch_loop]; [done|].
  apply quiet_bind; [auto with quiet|]. intros t. destruct (t <? deadline); [|auto with quiet].
  apply quiet_bind; [auto with quiet|]. intros [[status|resp]|]; [| |auto].
  - destruct (u32_arith _ _); auto with quiet.
  - apply quiet_bind; [destruct report; auto with quiet|auto].
Qed.
#[export] Hint Resolve quiet_watch : quiet.

(** A tool that is told neither a command nor a scenario has waited for the engine and read
    its heartbeats before it says so; it sends nothing. *)
Theorem no_command_sends_nothing `{Json} `{ScenarioJson} oc files listen_tcp listen_unix accepts connected
    fuel args clock writes r sent w :
  arg_dbus args = false -> arg_command args = None -> arg_scenario args = None ->
  main oc files listen_tcp listen_unix accepts connected true fuel args clock writes = Some (r, sent, Some w) ->
  r <> Ok tt /\ sent = [] /\ w_sent w = [].
Proof.
  intros Hd Hc Hs. unfold main. rewrite Hd. cbn [andb].
  destruct (run_socket_mode _ _ _ _ true fuel args clock writes) as [[r' w']|] eqn:Hrun; [|done].
  intros [= <- <- <-]. revert Hrun. unfold run_socket_mode.
  destruct (match arg_tcp args with Some a => _ | None => _ end) as [stream|e]; [|by intros [= <- <-]].
  set (m := mock_run_protocol _ _ true fuel args). set (w0 := Build_World _ _ _ _ _).
  assert (Hm : quiet m /\ forall w u w', m w <> Some (Ok u, w')).
  { unfold m, mock_run_protocol. rewrite Hc, Hs, Hd. cbn [andb]. split.
    - auto 20 with quiet.
    - intros w2 u w3. unfold mbind, mfail, log.
      repeat (case_match; simplify_eq; try done). }
  destruct Hm as [Hq Hn]. destruct (m w0) as [[[[]|e] w1]|] eqn:Hm; [by apply Hn in Hm| |done].
  intros [= <- <-]. split_and!; [done|done|]. by rewrite (Hq _ _ _ Hm).
Qed.
End ManagerTool.
