(* ===== verification/MockExchange.v ===== *)
(** * MockExchange: the two test binaries against each other

    What the mock manager sends is what the mock engine reads, and what the engine answers
    is what the manager waits for (src/bin/mock_manager.rs, src/bin/mock_engine.rs). *)

From Stdlib Require Import ZArith Lia SpecFloat String.
From stdpp Require Import base tactics numbers countable list strings.
From S2P Require Import Prelude Float Signal Wire Channel MockWire MockEngine MockManager.
Local Open Scope string_scope.
Local Open Scope list_scope.
Local Open Scope Z_scope.

Definition is_beat_message (m : EngineMessage) : Prop :=
  match m with Heartbeat _ => True | Response _ => False end.

(** ** Lemmas: waiting for a response *)

Section Wait.
Context `{Json}.

(** The loop skips timeouts and heartbeats, and stops at the first response. *)
Lemma recv_loop_response deadline items : forall w ts later fuel beats resp after,
  clean (w_stream w) -> content (w_stream w) = items_content items ->
  Forall (fun json => Z.of_nat (length json) <= u32_max) (omap framed_json items) ->
  map message_of_json (omap framed_json items) = map Some (beats ++ Response resp :: after) ->
  Forall is_beat_message beats ->
  w_clock w = ts ++ later -> length ts = length items -> Forall (fun t => t < deadline) ts ->
  (length items <= fuel)%nat ->
  exists w', recv_loop fuel deadline select_response w = Some (Ok (Some resp), w') /\
    w_sent w' = w_sent w /\ w_writes w' = w_writes w /\
    w_log w' = w_log w ++ map LogSkipped beats.
Proof.
  induction items as [|i items IH]; intros w ts later fuel beats resp after Hc Hs Hlen Hm Hb Hclk Hts Hall Hf.
  { by destruct beats. }
  destruct ts as [|t ts]; [done|]. injection Hts as Hts. apply Forall_cons in Hall as [Ht Hall].
  destruct fuel as [|fuel]; [cbn in Hf; lia|]. cbn [length] in Hf.
  cbn [recv_loop]. unfold mbind at 1, now. rewrite Hclk. cbn [app].
  rewrite (proj2 (Z.ltb_lt _ _) Ht). unfold recv_or_fail, recv, mbind at 1 2. cbn [w_stream w_clock].
  destruct i as [|json].
  - destruct (recv_wait message_of_json _ _ Hc Hs) as (s' & -> & Hc' & Hs'). cbn [mret].
    edestruct (IH {| w_stream := s'; w_clock := ts ++ later; w_writes := w_writes w;
      w_sent := w_sent w; w_log := w_log w |} ts later fuel beats resp after) as (w' & Hw & ? & ? & ?);
      try done; [lia|]. by exists w'.
  - apply Forall_cons in Hlen as [Hj Hlen].
    destruct (recv_framed message_of_json _ _ _ Hc Hs Hj) as (s' & -> & Hc' & Hs').
    destruct beats as [|b beats]; cbn in Hm; injection Hm as Hm1 Hm.
    + rewrite Hm1. cbn [mret select_response]. eexists. split_and!; try done. cbn. by rewrite app_nil_r.
    + rewrite Hm1. apply Forall_cons in Hb as [Hb1 Hb]. destruct b as [st|]; [|done].
      cbn [mret select_response]. unfold mbind at 1, log.
      cbn [w_stream w_clock w_writes w_sent w_log].
      edestruct (IH {| w_stream := s'; w_clock := ts ++ later; w_writes := w_writes w;
        w_sent := w_sent w; w_log := w_log w ++ [LogSkipped (Heartbeat st)] |} ts later fuel beats resp after)
        as (w' & Hw & ? & ? & Hl); try done; [lia|].
      exists w'. split_and!; try done. rewrite Hl. cbn. by rewrite <- app_assoc.
Qed.
End Wait.

(** ** Lemmas: one command *)

(** The lines about a response that does not fit. *)
Definition violations (seq : Z) (resp : CommandResponse) (n : nat) : list Event :=
  (if resp_seq_id resp =? seq then [] else [LogSeqMismatch seq (resp_seq_id resp)]) ++
  (if Nat.eqb (length (results resp)) n then []
   else [LogCountMismatch (Z.of_nat n) (length (results resp))]).

Lemma validate_response_spec seq resp n w :
  validate_response seq resp n w =
  Some (Ok ((resp_seq_id resp =? seq) && Nat.eqb (length (results resp)) n),
    {| w_stream := w_stream w; w_clock := w_clock w; w_writes := w_writes w; w_sent := w_sent w;
       w_log := w_log w ++ violations seq resp n |}).
Proof.
  unfold validate_response, violations, mbind, log, mret. destruct w as [s c ws st l]; cbn.
  destruct (_ =? _), (Nat.eqb _ _); cbn; by rewrite ?app_nil_r, <- ?app_assoc.
Qed.

(** A manager about to send a command, and what its socket and clock will give it. *)
Record ready `{Json} (w : World) (items : list Item) (arriving : list EngineMessage) : Prop := {
  ready_clean : clean (w_stream w);
  ready_content : content (w_stream w) = items_content items;
  ready_length : Forall (fun json => Z.of_nat (length json) <= u32_max) (omap framed_json items);
  ready_arriving : map message_of_json (omap framed_json items) = map Some arriving;
  ready_write : exists io ios, w_writes w = io :: ios /\ io_ok io;
  ready_clock : exists t0 ts later, w_clock w = t0 :: ts ++ later /\ length ts = length items /\
    t0 + RESPONSE_TIMEOUT <= INSTANT_MAX /\ Forall (fun t => t < t0 + RESPONSE_TIMEOUT) ts
}.

Lemma run_command_response `{JsonLaws} w items beats resp after fuel seq name cmd :
  ready w items (beats ++ Response resp :: after) -> Forall is_beat_message beats ->
  in_u64 seq = true -> command_ok cmd = true -> (length items <= fuel)%nat ->
  exists w', run_command fuel seq name cmd w = Some (Ok tt, w') /\
    w_sent w' = w_sent w ++ [Directive {| seq_id := seq; commands := [cmd] |}] /\
    w_log w' = w_log w ++ LogSent seq name :: map LogSkipped beats ++
      violations seq resp 1 ++ [LogResponse (resp_seq_id resp) (results resp)].
Proof.
  intros [Hc Hs Hlen Hm (io & ios & Hw & Hio) (t0 & ts & later & Hclk & Hts & Hmax & Hall)] Hb Hseq Hcmd Hf.
  unfold run_command, mbind at 1, send. rewrite Hw.
  destruct (directive_roundtrip {| seq_id := seq; commands := [cmd] |}) as (json & -> & _ & _).
  { unfold directive_ok. cbn [seq_id commands forallb]. by rewrite Hseq, Hcmd. }
  rewrite send_message_ok by done. unfold mbind at 1, log at 1.
  cbn [w_stream w_clock w_writes w_sent w_log].
  unfold mbind at 1, recv_response_skip_heartbeats, recv_until, deadline_in, mbind at 1 2, now.
  cbn [w_stream w_clock w_writes w_sent w_log]. rewrite Hclk.
  rewrite (proj2 (Z.leb_le _ _) Hmax). cbn [mret].
  set (w1 := {| w_stream := _; w_clock := _; w_writes := _; w_sent := _; w_log := _ |}).
  destruct (recv_loop_response (t0 + RESPONSE_TIMEOUT) items w1 ts later fuel beats resp after)
    as (w2 & -> & Hsent & _ & Hlog); try done.
  unfold mbind at 1. rewrite validate_response_spec. unfold log. cbn [w_sent w_log].
  eexists. split_and!; [reflexivity|by cbn; rewrite Hsent|]. cbn [w_log]. rewrite Hlog.
  unfold w1. cbn [w_log]. rewrite <- !app_assoc. done.
Qed.

(** ** Lemmas: what the engine has sent *)

Section EngineSent.
Context `{EngineJson} (oc : bool).

Definition all_ok (r : EngineRun) : Prop := Forall (fun m => engine_message_ok m = true) (run_sent r).

Lemma beat_all_ok interval r t r' go : beat oc interval r t = Return (r', go) ->
  all_ok r -> all_ok r'.
Proof.
  unfold beat, all_ok. destruct (_ <=? _); [|by intros [= <- _]].
  destruct (u64_arith _ _) as [n|]; [|done].
  destruct (send_message _ _); [|by intros [= <- _]].
  destruct (u32_arith _ _); [|done]. intros [= <- _] Ha. cbn. apply Forall_app. split; [done|].
  by repeat constructor.
Qed.

Lemma receive_all_ok `{Json} `{!JsonLaws} r t r' go : receive oc r t = Return (r', go) -> all_ok r -> all_ok r'.
Proof.
  unfold receive, all_ok. destruct (recv_message directive_of_json (run_stream r)) as [[[[d]|]|] s] eqn:Hr;
    try by intros [= <- _].
  apply recv_parsed in Hr as [json Hd]. apply directive_seq_u64 in Hd.
  unfold handle_directive. cbn -[engine_message_ok]. destruct (u32_arith _ _); [|done].
  pose proof (answer_ok (run_engine r) d Hd) as Hf. destruct (answer _ d) as [e resp].
  intros [= <- _] Ha. cbn -[engine_message_ok] in *. apply Forall_app. split; [done|]. destruct (send_message _ _); [|done].
  by repeat constructor.
Qed.

Lemma run_protocol_all_ok `{Json} `{!JsonLaws} duration interval start turns : forall r r' stop,
  run_protocol oc duration interval start r turns = Return (r', stop) ->
  all_ok r -> all_ok r'.
Proof.
  induction turns as [|t turns IH]; intros r r' stop; cbn [run_protocol]; [by intros [= <- _]|].
  destruct (_ <? _); [|by intros [= <- _]].
  destruct (beat _ _ _ _) as [[r1 [|]]|] eqn:Hb; [| |done].
  - destruct (receive _ _ _) as [[r2 [|]]|] eqn:Hr; [| |done].
    + intros Hrun Ha. eapply IH; [exact Hrun|]. eapply receive_all_ok; [exact Hr|].
      by eapply beat_all_ok.
    + intros [= <- _] Ha. eapply receive_all_ok; [exact Hr|]. by eapply beat_all_ok.
  - intros [= <- _] Ha. by eapply beat_all_ok.
Qed.
End EngineSent.

Lemma responses_split sent resp : responses sent = [resp] ->
  exists beats after, sent = beats ++ Response resp :: after /\ Forall is_beat_message beats.
Proof.
  induction sent as [|[st|r] sent IH]; cbn; [done| |].
  - intros Hr. destruct (IH Hr) as (beats & after & -> & Hf). exists (Heartbeat st :: beats), after.
    split; [done|]. by constructor.
  - intros [= -> _]. by exists [], sent.
Qed.

(** What arrives as it was sent is read as it was sent. *)
Lemma delivered `{JsonLaws} sent : forall jsons,
  Forall (fun m => engine_message_ok m = true) sent ->
  map Some jsons = map json_of_engine sent ->
  map message_of_json jsons = map Some sent.
Proof.
  induction sent as [|m sent IH]; intros [|json jsons] Hf Hs; try done.
  apply Forall_cons in Hf as [Hm Hf]. injection Hs as Hj Hs.
  destruct (engine_roundtrip m Hm) as (j & Hj' & _ & Hp). rewrite Hj' in Hj. injection Hj as ->.
  cbn. by rewrite Hp, (IH _ Hf Hs).
Qed.

(** ** Properties *)

(** C31. A command crosses the wire and comes back answered.  When the directive of a command
    that JSON can carry (its budget is a finite float), as long as its text is shorter than
    4 GiB, reaches a mock engine, among timeouts and cut anyhow, the engine's loop answers
    it; and when what the engine has sent, in such texts too, reaches the manager before its
    deadline, the manager, skipping the heartbeats, reports exactly that answer - the result
    of applying the command to the engine's state - and no protocol violation or timeout. *)
Theorem command_exchange `{JsonLaws} oc args name cmd json
    duration interval start r eitems turns :
  build_command {| p_name := name; p_keep_ratio := arg_keep_ratio args;
                   p_every := arg_every args; p_on := arg_on args |} = Ok cmd ->
  command_ok cmd = true ->
  json_of_message (Directive {| seq_id := 1; commands := [cmd] |}) = Some json ->
  run_sent r = [] -> clean (run_stream r) -> content (run_stream r) = items_content eitems ->
  omap framed_json eitems = [json] -> Z.of_nat (length json) <= u32_max ->
  length turns = length eitems -> Forall (turn_ok duration start) turns -> room r (length turns) ->
  exists r', run_protocol oc duration interval start r turns = Return (r', Running) /\
  forall w items fuel,
    clean (w_stream w) -> content (w_stream w) = items_content items ->
    map Some (omap framed_json items) = map json_of_engine (run_sent r') ->
    Forall (fun json => Z.of_nat (length json) <= u32_max) (omap framed_json items) ->
    (exists io ios, w_writes w = io :: ios /\ io_ok io) ->
    (exists t0 ts later, w_clock w = t0 :: ts ++ later /\ length ts = length items /\
      t0 + RESPONSE_TIMEOUT <= INSTANT_MAX /\ Forall (fun t => t < t0 + RESPONSE_TIMEOUT) ts) ->
    (length items <= fuel)%nat ->
    exists w' skipped, run_single_command fuel args name w = Some (Ok tt, w') /\
      w_sent w' = w_sent w ++ [Directive {| seq_id := 1; commands := [cmd] |}] /\
      Forall is_beat_message skipped /\
      w_log w' = w_log w ++ LogSent 1 name :: map LogSkipped skipped ++
        [LogResponse 1 [(apply (run_engine r) cmd).2]].
Proof.
  intros Hbuild Hcmd Hjson Hsent Hc Hs Hframe Hl Hturns Hok Hroom.
  destruct (directive_roundtrip {| seq_id := 1; commands := [cmd] |}) as (j & Hj & _ & Hp).
  { unfold directive_ok. cbn [seq_id commands forallb]. by rewrite Hcmd. }
  rewrite Hjson in Hj. injection Hj as <-.
  destruct (engine_loop_answers oc duration interval start eitems r
    [{| seq_id := 1; commands := [cmd] |}] turns) as (r' & Hrun & _ & Hresp & _); try done.
  { rewrite Hframe. by repeat constructor. }
  { rewrite Hframe. cbn. by rewrite Hp. }
  exists r'. split; [exact Hrun|]. intros w items fuel Hwc Hws Hwj Hlen Hww Hwt Hfuel.
  assert (Hfinite : all_ok r').
  { eapply (@run_protocol_all_ok _ oc _ _); [exact Hrun|]. unfold all_ok. rewrite Hsent. constructor. }
  pose proof (delivered _ _ Hfinite Hwj) as Harr.
  rewrite Hsent in Hresp. cbn in Hresp. unfold answer in Hresp. cbn in Hresp.
  destruct (apply (run_engine r) cmd) as [e res] eqn:Happ. cbn in Hresp.
  destruct (responses_split _ _ Hresp) as (beats & after & Heq & Hbeats).
  rewrite Heq in Harr.
  destruct (run_command_response w items beats {| resp_seq_id := 1; results := [res] |} after
    fuel 1 name cmd) as (w' & Hw' & Hsent' & Hlog');
    try done.
  exists w', beats. unfold run_single_command. rewrite Hbuild. split_and!; try done.
Qed.

Definition demo_args : Args := {|
  arg_socket := "/tmp/argus_manager.sock"; arg_tcp := None; arg_command := Some "KvCompress";
  arg_scenario := None; arg_wait_secs := 2; arg_keep_ratio := Some (f32_lit 1 2);
  arg_every := None; arg_on := None;
  arg_sink_size := None; arg_window_size := None; arg_delay_ms := None; arg_device := None;
  arg_target_bits := None; arg_skip_ratio := None; arg_target_ms := None; arg_ratio := None;
  arg_chunk_size := None; arg_yield_ms := None; arg_cpu_chunk_size := None;
  arg_target_dtype := None; arg_dbus := false; arg_signal := None; arg_level := None;
  arg_available_bytes := None; arg_reclaim_target := None; arg_recommended_backend := None;
  arg_reason := None; arg_cpu_usage := None; arg_gpu_usage := None; arg_temperature_mc := None;
  arg_throttling_active := None; arg_throttle_ratio := None; arg_power_budget_mw := None
|}.
Definition demo_json1 : bytes := to_code {| seq_id := 1; commands := [KvCompress (f32_lit 1 2)] |}.
(** The engine's side: a turn with a heartbeat due and a timeout, then one with the frame. *)
Definition demo_engine : EngineRun :=
  engine_start (f32_lit 1 2) "opencl" 0 [TimedOut; Bytes (frame demo_json1)].
Definition demo_engine_end : EngineRun :=
  match run_protocol true 1000 5 0 demo_engine [demo_turn 5; demo_turn 7] with
  | Return (r, _) => r
  | Panic => demo_engine
  end.
Definition demo_answers : list Item := map Framed (omap json_of_engine (run_sent demo_engine_end)).
Definition demo_world : World := {|
  w_stream := [TimedOut; Bytes (concat (map frame (omap json_of_engine (run_sent demo_engine_end))))];
  w_clock := [0; 10; 20; 30; 40]; w_writes := [demo_healthy]; w_sent := []; w_log := []
|}.

Lemma command_exchange_witness :
  exists w' skipped, @run_single_command coded_json 9 demo_args "KvCompress" demo_world
      = Some (Ok tt, w') /\
    w_log w' = LogSent 1 "KvCompress" :: map LogSkipped skipped ++ [LogResponse 1 [ResultOk]].
Proof.
  destruct (@command_exchange coded_json coded_engine_json coded_json_laws true demo_args "KvCompress"
    (KvCompress (f32_lit 1 2)) demo_json1 1000 5 0 demo_engine [Wait; Framed demo_json1]
    [demo_turn 5; demo_turn 7]) as (r' & Hrun & Hmanager); try reflexivity.
  - vm_compute. repeat constructor.
  - vm_compute. discriminate.
  - repeat constructor; done.
  - vm_compute. repeat split; discriminate.
  - assert (Hend : run_sent r' = run_sent demo_engine_end).
    { unfold demo_engine_end. by rewrite Hrun. }
    destruct (Hmanager demo_world (Wait :: demo_answers) 9%nat) as (w' & skipped & Hw & _ & _ & Hlog).
    + vm_compute. repeat constructor.
    + vm_compute. reflexivity.
    + rewrite Hend. vm_compute. reflexivity.
    + apply lengths_within. vm_compute. reflexivity.
    + exists demo_healthy, []. by repeat constructor.
    + exists 0, [10; 20; 30], [40]. split_and!; [reflexivity|reflexivity|discriminate|].
      unfold RESPONSE_TIMEOUT. repeat constructor; lia.
    + apply Nat.leb_le. vm_compute. reflexivity.
    + exists w', skipped. split; [exact Hw|]. rewrite Hlog. vm_compute. reflexivity.
Defined.

(** ** Lemmas: where the tools and the program part *)

(** A response later than its deadline is taken for the next command's, which is then
    reported as a violation although the engine answered both. *)
Definition late_entries : list ScenarioCommand :=
  [{| sc_delay_ms := 0; sc_command := "Suspend"; sc_keep_ratio := None |};
   {| sc_delay_ms := 0; sc_command := "Resume"; sc_keep_ratio := None |}].
Definition late_world : World :=
  let resp n := frame (to_code (Response {| resp_seq_id := n; results := [ResultOk] |})) in
  {| w_stream := [TimedOut; Bytes (resp 1); Bytes (resp 2)];
     w_clock := [0; 10; 6000000000; 6000000001; 6000000002]; w_writes := [demo_healthy; demo_healthy];
     w_sent := []; w_log := [] |}.
Lemma late_response_shifts :
  (match @run_entries coded_json true 9 0 late_entries late_world with
   | Some (Ok _, w) => Some (w_log w) | _ => None end)
  = Some [LogSent 1 "Suspend"; LogTimeout 1; LogSent 2 "Resume"; LogSeqMismatch 2 1;
          LogResponse 1 [ResultOk]; LogDone].
Proof. vm_compute. reflexivity. Qed.

(** The memory signal of the D-Bus mode has one number too few: whatever it is given, a
    listener that expects what the D-Bus emitter sends does not understand it. *)
Lemma mock_memory_signal_unreadable entry m : ds_signal entry = "MemoryPressure" ->
  emit_scenario_signal entry = Ok m -> dbus_parse_signal m = None.
Proof.
  unfold emit_scenario_signal, dbus_body. intros ->. cbn. intros [= <-]. cbn.
  by destruct (level_from_dbus_str _).
Qed.

(** Every command of the contract can be built, and none of the names of the tool's
    documentation is one. *)
Lemma build_command_complete c : exists p, build_command p = Ok c.
Proof.
  destruct c as [b| | | |n|b].
  - by exists {| p_name := "KvCompress"; p_keep_ratio := Some b; p_every := None; p_on := None |}.
  - by exists {| p_name := "RestoreDefaults"; p_keep_ratio := None; p_every := None; p_on := None |}.
  - by exists {| p_name := "Suspend"; p_keep_ratio := None; p_every := None; p_on := None |}.
  - by exists {| p_name := "Resume"; p_keep_ratio := None; p_every := None; p_on := None |}.
  - by exists {| p_name := "GpuYield"; p_keep_ratio := None; p_every := Some n; p_on := None |}.
  - by exists {| p_name := "GpuOffload"; p_keep_ratio := None; p_every := None; p_on := Some b |}.
Qed.
Lemma documented_command_refused args : build_command {| p_name := "KvEvictSliding";
    p_keep_ratio := arg_keep_ratio args; p_every := arg_every args; p_on := arg_on args |}
  = Err (UnknownCommand "KvEvictSliding").
Proof. reflexivity. Qed.
