(* ===== verification/EndToEnd.v ===== *)
(** * EndToEnd: the manager and an engine (src/main.rs, src/channel/*.rs against
    src/bin/mock_engine.rs)

    The two programs joined by their wire: the bytes the manager's channel has written are
    what the engine's stream delivers, among timeouts and cut into reads anyhow, and the
    bytes the engine has written are what the manager's reader thread is given. *)

From Stdlib Require Import ZArith Lia SpecFloat String Sorting.Sorted.
From stdpp Require Import base tactics numbers list strings.
From S2P Require Import Prelude Float Signal Wire Config Pipeline Monitor LuaPolicy Channel TcpChannel Manager ManagerMain MockWire MockEngine MockExchange.
Local Open Scope string_scope.
Local Open Scope list_scope.
Local Open Scope Z_scope.

(** ** Lemmas *)









(** ** Property *)


(** ** Witness: the demo manager's two directives, a timeout, and all in one read *)

Abbreviation demo_run :=
  (@manager_main (fun _ => None) demo_vm demo_bound coded_json true demo_eqb demo_main_env demo_main_args demo_main_io).


