(* ===== verification/TestsCore.v ===== *)
(** * TestsCore: the unit tests of the decision logic, run on the model
    (the [#[cfg(test)]] modules of src/evaluator.rs, config.rs, types.rs, clock.rs,
    lua/fallback.rs, lua/context.rs, lua_policy.rs and pipeline.rs)

    Every test is a boolean of the model with the test's name, one Module per source file;
    [replay] runs a sequence of calls on a mutable object.  That they are all true is
    evidence that the model is the program the tests describe.  Left out are the tests that
    measure the real clock or parse TOML. *)

From Stdlib Require Import ZArith Lia SpecFloat Ascii String.
From stdpp Require Import base tactics numbers countable list strings.
From S2P Require Import Prelude Float RustStr Signal Config Evaluator Wire Pipeline PolicyState Monitor LuaContext LuaPolicy SimClock MockEngine.
Local Open Scope string_scope.
Local Open Scope list_scope.
Local Open Scope Z_scope.

(** ** Assertions *)

Definition assert_eq {A} `{EqDecision A} (x y : A) : bool := bool_decide (x = y).
Definition is_some {A} (o : option A) : bool := match o with Some _ => true | None => false end.
Definition is_none {A} (o : option A) : bool := negb (is_some o).
(** [assert_eq!] and [<] on floats. *)
Definition assert_feq (x y : spec_float) : bool := SFeqb x y.
(** [(x - y).abs() < eps] *)
Definition assert_near (x y eps : f64) : bool := SFltb (SFabs (f64_sub x y)) eps.

(** Successive calls of a method with [&mut self], and what they return. *)
Fixpoint replay {S I O} (f : S -> I -> S * O) (s : S) (inputs : list I) : S * list O :=
  match inputs with
  | [] => (s, [])
  | i :: inputs =>
      let '(s, o) := f s i in
      let '(s, os) := replay f s inputs in
      (s, o :: os)
  end.
(** The same for methods that can panic. *)
Fixpoint replay_or_panic {S I O} (f : S -> I -> outcome (S * O)) (s : S) (inputs : list I)
    : outcome (S * list O) :=
  match inputs with
  | [] => Return (s, [])
  | i :: inputs =>
      let! (s, o) := f s i in
      let! (s, os) := replay_or_panic f s inputs in
      Return (s, o :: os)
  end.

Notation "'#' n" := (f64_lit n 1) (at level 1, n at level 0, format "# n").

(** ** src/evaluator.rs *)

Module EvaluatorTests.
Definition thresholds (w c e h : f64) : Thresholds :=
  {| th_warning := w; th_critical := c; th_emergency := e; th_hysteresis := h |}.
Definition ascending : ThresholdEvaluator :=
  evaluator_new Ascending (thresholds #60 #75 #85 #5).
Definition descending : ThresholdEvaluator :=
  evaluator_new Descending (thresholds #40 #20 #10 #5).

Definition ascending_escalation_path : bool :=
  assert_eq (replay evaluate ascending [#50; #65; #76; #90]).2
    [None; Some Warning; Some Critical; Some Emergency].
Definition ascending_skip_to_emergency : bool :=
  assert_eq (evaluate ascending #90).2 (Some Emergency).
Definition ascending_hysteresis_prevents_oscillation : bool :=
  let e := (evaluate ascending #65).1 in
  assert_eq (evaluator_level e) Warning &&
  assert_eq (replay evaluate e [#58; #54]).2 [None; Some Normal].
Definition ascending_multi_level_recovery : bool :=
  let e := (evaluate ascending #90).1 in assert_eq (evaluate e #40).2 (Some Normal).
Definition ascending_stay_in_hysteresis_zone : bool :=
  assert_eq (level_ascending #57 Warning #60 #75 #85 #5) Warning.

Definition descending_escalation_path : bool :=
  assert_eq (replay evaluate descending [#50; #35; #15; #5]).2
    [None; Some Warning; Some Critical; Some Emergency].
Definition descending_skip_to_emergency : bool :=
  assert_eq (level_descending #3 Normal #40 #20 #10 #5) Emergency.
Definition descending_hysteresis_prevents_oscillation : bool :=
  let e := (evaluate descending #35).1 in
  assert_eq (replay evaluate e [#42; #46]).2 [None; Some Normal].
Definition descending_multi_level_recovery : bool :=
  assert_eq (level_descending #80 Emergency #40 #20 #10 #5) Normal.
Definition descending_step_recovery : bool :=
  let e := (evaluate descending #5).1 in
  assert_eq (replay evaluate e [#16; #30; #50]).2 [Some Critical; Some Warning; Some Normal].
(** [f64::MAX] *)
Definition no_emergency_level : bool :=
  let e := evaluator_new Ascending (thresholds #70 #90 (S754_finite false (2 ^ 53 - 1) 971) #5) in
  let '(e, l) := evaluate e #99 in
  assert_eq l (Some Critical) && assert_eq (evaluator_level e) Critical.

Definition tests : list bool :=
  [ascending_escalation_path; ascending_skip_to_emergency;
   ascending_hysteresis_prevents_oscillation; ascending_multi_level_recovery;
   ascending_stay_in_hysteresis_zone; descending_escalation_path; descending_skip_to_emergency;
   descending_hysteresis_prevents_oscillation; descending_multi_level_recovery;
   descending_step_recovery; no_emergency_level].
End EvaluatorTests.

(** ** src/config.rs, src/types.rs, src/clock.rs *)

Module ConfigTests.
Definition default_config_all_monitors_enabled : bool :=
  let config := default_Config in
  assert_eq (mgr_poll_interval_ms (cfg_manager config)) 1000 &&
  is_none (cfg_memory config) && is_none (cfg_external config).
Definition tests : list bool := [default_config_all_monitors_enabled].
End ConfigTests.

Module TypesTests.
(** The derived order follows the declaration. *)
Definition mode_rank (m : OperatingMode) : Z :=
  match m with ModeNormal => 0 | ModeWarning => 1 | ModeCritical => 2 end.
Definition operating_mode_ordering : bool :=
  (mode_rank ModeNormal <? mode_rank ModeWarning) && (mode_rank ModeWarning <? mode_rank ModeCritical) &&
  (mode_rank ModeCritical >? mode_rank ModeNormal).
Definition tests : list bool := [operating_mode_ordering].
End TypesTests.

Module ClockTests.
Definition test_logical_instant_saturating_duration_since_handles_before : bool :=
  let earlier := {| from_duration_since_start := duration_from_secs 10 |} in
  let later := {| from_duration_since_start := duration_from_secs 5 |} in
  assert_eq (saturating_duration_since later earlier) 0.
Definition test_logical_instant_add_duration_roundtrip : bool :=
  let five_secs := duration_from_secs 5 in
  match instant_add LogicalInstant_ZERO five_secs with
  | Return t => assert_eq (as_duration_since_start t) five_secs
  | Panic => false
  end.
Definition tests : list bool :=
  [test_logical_instant_saturating_duration_since_handles_before;
   test_logical_instant_add_duration_roundtrip].
End ClockTests.

(** ** src/lua/fallback.rs *)

Module FallbackTests.
Definition mem (level : Level) : SystemSignal := MemoryPressure level 1 100 0.
Definition memory_pressure_tightens_the_budget_monotonically : bool :=
  let budget s := match fallback_decide s with KvCompress b :: _ => Some b | _ => None end in
  assert_eq (budget (mem Normal)) None &&
  match budget (mem Warning), budget (mem Critical), budget (mem Emergency) with
  | Some w, Some c, Some e => SFltb c w && SFltb e c && SFltb f_zero e
  | _, _, _ => false
  end.
Definition normal_memory_releases : bool := assert_eq (fallback_decide (mem Normal)) [RestoreDefaults].
Definition non_memory_axes_emit_nothing : bool :=
  assert_eq (fallback_decide (ThermalAlert Emergency 90000 true (f64_lit 1 2))) [].
Definition tests : list bool :=
  [memory_pressure_tightens_the_budget_monotonically; normal_memory_releases;
   non_memory_axes_emit_nothing].
End FallbackTests.

(** ** src/lua/context.rs *)

Module ContextTests.
Definition status : EngineStatus := {|
  kv_cache_bytes := 1024; kv_cache_budget_bytes := 4096; kv_cache_tokens := 32;
  tbt_ms := f32_lit 125 10; phase := PhaseDecode; state := EngineRunning |}.
Definition ctx_with (engine : option EngineStatus) : CtxValue :=
  build_ctx
    {| pr_gpu := f32_lit 1 10; pr_cpu := f32_lit 2 10; pr_memory := f32_lit 3 10;
       pr_thermal := f32_lit 4 10; pr_latency := f32_lit 5 10; pr_main_app := f32_lit 6 10 |}
    {| tbt_degraded := true; mem_low := false; temp_high := true |}
    {| cpu_pct := #20; gpu_pct := #10; mem_available := 700; mem_total := 1000;
       temp_mc := 55000; throttling := false |}
    engine.
(** Nested lookups. *)
Definition at_path (v : CtxValue) (keys : list string) : option CtxValue :=
  fold_left (fun v k => v ← v; ctx_get v k) keys (Some v).
Definition is_value (v : option CtxValue) (w : CtxValue) : bool :=
  match v, w with
  | Some (CBool a), CBool b => Bool.eqb a b
  | Some (CF32 x), CF32 y => SFeqb x y
  | Some (CF64 x), CF64 y => SFeqb x y
  | Some (CU64 n), CU64 m => n =? m
  | Some (CStr s), CStr t => String.eqb s t
  | _, _ => false
  end.

Definition pressure_trigger_and_signal_are_exposed : bool :=
  let ctx := ctx_with None in
  is_value (at_path ctx ["pressure"; "memory"]) (CF32 (f32_lit 3 10)) &&
  is_value (at_path ctx ["trigger"; "tbt_degraded"]) (CBool true) &&
  is_value (at_path ctx ["trigger"; "mem_low"]) (CBool false) &&
  is_value (at_path ctx ["signal"; "thermal"; "temp_c"]) (CF64 #55).
Definition engine_table_carries_the_heartbeat : bool :=
  let ctx := ctx_with (Some status) in
  is_value (at_path ctx ["engine"; "seen"]) (CBool true) &&
  is_value (at_path ctx ["engine"; "kv_cache_budget_bytes"]) (CU64 4096) &&
  is_value (at_path ctx ["engine"; "phase"]) (CStr "decode") &&
  is_value (at_path ctx ["engine"; "kv_fill"]) (CF64 (f64_lit 25 100)).
Definition no_heartbeat_is_distinguishable_from_an_empty_cache : bool :=
  let ctx := ctx_with None in
  is_value (at_path ctx ["engine"; "seen"]) (CBool false) &&
  is_none (at_path ctx ["engine"; "kv_cache_budget_bytes"]) &&
  is_none (at_path ctx ["engine"; "kv_fill"]).
Definition kv_fill_is_absent_when_the_denominator_is_unknown : bool :=
  let st := {| kv_cache_bytes := 1024; kv_cache_budget_bytes := 0; kv_cache_tokens := 32;
               tbt_ms := f32_lit 125 10; phase := PhaseDecode; state := EngineRunning |} in
  let ctx := ctx_with (Some st) in
  is_value (at_path ctx ["engine"; "seen"]) (CBool true) &&
  is_none (at_path ctx ["engine"; "kv_fill"]).
Definition tests : list bool :=
  [pressure_trigger_and_signal_are_exposed; engine_table_carries_the_heartbeat;
   no_heartbeat_is_distinguishable_from_an_empty_cache;
   kv_fill_is_absent_when_the_denominator_is_unknown].
End ContextTests.

(** ** src/lua_policy.rs *)

Module LuaPolicyTests.
(** A table constructor of Lua, field by field; a field that is [nil] is absent. *)
Inductive Lit := LitNil | LitBool (b : bool) | LitInt (n : Z) | LitNum (x : f64) | LitStr (s : string) | LitTable.
Definition Fields : Type := list (string * Lit).
Definition field (t : Fields) (k : string) : Lit :=
  default LitNil (find_map (fun '(k', v) => if String.eqb k' k then Some v else None) t).
#[local] Instance lit_vm : LuaVM := {|
  vm := unit; table := Fields; other := string;
  vm_new := fun _ => Some tt; vm_exec := fun m _ => (m, true);
  get_global := fun _ _ => None; call := fun m _ => (m, None);
  contains_key := fun t k => Some (match field t k with LitNil => false | _ => true end);
  get_value := fun t k => Some
    match field t k with
    | LitNil => VNil | LitBool b => VBoolean b | LitInt n => VInteger n | LitNum x => VNumber x
    | LitStr s => VOther s | LitTable => VTable []
    end;
  get_string := fun t k => match field t k with LitStr s => Some s | _ => None end;
  get_f32 := fun t k => match field t k with LitNum x => Some (f32_of_f64 x) | _ => None end;
  sequence_tables := fun _ => []
|}.
#[local] Instance bound : YieldBound := 64.

Definition action (src : Fields) : option EngineCommand := parse_single_action src.

Definition gpu_yield_parses : bool :=
  forallb (fun '(every, want) =>
      assert_eq (action [("type", LitStr "gpu.yield"); ("every", every)]) (Some (GpuYield want)))
    [(LitInt 4, 4); (LitNum #4, 4); (LitInt 0, 0)].
Definition gpu_yield_rejects_fraction_and_range : bool :=
  forallb (fun bad => is_none (action [("type", LitStr "gpu.yield"); ("every", bad)]))
    [LitNum (f64_lit 25 10); LitInt 65; LitInt (-1); LitNil; LitStr "4"].
Definition gpu_offload_parses : bool :=
  forallb (fun on =>
      assert_eq (action [("type", LitStr "gpu.offload"); ("on", LitBool on)]) (Some (GpuOffload on)))
    [true; false].
Definition gpu_offload_rejects_non_bool : bool :=
  forallb (fun bad => is_none (action [("type", LitStr "gpu.offload"); ("on", bad)]))
    [LitInt 1; LitInt 0; LitStr "true"; LitTable].
Definition gpu_offload_rejects_missing_on : bool :=
  forallb (fun src => is_none (action src))
    [[("type", LitStr "gpu.offload")]; [("type", LitStr "gpu.offload"); ("on", LitNil)];
     [("type", LitStr "gpu.offload"); ("On", LitBool true)]].
Definition tests : list bool :=
  [gpu_yield_parses; gpu_yield_rejects_fraction_and_range; gpu_offload_parses;
   gpu_offload_rejects_non_bool; gpu_offload_rejects_missing_on].
End LuaPolicyTests.

(** ** src/pipeline.rs *)

Module PipelineTests.
Definition directive (commands : list EngineCommand) : EngineDirective :=
  {| seq_id := 0; commands := commands |}.
Definition compress (budget : f32) : EngineCommand := KvCompress budget.
Definition other : EngineCommand := RestoreDefaults.
(** The derived equality of commands. *)
Definition command_eqb (a b : EngineCommand) : bool :=
  match a, b with
  | KvCompress x, KvCompress y => SFeqb x y
  | KvCompress _, _ | _, KvCompress _ => false
  | a, b => bool_decide (a = b)
  end.

(** Which of the directives, each with its time, are let through. *)
Definition passes (dedup : DirectiveDeduplicator) (l : list (list EngineCommand * f64)) : list bool :=
  map is_some (replay (fun d '(cmds, now) => process command_eqb d (directive cmds) now) dedup l).2.
Definition A : list EngineCommand := [compress (f32_lit 8 10)].
Definition B : list EngineCommand := [other].

Definition first_directive_always_passes : bool := assert_eq (passes dedup_new [(A, #0)]) [true].
Definition identical_commands_suppressed : bool :=
  assert_eq (passes dedup_new [(A, #0); (A, #1); (A, #2)]) [true; false; false].
Definition same_type_different_param_passes : bool :=
  assert_eq (passes dedup_new [(A, #0); ([compress (f32_lit 5 10)], #1)]) [true; true].
Definition cycle_a_b_a_emits_second_a : bool :=
  assert_eq (passes dedup_new [(A, #0); (B, #1); (A, #2)]) [true; true; true].
Definition multi_command_identical_suppressed : bool :=
  assert_eq (passes dedup_new [(A ++ B, #0); (A ++ B, #1)]) [true; false].
Definition after_suppression_different_command_passes : bool :=
  assert_eq (passes dedup_new [(A, #0); (A, #1); (B, #2)]) [true; false; true].
Definition suppressed_does_not_update_last : bool :=
  assert_eq (passes dedup_new [(A, #0); (A, #1); (B, #2)]) [true; false; true].
Definition cooldown_allows_same_after_timeout : bool :=
  assert_eq (passes (with_cooldown #60) [(A, #0); (A, #30); (A, #59); (A, #60); (A, #100); (A, #120)])
    [true; false; false; true; false; true].
Definition cooldown_reset_on_change : bool :=
  assert_eq (passes (with_cooldown #60) [(A, #0); (B, #50); (B, #90); (B, #110)])
    [true; true; false; true].
Definition tests : list bool :=
  [first_directive_always_passes; identical_commands_suppressed; same_type_different_param_passes;
   cycle_a_b_a_emits_second_a; multi_command_identical_suppressed;
   after_suppression_different_command_passes; suppressed_does_not_update_last;
   cooldown_allows_same_after_timeout; cooldown_reset_on_change].
End PipelineTests.

Definition core_tests : list bool :=
  EvaluatorTests.tests ++ ConfigTests.tests ++ TypesTests.tests ++ ClockTests.tests ++
  FallbackTests.tests ++ ContextTests.tests ++ LuaPolicyTests.tests ++ PipelineTests.tests.

(** The decision logic passes its tests. *)
Theorem core_tests_pass : forallb id core_tests = true.
Proof. vm_compute. reflexivity. Qed.
