(* ===== verification/TestsMonitor.v ===== *)
(** * TestsMonitor: the unit tests of the monitors, run on the model
    (the [#[cfg(test)]] modules of src/monitor: memory.rs, thermal.rs, energy.rs,
    compute.rs, external.rs, gpu_provider.rs)

    A temporary directory of a test is an environment with its files ([tree]); the
    constructors that only tests use are here as well.  In external.rs the JSON of a line is
    [serde_json]'s: the tests are given a function that knows the lines they send. *)

From Stdlib Require Import ZArith Lia SpecFloat Ascii String.
From stdpp Require Import base tactics numbers countable list strings pretty.
From S2P Require Import Prelude Float RustStr Signal Config Evaluator Monitor GpuProvider MemoryMonitor ThermalMonitor EnergyMonitor ComputeMonitor ExternalMonitor MockEngine TestsCore.
Local Open Scope string_scope.
Local Open Scope list_scope.
Local Open Scope Z_scope.

(** ** Files *)

Definition nl : string := String "010" "".

(** The entry of directory [dir] a path goes through. *)
Definition child_of (dir path : string) : option string :=
  rest ← strip_prefix (dir +:+ "/") path;
  Some (default rest (find_before "/" rest)).
(** The files of a directory tree, its directories, and their entries. *)
Definition tree (files : list (string * string)) : Env :=
  let e := env_of_files files in
  {| fs_read := fs_read e;
     fs_exists := fun p => fs_exists e p || existsb (fun f => is_some (child_of p f.1)) files;
     fs_entries := fun p => match remove_dups (omap (fun f => child_of p f.1) files) with
                            | [] => None | l => Some l end;
     can_spawn := fun _ _ => false; jetson_cell := JetsonCell_new |}.

#[export] Instance meminfo_error_eq_dec : EqDecision MeminfoError.
Proof. solve_decision. Defined.
#[export] Instance thermal_error_eq_dec : EqDecision ThermalError.
Proof. solve_decision. Defined.

(** ** src/monitor/memory.rs *)

Module MemoryTests.
Definition with_paths (config : MemoryMonitorConfig) (meminfo_path psi_path : string) : MemoryMonitor :=
  let m := MemoryMonitor_new config 1000 in
  {| mm_poll_interval := mm_poll_interval m; mm_evaluator := mm_evaluator m;
     mm_meminfo_path := meminfo_path; mm_psi_path := psi_path;
     mm_last_total := mm_last_total m; mm_last_available := mm_last_available m |}.
Definition default_config : MemoryMonitorConfig := default_MemoryMonitorConfig.
(** The monitor with its evaluator having seen a value, and the given readings. *)
Definition having (m : MemoryMonitor) (evaluator : ThresholdEvaluator) (total available : Z) : MemoryMonitor :=
  {| mm_poll_interval := mm_poll_interval m; mm_evaluator := evaluator;
     mm_meminfo_path := mm_meminfo_path m; mm_psi_path := mm_psi_path m;
     mm_last_total := total; mm_last_available := available |}.
Definition reclaim_target (s : SystemSignal) : option Z :=
  match s with MemoryPressure _ _ _ reclaim => Some reclaim | _ => None end.

Definition parse_meminfo_valid : bool :=
  let env := tree [("f", "MemTotal:       65280212 kB" +:+ nl +:+ "MemFree:        40000000 kB" +:+ nl +:+
                         "MemAvailable:   55553552 kB" +:+ nl)] in
  assert_eq (parse_meminfo true env "f") (Return (Ok (65280212 * 1024, 55553552 * 1024))).
Definition monitor_builds_signal : bool :=
  let env := tree [("mem", "MemTotal:       1000000 kB" +:+ nl +:+ "MemAvailable:   500000 kB" +:+ nl);
                   ("psi", "some avg10=0.00 avg60=0.00 avg300=0.00 total=0" +:+ nl)] in
  let monitor := with_paths default_config "mem" "psi" in
  match parse_meminfo true env "mem" with
  | Return (Ok (total, available)) =>
      let monitor := having monitor (mm_evaluator monitor) total available in
      assert_eq (signal_level (memory_build_signal monitor)) Normal
  | _ => false
  end.
Definition monitor_escalation : bool :=
  let monitor := with_paths default_config "" "" in
  let '(evaluator, level) := evaluate (mm_evaluator monitor) #35 in
  let sig := memory_build_signal (having monitor evaluator 1000000000 350000000) in
  assert_eq level (Some Warning) && assert_eq (signal_level sig) Warning &&
  assert_eq (reclaim_target sig) (Some 50000000).
Definition monitor_reclaim_scales_with_level : bool :=
  let monitor := with_paths default_config "" "" in
  let evaluator := (evaluate (mm_evaluator monitor) #15).1 in
  assert_eq (reclaim_target (memory_build_signal (having monitor evaluator 1000000000 150000000)))
    (Some 100000000).
Definition tests : list bool :=
  [parse_meminfo_valid; monitor_builds_signal; monitor_escalation; monitor_reclaim_scales_with_level].
End MemoryTests.

(** ** src/monitor/thermal.rs *)

Module ThermalTests.
Definition with_base (config : ThermalMonitorConfig) (base : string) : ThermalMonitor :=
  let m := ThermalMonitor_new config 1000 in
  {| tm_poll_interval := tm_poll_interval m; tm_evaluator := tm_evaluator m;
     tm_thermal_base := base; tm_zone_indices := tm_zone_indices m;
     tm_zone_type_filter := tm_zone_type_filter m; tm_zones_discovered := tm_zones_discovered m;
     tm_last_temp_mc := tm_last_temp_mc m; tm_last_throttling := tm_last_throttling m |}.
Definition default_config : ThermalMonitorConfig := default_ThermalMonitorConfig.
Definition with_zone_types (c : ThermalMonitorConfig) (types : list string) : ThermalMonitorConfig :=
  {| th_enabled := th_enabled c; th_poll_interval_ms := th_poll_interval_ms c; th_zone_types := types;
     th_warning_mc := th_warning_mc c; th_critical_mc := th_critical_mc c;
     th_emergency_mc := th_emergency_mc c; th_hysteresis_mc := th_hysteresis_mc c |}.
(** The files, with the state of the cooling device. *)
Definition setup_thermal_dir (cur_state : string) : list (string * string) :=
  [("d/thermal_zone0/temp", "45000" +:+ nl); ("d/thermal_zone0/type", "acpitz" +:+ nl);
   ("d/thermal_zone1/temp", "62000" +:+ nl); ("d/thermal_zone1/type", "x86_pkg_temp" +:+ nl);
   ("d/cooling_device0/cur_state", cur_state +:+ nl)].

Definition reads_hottest_zone : bool :=
  assert_eq (read_thermal_state (tree (setup_thermal_dir "0")) "d" [0; 1]) (Ok (62000, false)).
Definition detects_throttling : bool :=
  match read_thermal_state (tree (setup_thermal_dir "5")) "d" [0; 1] with
  | Ok (_, throttling) => throttling
  | Err _ => false
  end.
Definition monitor_zone_discovery : bool :=
  match thermal_read_once (tree (setup_thermal_dir "0")) (with_base default_config "d") with
  | (m, Ok _) => assert_eq (tm_last_temp_mc m) 62000 && negb (tm_last_throttling m)
  | (_, Err _) => false
  end.
Definition monitor_zone_filter : bool :=
  let dir := setup_thermal_dir "0" ++
    [("d/thermal_zone2/temp", "70000" +:+ nl); ("d/thermal_zone2/type", "iwlwifi_1" +:+ nl)] in
  match thermal_read_once (tree dir) (with_base (with_zone_types default_config ["x86_pkg_temp"]) "d") with
  | (m, Ok _) => assert_eq (tm_last_temp_mc m) 62000
  | (_, Err _) => false
  end.
Definition monitor_throttle_ratio : bool :=
  let m := with_base default_config "" in
  let m := with_evaluator m (evaluate (tm_evaluator m) #76000).1 in
  match thermal_build_signal m with
  | ThermalAlert _ _ _ throttle_ratio => assert_near throttle_ratio (f64_lit 7 10) (f64_lit 1 100)
  | _ => false
  end.
Definition monitor_fallback_on_no_match : bool :=
  match thermal_read_once (tree (setup_thermal_dir "0"))
          (with_base (with_zone_types default_config ["nonexistent_sensor"]) "d") with
  | (m, Ok _) => assert_eq (tm_last_temp_mc m) 62000
  | (_, Err _) => false
  end.
Definition tests : list bool :=
  [reads_hottest_zone; detects_throttling; monitor_zone_discovery; monitor_zone_filter;
   monitor_throttle_ratio; monitor_fallback_on_no_match].
End ThermalTests.

(** ** src/monitor/energy.rs *)

Module EnergyTests.
Definition new_without_discovery (config : EnergyMonitorConfig) : EnergyMonitor :=
  {| em_poll_interval := default 1000 (en_poll_interval_ms config);
     em_evaluator := evaluator_new Descending
       {| th_warning := en_warning_pct config; th_critical := en_critical_pct config;
          th_emergency := en_emergency_pct config; th_hysteresis := #2 |};
     em_ignore_when_charging := en_ignore_when_charging config;
     em_power_budgets :=
       {| pb_warning_mw := en_warning_power_budget_mw config;
          pb_critical_mw := en_critical_power_budget_mw config;
          pb_emergency_mw := en_emergency_power_budget_mw config |};
     em_battery_path := None; em_last_charging := false |}.
Definition with_path (config : EnergyMonitorConfig) (battery_path : option string) : EnergyMonitor :=
  let m := new_without_discovery config in
  {| em_poll_interval := em_poll_interval m; em_evaluator := em_evaluator m;
     em_ignore_when_charging := em_ignore_when_charging m; em_power_budgets := em_power_budgets m;
     em_battery_path := battery_path; em_last_charging := em_last_charging m |}.
Definition default_config : EnergyMonitorConfig := default_EnergyMonitorConfig.
Definition setup_battery_dir (status : string) : Env :=
  tree [("d/BAT0/type", "Battery" +:+ nl); ("d/BAT0/capacity", "72" +:+ nl);
        ("d/BAT0/status", status +:+ nl); ("d/BAT0/power_now", "15000000" +:+ nl)].
Definition evaluate_energy' (m : EnergyMonitor) (reading : option f64 * bool) : EnergyMonitor * option Level :=
  evaluate_energy m reading.1 reading.2.

Definition find_battery : bool :=
  assert_eq (find_battery_path (setup_battery_dir "Discharging") "d") (Some "d/BAT0").
Definition read_battery_discharging : bool :=
  let '(cap, charging, power) := read_battery_state (setup_battery_dir "Discharging") "d/BAT0" in
  assert_eq cap (Some #72) && negb charging && assert_eq power (Some 15000).
Definition read_battery_charging : bool :=
  (read_battery_state (setup_battery_dir "Charging") "d/BAT0").1.2.
Definition monitor_no_battery : bool :=
  let '(m, changed) := evaluate_energy (with_path default_config None) None false in
  is_none changed && assert_eq (evaluator_level (em_evaluator m)) Normal.
Definition monitor_battery_depletion : bool :=
  assert_eq (replay evaluate_energy' (with_path default_config None)
      [(Some #50, false); (Some #25, false); (Some #10, false); (Some #3, false)]).2
    [None; Some Warning; Some Critical; Some Emergency].
Definition monitor_charging_overrides : bool :=
  let m := (evaluate_energy (with_path default_config None) (Some #25) false).1 in
  let '(m', level) := evaluate_energy m (Some #25) true in
  assert_eq (evaluator_level (em_evaluator m)) Warning && assert_eq level (Some Normal) &&
  match energy_build_signal m' with
  | EnergyConstraint _ reason _ => assert_eq reason Charging
  | _ => false
  end.
Definition monitor_with_battery : bool :=
  assert_eq (signal_level (energy_build_signal (with_path default_config (Some "d/BAT0")))) Normal.
Definition tests : list bool :=
  [find_battery; read_battery_discharging; read_battery_charging; monitor_no_battery;
   monitor_battery_depletion; monitor_charging_overrides; monitor_with_battery].
End EnergyTests.

(** ** src/monitor/compute.rs *)

Module ComputeTests.
Definition with_stat_path (m : ComputeMonitor) (path : string) : ComputeMonitor :=
  {| cm_poll_interval := cm_poll_interval m; cm_evaluator := cm_evaluator m;
     cm_warning_usage_pct := cm_warning_usage_pct m; cm_stat_path := path;
     cm_gpu_provider := cm_gpu_provider m; cm_prev_snapshot := cm_prev_snapshot m;
     cm_last_cpu := cm_last_cpu m; cm_last_gpu := cm_last_gpu m;
     cm_recommended := cm_recommended m; cm_reason := cm_reason m |}.
(** On a machine without GPU telemetry. *)
Definition with_path (config : ComputeMonitorConfig) (path : string) : ComputeMonitor :=
  with_stat_path (compute_from_config empty_env config 1000) path.
Definition default_config : ComputeMonitorConfig := default_ComputeMonitorConfig.
Definition with_gpu_config (c : ComputeMonitorConfig) (backend : GpuBackend) (path : option string)
    : ComputeMonitorConfig :=
  {| cpu_enabled := cpu_enabled c; cpu_poll_interval_ms := cpu_poll_interval_ms c;
     cpu_warning_pct := cpu_warning_pct c; cpu_critical_pct := cpu_critical_pct c;
     cpu_hysteresis_pct := cpu_hysteresis_pct c; gpu_backend := backend; gpu_sysfs_path := path |}.
Definition write_stat (user nice sys idle : Z) : string * string :=
  let row label := label +:+ " " +:+ pretty user +:+ " " +:+ pretty nice +:+ " " +:+ pretty sys +:+ " " +:+
                   pretty idle +:+ " 100 50 30 0 0 0" +:+ nl in
  ("stat", row "cpu " +:+ row "cpu0").
(** Reads of the monitor, each with the files there are then. *)
Definition read_once (m : ComputeMonitor) (files : list (string * string))
    : outcome (ComputeMonitor * result bool StatError) := compute_read_once true (tree files) m.

Definition cpu_snapshot_parsing : bool :=
  assert_eq
    (match read_cpu_snapshot true (tree [write_stat 1000 100 500 8000]) "stat" with
     | Return (Ok snap) => Some (snap_total snap, snap_idle snap) | _ => None end)
    (Some (9780, 8000)).
Definition compute_delta_calculation : bool :=
  match replay_or_panic read_once (with_path default_config "stat")
          [[write_stat 1000 0 500 8000]; [write_stat 1500 0 700 8200]] with
  | Return (m, [Ok false; Ok true]) =>
      SFltb #70 (cm_last_cpu m) && SFltb (cm_last_cpu m) #85 && assert_feq (cm_last_gpu m) #0
  | _ => false
  end.
Definition cpu_bottleneck_recommendation : bool :=
  assert_eq (compute_recommendation #85 #30 #70) (BackendGpu, CpuBottleneck).
Definition both_loaded_recommendation : bool :=
  assert_eq (compute_recommendation #92 #92 #70) (BackendAny, BothLoaded).
Definition balanced_recommendation : bool :=
  assert_eq (compute_recommendation #30 #32 #70) (BackendAny, Balanced).
Definition no_emergency_level : bool :=
  assert_eq (evaluate (cm_evaluator (with_path default_config "")) #99).2 (Some Critical).
(** The provider with a fixed utilisation: one that reads it from a file. *)
Definition gpu_provider_value_reaches_monitor : bool :=
  let util := ("util", "55") in
  let m := with_stat_path (ComputeMonitor_new default_config 1000 (SysfsGpuProvider ["util"] [] "fixed")) "stat" in
  match replay_or_panic read_once m [[write_stat 1000 0 500 8000; util]; [write_stat 1500 0 700 8200; util]] with
  | Return (m, [Ok false; Ok true]) => SFltb (SFabs (f64_sub (cm_last_gpu m) #55)) (S754_finite false 1 (-52))
  | _ => false
  end.
Definition gpu_provider_none_returns_zero : bool :=
  assert_feq (read_gpu empty_env (ComputeMonitor_new default_config 1000 NullGpuProvider)) #0.
Definition resolve_backend_maps_deprecated_sysfs_path : bool :=
  assert_eq (resolve_backend (with_gpu_config default_config (gpu_backend default_config) (Some "/custom/p")))
    (GpuCustomSysfs "/custom/p").
Definition resolve_backend_prefers_explicit_backend_over_deprecated_path : bool :=
  assert_eq (resolve_backend (with_gpu_config default_config GpuNull (Some "/should/be/ignored"))) GpuNull.
Definition recommendation_change_without_level_change : bool :=
  let warning_pct := cpu_warning_pct default_config in
  let '(rec, _) := compute_recommendation #85 #30 warning_pct in
  let '(new_rec, _) := compute_recommendation #85 #80 warning_pct in
  assert_eq rec BackendGpu && negb (assert_eq new_rec rec) && assert_eq new_rec BackendAny.
Definition tests : list bool :=
  [cpu_snapshot_parsing; compute_delta_calculation; cpu_bottleneck_recommendation;
   both_loaded_recommendation; balanced_recommendation; no_emergency_level;
   gpu_provider_value_reaches_monitor; gpu_provider_none_returns_zero;
   resolve_backend_maps_deprecated_sysfs_path;
   resolve_backend_prefers_explicit_backend_over_deprecated_path;
   recommendation_change_without_level_change].
End ComputeTests.

(** ** src/monitor/external.rs *)

Module ExternalTests.
Definition thermal_json : string := "{thermal_alert}".
Definition memory_json : string := "{memory_pressure}".
Definition json (text : string) : option SystemSignal :=
  if String.eqb text thermal_json then Some (ThermalAlert Warning 65000 false #1)
  else if String.eqb text memory_json then Some (MemoryPressure Normal 500000000 2000000000 0)
  else None.
Definition config (transport : string) : ExternalMonitorConfig :=
  {| ext_enabled := true; ext_transport := transport |}.
Definition line (text : string) : LineEvent :=
  {| le_shutdown := false; le_line := Some text; le_rx_open := true |}.

(** Nobody connects at first; then a client that sends a line. *)
Definition unix_socket_injection : bool :=
  let monitor := ExternalMonitor_new (config "unix:/tmp/test_ext.sock") in
  let '(acts, _) := external_run json monitor [] true true
    [(false, AcceptWouldBlock); (false, AcceptClient true [line thermal_json]); (true, AcceptWouldBlock)] in
  assert_eq (omap (fun a => match a with ExtInject s => Some (signal_level s) | _ => None end) acts) [Warning].
Definition skips_invalid_lines : bool :=
  assert_eq (map signal_level (run_with_reader json (map line (lines ("not json" +:+ nl +:+ memory_json +:+ nl)))))
    [Normal].
Definition initial_signal_is_none : bool :=
  is_none (initial_signal (ExternalMonitor_new (config "stdin"))).
Definition tests : list bool := [unix_socket_injection; skips_invalid_lines; initial_signal_is_none].
End ExternalTests.

(** ** src/monitor/gpu_provider.rs *)

Module GpuTests.
Definition parses_gr3d_freq_basic : bool :=
  assert_eq (parse_gr3d_freq "04-23-2026 RAM 6421/30991MB CPU [0%@2265] EMC_FREQ 0% GR3D_FREQ 42% GPU@37C")
    (Some 42).
Definition parses_gr3d_freq_edge_values : bool :=
  assert_eq (parse_gr3d_freq "... GR3D_FREQ 0% ...") (Some 0) &&
  assert_eq (parse_gr3d_freq "... GR3D_FREQ 100% ...") (Some 100).
Definition parse_gr3d_freq_clamps_over_100 : bool :=
  assert_eq (parse_gr3d_freq "... GR3D_FREQ 150% ...") (Some 100).
Definition parse_gr3d_freq_missing_returns_none : bool :=
  assert_eq (parse_gr3d_freq "RAM 1/2 CPU 5%") None.

Definition parses_a_utilization_reading_that_carries_its_unit : bool :=
  assert_eq (parse_util_pct ("90 %" +:+ nl)) (Some #90) && assert_eq (parse_util_pct ("0 %" +:+ nl)) (Some #0) &&
  assert_eq (parse_util_pct "90%") (Some #90) && assert_eq (parse_util_pct ("89" +:+ nl)) (Some #89).
Definition a_reading_with_no_leading_number_is_not_a_utilization : bool :=
  is_none (parse_util_pct ("N/A" +:+ nl)) && is_none (parse_util_pct "") && is_none (parse_util_pct ("%" +:+ nl)).
Definition the_sysfs_provider_reads_a_percentage_written_with_a_unit : bool :=
  assert_eq (util_pct (tree [("gpu_busy_percentage", "90 %" +:+ nl)])
    (sysfs_with_custom_util "gpu_busy_percentage")) (Some #90).
Definition the_galaxy_s25_kgsl_class_path_is_a_utilization_candidate : bool :=
  assert_eq (detect_backend (tree [("root/class/kgsl/kgsl-3d0/devfreq/gpu_load", "89" +:+ nl)]) "root") GpuSysfs.
Definition the_frequency_falls_back_to_devfreq_when_gpuclk_is_unreadable : bool :=
  match sysfs_with_defaults with
  | SysfsGpuProvider util_paths _ desc =>
      assert_eq (freq_hz (tree [("root/cur_freq", "1200000000" +:+ nl)])
        (SysfsGpuProvider util_paths ["root/gpuclk"; "root/cur_freq"] desc)) (Some 1200000000)
  | _ => false
  end.

Definition detect_prefers_jetson_when_gv11b_devfreq_present : bool :=
  assert_eq (detect_backend (tree [("root/class/devfreq/17000000.gv11b/cur_freq", "1377000000" +:+ nl)]) "root")
    GpuJetson.
Definition detect_falls_back_to_sysfs_when_adreno_candidate_exists : bool :=
  assert_eq (detect_backend (tree [("root/kernel/gpu/gpu_busy_percentage", "50" +:+ nl)]) "root") GpuSysfs.
Definition detect_returns_null_when_nothing_present : bool :=
  assert_eq (detect_backend (tree []) "root") GpuNull.

Definition sysfs_provider_reads_util_from_file : bool :=
  assert_eq (util_pct (tree [("f", "67" +:+ nl)]) (SysfsGpuProvider ["f"] [] "t")) (Some #67).
Definition sysfs_provider_clamps_out_of_range : bool :=
  assert_eq (util_pct (tree [("f", "150" +:+ nl)]) (SysfsGpuProvider ["f"] [] "t")) (Some #100).
Definition sysfs_provider_returns_none_when_no_path_matches : bool :=
  is_none (util_pct (tree []) (SysfsGpuProvider ["/nonexistent/gpu_busy"] [] "t")).
Definition sysfs_provider_reads_freq_when_present : bool :=
  assert_eq (freq_hz (tree [("f", "585000000" +:+ nl)]) (SysfsGpuProvider [] ["f"] "t")) (Some 585000000).
Definition sysfs_provider_freq_none_when_absent : bool :=
  is_none (freq_hz (tree []) (SysfsGpuProvider [] ["/nonexistent/freq"] "t")).
Definition null_provider_always_none : bool :=
  is_none (util_pct (tree []) NullGpuProvider) && is_none (freq_hz (tree []) NullGpuProvider).

(** A provider whose reader has gone through the lines, and then reads empty ones. *)
Definition with_source (freq_path : option string) (lines : list string) (env : Env) : GpuProvider * Env :=
  (JetsonGpuProvider freq_path true "test",
   {| fs_read := fs_read env; fs_exists := fs_exists env; fs_entries := fs_entries env;
      can_spawn := can_spawn env;
      jetson_cell := cell_after (reader_run (map (fun l => (false, Some l)) (lines ++ [""]))) |}).
Definition jetson_provider_parses_gr3d_line : bool :=
  let '(p, env) := with_source None ["RAM 1/2 CPU [0%] GR3D_FREQ 42% GPU@37C"] (tree []) in
  assert_eq (util_pct env p) (Some #42) && is_none (freq_hz env p).
Definition jetson_provider_ignores_malformed_lines : bool :=
  let '(p, env) := with_source None ["no match here"; "also no"; nl] (tree []) in is_none (util_pct env p).
Definition jetson_provider_reads_freq_file : bool :=
  let '(p, env) := with_source (Some "f") [] (tree [("f", "1377000000" +:+ nl)]) in
  assert_eq (freq_hz env p) (Some 1377000000).
(** One line and its stores, an empty one, and [drop] while the thread waits for the next. *)
Definition make_store (j : JetsonRun) : JetsonRun :=
  match jr_reader j with AtStores (s :: stores) => reader_store j s stores | _ => j end.
Definition jetson_provider_drop_joins_cleanly : bool :=
  let j := reader_turn (reader_look jetson_start false) (ReadOk "GR3D_FREQ 10%") in
  let j := provider_drop (reader_look (make_store (make_store j)) false) in
  let j := provider_joined (reader_look (reader_turn j (ReadOk "")) true) in
  match jr_provider j, jr_reader j with Dropped, ReaderGone => negb (jr_child j) | _, _ => false end.
Definition jetson_freq_only_provider : bool :=
  let env := tree [("f", "828750000" +:+ nl)] in
  let p := jetson_freq_only "f" in is_none (util_pct env p) && assert_eq (freq_hz env p) (Some 828750000).
Definition discover_jetson_freq_path_finds_gv11b : bool :=
  assert_eq (discover_jetson_freq_path (tree [("root/class/devfreq/17000000.gv11b/cur_freq", "1" +:+ nl)]) "root")
    (Some "root/class/devfreq/17000000.gv11b/cur_freq").
Definition discover_jetson_freq_path_returns_none_when_no_devfreq : bool :=
  is_none (discover_jetson_freq_path (tree []) "root").

Definition tests : list bool :=
  [parses_gr3d_freq_basic; parses_gr3d_freq_edge_values; parse_gr3d_freq_clamps_over_100;
   parse_gr3d_freq_missing_returns_none; parses_a_utilization_reading_that_carries_its_unit;
   a_reading_with_no_leading_number_is_not_a_utilization;
   the_sysfs_provider_reads_a_percentage_written_with_a_unit;
   the_galaxy_s25_kgsl_class_path_is_a_utilization_candidate;
   the_frequency_falls_back_to_devfreq_when_gpuclk_is_unreadable;
   detect_prefers_jetson_when_gv11b_devfreq_present;
   detect_falls_back_to_sysfs_when_adreno_candidate_exists; detect_returns_null_when_nothing_present;
   sysfs_provider_reads_util_from_file; sysfs_provider_clamps_out_of_range;
   sysfs_provider_returns_none_when_no_path_matches; sysfs_provider_reads_freq_when_present;
   sysfs_provider_freq_none_when_absent; null_provider_always_none; jetson_provider_parses_gr3d_line;
   jetson_provider_ignores_malformed_lines; jetson_provider_reads_freq_file;
   jetson_provider_drop_joins_cleanly; jetson_freq_only_provider;
   discover_jetson_freq_path_finds_gv11b; discover_jetson_freq_path_returns_none_when_no_devfreq].
End GpuTests.

Definition monitor_tests : list bool :=
  MemoryTests.tests ++ ThermalTests.tests ++ EnergyTests.tests ++ ComputeTests.tests ++
  ExternalTests.tests ++ GpuTests.tests.

(** The monitors pass their tests. *)
Theorem monitor_tests_pass : forallb id monitor_tests = true.
Proof. vm_compute. reflexivity. Qed.
