(* ===== verification/TestsChannel.v ===== *)
(** * TestsChannel: the unit tests of the transports, for every JSON encoding
    (the [#[cfg(test)]] modules of src/channel/unix_socket.rs, src/channel/tcp.rs and
    src/emitter/unix_socket.rs)

    The tests talk to the transports through real sockets.  Here the client is what its
    socket makes of the calls: connecting is what [accept] answers, the bytes it sends are
    what the reader thread parses, and closing ends the reader and makes writes fail.  The
    two channels' tests are the same up to their names, so they are written once, over the
    interface of [ChanOp], and stated for either.

    Unlike the other tests these do not run one encoding: they are propositions about any
    JSON that reads its own messages back, and hold for all of them. *)

From Stdlib Require Import ZArith Lia SpecFloat Ascii String.
From stdpp Require Import base tactics numbers countable list strings.
From S2P Require Import Prelude Float Signal Wire Channel TcpChannel MockWire MockEngine TestsCore.
Local Open Scope string_scope.
Local Open Scope list_scope.
Local Open Scope Z_scope.

(** ** The client *)

Definition accepting : AcceptResult := Accepted 4 true.
Definition io_with (a : AcceptResult) (open : bool) : Io :=
  {| io_accept := a; io_write := fun _ => if open then WriteOk else WriteFails 0; io_flush := open |}.
(** [wait_for_client] with a client already connecting. *)
Definition client_waits : ChanOp :=
  OpWait [{| wait_shutdown := false; wait_accept := accepting; wait_elapsed := false |}].
(** [drop(client)], as the reader thread sees it. *)
Definition client_drops : ChanOp := OpReaderEnds.

Definition heartbeat : EngineStatus := {|
  kv_cache_bytes := 1024; kv_cache_budget_bytes := 4096; kv_cache_tokens := 32;
  tbt_ms := f32_lit 125 10; phase := PhaseDecode; state := EngineRunning |}.
Definition make_heartbeat : EngineMessage := Heartbeat heartbeat.
Definition make_capability : EngineMessage := Heartbeat heartbeat.

Definition warning_signal : SystemSignal := MemoryPressure Warning 500000000 2000000000 50000000.
Definition normal_signal : SystemSignal := MemoryPressure Normal 1000000000 2000000000 0.
Definition thermal_signal : SystemSignal := ThermalAlert Normal 45000 false #1.
Definition directive_99 : EngineDirective := {| seq_id := 99; commands := [KvCompress (f32_lit 1 2)] |}.

Definition directive_42 : EngineDirective := {| seq_id := 42; commands := [KvCompress (f32_lit 1 2)] |}.

(** The length prefix and the payload, as the tests' clients read them. *)
Definition client_reads {M} (parse : bytes -> option M) (sent : Sent) : option M :=
  match sent with
  | [Whole _ b] =>
      match read_exact 4 b with
      | Ok (len_buf, b) =>
          match read_exact (Z.to_nat (from_be_bytes len_buf)) b with
          | Ok (json_buf, _) => parse json_buf
          | Err _ => None
          end
      | Err _ => None
      end
  | _ => None
  end.

Section Json.
Context `{Json} `{EngineJson} (signal_of_json : bytes -> option SystemSignal).

(** [send_engine_msg]: the bytes the client writes. *)
Definition send_engine_msg (msg : EngineMessage) : bytes :=
  match json_of_engine msg with
  | Some json => to_be_bytes (as_u32 (Z.of_nat (length json))) ++ json
  | None => []
  end.

(** ** The channels' tests *)

Section AnyChannel.
Context {C : Type} (op : C -> ChanOp -> C * ChanOut)
  (reader : nat -> bytes -> list EngineMessage * ReadError) (new : C).

(** What the calls return. *)
Definition outs (ops : list ChanOp) : list ChanOut := (run_ops op new ops).2.
(** The reader thread on the bytes that have arrived. *)
Definition arrives (b : bytes) : list ChanOp := map OpReaderSends (reader (S (length b)) b).1.

Definition receives_heartbeat : Prop :=
  outs ([client_waits; OpIsConnected] ++ arrives (send_engine_msg make_heartbeat) ++ [OpTryRecv]) =
  [OutBool true; OutBool true; OutBool true; OutMessage (Some make_heartbeat)].
Definition no_message : Prop := outs [client_waits; OpTryRecv] = [OutBool true; OutMessage None].
Definition reader_eof : Prop :=
  outs [client_waits; OpIsConnected; client_drops; OpTryRecv; OpIsConnected] =
  [OutBool true; OutBool true; OutUnit; OutMessage None; OutBool false].
Definition write_error : Prop :=
  outs [client_waits; OpIsConnected; client_drops; OpEmit (io_with WouldBlock false) warning_signal; OpIsConnected] =
  [OutBool true; OutBool true; OutUnit; OutSent []; OutBool false].
(** The second connection is accepted by the emission that needs it. *)
Definition reconnects : Prop :=
  exists b, client_reads signal_of_json [Whole 4 b] = Some normal_signal /\
  outs ([client_waits; OpIsConnected; client_drops; OpTryRecv; OpIsConnected;
         OpEmit (io_with accepting true) normal_signal; OpIsConnected] ++
        arrives (send_engine_msg make_heartbeat) ++ [OpTryRecv]) =
  [OutBool true; OutBool true; OutUnit; OutMessage None; OutBool false;
   OutSent [Whole 4 b]; OutBool true; OutBool true; OutMessage (Some make_heartbeat)].
Definition receives_capability : Prop :=
  outs ([client_waits] ++ arrives (send_engine_msg make_capability) ++ [OpTryRecv]) =
  [OutBool true; OutBool true; OutMessage (Some make_capability)].
Definition not_connected_at_first : Prop := outs [OpIsConnected] = [OutBool false].
Definition sends_directive : Prop :=
  exists sent, client_reads directive_of_json sent = Some (Directive directive_99) /\
  outs [client_waits; OpEmitDirective (io_with WouldBlock true) directive_99] = [OutBool true; OutSent sent].
Definition emit_is_noop : Prop :=
  outs [OpEmit (io_with WouldBlock true) thermal_signal; OpIsConnected] = [OutSent []; OutBool false].
End AnyChannel.
End Json.

(** *** src/channel/unix_socket.rs *)

Module UnixTests.
Section Json.
Context `{Json} `{EngineJson} (signal_of_json : bytes -> option SystemSignal).
Definition channel : Unix.UnixSocketChannel := {| Unix.socket_path := "channel_test.sock"; Unix.state := Listening |}.
Definition try_recv_returns_heartbeat_from_engine : Prop := receives_heartbeat unix_op reader_thread channel.
Definition try_recv_returns_none_when_no_message : Prop := no_message unix_op channel.
Definition disconnected_after_reader_eof : Prop := reader_eof unix_op channel.
Definition disconnected_after_write_error : Prop := write_error unix_op channel.
Definition reconnect_after_disconnect : Prop := reconnects signal_of_json unix_op reader_thread channel.
Definition try_recv_returns_capability_message : Prop := receives_capability unix_op reader_thread channel.
Definition is_connected_false_before_client_connects : Prop := not_connected_at_first unix_op channel.
Definition emit_directive_sends_manager_message : Prop := sends_directive unix_op channel.
Definition emit_without_client_is_noop : Prop := emit_is_noop unix_op channel.
Definition tests : list Prop :=
  [try_recv_returns_heartbeat_from_engine; try_recv_returns_none_when_no_message;
   disconnected_after_reader_eof; disconnected_after_write_error; reconnect_after_disconnect;
   try_recv_returns_capability_message; is_connected_false_before_client_connects;
   emit_directive_sends_manager_message; emit_without_client_is_noop].
End Json.
End UnixTests.

(** *** src/channel/tcp.rs *)

Module TcpTests.
Section Json.
Context `{Json} `{EngineJson} (signal_of_json : bytes -> option SystemSignal).
Definition channel : Tcp.TcpChannel := {| Tcp.addr := "127.0.0.1:9"; Tcp.state := Tcp.TcpListening |}.
Definition try_recv_returns_heartbeat_from_engine : Prop := receives_heartbeat tcp_op Tcp.tcp_spawn_reader channel.
Definition try_recv_returns_none_when_no_message : Prop := no_message tcp_op channel.
Definition disconnected_after_reader_eof : Prop := reader_eof tcp_op channel.
Definition disconnected_after_write_error : Prop := write_error tcp_op channel.
Definition reconnect_after_disconnect : Prop := reconnects signal_of_json tcp_op Tcp.tcp_spawn_reader channel.
Definition try_recv_returns_capability_message : Prop := receives_capability tcp_op Tcp.tcp_spawn_reader channel.
Definition is_connected_false_before_client_connects : Prop := not_connected_at_first tcp_op channel.
Definition emit_directive_sends_manager_message : Prop := sends_directive tcp_op channel.
Definition emit_without_client_is_noop : Prop := emit_is_noop tcp_op channel.
Definition addr_returns_bound_address : Prop :=
  forall addr, Tcp.addr <$> Tcp.tcp_new addr true true = Some addr.
Definition tests : list Prop :=
  [try_recv_returns_heartbeat_from_engine; try_recv_returns_none_when_no_message;
   disconnected_after_reader_eof; disconnected_after_write_error; reconnect_after_disconnect;
   try_recv_returns_capability_message; is_connected_false_before_client_connects;
   emit_directive_sends_manager_message; emit_without_client_is_noop; addr_returns_bound_address].
End Json.
End TcpTests.

(** *** src/emitter/unix_socket.rs *)

Module EmitterTests.
Section Json.
Context `{Json} `{EngineJson} (signal_of_json : bytes -> option SystemSignal).
Definition emitter : UnixEmitter.UnixSocketEmitter := {| UnixEmitter.socket_path := "test.sock"; UnixEmitter.client := None |}.
Definition with_client : UnixEmitter.UnixSocketEmitter * bool :=
  UnixEmitter.emitter_wait_for_client emitter
    [{| wait_shutdown := false; wait_accept := accepting; wait_elapsed := false |}].
Definition roundtrip_signal_over_socket : Prop :=
  with_client.2 = true /\
  client_reads signal_of_json (UnixEmitter.emitter_emit (io_with WouldBlock true) with_client.1 warning_signal).2
    = Some warning_signal.
Definition emit_without_client_is_noop : Prop :=
  UnixEmitter.emitter_emit (io_with WouldBlock true) emitter thermal_signal = (emitter, []).
Definition roundtrip_directive_over_socket : Prop :=
  with_client.2 = true /\
  client_reads directive_of_json (UnixEmitter.emitter_emit_directive (io_with WouldBlock true) with_client.1 directive_42).2
    = Some (Directive directive_42).
Definition emit_directive_without_client_is_noop : Prop :=
  UnixEmitter.emitter_emit_directive (io_with WouldBlock true) emitter {| seq_id := 1; commands := [Suspend] |}
    = (emitter, []).
Definition tests : list Prop :=
  [roundtrip_signal_over_socket; emit_without_client_is_noop; roundtrip_directive_over_socket;
   emit_directive_without_client_is_noop].
End Json.
End EmitterTests.

(** ** They hold *)

Section Hold.
Context `{Json} `{EngineJson} (signal_of_json : bytes -> option SystemSignal).

(** [serde_json] on the signals of the tests. *)
Definition signal_json_ok (s : SystemSignal) : Prop :=
  exists json, json_of_signal s = Some json /\ Z.of_nat (length json) <= u32_max /\
    signal_of_json json = Some s.
(** The messages of the tests are well below the bound on payloads. *)
Definition heartbeat_json_short : Prop :=
  forall json, json_of_engine make_heartbeat = Some json -> Z.of_nat (length json) <= MAX_PAYLOAD_SIZE.
Definition directive_json_short (d : EngineDirective) : Prop :=
  forall json, json_of_message (Directive d) = Some json -> Z.of_nat (length json) <= u32_max.

Lemma client_reads_frame {M} (parse : bytes -> option M) conn json : Z.of_nat (length json) <= u32_max ->
  client_reads parse [Whole conn (frame json)] = parse json.
Proof.
  intros Hl. unfold client_reads, frame. rewrite read_exact_app by done.
  rewrite as_u32_id by (unfold is_u32; lia). rewrite be_bytes_roundtrip by (unfold is_u32; lia).
  rewrite <- (app_nil_r json) at 2. by rewrite read_exact_app by (by rewrite Nat2Z.id).
Qed.

Context (Hsignals : Forall signal_json_ok [warning_signal; normal_signal])
  (Hshort : heartbeat_json_short) (Hdirectives : Forall directive_json_short [directive_99; directive_42])
  `{!JsonLaws}.

(** The reader thread parses the heartbeat, and nothing else. *)
Lemma arrives_heartbeat : arrives reader_thread (send_engine_msg make_heartbeat) = [OpReaderSends make_heartbeat].
Proof.
  destruct (engine_roundtrip make_heartbeat eq_refl) as (json & Hj & _ & Hm).
  pose proof (Hshort json Hj) as Hs. unfold arrives, send_engine_msg. rewrite Hj.
  change (to_be_bytes _ ++ json) with (frame json).
  pose proof (reader_thread_frames [json] (S (length (frame json))) []) as Hr.
  cbn [map concat length] in Hr. rewrite !app_nil_r in Hr. rewrite Hr.
  - cbn [Nat.sub]. rewrite omap_cons, Hm. by destruct (length (frame json)).
  - constructor; [|constructor]. split; [exact Hs|congruence].
  - rewrite frame_length. lia.
Qed.

Lemma normal_signal_sent : exists json, json_of_signal normal_signal = Some json /\
  client_reads signal_of_json [Whole 4 (frame json)] = Some normal_signal.
Proof.
  apply Forall_cons in Hsignals as [_ [(json & Hj & Hl & Hp) _]%Forall_cons].
  exists json. split; [done|]. by rewrite client_reads_frame.
Qed.

Lemma directive_sent d : directive_ok d = true -> directive_json_short d ->
  exists json, json_of_message (Directive d) = Some json /\
    client_reads directive_of_json [Whole 4 (frame json)] = Some (Directive d).
Proof.
  intros Hok Hs. destruct (directive_roundtrip d Hok) as (json & Hj & _ & Hp).
  exists json. split; [done|]. by rewrite client_reads_frame by (by apply Hs).
Qed.

Lemma unix_tests_hold : Forall id (UnixTests.tests signal_of_json).
Proof.
  destruct normal_signal_sent as (sj & Hsj & Hsr).
  pose proof Hdirectives as [H99 _]%Forall_cons.
  destruct (directive_sent directive_99 eq_refl H99) as (dj & Hdj & Hdr).
  repeat apply Forall_cons_2; try apply Forall_nil_2; unfold id.
  - unfold UnixTests.try_recv_returns_heartbeat_from_engine, receives_heartbeat. by rewrite arrives_heartbeat.
  - reflexivity.
  - reflexivity.
  - unfold UnixTests.disconnected_after_write_error, write_error, outs. cbn. unfold Unix.unix_emit. cbn.
    by destruct (json_of_signal warning_signal).
  - exists (frame sj). split; [exact Hsr|]. rewrite arrives_heartbeat. unfold outs. cbn.
    unfold Unix.unix_emit. cbn -[frame]. by rewrite Hsj.
  - unfold UnixTests.try_recv_returns_capability_message, receives_capability.
    change make_capability with make_heartbeat. by rewrite arrives_heartbeat.
  - reflexivity.
  - exists [Whole 4 (frame dj)]. split; [exact Hdr|]. unfold outs. cbn.
    unfold Unix.unix_emit_directive. cbn -[frame]. by rewrite Hdj.
  - reflexivity.
Qed.

(** Through [tcp_is_unix]'s lemmas: the other channel does the same. *)
Lemma tcp_outs ops : outs tcp_op TcpTests.channel ops = outs unix_op UnixTests.channel ops.
Proof. symmetry. by apply (run_ops_same ops UnixTests.channel TcpTests.channel). Qed.
Lemma tcp_arrives b : arrives Tcp.tcp_spawn_reader b = arrives reader_thread b.
Proof. unfold arrives. by rewrite tcp_spawn_reader_same. Qed.

(** A test of the one channel is a test of the other. *)
Lemma tcp_tests_hold : Forall id (TcpTests.tests signal_of_json).
Proof.
  assert (Forall id (UnixTests.tests signal_of_json ++ [TcpTests.addr_returns_bound_address])) as Hu.
  { apply Forall_app. split; [apply unix_tests_hold|]. repeat constructor. }
  unfold UnixTests.tests, TcpTests.tests in *. cbn [app] in Hu. rewrite !Forall_cons in Hu |- *. unfold id in *.
  unfold TcpTests.try_recv_returns_heartbeat_from_engine, TcpTests.try_recv_returns_none_when_no_message,
    TcpTests.disconnected_after_reader_eof, TcpTests.disconnected_after_write_error,
    TcpTests.reconnect_after_disconnect, TcpTests.try_recv_returns_capability_message,
    TcpTests.is_connected_false_before_client_connects, TcpTests.emit_directive_sends_manager_message,
    TcpTests.emit_without_client_is_noop, receives_heartbeat, no_message, reader_eof, write_error, reconnects,
    receives_capability, not_connected_at_first, sends_directive, emit_is_noop.
  rewrite !tcp_arrives, !tcp_outs. exact Hu.
Qed.

Lemma emitter_tests_hold : Forall id (EmitterTests.tests signal_of_json).
Proof.
  apply Forall_cons in Hsignals as [(sj & Hsj & Hsl & Hsp) _].
  repeat apply Forall_cons_2; try apply Forall_nil_2; unfold id.
  - split; [reflexivity|]. cbn -[frame client_reads]. rewrite Hsj.
    etrans; [exact (client_reads_frame _ 4 sj Hsl)|exact Hsp].
  - reflexivity.
  - pose proof Hdirectives as [_ [H42 _]%Forall_cons]%Forall_cons.
    destruct (directive_sent directive_42 eq_refl H42) as (dj & Hdj & Hdp).
    split; [reflexivity|]. cbn -[frame client_reads]. rewrite Hdj. exact Hdp.
  - reflexivity.
Qed.
End Hold.

(** ** The result *)

(** Whatever JSON encodes the messages, as long as it reads its own directives, engine
    messages and the two signals of the tests back, spends at most 64 KiB on a heartbeat
    and less than 4 GiB on the directives, the transports' unit tests pass: on either channel a heartbeat the engine writes is the
    one [try_recv] returns, an idle engine gives none, the end of the stream and a failed
    write each end the connection, the next emission accepts a new client, to whom messages
    and signals then go both ways, and what the client reads back is the signal or the
    directive that was emitted; without a client every emission does nothing. *)
Theorem channel_tests_pass `{JsonLaws} signal_of_json :
  Forall (signal_json_ok signal_of_json) [warning_signal; normal_signal] -> heartbeat_json_short ->
  Forall directive_json_short [directive_99; directive_42] ->
  Forall id (UnixTests.tests signal_of_json ++ TcpTests.tests signal_of_json ++ EmitterTests.tests signal_of_json).
Proof.
  intros Hs Hb Hd. rewrite !Forall_app. split_and!.
  - by apply unix_tests_hold.
  - by apply tcp_tests_hold.
  - by apply emitter_tests_hold.
Qed.

(** ** Witness *)

(** The binary digits of the messages, and a byte for each of the two signals. *)
Definition tests_json : Json := {|
  json_of_message := @json_of_message coded_json;
  json_of_signal := fun s => match s with
    | MemoryPressure Warning _ _ _ => Some [1] | MemoryPressure Normal _ _ _ => Some [2] | _ => None end;
  message_of_json := @message_of_json coded_json
|}.
Definition tests_signal_of_json (b : bytes) : option SystemSignal :=
  match b with [1] => Some warning_signal | [2] => Some normal_signal | _ => None end.
Lemma tests_json_laws : @JsonLaws tests_json coded_engine_json.
Proof. destruct coded_json_laws as [Hd He Hs]. by split. Qed.

Lemma channel_tests_pass_witness :
  Forall id (@UnixTests.tests tests_json coded_engine_json tests_signal_of_json ++
    @TcpTests.tests tests_json coded_engine_json tests_signal_of_json ++
    @EmitterTests.tests tests_json coded_engine_json tests_signal_of_json) /\
  length (@UnixTests.tests tests_json coded_engine_json tests_signal_of_json ++
    @TcpTests.tests tests_json coded_engine_json tests_signal_of_json ++
    @EmitterTests.tests tests_json coded_engine_json tests_signal_of_json) = 23%nat.
Proof.
  split; [|reflexivity].
  apply (@channel_tests_pass tests_json coded_engine_json tests_json_laws tests_signal_of_json).
  - repeat constructor; eexists; repeat split; vm_compute; congruence.
  - intros json Hj. apply Z.leb_le. injection Hj as <-. vm_compute. reflexivity.
  - constructor; [|constructor; [|constructor]];
      intros json Hj; apply Z.leb_le; injection Hj as <-; vm_compute; reflexivity.
Defined.
