(* ===== verification/TestsSim.v ===== *)
(** * TestsSim: the unit tests of the simulator, run on the model
    (the [#[cfg(test)]] modules under src/sim/)

    As in TestsCore, one boolean for each test.  [evalexpr]'s parser and the YAML parser are
    not part of the program, so the tests of built-in functions apply the function that is
    registered under the name to the value the variable is bound to, and the tests that load
    baseline.yaml start from the record it stands for.  Left out are the tests about the
    parsers themselves and those about the random generator's samples, which
    [SimSignal.noise_streams_independent] covers for every generator. *)

From Stdlib Require Import ZArith Lia SpecFloat Ascii String.
From stdpp Require Import base tactics numbers countable list strings.
From S2P Require Import Prelude Float RustStr Signal Config Wire Monitor Fmt SimClock SimExpr SimYaml SimConfig SimState SimPhysics SimSignal TestsCore.
Local Open Scope string_scope.
Local Open Scope list_scope.
Local Open Scope Z_scope.

Definition ms (n : Z) : Z := duration_from_millis n.
(** A test that panics fails. *)
Definition returns (o : outcome bool) : bool := match o with Return b => b | Panic => false end.
(** Enough turns for the periodic events of a test. *)
Definition FUEL : nat := 20.

(** ** src/sim/clock.rs *)

Module SimClockTests.
Definition scheduled (reqs : list (EventKind * Z)) : outcome VirtualClock :=
  schedule_all true VirtualClock_new reqs.
Definition periodic (kind : EventKind) (first period until : Z) : outcome VirtualClock :=
  default Panic (schedule_periodic FUEL true VirtualClock_new kind first period until).

Definition test_clock_advances_monotonically : bool :=
  returns (let! clock := advance VirtualClock_new (ms 100) in
    let! clock := advance clock (ms 200) in
    let! clock := advance clock (ms 50) in
    Return (assert_eq (vc_now clock) (ms 350))).
Definition test_clock_drain_returns_events_in_time_order : bool :=
  returns (let! clock := scheduled [(EvCustom "a", ms 500); (EvCustom "b", ms 1000); (EvCustom "c", ms 300)] in
    Return (assert_eq (map se_at (drain_until clock (ms 1000)).1) [ms 300; ms 500; ms 1000])).
Definition test_clock_schedule_periodic : bool :=
  returns (let! clock := periodic EvHeartbeat (ms 250) (ms 250) (ms 1000) in
    let events := (drain_until clock (ms 1000)).1 in
    Return (assert_eq (pending clock) 4%nat && assert_eq (length events) 4%nat &&
      assert_eq (se_at <$> events !! 0%nat) (Some (ms 250)) &&
      assert_eq (se_at <$> events !! 3%nat) (Some (ms 1000)))).
(** One turn of the test's loop: the heartbeats of the tick, and the clock after it. *)
Definition tick_50ms (clock : VirtualClock) (_ : unit) : outcome (VirtualClock * nat) :=
  let! next := duration_add (vc_now clock) (ms 50) in
  let '(events, clock) := drain_until clock next in
  let! clock := advance clock (ms 50) in
  Return (clock, length (List.filter (fun ev => assert_eq (se_kind ev) EvHeartbeat) events)).
Definition test_clock_fires_exactly_at_sub_tick_boundary : bool :=
  returns (let! clock := periodic EvHeartbeat (ms 1000) (ms 1000) (ms 10000) in
    let! (_, counts) := replay_or_panic tick_50ms clock (replicate 20 tt) in
    Return (assert_eq (fold_left Nat.add counts 0%nat) 1%nat)).
Definition test_clock_drain_does_not_advance_now : bool :=
  returns (let! clock := scheduled [(EvCustom "x", ms 100)] in
    Return (assert_eq (vc_now (drain_until clock (ms 200)).2) 0)).
Definition test_clock_same_time_order_by_id : bool :=
  returns (let! clock := scheduled [(EvCustom "first", ms 500); (EvCustom "second", ms 500); (EvCustom "third", ms 500)] in
    match map se_id (drain_until clock (ms 500)).1 with
    | [a; b; c] => Return ((a <? b) && (b <? c))
    | _ => Return false
    end).
Definition tests : list bool :=
  [test_clock_advances_monotonically; test_clock_drain_returns_events_in_time_order;
   test_clock_schedule_periodic; test_clock_fires_exactly_at_sub_tick_boundary;
   test_clock_drain_does_not_advance_now; test_clock_same_time_order_by_id].
End SimClockTests.

(** ** src/sim/clock_adapter.rs *)

Module ClockAdapterTests.
(** A handle reads the clock it shares when it is asked. *)
Definition advanced (d : Z) : outcome VirtualClockHandle :=
  let! clock := advance VirtualClock_new d in Return (VirtualClockHandle_new clock).
Definition test_virtual_clock_handle_reflects_advance : bool :=
  returns (let! h := advanced (duration_from_secs 5) in
    Return (assert_eq (as_duration_since_start (clock_now (VirtualClockHandle_new VirtualClock_new))) 0 &&
      assert_eq (as_duration_since_start (clock_now h)) (duration_from_secs 5))).
Definition test_virtual_clock_handle_shared_arc : bool :=
  returns (let! h1 := advanced (ms 500) in
    let! h2 := advanced (ms 500) in
    Return (assert_eq (as_duration_since_start (clock_now h1)) (as_duration_since_start (clock_now h2)) &&
      assert_eq (as_duration_since_start (clock_now h1)) (ms 500))).
(** The wall clock, 12345, is not read. *)
Definition test_virtual_clock_handle_now_system_is_deterministic : bool :=
  returns (let! h := advanced (duration_from_secs 10) in
    let! t := clock_now_system 12345 h in
    Return (assert_eq t (duration_from_secs 10))).
Definition test_virtual_clock_handle_elapsed_since : bool :=
  returns (let t0 := clock_now (VirtualClockHandle_new VirtualClock_new) in
    let! h := advanced (duration_from_secs 3) in
    Return (assert_eq (elapsed_since h t0) (duration_from_secs 3))).
Definition tests : list bool :=
  [test_virtual_clock_handle_reflects_advance; test_virtual_clock_handle_shared_arc;
   test_virtual_clock_handle_now_system_is_deterministic; test_virtual_clock_handle_elapsed_since].
End ClockAdapterTests.

(** ** src/sim/expr.rs *)

Module ExprTests.
(** A call of a built-in on a bound value. *)
Definition call (name : string) (v : EValue) : option EValue :=
  f ← hm_get builtins name; match f v with Ok r => Some r | Err _ => None end.
Definition call_near (name : string) (x expected eps : f64) : bool :=
  match call name (EFloat x) with Some (EFloat y) => assert_near y expected eps | _ => false end.
Definition throughput (phase : string) : f64 :=
  compute_phase_throughput phase "opencl" f_zero #1 #1 f_zero
    (f64_lit 185 10) (f64_lit 42 10) #22 #145.
Definition eps9 : f64 := f64_lit 1 1000000000.
Definition eps6 : f64 := f64_lit 1 1000000.

Definition test_throttle_factor_builtin : bool := call_near "throttle_factor" f_zero #1 eps9.
Definition test_throttle_factor_reduces_with_delay : bool :=
  call_near "throttle_factor" #100 (f64_div #1 #11) eps6.
Definition test_skip_boost_builtin : bool := call_near "skip_boost" (f64_lit 5 10) (f64_lit 14 10) eps9.
Definition test_merge_overhead_builtin : bool := call_near "merge_overhead" (f64_lit 5 10) (f64_lit 15 100) eps9.
Definition test_phase_throughput_idle : bool := assert_feq (throughput "idle") f_zero.
Definition test_phase_throughput_decode_gpu : bool := assert_near (throughput "decode") (f64_lit 185 10) eps6.
Definition test_dtype_from_bits_builtin : bool :=
  match call "dtype_from_bits" (EFloat #4) with Some (EString s) => assert_eq s "q4" | _ => false end.
Definition tests : list bool :=
  [test_throttle_factor_builtin; test_throttle_factor_reduces_with_delay; test_skip_boost_builtin;
   test_merge_overhead_builtin; test_phase_throughput_idle; test_phase_throughput_decode_gpu;
   test_dtype_from_bits_builtin].
End ExprTests.

(** ** src/sim/config.rs, src/sim/state.rs, src/sim/compose.rs *)

Module SimConfigTests.
Definition parses (s : string) (n : Z) : bool :=
  match parse_byte_string s with Ok m => m =? n | Err _ => false end.
Definition test_parse_byte_string_gib : bool := parses "2 GiB" (2 * 1024 * 1024 * 1024).
Definition test_parse_byte_string_mib : bool := parses "512 MiB" (512 * 1024 * 1024).
Definition test_parse_byte_string_int : bool := parses "1073741824" 1073741824.
Definition test_parse_byte_string_invalid_unit : bool :=
  match parse_byte_string "5 PB" with Err _ => true | Ok _ => false end.
Definition test_deep_merge_basic : bool :=
  match deep_merge (DemoNode None (Some (DemoLeaf "1")) (Some (DemoLeaf "2")))
                   (DemoNode None None (Some (DemoLeaf "99"))) with
  | DemoNode None (Some (DemoLeaf a)) (Some (DemoLeaf b)) => assert_eq a "1" && assert_eq b "99"
  | _ => false
  end.
Definition tests : list bool :=
  [test_parse_byte_string_gib; test_parse_byte_string_mib; test_parse_byte_string_int;
   test_parse_byte_string_invalid_unit; test_deep_merge_basic].
End SimConfigTests.

Module StateTests.
Definition make_test_initial_state : InitialState := {|
  i_kv_cache_bytes := 0; i_kv_cache_capacity_bytes := 4 * 1024 * 1024 * 1024; i_kv_cache_tokens := 0;
  i_kv_cache_token_capacity := 2048; i_kv_dtype := "f16"; i_device_memory_total_mb := 8192;
  i_device_memory_used_mb := 3500; i_memory_bw_utilization_pct := #20;
  i_engine_cpu_pct := #30; i_external_cpu_pct := #15; i_cpu_freq_mhz := 2400;
  i_cpu_max_freq_mhz := 3200; i_cpu_min_freq_mhz := 400; i_engine_gpu_pct := #65;
  i_external_gpu_pct := #5; i_gpu_freq_mhz := 810; i_gpu_max_freq_mhz := 1100;
  i_gpu_min_freq_mhz := 300; i_thermal_c := #42; i_cpu_cluster_thermal_c := #44;
  i_gpu_cluster_thermal_c := #48; i_throttle_threshold_c := #85; i_phase := "idle";
  i_base_tps_decode_gpu := f64_lit 185 10; i_base_tps_decode_cpu := f64_lit 42 10;
  i_base_tps_decode_partition := #22; i_base_tps_prefill_gpu := #145;
  i_active_device := "opencl"; i_active_actions := []; i_partition_ratio := f_zero;
  i_throttle_delay_ms := f_zero; i_tbt_target_ms := f_zero |}.
Definition test_bits_to_dtype : bool :=
  assert_eq (map bits_to_dtype [4; 8; 16; 32]) ["q4"; "q8"; "f16"; "f32"].
Definition test_apply_directive_restore_defaults : bool :=
  let engine := EngineStateModel_from_config make_test_initial_state in
  let engine := apply_command engine (KvCompress (f32_lit 5 10)) in
  let ratio := last_evict_ratio engine in
  let engine := apply_command engine RestoreDefaults in
  match ratio with Some r => assert_feq r (f64_lit 5 10) | None => false end && assert_eq (active_actions engine) [] &&
  is_none (last_evict_ratio engine) && assert_feq (throttle_delay_ms engine) f_zero.
Definition tests : list bool := [test_bits_to_dtype; test_apply_directive_restore_defaults].
End StateTests.

Module ComposeTests.
Definition test_collect_effect_multiply : bool :=
  let effects := collect_effect [] "cpu_pct" OpMultiply (f64_lit 8 10) in
  let effects := collect_effect effects "cpu_pct" OpMultiply (f64_lit 9 10) in
  match hm_get effects "cpu_pct" with
  | Some (_, vals) => assert_near (f64_product vals) (f64_lit 72 100) (f64_lit 1 1000000000)
  | None => false
  end.
Definition tests : list bool := [test_collect_effect_multiply].
End ComposeTests.

(** ** src/sim/physics.rs, src/sim/noise.rs *)

Module PhysicsTests.
(** The exponential is not asked for when the time constant is zero. *)
Definition test_lag_step_zero_tau_is_instant `{Libm} : bool :=
  assert_feq (lag_step f_zero #100 f_zero #1) #100.
Definition dvfs (thermal_c : f64) : outcome f64 :=
  dvfs_target_freq thermal_c #78 #95 (f64_lit 8 100) #400 #3200.
Definition test_dvfs_target_below_soft : bool :=
  returns (let! t := dvfs #60 in Return (assert_feq t #3200)).
Definition test_dvfs_target_above_hard : bool :=
  returns (let! t := dvfs #100 in Return (assert_feq t #400)).
Definition test_dvfs_target_in_range : bool :=
  returns (let! t := dvfs (f64_lit 865 10) in Return (SFltb #400 t && SFltb t #3200)).
Definition tests `{Libm} : list bool :=
  [test_lag_step_zero_tau_is_instant; test_dvfs_target_below_soft; test_dvfs_target_above_hard;
   test_dvfs_target_in_range].
End PhysicsTests.

Module NoiseTests.
Section AnyGenerator.
Context `{Rng} `{LogCos}.
Definition test_noise_disabled_returns_zero_sigma_equivalent : bool :=
  match draws 1 (NoiseRng_new 99) (replicate 10 ("any", f_zero)) with
  | Some (samples, _) => forallb (assert_feq f_zero) samples
  | None => false
  end.
Definition test_derive_stream_seed_different_keys : bool :=
  negb (derive_stream_seed 42 "key_a" =? derive_stream_seed 42 "key_b").
Definition test_derive_stream_seed_different_masters : bool :=
  negb (derive_stream_seed 1 "same_key" =? derive_stream_seed 2 "same_key").
Definition tests : list bool :=
  [test_noise_disabled_returns_zero_sigma_equivalent; test_derive_stream_seed_different_keys;
   test_derive_stream_seed_different_masters].
End AnyGenerator.
End NoiseTests.

(** ** src/sim/signal.rs *)

Module SimSignalTests.
Section AnyGenerator.
Context `{Rng} `{LogCos}.

(** tests/fixtures/sim/baseline.yaml, without its expressions: [SimPhysics]'s demo
    scenario with the file's initial state, frequency scaling and observation. *)
Definition source (period : f64) (noise : HashMap NoiseSpec) : SignalSourceConfig :=
  {| sig_source := "os_probe"; poll_interval_s := period; sig_noise := noise |}.
Definition load_baseline : ScenarioConfig := {|
  sc_extends := None;
  sc_initial_state := StateTests.make_test_initial_state;
  sc_actions := sc_actions demo_scenario;
  sc_composition := sc_composition demo_scenario;
  sc_interactions := sc_interactions demo_scenario;
  sc_passive_dynamics := sc_passive_dynamics demo_scenario;
  sc_dvfs := {|
    dvfs_cpu := {| soft_threshold_c := #78; hard_threshold_c := #95; k_thermal := f64_lit 8 100; dvfs_tau_s := f64_lit 2 10 |};
    dvfs_gpu := {| soft_threshold_c := #72; hard_threshold_c := #90; k_thermal := f64_lit 10 100; dvfs_tau_s := f64_lit 3 10 |} |};
  sc_derived := sc_derived demo_scenario;
  sc_external_injections := sc_external_injections demo_scenario;
  sc_observation := {|
    heartbeat := {| interval_s := #1; hb_noise := [] |};
    signals := {| obs_memory := source (f64_lit 5 10) []; obs_compute := source (f64_lit 25 100) [];
                  obs_thermal := source #1 []; obs_energy := source #2 [] |} |};
  sc_rng_seed := None |}.
Definition cfg : ScenarioConfig := load_baseline.
Definition initial : PhysicalState := PhysicalState_from_config (sc_initial_state cfg).
Definition seeded (cfg : ScenarioConfig) (seed : option Z) : ScenarioConfig := {|
  sc_extends := sc_extends cfg; sc_initial_state := sc_initial_state cfg; sc_actions := sc_actions cfg;
  sc_composition := sc_composition cfg; sc_interactions := sc_interactions cfg;
  sc_passive_dynamics := sc_passive_dynamics cfg; sc_dvfs := sc_dvfs cfg; sc_derived := sc_derived cfg;
  sc_external_injections := sc_external_injections cfg; sc_observation := sc_observation cfg;
  sc_rng_seed := seed |}.

(** src/sim/noise.rs, on the same file. *)
Definition test_maybe_create_with_seed : bool :=
  is_none (maybe_create (seeded cfg None)) && is_some (maybe_create (seeded cfg (Some 42))).

Definition test_derive_memory_signal_maps_level_correctly : bool :=
  let state := assign initial F_device_memory_total_mb #8192 in
  let state := assign state F_device_memory_used_mb (f64_mul #8192 (f64_lit 90 100)) in
  match derive_memory_signal FUEL true state cfg None with
  | Some (Return (MemoryPressure level _ _ _), _) => level_leb Critical level
  | _ => false
  end.
Definition test_derive_thermal_signal_reports_throttling : bool :=
  let state := assign (assign initial F_thermal_c #80) F_cpu_freq_mhz #2400 in
  match derive_thermal_signal FUEL state cfg None with
  | Some (ThermalAlert level _ throttling_active _, _) => throttling_active && assert_eq level Critical
  | _ => false
  end.
Definition test_derive_compute_recommends_cpu_under_high_gpu_temp : bool :=
  let state := assign initial F_gpu_cluster_thermal_c #85 in
  let state := assign (assign state F_engine_gpu_pct #30) F_engine_cpu_pct #30 in
  match derive_compute_signal FUEL state cfg None with
  | Some (ComputeGuidance _ recommended_backend _ _ _, _) => assert_eq recommended_backend BackendCpu
  | _ => false
  end.
(** [x.round() as usize], for small positive [x]. *)
Definition round_as_usize (x : f64) : Z := f_to_u64 (f64_add x (f64_lit 5 10)).
(** The comment says every 0.25 s and 4 times; the file says 0.5 s, and the test reads it. *)
Definition test_signal_polling_cadence_respects_config : bool :=
  let poll_s := poll_interval_s (obs_memory (SimConfig.signals (sc_observation cfg))) in
  let run_duration := duration_from_secs 1 in
  returns (let! period := duration_from_secs_f64 poll_s in
    let! clock := SimClockTests.periodic EvSignalMemory period period run_duration in
    let events := (drain_until clock run_duration).1 in
    let count := length (List.filter (fun e => assert_eq (se_kind e) EvSignalMemory) events) in
    let expected := round_as_usize (f64_div (duration_as_secs_f64 run_duration) poll_s) in
    Return (Z.of_nat count =? expected)).
Definition tests : list bool :=
  [test_maybe_create_with_seed; test_derive_memory_signal_maps_level_correctly;
   test_derive_thermal_signal_reports_throttling; test_derive_compute_recommends_cpu_under_high_gpu_temp;
   test_signal_polling_cadence_respects_config].
End AnyGenerator.
End SimSignalTests.

Definition sim_tests `{Libm} `{Rng} `{LogCos} : list bool :=
  SimClockTests.tests ++ ClockAdapterTests.tests ++ ExprTests.tests ++ SimConfigTests.tests ++
  StateTests.tests ++ ComposeTests.tests ++ PhysicsTests.tests ++ NoiseTests.tests ++ SimSignalTests.tests.

(** The simulator passes its tests, whatever the mathematical functions and the random
    generator. *)
Theorem sim_tests_pass `{Libm} `{Rng} `{LogCos} : forallb id sim_tests = true.
Proof. vm_compute. reflexivity. Qed.
