(* ===== verification/TestsMock.v ===== *)
(** * TestsMock: the unit tests of the two test tools, run on the model
    (the [#[cfg(test)]] modules of src/bin/mock_engine.rs and src/bin/mock_manager.rs)

    A socket is the bytes written to it followed by timeouts, and the JSON is
    [MockEngine.coded_json]; a test that waits reads a clock that goes past its deadline.
    Left out is the test of the scenario files' JSON. *)

From Stdlib Require Import ZArith Lia SpecFloat String.
From stdpp Require Import base tactics numbers countable list strings.
From S2P Require Import Prelude Float Signal Wire Channel MockWire MockEngine MockManager TestsCore TestsChannel.
Local Open Scope string_scope.
Local Open Scope list_scope.
Local Open Scope Z_scope.
#[local] Existing Instance coded_json.
#[local] Existing Instance coded_engine_json.

(** Both ends: what arrives from a message written, and from nothing. *)
Definition wire (json : option bytes) : list Answer :=
  match send_message (io_with WouldBlock true) json with Some b => [Bytes b] | None => [] end.
Definition silent : list Answer := [TimedOut].
(** [(x - y).abs() < eps] on [f32]. *)
Definition assert_near32 (x y eps : f32) : bool := SFltb (SFabs (f32_sub x y)) eps.
(** [recv_message(..).unwrap()] *)
Definition received {M} (parse : bytes -> option M) (s : list Answer) : option (option M) :=
  match (recv_message parse s).1 with Ok m => Some m | Err _ => None end.
Definition returns_none {M} (parse : bytes -> option M) (s : list Answer) : bool :=
  match received parse s with Some None => true | _ => false end.
Definition one_command (seq : Z) (cmd : EngineCommand) : EngineDirective :=
  {| seq_id := seq; commands := [cmd] |}.

(** ** src/bin/mock_engine.rs *)

Module EngineTests.
Definition heartbeat_round_trips_over_the_socket : bool :=
  match received message_of_json (wire (json_of_engine make_heartbeat)) with
  | Some (Some (Heartbeat s)) => (kv_cache_bytes s =? 1024) && (kv_cache_budget_bytes s =? 4096)
  | _ => false
  end.
Definition recv_message_returns_none_on_timeout : bool := returns_none directive_of_json silent.
Definition recv_message_parses_directive : bool :=
  match received directive_of_json (wire (json_of_message (Directive (one_command 7 (KvCompress (f32_lit 5 10)))))) with
  | Some (Some (Directive d)) => (seq_id d =? 7) && Nat.eqb (length (commands d)) 1
  | _ => false
  end.
Definition apply_kv_evict_clamps_to_minimum : bool :=
  let s := (apply (EngineState_new (f32_lit 1 100) "cpu") (KvCompress (f32_lit 5 10))).1 in
  SFleb (f32_lit 1 100) (kv_occupancy s).
Definition tiny_compression_is_declined_as_partial : bool :=
  let s := EngineState_new (f32_lit 8 10) "opencl" in
  let '(s', result) := apply s (KvCompress (f32_lit 99 100)) in
  match result with ResultPartial _ _ => assert_feq (kv_occupancy s') (kv_occupancy s) | _ => false end.
Definition compression_shrinks_the_cache : bool :=
  let '(s, result) := apply (EngineState_new (f32_lit 8 10) "opencl") (KvCompress (f32_lit 5 10)) in
  assert_eq result ResultOk && assert_near32 (kv_occupancy s) (f32_lit 4 10) (f32_lit 1 1000000).
Definition apply_suspend_changes_state : bool :=
  let s := (apply (EngineState_new (f32_lit 5 10) "cpu") Suspend).1 in
  assert_eq (me_state s) EngineSuspended && assert_eq (me_state (apply s Resume).1) EngineRunning.
Definition handle_directive_sends_response_with_matching_seq_id : bool :=
  match handle_directive true (io_with WouldBlock true) (one_command 42 (KvCompress (f32_lit 5 10)))
          (EngineState_new (f32_lit 9 10) "opencl") 0 with
  | Return (engine, count, Some sent) =>
      match received message_of_json (wire (json_of_engine (Response sent))) with
      | Some (Some (Response resp)) =>
          (resp_seq_id resp =? 42) && assert_eq (results resp) [ResultOk] && (count =? 1) &&
          assert_near32 (kv_occupancy engine) (f32_lit 45 100) (f32_lit 1 100000)
      | _ => false
      end
  | _ => false
  end.
Definition handle_directive_increments_count : bool :=
  let d := {| seq_id := 1; commands := [] |} in
  match (let! (engine, count, _) := handle_directive true (io_with WouldBlock true) d (EngineState_new (f32_lit 5 10) "cpu") 0 in
         handle_directive true (io_with WouldBlock true) d engine count) with
  | Return (_, count, _) => count =? 2
  | Panic => false
  end.
Definition tests : list bool :=
  [heartbeat_round_trips_over_the_socket; recv_message_returns_none_on_timeout;
   recv_message_parses_directive; apply_kv_evict_clamps_to_minimum;
   tiny_compression_is_declined_as_partial; compression_shrinks_the_cache;
   apply_suspend_changes_state; handle_directive_sends_response_with_matching_seq_id;
   handle_directive_increments_count].
End EngineTests.

(** ** src/bin/mock_manager.rs *)

Module ManagerTests.
Definition params (name : string) : CommandParams :=
  {| p_name := name; p_keep_ratio := None; p_every := None; p_on := None |}.
Definition builds (p : CommandParams) (cmd : EngineCommand) : bool :=
  match build_command p with Ok c => assert_eq c cmd | Err _ => false end.
Definition refuses (p : CommandParams) : bool :=
  match build_command p with Ok _ => false | Err _ => true end.
Definition build_command_covers_the_contract : bool :=
  match build_command {| p_name := "KvCompress"; p_keep_ratio := Some (f32_lit 7 10); p_every := None; p_on := None |} with
  | Ok (KvCompress budget) => assert_near32 budget (f32_lit 7 10) (f32_lit 1 (2 ^ 23))
  | _ => false
  end &&
  forallb (fun '(name, want) => builds (params name) want)
    [("RestoreDefaults", RestoreDefaults); ("Suspend", Suspend); ("Resume", Resume)] &&
  builds {| p_name := "GpuYield"; p_keep_ratio := None; p_every := Some 4; p_on := None |} (GpuYield 4) &&
  forallb (fun on =>
      builds {| p_name := "GpuOffload"; p_keep_ratio := None; p_every := None; p_on := Some on |} (GpuOffload on))
    [true; false] &&
  refuses (params "GpuOffload") && refuses (params "KvEvictH2o").

(** [engine_send], as the answers of the manager's stream. *)
Definition engine_send (msg : EngineMessage) : list Answer := wire (json_of_engine msg).
Definition make_heartbeat_status : EngineStatus := heartbeat.
Definition response (seq : Z) (n : nat) : CommandResponse := {| resp_seq_id := seq; results := replicate n ResultOk |}.

Definition send_message_writes_length_prefixed_json : bool :=
  match received directive_of_json (wire (json_of_message (Directive (one_command 1 Suspend)))) with
  | Some (Some (Directive d)) => (seq_id d =? 1) && assert_eq (commands d !! 0%nat) (Some Suspend)
  | _ => false
  end.
Definition recv_message_returns_none_on_timeout : bool := returns_none message_of_json silent.
Definition recv_message_parses_engine_message : bool :=
  assert_eq (received message_of_json (engine_send make_heartbeat)) (Some (Some make_heartbeat)).

(** A run of the tool on a stream, reading the clock at the given times. *)
Definition world (stream : list Answer) (clock : list Z) : World :=
  {| w_stream := stream; w_clock := clock; w_writes := []; w_sent := []; w_log := [] |}.
Definition valid_response (seq : Z) (resp : CommandResponse) (n : nat) : bool :=
  match validate_response seq resp n (world [] []) with Some (Ok b, _) => b | _ => false end.
Definition validate_response_ok : bool := valid_response 1 (response 1 1) 1.
Definition validate_response_seq_id_mismatch : bool := negb (valid_response 1 (response 2 1) 1).
Definition validate_response_results_count_mismatch : bool := negb (valid_response 1 (response 1 2) 1).

(** Both directions of one stream. *)
Definition send_recv_over_tcp_stream : bool :=
  assert_eq (received message_of_json (engine_send make_heartbeat)) (Some (Some make_heartbeat)) &&
  match received directive_of_json (wire (json_of_message (Directive (one_command 42 Resume)))) with
  | Some (Some (Directive d)) => (seq_id d =? 42) && assert_eq (commands d !! 0%nat) (Some Resume)
  | _ => false
  end.
Definition recv_message_tcp_returns_none_on_timeout : bool := returns_none message_of_json silent.

(** [recv_response_skip_heartbeats(..).unwrap()], a reading of the clock each 50 ms. *)
Definition waits (stream : list Answer) (timeout : Z) : option (option CommandResponse) :=
  let clock := map (fun n => Z.of_nat n * 50000000) (seq 0 60) in
  match recv_response_skip_heartbeats 50 timeout (world stream clock) with
  | Some (Ok r, _) => Some r
  | _ => None
  end.
Definition gets (r : option (option CommandResponse)) (seq : Z) (n : nat) : bool :=
  match r with
  | Some (Some resp) => (resp_seq_id resp =? seq) && Nat.eqb (length (results resp)) n
  | _ => false
  end.
Definition recv_response_skip_heartbeats_skips_heartbeats : bool :=
  gets (waits (engine_send (Heartbeat make_heartbeat_status) ++ engine_send (Heartbeat make_heartbeat_status) ++
               engine_send (Response (response 1 1))) 2000000000) 1 1.
Definition recv_response_skip_heartbeats_returns_none_on_timeout : bool :=
  match waits (engine_send (Heartbeat make_heartbeat_status) ++ replicate 60 TimedOut) 200000000 with
  | Some None => true
  | _ => false
  end.
Definition recv_response_skip_heartbeats_immediate_response : bool :=
  gets (waits (engine_send (Response (response 42 2))) 2000000000) 42 2.
Definition tests : list bool :=
  [build_command_covers_the_contract; send_message_writes_length_prefixed_json;
   recv_message_returns_none_on_timeout; recv_message_parses_engine_message; validate_response_ok;
   validate_response_seq_id_mismatch; validate_response_results_count_mismatch;
   send_recv_over_tcp_stream; recv_message_tcp_returns_none_on_timeout;
   recv_response_skip_heartbeats_skips_heartbeats;
   recv_response_skip_heartbeats_returns_none_on_timeout;
   recv_response_skip_heartbeats_immediate_response].
End ManagerTests.

(** The tools pass their tests. *)
Theorem mock_tests_pass : forallb id (EngineTests.tests ++ ManagerTests.tests) = true.
Proof. vm_compute. reflexivity. Qed.
